(* ===== verification/_CoqProject ===== *)
-Q . S2P
Prelude.v
Param.v
Mmu.v
Mem.v
Kalloc.v
Sync.v
Disk.v
Ring.v
Bio.v
Fsh.v
Log.v
Fs.v
FsPath.v
Icache.v
Txn.v
FsBlocks.v
Pipe.v
File.v
Vm.v
VmTree.v
Proc.v
ProcTable.v
Ulib.v
Umalloc.v
Grep.v
Sh.v
ShPrint.v
Exec.v
Syscall.v
Descr.v
Kbd.v
Console.v
Ide.v
Mkfs.v
FsData.v
FsImage.v
Boot.v
Mp.v
Traps.v
Apic.v
Cmos.v
Main.v
Uprogs.v
Udemo.v
