(* ===== verification/Prelude.v ===== *)
(** * A verification of the xv6-64 port in Rust

    The repository is an operating system in the manner of xv6 for x86-64: a
    boot loader, a kernel made of crates under src/crates with its entry in
    src/kernel, user programs under src/user over a user library, and mkfs, the
    program that makes the disk image. This development translates these
    programs into functions of Rocq and proves what makes them correct. This
    file is its root; it also holds what the others share.

    ** How the code is translated

    Integers are [Z] at the width of the code. The kernel and the boot loader
    are built in the debug profile, so their arithmetic is checked ([chk_u32]
    and the like panic on overflow) unless the code asks for wrapping; user
    programs and mkfs are built in the release profile and wrap ([as_u32]).
    Code that changes state is a function in the monad [M S A] over the state
    [S] of its component, with [Panic] for [panic!], failed checks and indices
    out of range, and [Blocked] or a result such as [PSleep] for a call that
    puts its caller to sleep; it is called again when the process is woken.
    [zoom] runs a component on its part of a larger state. [wp m s Q] says that
    [m] returns from [s] and its result satisfies [Q]: it is total, and no
    theorem that claims a result is satisfied by a panic or by the end of the
    fuel. [wlp] is the partial version, used for invariants of step relations.

    Pointers to kernel objects are indices into the tables that hold them;
    pages, user memory, the descriptor table and the firmware tables are bytes
    of memory ([Mem]). [wakeup] calls of a component are recorded in its state
    and delivered to the process table by the function that called it.

    ** Parts, files and sources

    - Machine: [Param] (crates/param, crates/types), [Mmu] (arch/mmu.rs,
      mm/memlayout.rs), [Mem].
    - Memory: [Kalloc] (mm/kalloc.rs), [Vm] (arch/vm.rs) and [VmTree], the page
      tables as a map.
    - Locks: [Sync] (kernel/glue.rs, crates/sync).
    - Disk: [Disk] (fs/buf.rs, drivers/memide.rs) with the class [BlockDev] of
      block devices; [Ide] (drivers/ide.rs), an instance of it for any disk of
      the class [Ata].
    - File system: [Ring] and [Bio] (fs/bio.rs), [Fsh] (fs/fsh.rs), [Log]
      (fs/log.rs), [Fs] (fs/fs.rs); over them [Txn], the blocks as an operation
      inside a transaction sees them, [FsBlocks] (the allocator), [Icache] (the
      inode cache), [FsPath] (names), [FsData] (contents of files and
      directories). [Mkfs] (mkfs/main.rs) makes images and [FsImage] reads them
      with the kernel.
    - Files: [Pipe] (fs/pipe.rs), [File] (fs/file.rs).
    - Processes: [Proc] (proc/proc.rs, proch.rs), [ProcTable] (their
      invariants), [Exec] (proc/exec.rs, arch/elf.rs), [Syscall]
      (crates/syscall), [Descr] (the descriptors of all processes together).
    - Interrupts: [Traps] (arch/traps.rs), [Apic] (arch/lapic.rs, ioapic.rs),
      [Cmos] (the clock of lapic.rs), [Mp] (arch/mp.rs), [Kbd] (drivers/kbd.rs), [Console] (crates/console,
      drivers/uart.rs and the device functions of glue.rs).
    - Boot: [Boot] (crates/bootblock, of which the build uses the C version),
      [Main] (kernel/main.rs and the functions of glue.rs that only boot calls).
    - User side: [Ulib] and [Umalloc] (crates/ulib), [Grep], [Sh] and [ShPrint]
      (user/src/grep.rs, sh.rs), [Uprogs] (cat, echo, wc, ls, rm, mkdir, ln,
      kill, init), [Udemo] (forktest, zombie, stressfs).

    Each definition has the name of the function or type it translates; the
    loops of a function are separate definitions named after it.

    ** How the parts interact

    The log is written over the buffer cache and the cache over any
    [BlockDev]; the file system runs in the log's transactions; files, pipes
    and the page allocator are the state [kst] of [File]; the process table
    wraps it as [pst], and system calls, [exec] and traps run over [pst]. [Main] runs the initialisation of all of
    them over the product of their states, with one memory. The
    theorems follow the same order: [Bio] shows that the cache implements a
    map of blocks, [Log] and [Txn] use only that map, [FsData] uses only [Txn],
    and [FsImage] joins it with what [Mkfs] proves of the image. [Ata], [Source]
    (a source of console input) and [Files] (what system calls mean for a user
    program) are classes in the same way, each with an instance.

    ** What the theorems show

    - Durability: a crash at any block write of a commit leaves all or nothing
      of a transaction; the log space suffices for the operations admitted,
      though not with the log mkfs makes.
    - The disk path: the IDE driver is a queue of requests and each completes;
      the buffer cache implements a map of blocks with pinned and held ones.
    - Contents: reading and writing of inodes, directory lookup, block
      allocation, the image mkfs makes, and that the kernel reads from it the
      files mkfs was given.
    - Memory: pages and heap blocks are never handed out twice; page tables map
      exactly what was asked for; user pointers are checked.
    - Processes: the invariant of the process table from boot on, the fairness
      of the scheduler, references of open files counted exactly, programs
      loaded or the old one kept.
    - Communication and devices: pipes as bounded queues without lost wakeups,
      the line discipline and the screen of the console, the keyboard, the
      dispatch of interrupts with the processes they wake, the routing of
      interrupt lines, the processors found in the firmware tables, the clock,
      which is never read torn, and the number of bytes after which a pipe
      cannot be written any more.
    - Boot: the loading of the kernel, the initialisation of all components on
      the boot processor, and the first process.
    - User programs: the matcher of grep, the shell's parser and pipelines, the
      allocator, cat, echo, wc, ls, rm and forktest.
    - Where the code does not do what it means to, a theorem says what it does
      instead: [sched] panics on every call, [exec] misreads ELF headers, the
      user library's system calls fault, six of them have no handler, the log of
      mkfs is too short, and [main] stops at a null pointer before it starts the
      other processors.

    ** Fuel

    Loops that are not structural take a number of iterations. It is computed
    from the state so that it suffices, and the theorems prove that it does:
    the length of the list or ring walked ([Bio], [Ide], [Umalloc]), the size
    of the range divided by the step ([Fs], [Vm], [Boot], [Mkfs], [Mp]), the
    bytes of input ([Grep], [Sh], [Console]), the reads for which a device
    stays busy ([Ide], [Boot], [Apic]). The programs of [Uprogs] read until
    the end of a file, whose length bounds their fuel in the theorems; the
    rounds of [Cmos] are bounded by the reads until the clock is quiet.

    ** Parameters

    The disk behind the ports, the other block devices, the device switch, what
    the processor reads and writes at user addresses, the linker symbols, the
    entry points of vectors.S, the tick counter of the system calls, the
    registers of the clock at each read and what the other processors store at
    boot are parameters. Their assumptions are the laws of the classes above or named
    hypotheses, with an instance or a concrete value in the witness of each
    theorem.

    ** Not modelled

    The assembly files and the wrappers of single instructions
    (arch/registers.rs); the context switch, at which the functions of [Proc]
    end; the formatting of core, of which only the resulting bytes appear; the
    modules of crates/ulib that are not compiled; the test program usertests;
    procdump, which only prints. Several processors running at once are not
    modelled: a kernel function runs to its end or to its sleep, as the
    no-op locks of the source require. *)

From stdpp Require Export base numbers list list_numbers gmap strings functions fin_maps.
From Stdlib Require Export ZArith Lia.

#[global] Open Scope Z_scope.

Declare Scope kern_scope.
Delimit Scope kern_scope with kern.
#[global] Open Scope kern_scope.

(** ** Fixed-width integers *)

Definition u8_max : Z := 256.
Definition u16_max : Z := 65536.
Definition u32_max : Z := 4294967296.
Definition u64_max : Z := 18446744073709551616.
Definition i32_lo : Z := -2147483648.
Definition i32_hi : Z := 2147483648.

(** Truncating casts [x as uN] and sign-reinterpreting casts [x as iN]. *)
Definition as_u8 (x : Z) : Z := x mod u8_max.
Definition as_u16 (x : Z) : Z := x mod u16_max.
Definition as_u32 (x : Z) : Z := x mod u32_max.
Definition as_u64 (x : Z) : Z := x mod u64_max.
Definition as_i16 (x : Z) : Z :=
  let y := x mod 65536 in if y <? 32768 then y else y - 65536.
Definition as_i32 (x : Z) : Z :=
  let y := x mod u32_max in if y <? i32_hi then y else y - u32_max.

(** ** Outcomes

    [Ok] is a normal return, [Panic] is [panic!] (or a checked arithmetic or
    index failure, which panic in the kernel's build profile), [Blocked] is a
    call that would put the caller to sleep in the state it is in, and
    [NoFuel] is a loop whose iteration bound was too small: no theorem of the
    development that claims a result is satisfied by it. *)
Inductive outcome (A : Type) : Type :=
| Ok (a : A)
| Panic (msg : string)
| Blocked
| NoFuel.
Arguments Ok {A} _.
Arguments Panic {A} _.
Arguments Blocked {A}.
Arguments NoFuel {A}.

Definition M (S A : Type) : Type := S → outcome (A * S).

Definition ret {S A} (a : A) : M S A := λ s, Ok (a, s).
Definition bind {S A B} (m : M S A) (k : A → M S B) : M S B := λ s,
  match m s with
  | Ok (a, s') => k a s'
  | Panic e => Panic e
  | Blocked => Blocked
  | NoFuel => NoFuel
  end.
Definition panic {S A} (msg : string) : M S A := λ _, Panic msg.
Definition blocked {S A} : M S A := λ _, Blocked.
Definition nofuel {S A} : M S A := λ _, NoFuel.
Definition get {S} : M S S := λ s, Ok (s, s).
Definition gets {S A} (f : S → A) : M S A := λ s, Ok (f s, s).
Definition put {S} (s : S) : M S unit := λ _, Ok (tt, s).
Definition modify {S} (f : S → S) : M S unit := λ s, Ok (tt, f s).

Notation "'let*' x := m 'in' k" := (bind m (λ x, k))
  (at level 10, x name, m at level 100, k at level 200)
  : kern_scope.
Notation "'let*' ' p := m 'in' k" := (bind m (λ x, match x with p => k end))
  (at level 10, p pattern, m at level 100, k at level 200)
  : kern_scope.
Notation "m ';;;' k" := (bind m (λ _, k))
  (at level 199, k at level 200, right associativity) : kern_scope.

(** [a[i]] on a fixed-size array: out of range panics. *)
Definition expect {S A} (msg : string) (o : option A) : M S A :=
  match o with Some a => ret a | None => panic msg end.

Definition assert_ {S} (b : bool) (msg : string) : M S unit :=
  if b then ret tt else panic msg.

(** Checked arithmetic of the debug profile. *)
Definition chk_u32 {S} (x : Z) : M S Z :=
  if (0 <=? x) && (x <? u32_max) then ret x else panic "arithmetic overflow".
Definition chk_u64 {S} (x : Z) : M S Z :=
  if (0 <=? x) && (x <? u64_max) then ret x else panic "arithmetic overflow".
Definition chk_i32 {S} (x : Z) : M S Z :=
  if (i32_lo <=? x) && (x <? i32_hi) then ret x else panic "arithmetic overflow".

(** [for x in l { body }], every iteration running to its end. *)
Fixpoint forM {S A} (l : list A) (body : A → M S unit) : M S unit :=
  match l with
  | [] => ret tt
  | x :: l' => body x ;;; forM l' body
  end.

(** [for x in l { .. return r; .. }]: the first [Some r] ends the loop. *)
Fixpoint for_find {S A B} (l : list A) (body : A → M S (option B)) : M S (option B) :=
  match l with
  | [] => ret None
  | x :: l' =>
      let* r := body x in
      match r with Some b => ret (Some b) | None => for_find l' body end
  end.

(** [while], with the number of iterations bounded by [fuel]. *)
Fixpoint whileM {S A} (fuel : nat) (cond : A → S → bool) (body : A → M S A) (a : A)
  : M S A := λ s,
  if cond a s then
    match fuel with
    | O => NoFuel
    | S fuel' => bind (body a) (whileM fuel' cond body) s
    end
  else Ok (a, s).

(** Run a computation of a component on its part of a larger state. *)
Definition zoom {S T A} (view : T → S) (upd : S → T → T) (m : M S A) : M T A := λ t,
  match m (view t) with
  | Ok (a, s) => Ok (a, upd s t)
  | Panic e => Panic e
  | Blocked => Blocked
  | NoFuel => NoFuel
  end.

(** ** Total-correctness weakest precondition

    [wp m s Q]: from [s], [m] returns (no panic, no sleep, enough fuel), and
    the returned value and state satisfy [Q]. *)
Definition wp {S A} (m : M S A) (s : S) (Q : A → S → Prop) : Prop :=
  match m s with Ok (a, s') => Q a s' | _ => False end.

Section wp.
Context {S : Type}.
  Implicit Types s : S.

Lemma wp_ok {A} (m : M S A) s Q :
    wp m s Q ↔ ∃ a s', m s = Ok (a, s') ∧ Q a s'.
Proof.
    unfold wp. split.
    - intros HQ. destruct (m s) as [[a s']|e| |]; eauto; done.
    - intros (a & s' & -> & HQ). done.
Qed.

Lemma wp_eq {A} (m : M S A) s a s' (Q : A → S → Prop) : m s = Ok (a, s') → Q a s' → wp m s Q.
Proof. intros E H. unfold wp. by rewrite E. Qed.

Lemma wp_ret {A} (a : A) s (Q : A → S → Prop) : Q a s → wp (ret a) s Q.
Proof. done. Qed.

Lemma wp_modify f s (Q : unit → S → Prop) : Q tt (f s) → wp (modify f) s Q.
Proof. done. Qed.
Lemma wp_get s (Q : S → S → Prop) : Q s s → wp get s Q.
Proof. done. Qed.
Lemma wp_gets {A} (f : S → A) s (Q : A → S → Prop) : Q (f s) s → wp (gets f) s Q.
Proof. done. Qed.
Lemma wp_put s s' (Q : unit → S → Prop) : Q tt s' → wp (put s') s Q.
Proof. done. Qed.

Lemma wp_bind {A B} (m : M S A) (k : A → M S B) s Q :
    wp m s (λ a s', wp (k a) s' Q) → wp (bind m k) s Q.
Proof. unfold wp, bind. by destruct (m s) as [[]|e| |]. Qed.

Lemma wp_bind_inv {A B} (m : M S A) (k : A → M S B) s Q :
    wp (bind m k) s Q → wp m s (λ a s', wp (k a) s' Q).
Proof. unfold wp, bind. by destruct (m s) as [[]|e| |]. Qed.

Lemma wp_mono {A} (m : M S A) s (Q Q' : A → S → Prop) :
    wp m s Q → (∀ a s', Q a s' → Q' a s') → wp m s Q'.
Proof. unfold wp. destruct (m s) as [[]|e| |]; auto. Qed.

Lemma wp_det {A} (m : M S A) s (Q : A → S → Prop) a s' :
    wp m s Q → m s = Ok (a, s') → Q a s'.
Proof. unfold wp. intros H E. by rewrite E in H. Qed.

Lemma bind_ok {A B} (m : M S A) (k : A → M S B) s a s' :
    m s = Ok (a, s') → bind m k s = k a s'.
Proof. unfold bind. by intros ->. Qed.

Lemma bind_panic {A B} (m : M S A) (k : A → M S B) s e :
    m s = Panic e → bind m k s = Panic e.
Proof. unfold bind. by intros ->. Qed.

(** A first step that returns leaves any claim about the outcome to the rest. *)
Lemma bind_via {A B} (m : M S A) (k : A → M S B) s (P : outcome (B * S) → Prop) :
    wp m s (λ a s', P (k a s')) → P (bind m k s).
Proof. unfold wp, bind. by destruct (m s) as [[]|e'| |]. Qed.

Lemma bind_assoc {A B C} (m : M S A) (k : A → M S B) (h : B → M S C) s :
    bind (bind m k) h s = bind m (λ a, bind (k a) h) s.
Proof. unfold bind. by destruct (m s) as [[]|e| |]. Qed.

Lemma bind_Ok_inv {A B} (m : M S A) (k : A → M S B) s r :
    bind m k s = Ok r → ∃ a s', m s = Ok (a, s') ∧ k a s' = Ok r.
Proof. unfold bind. destruct (m s) as [[a s']|e| |]; naive_solver. Qed.

  (** Loop rule for [for]: an invariant indexed by the elements done. *)
Lemma wp_forM {A} (body : A → M S unit) (I : list A → S → Prop) :
    ∀ (todo done_ : list A) s,
      I done_ s →
      (∀ pre x post s, done_ ++ todo = pre ++ x :: post →
         (length done_ ≤ length pre)%nat → I pre s →
         wp (body x) s (λ _ s', I (pre ++ [x]) s')) →
      wp (forM todo body) s (λ _ s', I (done_ ++ todo) s').
Proof.
    induction todo as [|x todo IH]; intros dn s HI Hstep; simpl.
    - rewrite app_nil_r. by apply wp_ret.
    - apply wp_bind. eapply wp_mono; [apply (Hstep dn x todo); auto|].
      intros u s' HI'. specialize (IH (dn ++ [x]) s' HI').
      rewrite <- app_assoc in IH. apply IH.
      intros pre y post s'' Heq Hlen. apply (Hstep pre y post); [done|].
      rewrite length_app in Hlen. simpl in Hlen. lia.
Qed.

(** The same for [for i in 0..n], with the invariant over the counter. *)
Lemma wp_forM_seq (body : nat → M S unit) (I : nat → S → Prop) n s :
  I O s →
  (∀ j s, (j < n)%nat → I j s → wp (body j) s (λ _ s', I (Datatypes.S j) s')) →
  wp (forM (seq 0 n) body) s (λ _ s', I n s').
Proof.
  intros H0 Hs.
  cut (∀ m k s, (k + m = n)%nat → I k s → wp (forM (seq k m) body) s (λ _ s', I n s')).
  { intros H. by apply H. }
  induction m as [|m IH]; intros k s' Hk HI; simpl.
  - apply wp_ret. by replace n with k by lia.
  - apply wp_bind. eapply wp_mono; [apply Hs; [lia|done]|].
    intros u s'' HI'. apply IH; [lia|done].
Qed.

  (** Loop rule for [while]: an invariant and a decreasing measure; the fuel
      has to be at least the measure of the initial state. *)
Lemma wp_forM_seqZ (body : Z → M S unit) (I : Z → S → Prop) n s :
  0 ≤ n → I 0 s →
  (∀ j s, 0 ≤ j < n → I j s → wp (body j) s (λ _ s', I (j + 1) s')) →
  wp (forM (seqZ 0 n) body) s (λ _ s', I n s').
Proof.
  intros Hn H0 Hs.
  cut (∀ (m : nat) k s, k + Z.of_nat m = n → 0 ≤ k → I k s → wp (forM (seqZ k (Z.of_nat m)) body) s (λ _ s', I n s')).
  { intros H. rewrite <- (Z2Nat.id n) at 1 by done. apply H; [lia|done|done]. }
  induction m as [|m IH]; intros k s' Hk Hk0 HI.
  - apply wp_ret. by replace n with k by lia.
  - rewrite seqZ_cons by lia. cbn [forM]. apply wp_bind. eapply wp_mono; [apply Hs; [lia|done]|].
    intros u s'' HI'. replace (Z.pred (Z.of_nat (Datatypes.S m))) with (Z.of_nat m) by lia. apply IH; [lia|lia|done].
Qed.
Lemma for_find_skip {A B} (l1 l2 : list A) (body : A → M S (option B)) s :
  (∀ x, x ∈ l1 → body x s = Ok (None, s)) → for_find (l1 ++ l2) body s = for_find l2 body s.
Proof.
  induction l1 as [|x l1 IH]; intros H; [done|]. cbn [for_find app]. rewrite (bind_ok _ _ s None s) by (apply H; by left).
  apply IH. intros y Hy. apply H. by right.
Qed.

Lemma wp_whileM {A} (cond : A → S → bool) (body : A → M S A)
      (I : A → S → Prop) (m : A → S → nat) (Q : A → S → Prop) :
    (∀ a s, I a s → cond a s = true →
       wp (body a) s (λ a' s', I a' s' ∧ (m a' s' < m a s)%nat)) →
    (∀ a s, I a s → cond a s = false → Q a s) →
    ∀ fuel a s, I a s → (m a s ≤ fuel)%nat → wp (whileM fuel cond body a) s Q.
Proof.
    intros Hstep Hexit. induction fuel as [|fuel IH]; intros a s HI Hm.
    - unfold wp; simpl. destruct (cond a s) eqn:E; [|by apply Hexit].
      specialize (Hstep _ _ HI E). unfold wp in Hstep.
      destruct (body a s) as [[a' s']|e| |]; [lia|done..].
    - unfold wp; simpl. destruct (cond a s) eqn:E; [|by apply Hexit].
      apply (wp_bind (body a)). eapply wp_mono; [by apply Hstep|].
      intros a' s' [HI' Hlt]. apply IH; [done|lia].
Qed.

Lemma whileM_unfold {A} (cond : A → S → bool) (body : A → M S A) fuel a s :
    cond a s = true →
    whileM (Datatypes.S fuel) cond body a s = bind (body a) (whileM fuel cond body) s.
Proof. simpl. by intros ->. Qed.

Lemma whileM_exit {A} (cond : A → S → bool) (body : A → M S A) fuel a s :
    cond a s = false → whileM fuel cond body a s = Ok (a, s).
Proof. destruct fuel; simpl; by intros ->. Qed.

Lemma chk_u32_ok x s : 0 ≤ x < u32_max → chk_u32 x s = Ok (x, s).
Proof.
    intros. unfold chk_u32.
    by rewrite (proj2 (Z.leb_le _ _)), (proj2 (Z.ltb_lt _ _)) by lia.
Qed.

Lemma chk_u64_ok x s : 0 ≤ x < u64_max → chk_u64 x s = Ok (x, s).
Proof.
    intros. unfold chk_u64.
    by rewrite (proj2 (Z.leb_le _ _)), (proj2 (Z.ltb_lt _ _)) by lia.
Qed.

Lemma chk_i32_ok x s : i32_lo ≤ x < i32_hi → chk_i32 x s = Ok (x, s).
Proof.
    intros. unfold chk_i32.
    by rewrite (proj2 (Z.leb_le _ _)), (proj2 (Z.ltb_lt _ _)) by lia.
Qed.
End wp.

Lemma wp_zoom {S T A} (view : T → S) (upd : S → T → T) (m : M S A) t Q :
  wp m (view t) (λ a s, Q a (upd s t)) → wp (zoom view upd m) t Q.
Proof. unfold wp, zoom. by destruct (m (view t)) as [[]|e| |]. Qed.

(** ** Frames

    [keeps f m]: whenever [m] returns, the part [f] of the state is as it
    was. *)
Definition keeps {S A X} (f : S → X) (m : M S A) : Prop :=
  ∀ s a s', m s = Ok (a, s') → f s' = f s.

Section keeps.
Context {S X : Type} (f : S → X).

Lemma keeps_ret {A} (a : A) : keeps f (ret a).
Proof. intros s b s' [= -> ->]. done. Qed.
Lemma keeps_panic {A} e : keeps f (panic (A := A) e).
Proof. intros s a s' H. done. Qed.
Lemma keeps_blocked {A} : keeps f (blocked (A := A)).
Proof. intros s a s' H. done. Qed.
Lemma keeps_nofuel {A} : keeps f (nofuel (A := A)).
Proof. intros s a s' H. done. Qed.
Lemma keeps_get : keeps f get.
Proof. intros s a s' [= -> ->]. done. Qed.
Lemma keeps_gets {A} (g : S → A) : keeps f (gets g).
Proof. intros s a s' [= _ ->]. done. Qed.
Lemma keeps_modify g : (∀ s, f (g s) = f s) → keeps f (modify g).
Proof. intros H s a s' [= _ <-]. auto. Qed.
Lemma keeps_bind {A B} (m : M S A) (k : A → M S B) :
  keeps f m → (∀ a, keeps f (k a)) → keeps f (bind m k).
Proof.
  intros Hm Hk s b s' H. unfold bind in H. destruct (m s) as [[a s1]|e| |] eqn:E; try done.
  rewrite (Hk a s1 b s' H). by eapply Hm.
Qed.
Lemma keeps_expect {A} e (o : option A) : keeps f (expect e o).
Proof. destruct o; [apply keeps_ret|apply keeps_panic]. Qed.
Lemma keeps_assert b e : keeps f (assert_ b e).
Proof. destruct b; [apply keeps_ret|apply keeps_panic]. Qed.
Lemma keeps_chk_i32 x : keeps f (chk_i32 x).
Proof. unfold chk_i32. destruct (_ && _); [apply keeps_ret|apply keeps_panic]. Qed.
Lemma keeps_chk_u32 x : keeps f (chk_u32 x).
Proof. unfold chk_u32. destruct (_ && _); [apply keeps_ret|apply keeps_panic]. Qed.
Lemma keeps_chk_u64 x : keeps f (chk_u64 x).
Proof. unfold chk_u64. destruct (_ && _); [apply keeps_ret|apply keeps_panic]. Qed.
Lemma keeps_forM {A} (l : list A) body : (∀ x, keeps f (body x)) → keeps f (forM l body).
Proof.
  intros H. induction l as [|x l IH]; simpl; [apply keeps_ret|]. by apply keeps_bind.
Qed.
Lemma keeps_whileM {A} fuel cond (body : A → M S A) a :
  (∀ x, keeps f (body x)) → keeps f (whileM fuel cond body a).
Proof.
  intros H. revert a. induction fuel as [|fuel IH]; intros a s b s' E; simpl in E.
  - destruct (cond a s); [done|]. by injection E as _ ->.
  - destruct (cond a s); [|by injection E as _ ->]. by eapply keeps_bind in E; [|done..].
Qed.
End keeps.

Lemma keeps_zoom {S T A X} (f : T → X) (view : T → S) upd (m : M S A) :
  (∀ s t, f (upd s t) = f t) → keeps f (zoom view upd m).
Proof.
  intros H t a t' E. unfold zoom in E. destruct (m (view t)) as [[b s]|e| |]; try done.
  injection E as _ <-. auto.
Qed.

(** ** Partial correctness

    [wlp m s Q]: if [m] returns, the result satisfies [Q]. For invariants
    along runs, whose steps are the calls that return. *)
Definition wlp {S A} (m : M S A) (s : S) (Q : A → S → Prop) : Prop :=
  ∀ a s', m s = Ok (a, s') → Q a s'.

Section wlp.
Context {S : Type}.
Implicit Types s : S.

Lemma wlp_ret {A} (a : A) s (Q : A → S → Prop) : Q a s → wlp (ret a) s Q.
Proof. by intros HQ b s' [= <- <-]. Qed.
Lemma wlp_panic {A} e s (Q : A → S → Prop) : wlp (panic e) s Q.
Proof. done. Qed.
Lemma wlp_get s (Q : S → S → Prop) : Q s s → wlp get s Q.
Proof. by intros HQ b s' [= <- <-]. Qed.
Lemma wlp_gets {A} (f : S → A) s (Q : A → S → Prop) : Q (f s) s → wlp (gets f) s Q.
Proof. by intros HQ b s' [= <- <-]. Qed.
Lemma wlp_modify f s (Q : unit → S → Prop) : Q tt (f s) → wlp (modify f) s Q.
Proof. by intros HQ b s' [= <- <-]. Qed.
Lemma wlp_bind {A B} (m : M S A) (k : A → M S B) s Q :
  wlp m s (λ a s', wlp (k a) s' Q) → wlp (bind m k) s Q.
Proof. intros H b s' (a & s1 & E1 & E2)%bind_Ok_inv. by eapply H. Qed.
Lemma wlp_mono {A} (m : M S A) s (Q Q' : A → S → Prop) :
  wlp m s Q → (∀ a s', Q a s' → Q' a s') → wlp m s Q'.
Proof. intros H HQ a s' E. by apply HQ, H. Qed.
Lemma wlp_keeps {A X} (f : S → X) (m : M S A) s (Q : A → S → Prop) :
  keeps f m → (∀ a s', f s' = f s → Q a s') → wlp m s Q.
Proof. intros Hk HQ a s' E. apply HQ. by eapply Hk. Qed.
Lemma wlp_chk_i32 x s (Q : Z → S → Prop) : (i32_lo ≤ x < i32_hi → Q x s) → wlp (chk_i32 x) s Q.
Proof.
  intros HQ a s'. unfold chk_i32. destruct (Z.leb_spec i32_lo x); [|done].
  destruct (Z.ltb_spec x i32_hi); [|done]. intros [= <- <-]. apply HQ. lia.
Qed.
Lemma wlp_chk_u32 x s (Q : Z → S → Prop) : (0 ≤ x < u32_max → Q x s) → wlp (chk_u32 x) s Q.
Proof.
  intros HQ a s'. unfold chk_u32. destruct (Z.leb_spec 0 x); [|done].
  destruct (Z.ltb_spec x u32_max); [|done]. intros [= <- <-]. apply HQ. lia.
Qed.
Lemma wlp_chk_u64 x s (Q : Z → S → Prop) : (0 ≤ x < u64_max → Q x s) → wlp (chk_u64 x) s Q.
Proof.
  intros HQ a s'. unfold chk_u64. destruct (Z.leb_spec 0 x); [|done].
  destruct (Z.ltb_spec x u64_max); [|done]. intros [= <- <-]. apply HQ. lia.
Qed.
Lemma wlp_expect {A} e (o : option A) s (Q : A → S → Prop) :
  (∀ a, o = Some a → Q a s) → wlp (expect e o) s Q.
Proof. intros HQ. destruct o; [apply wlp_ret; auto|done]. Qed.
Lemma wlp_forM {A} (l : list A) (body : A → M S unit) (I : S → Prop) s :
  I s → (∀ x s, I s → wlp (body x) s (λ _ s', I s')) → wlp (forM l body) s (λ _ s', I s').
Proof.
  intros HI Hb. revert s HI. induction l as [|x l IH]; intros s HI; simpl; [by apply wlp_ret|].
  apply wlp_bind. eapply wlp_mono; [by apply Hb|]. auto.
Qed.

Lemma wlp_zoom {T A} (view : T → S) (upd : S → T → T) (m : M S A) t (Q : A → T → Prop) :
  wlp m (view t) (λ a s, Q a (upd s t)) → wlp (zoom view upd m) t Q.
Proof.
  intros H a t' E. unfold zoom in E. destruct (m (view t)) as [[b s]|e| |] eqn:Em; try done.
  injection E as -> <-. by apply H.
Qed.

(** [m] moves the state along the preorder [R]. *)
Definition resp {A} (R : relation S) (m : M S A) : Prop := ∀ s, wlp m s (λ _ s', R s s').

Lemma wlp_resp {A} R (m : M S A) s (Q : A → S → Prop) :
  resp R m → (∀ a s', R s s' → Q a s') → wlp m s Q.
Proof. intros Hm HQ. eapply wlp_mono; [apply Hm|exact HQ]. Qed.
Lemma resp_keeps {A X} (R : relation S) (f : S → X) (m : M S A) :
  keeps f m → (∀ s s', f s' = f s → R s s') → resp R m.
Proof. intros Hk HR s. eapply wlp_keeps; [exact Hk|]. auto. Qed.

Section resp.
Context (R : relation S) `{!PreOrder R}.
Lemma resp_ret {A} (a : A) : resp R (ret a).
Proof. intros s. by apply wlp_ret. Qed.
Lemma resp_panic {A} e : resp R (panic (A := A) e).
Proof. done. Qed.
Lemma resp_bind {A B} (m : M S A) (k : A → M S B) : resp R m → (∀ a, resp R (k a)) → resp R (bind m k).
Proof.
  intros Hm Hk s. apply wlp_bind. eapply wlp_resp; [exact Hm|]. intros a s1 H1.
  eapply wlp_resp; [apply Hk|]. intros b s2 H2. by etrans.
Qed.
Lemma resp_forM {A} (l : list A) body : (∀ x, resp R (body x)) → resp R (forM l body).
Proof. intros H. induction l as [|x l IH]; simpl; [apply resp_ret|]. by apply resp_bind. Qed.
Lemma resp_modify f : (∀ s, R s (f s)) → resp R (modify f).
Proof. intros H s. by apply wlp_modify. Qed.
End resp.
End wlp.

(** ** Little-endian encodings *)

Fixpoint le_bytes (n : nat) (z : Z) : list Z :=
  match n with
  | O => []
  | S n' => z mod 256 :: le_bytes n' (z / 256)
  end.

Fixpoint le_val (bs : list Z) : Z :=
  match bs with
  | [] => 0
  | b :: bs' => b + 256 * le_val bs'
  end.

Definition is_byte (b : Z) : Prop := 0 ≤ b < 256.

Lemma length_le_bytes n z : length (le_bytes n z) = n.
Proof. revert z. induction n; intros; simpl; auto. Qed.

Lemma le_bytes_is_byte n z : Forall is_byte (le_bytes n z).
Proof.
  revert z. induction n; intros z; simpl; constructor; auto.
  unfold is_byte. apply Z.mod_pos_bound. lia.
Qed.

Lemma le_val_bytes n z : le_val (le_bytes n z) = z mod 256 ^ Z.of_nat n.
Proof.
  revert z. induction n as [|n IH]; intros z.
  - simpl. by rewrite Z.mod_1_r.
  - cbn [le_bytes le_val]. rewrite IH, Nat2Z.inj_succ, Z.pow_succ_r by lia.
    rewrite Z.rem_mul_r by lia. lia.
Qed.

Lemma le_val_bytes_small n z :
  0 ≤ z < 256 ^ Z.of_nat n → le_val (le_bytes n z) = z.
Proof. intros. rewrite le_val_bytes. by apply Z.mod_small. Qed.

Lemma le_val_bound bs :
  Forall is_byte bs → 0 ≤ le_val bs < 256 ^ Z.of_nat (length bs).
Proof.
  induction 1 as [|b bs Hb _ IH]; simpl length; [simpl; lia|].
  rewrite Nat2Z.inj_succ, Z.pow_succ_r by lia. cbn [le_val].
  unfold is_byte in Hb. nia.
Qed.

Lemma le_bytes_val bs :
  Forall is_byte bs → le_bytes (length bs) (le_val bs) = bs.
Proof.
  induction 1 as [|b bs Hb _ IH]; [done|].
  cbn [length le_bytes le_val]. unfold is_byte in Hb.
  replace (b + 256 * le_val bs) with (le_val bs * 256 + b) by lia.
  rewrite Z.add_comm, Z_mod_plus_full, Z.mod_small by lia.
  rewrite Z_div_plus_full, Z.div_small by lia. by rewrite Z.add_0_l, IH.
Qed.

(** ** Bit fields *)

Lemma lor_low_high x y k : 0 ≤ k → 0 ≤ x < 2 ^ k → Z.lor x (2 ^ k * y) = x + 2 ^ k * y.
Proof.
  intros Hk Hx. assert (H : Z.land x (2 ^ k * y) = 0).
  { apply Z.bits_inj'. intros i Hi. rewrite Z.land_spec, Z.bits_0, (Z.mul_comm (2 ^ k)).
    destruct (Z.lt_ge_cases i k); [by rewrite Z.mul_pow2_bits_low, andb_false_r|].
    destruct (decide (x = 0)) as [->|]; [by rewrite Z.bits_0|]. rewrite (Z.bits_above_log2 x); [done|lia|].
    apply Z.log2_lt_pow2; [lia|]. apply (Z.lt_le_trans _ (2 ^ k)); [apply Hx|]. apply Z.pow_le_mono_r; lia. }
  by rewrite (Z.add_nocarry_lxor _ _ H), (Z.lxor_lor _ _ H).
Qed.

(** ** Byte ranges of an array *)

Definition slice {A} (off n : nat) (l : list A) : list A := take n (drop off l).

(** [copy] of [new] into [l] at [off]; used with [off + length new ≤ length l]. *)
Definition splice {A} (off : nat) (new l : list A) : list A :=
  take off l ++ new ++ drop (off + length new) l.

Section splice.
Context {A : Type}.
  Implicit Types l new : list A.

Lemma length_splice off new l :
    (off + length new ≤ length l)%nat → length (splice off new l) = length l.
Proof. intros. unfold splice. rewrite !length_app, length_take, length_drop. lia. Qed.

Lemma length_slice off n l :
    (off + n ≤ length l)%nat → length (slice off n l) = n.
Proof. intros. unfold slice. rewrite length_take, length_drop. lia. Qed.

Lemma slice_splice_same off new l :
    (off + length new ≤ length l)%nat → slice off (length new) (splice off new l) = new.
Proof.
    intros. unfold slice, splice.
    rewrite drop_app_length' by (rewrite length_take; lia).
    by rewrite take_app_length.
Qed.

Lemma slice_lookup off n l i :
    (i < n)%nat → slice off n l !! i = l !! (off + i)%nat.
Proof. intros. unfold slice. by rewrite lookup_take_lt, lookup_drop by lia. Qed.

Lemma splice_lookup_out off new l i :
    (off + length new ≤ length l)%nat →
    (i < off ∨ off + length new ≤ i)%nat →
    splice off new l !! i = l !! i.
Proof.
    intros Hl [Hi|Hi]; unfold splice.
    - rewrite lookup_app_l by (rewrite length_take; lia).
      by rewrite lookup_take_lt by lia.
    - rewrite !lookup_app_r by (rewrite ?length_take; lia).
      rewrite length_take, lookup_drop. f_equal. lia.
Qed.

Lemma splice_lookup_in off new l i :
    (off + length new ≤ length l)%nat →
    (off ≤ i < off + length new)%nat →
    splice off new l !! i = new !! (i - off)%nat.
Proof.
    intros Hl Hi. unfold splice.
    rewrite lookup_app_r by (rewrite length_take; lia).
    rewrite lookup_app_l by (rewrite length_take; lia).
    f_equal. rewrite length_take. lia.
Qed.

Lemma slice_splice_other off off' n new l :
    (off + length new ≤ length l)%nat →
    (off' + n ≤ off ∨ off + length new ≤ off')%nat →
    slice off' n (splice off new l) = slice off' n l.
Proof.
    intros Hl Hd. apply list_eq. intros i.
    destruct (decide (i < n)%nat).
    - rewrite !slice_lookup by done. apply splice_lookup_out; lia.
    - unfold slice. by rewrite !lookup_take_ge by lia.
Qed.
End splice.

(** ** Lists by index *)

Lemma alter_is_insert {A} (f : A → A) (i : nat) (l : list A) x : l !! i = Some x → alter f i l = <[i := f x]> l.
Proof.
  intros Hx. apply list_eq. intros j. destruct (decide (i = j)) as [<-|Hne].
  - rewrite list_lookup_alter_eq, Hx. symmetry. apply list_lookup_insert_eq.
    by eapply lookup_lt_Some.
  - by rewrite list_lookup_alter_ne, list_lookup_insert_ne.
Qed.

Lemma nth_lookup_lt {A} (l : list A) i d : (i < length l)%nat → l !! i = Some (nth i l d).
Proof. intros H. destruct (lookup_lt_is_Some_2 l i H) as [x E]. by rewrite (nth_lookup_Some _ _ _ _ E). Qed.

Lemma resize_snoc {A} (x z : A) l m : (length l < m)%nat → <[length l := x]> (resize m z l) = resize m z (l ++ [x]).
Proof.
  intros H. rewrite !resize_ge by (rewrite ?length_app; simpl; lia). rewrite insert_app_r_alt, Nat.sub_diag by lia.
  rewrite length_app. simpl. replace (m - length l)%nat with (S (m - (length l + 1))) by lia. cbn. by rewrite <- app_assoc.
Qed.

Lemma seqZ_split n m : 0 ≤ n < m → seqZ 0 m = seqZ 0 n ++ n :: seqZ (n + 1) (m - n - 1).
Proof.
  intros H. replace m with (n + (1 + (m - n - 1))) at 1 by lia. rewrite seqZ_app by lia. f_equal.
  rewrite seqZ_cons by lia. rewrite Z.add_0_l. f_equal. f_equal; lia.
Qed.

(** ** Counting *)

Lemma NoDup_length_le_size `{Countable A} (l : list A) (X : gset A) :
  NoDup l → (∀ x, x ∈ l → x ∈ X) → (length l ≤ size X)%nat.
Proof.
  intros Hnd Hl. change (size X) with (length (elements X)).
  apply submseteq_length, NoDup_submseteq; [done|].
  intros x Hx. apply elem_of_elements. auto.
Qed.

Lemma size_list_to_set_le `{Countable A} (l : list A) :
  (size (list_to_set l : gset A) ≤ length l)%nat.
Proof.
  induction l as [|x l IH]; cbn [list_to_set length]; [done|].
  rewrite size_union_alt, size_singleton.
  assert ((size (list_to_set l ∖ {[x]} : gset A) ≤ size (list_to_set l : gset A))%nat); [|lia].
  apply subseteq_size. set_solver.
Qed.

(** ** Tactics and hint databases *)

Create HintDb kern discriminated.
#[export] Hint Resolve le_bytes_is_byte : kern.
#[export] Hint Resolve wp_ret : kern.

(** Frame goals are syntax-directed. *)
Create HintDb keeps discriminated.
#[export] Hint Resolve keeps_ret keeps_panic keeps_blocked keeps_nofuel keeps_get keeps_gets
  keeps_bind keeps_expect keeps_assert keeps_chk_i32 keeps_chk_u32 keeps_chk_u64 keeps_forM
  keeps_whileM : keeps.
#[export] Hint Extern 2 (keeps _ (modify _)) => apply keeps_modify; intros; reflexivity : keeps.
#[export] Hint Extern 2 (keeps _ (zoom _ _ _)) => apply keeps_zoom; intros; reflexivity : keeps.
#[export] Hint Extern 3 (keeps _ (if ?b then _ else _)) => destruct b : keeps.

(** Case analysis on the boolean comparisons of the code. *)
Ltac bcase :=
  repeat (match goal with
  | |- context [if ?b then _ else _] =>
      match b with
      | context [(?x =? ?y)%Z] => destruct (Z.eqb_spec x y)
      | context [(?x <? ?y)%Z] => destruct (Z.ltb_spec x y)
      | context [(?x <=? ?y)%Z] => destruct (Z.leb_spec x y)
      | context [(?x =? ?y)%nat] => destruct (Nat.eqb_spec x y)
      | context [(?x <? ?y)%nat] => destruct (Nat.ltb_spec x y)
      | context [(?x <=? ?y)%nat] => destruct (Nat.leb_spec x y)
      end
  end; cbn [andb orb negb]).

(** Turn boolean hypotheses into propositions. *)
Ltac b2p :=
  repeat match goal with
  | H : (_ && _) = true |- _ => apply andb_prop in H as [? ?]
  | H : (_ || _) = false |- _ => apply orb_false_elim in H as [? ?]
  | H : negb _ = true |- _ => apply negb_true_iff in H
  | H : negb _ = false |- _ => apply negb_false_iff in H
  | H : (_ =? _)%Z = true |- _ => apply Z.eqb_eq in H
  | H : (_ =? _)%Z = false |- _ => apply Z.eqb_neq in H
  | H : (_ <? _)%Z = true |- _ => apply Z.ltb_lt in H
  | H : (_ <? _)%Z = false |- _ => apply Z.ltb_ge in H
  | H : (_ <=? _)%Z = true |- _ => apply Z.leb_le in H
  | H : (_ <=? _)%Z = false |- _ => apply Z.leb_gt in H
  | H : (_ =? _)%nat = true |- _ => apply Nat.eqb_eq in H
  | H : (_ =? _)%nat = false |- _ => apply Nat.eqb_neq in H
  | H : (_ <? _)%nat = true |- _ => apply Nat.ltb_lt in H
  | H : (_ <? _)%nat = false |- _ => apply Nat.ltb_ge in H
  end.

(** One step of symbolic execution of a [wp] goal. *)
Ltac wp_step :=
  lazymatch goal with
  | |- wp (bind _ _) _ _ => apply wp_bind
  | |- wp (ret _) _ _ => apply wp_ret
  | |- wp (gets _) _ _ => apply wp_gets
  | |- wp get _ _ => apply wp_get
  | |- wp (modify _) _ _ => apply wp_modify
  | |- wp (put _) _ _ => apply wp_put
  end; cbv beta.
Ltac wp_auto := repeat wp_step.

(** The same for [wlp]. *)
Ltac wlp_step :=
  lazymatch goal with
  | |- wlp (bind _ _) _ _ => apply wlp_bind
  | |- wlp (ret _) _ _ => apply wlp_ret
  | |- wlp (panic _) _ _ => apply wlp_panic
  | |- wlp (gets _) _ _ => apply wlp_gets
  | |- wlp get _ _ => apply wlp_get
  | |- wlp (modify _) _ _ => apply wlp_modify
  end; cbv beta.
