(* ===== verification/Mmu.v ===== *)
(** * Address arithmetic of the MMU

    crates/arch/src/mmu.rs: page geometry, the four-level split of a virtual
    address, page-table entry fields and segment descriptors; and the
    direct-map translations of crates/mm/src/memlayout.rs. *)

From S2P Require Import Prelude.

Module Mmu.

(** [!x] on a [u64]. *)
Definition not_u64 (x : Z) : Z := u64_max - 1 - x.

Definition FL_IF : Z := 0x200.

Definition PML4XSHIFT : Z := 39.
Definition PDPXSHIFT : Z := 30.
Definition PDXSHIFT : Z := 21.
Definition PTXSHIFT : Z := 12.
Definition PXMASK : Z := 0x1FF.

Definition PMX (va : Z) : Z := Z.land (Z.shiftr va PML4XSHIFT) PXMASK.
Definition PDPX (va : Z) : Z := Z.land (Z.shiftr va PDPXSHIFT) PXMASK.
Definition PDX (va : Z) : Z := Z.land (Z.shiftr va PDXSHIFT) PXMASK.
Definition PTX (va : Z) : Z := Z.land (Z.shiftr va PTXSHIFT) PXMASK.

Definition NPDENTRIES : Z := 512.
Definition PGSIZE : Z := 4096.

Definition PGROUNDUP {S} (sz : Z) : M S Z :=
  let* x := chk_u64 (sz + (PGSIZE - 1)) in
  ret (Z.land x (not_u64 (PGSIZE - 1))).
Definition PGROUNDDOWN (a : Z) : Z := Z.land a (not_u64 (PGSIZE - 1)).

Definition PTE_P : Z := 0x001.
Definition PTE_W : Z := 0x002.
Definition PTE_U : Z := 0x004.
Definition PTE_PWT : Z := 0x008.
Definition PTE_PCD : Z := 0x010.
Definition PTE_PS : Z := 0x080.

Definition PTE_ADDR (pte : Z) : Z := Z.land pte (not_u64 0xFFF).
Definition PTE_FLAGS (pte : Z) : Z := Z.land pte 0xFFF.

(** memlayout.rs. *)
Definition EXTMEM : Z := 0x100000.
Definition PHYSTOP : Z := 0xE000000.
Definition KERNBASE : Z := 0xFFFF800000000000.
Definition KERNLINK : Z := KERNBASE + EXTMEM.
Definition V2P (a : Z) : Z := as_u64 (a - KERNBASE).
Definition P2V (a : Z) : Z := as_u64 (a + KERNBASE).

(** The eight-byte segment descriptor. *)
Record segdesc := mkSeg {
  lim_15_0 : Z;
  base_15_0 : Z;
  base_23_16 : Z;
  access : Z;
  sflags : Z;
  base_31_24 : Z;
}.

Definition seg_new (typ lim base sys dpl rsv : Z) : segdesc := {|
  lim_15_0 := as_u16 (Z.land lim 0xFFFF);
  base_15_0 := as_u16 (Z.land base 0xFFFF);
  base_23_16 := as_u8 (Z.land (Z.shiftr base 16) 0xFF);
  access := Z.lor (Z.lor (Z.lor (Z.land typ 0xF) (as_u8 (Z.shiftl (Z.land sys 0x1) 4)))
                         (as_u8 (Z.shiftl (Z.land dpl 0x3) 5)))
                  (Z.shiftl 1 7);
  sflags := Z.lor (Z.lor (Z.lor (Z.lor (as_u8 (Z.land (Z.shiftr lim 16) 0xF)) (Z.shiftl 0 4))
                                (as_u8 (Z.shiftl (Z.land rsv 0x1) 5)))
                         (Z.shiftl 0 6))
                  (Z.shiftl 1 7);
  base_31_24 := as_u8 (Z.land (Z.shiftr base 24) 0xFF);
|}.

Definition seg16_new (typ base lim dpl : Z) : segdesc := {|
  lim_15_0 := as_u16 (Z.land lim 0xFFFF);
  base_15_0 := as_u16 (Z.land base 0xFFFF);
  base_23_16 := as_u8 (Z.land (Z.shiftr base 16) 0xFF);
  access := Z.lor (Z.lor (Z.lor (Z.land typ 0xF) (Z.shiftl 1 4))
                         (as_u8 (Z.shiftl (Z.land dpl 0x3) 5)))
                  (Z.shiftl 1 7);
  sflags := as_u8 (Z.land (Z.shiftr lim 16) 0xF);
  base_31_24 := as_u8 (Z.land (Z.shiftr base 24) 0xFF);
|}.

(** ** Bit masks as arithmetic *)

Lemma land_mask (x n : Z) : 0 ≤ n → Z.land x (2 ^ n - 1) = x mod 2 ^ n.
Proof. intros. rewrite <- Z.land_ones by done. by rewrite Z.ones_equiv. Qed.

Lemma land_not_mask (x n : Z) :
  0 ≤ x < u64_max → 0 ≤ n ≤ 64 → Z.land x (not_u64 (2 ^ n - 1)) = x - x mod 2 ^ n.
Proof.
  intros Hx Hn. assert (Hd : Z.land x (not_u64 (2 ^ n - 1)) = Z.ldiff x (Z.ones n)).
  { replace (not_u64 (2 ^ n - 1)) with (Z.shiftl (Z.ones (64 - n)) n).
    2: { rewrite Z.shiftl_mul_pow2, Z.ones_equiv, Z.mul_pred_l, <- Z.pow_add_r by lia. unfold not_u64, u64_max.
         replace (64 - n + n) with 64 by lia. change (2 ^ 64) with 18446744073709551616. lia. }
    apply Z.bits_inj'. intros i Hi. rewrite Z.ldiff_spec, Z.land_spec, Z.shiftl_spec by done.
    destruct (decide (64 ≤ i)) as [Hbig|Hsm].
    - destruct (decide (x = 0)) as [->|Hx0]; [by rewrite !Z.bits_0|].
      assert (Hl : Z.log2 x < i).
      { apply Z.lt_le_trans with 64; [|lia]. apply Z.log2_lt_pow2; [lia|]. unfold u64_max in Hx. lia. }
      by rewrite (Z.bits_above_log2 x i) by lia.
    - f_equal. destruct (decide (i < n)).
      + rewrite Z.testbit_neg_r, Z.ones_spec_low by lia. done.
      + rewrite Z.ones_spec_low, Z.ones_spec_high by lia. done. }
  rewrite Hd, Z.ldiff_ones_r, Z.shiftl_mul_pow2, Z.shiftr_div_pow2 by lia.
  pose proof (Z.div_mod x (2 ^ n) ltac:(lia)). lia.
Qed.

Lemma PGROUNDDOWN_eq a : 0 ≤ a < u64_max → PGROUNDDOWN a = a - a mod PGSIZE.
Proof. intros. by apply (land_not_mask _ 12). Qed.

Lemma PTE_ADDR_eq a : 0 ≤ a < u64_max → PTE_ADDR a = a - a mod PGSIZE.
Proof. intros. by apply (land_not_mask _ 12). Qed.

Lemma PGROUNDUP_ok {S} (s : S) sz :
  0 ≤ sz → sz + 4095 < u64_max →
  PGROUNDUP sz s = Ok ((sz + 4095) - (sz + 4095) mod PGSIZE, s).
Proof.
  intros H0 H1. unfold PGROUNDUP.
  rewrite (bind_ok _ _ _ _ _ (chk_u64_ok (sz + (PGSIZE - 1)) s ltac:(unfold PGSIZE; lia))).
  unfold ret, PGSIZE. by rewrite (land_not_mask _ 12) by lia.
Qed.

Lemma index_mod (va k : Z) : 0 ≤ k → Z.land (Z.shiftr va k) PXMASK = va / 2 ^ k mod 512.
Proof.
  intros. unfold PXMASK. change 0x1FF with (2 ^ 9 - 1).
  by rewrite land_mask, Z.shiftr_div_pow2 by lia.
Qed.

(** The indices are table indices, and with the page offset they give the
    address back. *)
Lemma va_split va :
  0 ≤ va < 2 ^ 48 →
  va = PMX va * 2 ^ 39 + PDPX va * 2 ^ 30 + PDX va * 2 ^ 21 + PTX va * 2 ^ 12
       + va mod PGSIZE.
Proof.
  intros H. unfold PMX, PDPX, PDX, PTX, PML4XSHIFT, PDPXSHIFT, PDXSHIFT, PTXSHIFT, PGSIZE.
  rewrite !index_mod by lia.
  change (2 ^ 48) with 281474976710656 in H.
  change (2 ^ 39) with 549755813888. change (2 ^ 30) with 1073741824.
  change (2 ^ 21) with 2097152. change (2 ^ 12) with 4096.
  Z.to_euclidean_division_equations. lia.
Qed.

Lemma index_bound va :
  0 ≤ PMX va < 512 ∧ 0 ≤ PDPX va < 512 ∧ 0 ≤ PDX va < 512 ∧ 0 ≤ PTX va < 512.
Proof.
  unfold PMX, PDPX, PDX, PTX, PML4XSHIFT, PDPXSHIFT, PDXSHIFT, PTXSHIFT.
  rewrite !index_mod by lia. repeat split; apply Z.mod_pos_bound; lia.
Qed.

(** ** Fields read back from a segment descriptor *)

(** What the processor reads from the eight bytes (Intel SDM layout given in
    the comment of mmu.rs). *)
Definition seg_base (d : segdesc) : Z :=
  base_15_0 d + base_23_16 d * 2 ^ 16 + base_31_24 d * 2 ^ 24.
Definition seg_limit (d : segdesc) : Z := lim_15_0 d + (sflags d mod 16) * 2 ^ 16.
Definition seg_type (d : segdesc) : Z := access d mod 16.
Definition seg_s (d : segdesc) : Z := access d / 16 mod 2.
Definition seg_dpl (d : segdesc) : Z := access d / 32 mod 4.
Definition seg_p (d : segdesc) : Z := access d / 128.
Definition seg_l (d : segdesc) : Z := sflags d / 32 mod 2.
Definition seg_g (d : segdesc) : Z := sflags d / 128.

(** A boolean property of all numbers below [n], checked by evaluation. *)
Lemma forallb_below (P : Z → bool) n :
  forallb P (seqZ 0 n) = true → ∀ x, 0 ≤ x < n → P x = true.
Proof.
  intros H x Hx. rewrite forallb_forall in H. apply H.
  apply list_elem_of_In, elem_of_seqZ. lia.
Qed.

Definition access_ok (typ sys dpl : Z) : bool :=
  let a := access (seg_new typ 0 0 sys dpl 0) in
  (a mod 16 =? typ) && (a / 16 mod 2 =? sys) && (a / 32 mod 4 =? dpl) && (a / 128 =? 1).

Lemma access_ok_all typ sys dpl :
  0 ≤ typ < 16 → 0 ≤ sys < 2 → 0 ≤ dpl < 4 → access_ok typ sys dpl = true.
Proof.
  intros Ht Hs. revert dpl. apply forallb_below.
  revert sys Hs. apply (forallb_below (λ s, forallb (access_ok typ s) (seqZ 0 4))).
  revert typ Ht.
  apply (forallb_below (λ t, forallb (λ s, forallb (access_ok t s) (seqZ 0 4)) (seqZ 0 2))).
  vm_compute. reflexivity.
Qed.

Definition sflags_ok (hi rsv : Z) : bool :=
  let f := sflags (seg_new 0 (hi * 65536) 0 0 0 rsv) in
  (f mod 16 =? hi) && (f / 32 mod 2 =? rsv) && (f / 128 =? 1).

Lemma sflags_ok_all hi rsv : 0 ≤ hi < 16 → 0 ≤ rsv < 2 → sflags_ok hi rsv = true.
Proof.
  intros Hh. revert rsv. apply forallb_below. revert hi Hh.
  apply (forallb_below (λ h, forallb (sflags_ok h) (seqZ 0 2))).
  vm_compute. reflexivity.
Qed.

Lemma sflags_lim_high typ lim base sys dpl rsv :
  0 ≤ lim < 2 ^ 20 →
  sflags (seg_new typ lim base sys dpl rsv)
  = sflags (seg_new 0 (lim / 65536 * 65536) 0 0 0 rsv).
Proof.
  intros Hl. simpl. rewrite !Z.shiftr_div_pow2 by lia. change (2 ^ 16) with 65536.
  by rewrite Z.div_mul by lia.
Qed.

Lemma seg_base_new typ lim base sys dpl rsv :
  0 ≤ base < 2 ^ 32 → seg_base (seg_new typ lim base sys dpl rsv) = base.
Proof.
  intros Hb. unfold seg_base, seg_new, as_u16, as_u8, u16_max, u8_max. cbn [base_15_0 base_23_16 base_31_24].
  change 0xFFFF with (2 ^ 16 - 1). change 0xFF with (2 ^ 8 - 1).
  rewrite !land_mask, !Z.shiftr_div_pow2 by lia.
  change (2 ^ 32) with 4294967296 in Hb. change (2 ^ 16) with 65536.
  change (2 ^ 8) with 256. change (2 ^ 24) with 16777216.
  Z.to_euclidean_division_equations. lia.
Qed.

Lemma seg_limit_new typ lim base sys dpl rsv :
  0 ≤ lim < 2 ^ 20 → 0 ≤ rsv < 2 → seg_limit (seg_new typ lim base sys dpl rsv) = lim.
Proof.
  intros Hl Hr. unfold seg_limit. rewrite sflags_lim_high by done.
  change (2 ^ 20) with 1048576 in Hl.
  assert (0 ≤ lim / 65536 < 16) as Hh by (Z.to_euclidean_division_equations; lia).
  pose proof (sflags_ok_all _ _ Hh Hr) as Hok. unfold sflags_ok in Hok. b2p.
  match goal with H : _ mod 16 = _ |- _ => rewrite H end. simpl. unfold as_u16, u16_max.
  change 0xFFFF with (2 ^ 16 - 1). rewrite land_mask by lia. change (2 ^ 16) with 65536.
  rewrite Z.mod_mod by lia. Z.to_euclidean_division_equations. lia.
Qed.

(** [PGROUNDUP] returns the least page boundary not below its argument,
    and panics exactly when adding [PGSIZE - 1] leaves the 64-bit range. *)
Theorem pgroundup_least {S} (s : S) (sz : Z) (Hsz : 0 ≤ sz < u64_max) :
  match PGROUNDUP sz s with
  | Ok (r, s') =>
      s' = s ∧ r mod PGSIZE = 0 ∧ sz ≤ r < u64_max ∧
      ∀ r', r' mod PGSIZE = 0 → sz ≤ r' → r ≤ r'
  | Panic _ => u64_max ≤ sz + (PGSIZE - 1)
  | _ => False
  end.
Proof.
  destruct (Z.lt_ge_cases (sz + 4095) u64_max) as [Hlt|Hge].
  - rewrite PGROUNDUP_ok by lia. unfold PGSIZE, u64_max in *. split; [done|].
    split; [|split]; [Z.to_euclidean_division_equations; lia..|].
    intros r' Hr' Hle. Z.to_euclidean_division_equations. lia.
  - unfold PGROUNDUP, PGSIZE. unfold bind, chk_u64.
    rewrite (proj2 (Z.ltb_ge _ _)) by lia. rewrite andb_false_r. simpl. lia.
Qed.

Lemma pgroundup_least_witness :
  match PGROUNDUP 5000 tt with
  | Ok (r, s') =>
      s' = tt ∧ r mod PGSIZE = 0 ∧ 5000 ≤ r < u64_max ∧
      ∀ r', r' mod PGSIZE = 0 → 5000 ≤ r' → r ≤ r'
  | Panic _ => u64_max ≤ 5000 + (PGSIZE - 1)
  | _ => False
  end.
Proof. apply (pgroundup_least tt 5000). unfold u64_max. lia. Defined.

(** the four table indices of a 48-bit virtual address are valid indices
    of 512-entry tables, and together with the page offset they determine the
    address: two addresses that walk the same entries are on the same page. *)
Theorem va_indices_determine_page (va vb : Z)
    (Ha : 0 ≤ va < 2 ^ 48) (Hb : 0 ≤ vb < 2 ^ 48) :
  0 ≤ PMX va < NPDENTRIES ∧ 0 ≤ PDPX va < NPDENTRIES ∧
  0 ≤ PDX va < NPDENTRIES ∧ 0 ≤ PTX va < NPDENTRIES ∧
  (PGROUNDDOWN va = PGROUNDDOWN vb ↔
   PMX va = PMX vb ∧ PDPX va = PDPX vb ∧ PDX va = PDX vb ∧ PTX va = PTX vb).
Proof.
  destruct (index_bound va) as (? & ? & ? & ?). unfold NPDENTRIES.
  do 4 (split; [done|]).
  rewrite !PGROUNDDOWN_eq by (unfold u64_max; lia).
  pose proof (va_split va Ha) as Ea. pose proof (va_split vb Hb) as Eb.
  split.
  - intros Hp. unfold PMX, PDPX, PDX, PTX, PML4XSHIFT, PDPXSHIFT, PDXSHIFT, PTXSHIFT.
    rewrite !index_mod by lia. unfold PGSIZE in Hp.
    assert (va / 4096 = vb / 4096) as Hq by (Z.to_euclidean_division_equations; lia).
    change (2 ^ 12) with 4096. change (2 ^ 21) with (4096 * 512).
    change (2 ^ 30) with (4096 * 262144). change (2 ^ 39) with (4096 * 134217728).
    rewrite <- !Z.div_div by lia. by rewrite Hq.
  - intros (E1 & E2 & E3 & E4). rewrite E1, E2, E3, E4 in Ea. lia.
Qed.

Lemma va_indices_determine_page_witness :
  0 ≤ PMX 4097 < NPDENTRIES ∧ 0 ≤ PDPX 4097 < NPDENTRIES ∧
  0 ≤ PDX 4097 < NPDENTRIES ∧ 0 ≤ PTX 4097 < NPDENTRIES ∧
  (PGROUNDDOWN 4097 = PGROUNDDOWN 8191 ↔
   PMX 4097 = PMX 8191 ∧ PDPX 4097 = PDPX 8191 ∧ PDX 4097 = PDX 8191 ∧ PTX 4097 = PTX 8191).
Proof. apply (va_indices_determine_page 4097 8191); lia. Defined.

(** the bytes packed by [segdesc::seg_new] are read back by the processor
    as exactly the base, limit, type, S, DPL and L arguments, with the present
    and granularity bits set. *)
Theorem segdesc_fields_roundtrip (typ lim base sys dpl rsv : Z)
    (Ht : 0 ≤ typ < 16) (Hl : 0 ≤ lim < 2 ^ 20) (Hb : 0 ≤ base < 2 ^ 32)
    (Hs : 0 ≤ sys < 2) (Hd : 0 ≤ dpl < 4) (Hr : 0 ≤ rsv < 2) :
  let d := seg_new typ lim base sys dpl rsv in
  seg_base d = base ∧ seg_limit d = lim ∧ seg_type d = typ ∧ seg_s d = sys ∧
  seg_dpl d = dpl ∧ seg_p d = 1 ∧ seg_l d = rsv ∧ seg_g d = 1.
Proof.
  intros d. split; [by apply seg_base_new|]. split; [by apply seg_limit_new|].
  pose proof (access_ok_all _ _ _ Ht Hs Hd) as Ha. unfold access_ok in Ha. b2p.
  change (2 ^ 20) with 1048576 in Hl.
  assert (0 ≤ lim / 65536 < 16) as Hh by (Z.to_euclidean_division_equations; lia).
  pose proof (sflags_ok_all _ _ Hh Hr) as Hf. unfold sflags_ok in Hf. b2p.
  unfold seg_type, seg_s, seg_dpl, seg_p, seg_l, seg_g, d.
  rewrite (sflags_lim_high typ) by done. done.
Qed.

Lemma segdesc_fields_roundtrip_witness :
  let d := seg_new 10 0xB 0xFFFF8000 0 3 0 in
  seg_base d = 0xFFFF8000 ∧ seg_limit d = 0xB ∧ seg_type d = 10 ∧ seg_s d = 0 ∧
  seg_dpl d = 3 ∧ seg_p d = 1 ∧ seg_l d = 0 ∧ seg_g d = 1.
Proof. apply (segdesc_fields_roundtrip 10 0xB 0xFFFF8000 0 3 0); lia. Defined.

End Mmu.
