(* ===== verification/Mem.v ===== *)
(** * Byte-addressed memory

    The kernel reads and writes physical memory through the direct map, with
    raw pointers. Memory is a total function from kernel virtual addresses to
    bytes; the 64-bit words of page tables and of the page free list are eight
    consecutive bytes, little-endian. *)

From S2P Require Import Prelude.

Module Mem.

Definition mem : Type := Z → Z.

Definition load_bytes (m : mem) (a : Z) (n : nat) : list Z :=
  (λ i : nat, m (a + Z.of_nat i)) <$> seq 0 n.

(** [ptr::write_bytes(a, v, n)]. *)
Definition memset (a v n : Z) (m : mem) : mem := λ x,
  if (a <=? x) && (x <? a + n) then v else m x.

(** [ptr::copy_nonoverlapping(src, dst, n)]. *)
Definition memcpy (dst src n : Z) (m : mem) : mem := λ x,
  if (dst <=? x) && (x <? dst + n) then m (src + (x - dst)) else m x.

(** Store a byte string. *)
Definition store_bytes (a : Z) (bs : list Z) (m : mem) : mem := λ x,
  if (a <=? x) && (x <? a + Z.of_nat (length bs))
  then default (m x) (bs !! Z.to_nat (x - a)) else m x.

Definition load64 (m : mem) (a : Z) : Z := le_val (load_bytes m a 8).
Definition store64 (a v : Z) (m : mem) : mem := store_bytes a (le_bytes 8 v) m.

(** The bytes of [m] and [m'] agree on [[a, a + n)]. *)
Definition agree (m m' : mem) (a n : Z) : Prop := ∀ x, a ≤ x < a + n → m' x = m x.

Lemma length_load_bytes m a n : length (load_bytes m a n) = n.
Proof. unfold load_bytes. by rewrite length_fmap, length_seq. Qed.

Lemma load_bytes_lookup m a n i :
  (i < n)%nat → load_bytes m a n !! i = Some (m (a + Z.of_nat i)).
Proof.
  intros. unfold load_bytes. rewrite list_lookup_fmap, lookup_seq_lt by done. done.
Qed.

Lemma load_bytes_agree m m' a n :
  agree m m' a (Z.of_nat n) → load_bytes m' a n = load_bytes m a n.
Proof.
  intros H. apply list_eq. intros i. destruct (decide (i < n)%nat).
  - rewrite !load_bytes_lookup by done. f_equal. apply H. lia.
  - by rewrite !lookup_ge_None_2 by (rewrite length_load_bytes; lia).
Qed.

Lemma load64_agree m m' a : agree m m' a 8 → load64 m' a = load64 m a.
Proof. intros H. unfold load64. by rewrite (load_bytes_agree m m'). Qed.

Lemma store_bytes_out a bs m x :
  x < a ∨ a + Z.of_nat (length bs) ≤ x → store_bytes a bs m x = m x.
Proof.
  intros H. unfold store_bytes. bcase; (done || lia).
Qed.

Lemma store_bytes_in a bs m i b :
  bs !! i = Some b → store_bytes a bs m (a + Z.of_nat i) = b.
Proof.
  intros H. pose proof (lookup_lt_Some _ _ _ H). unfold store_bytes. bcase; try lia.
  replace (Z.to_nat (a + Z.of_nat i - a)) with i by lia. by rewrite H.
Qed.

Lemma load_store_bytes a bs m : load_bytes (store_bytes a bs m) a (length bs) = bs.
Proof.
  apply list_eq. intros i.
  destruct (decide (i < length bs)%nat) as [Hi|Hi].
  - destruct (lookup_lt_is_Some_2 _ _ Hi) as [b Hb].
    rewrite load_bytes_lookup by done. rewrite Hb. f_equal. by apply store_bytes_in.
  - by rewrite !lookup_ge_None_2 by (rewrite ?length_load_bytes; lia).
Qed.

Lemma load64_store64 a v m : 0 ≤ v < u64_max → load64 (store64 a v m) a = v.
Proof.
  intros Hv. unfold load64, store64.
  change 8%nat with (length (le_bytes 8 v)) at 2. rewrite load_store_bytes.
  apply le_val_bytes_small. exact Hv.
Qed.

Lemma store64_out a v m x : x < a ∨ a + 8 ≤ x → store64 a v m x = m x.
Proof. intros. apply store_bytes_out. rewrite length_le_bytes. lia. Qed.

Lemma load64_store64_other a b v m :
  a + 8 ≤ b ∨ b + 8 ≤ a → load64 (store64 a v m) b = load64 m b.
Proof. intros. apply load64_agree. intros x Hx. apply store64_out. lia. Qed.

Lemma memset_out a v n m x : x < a ∨ a + n ≤ x → memset a v n m x = m x.
Proof. intros. unfold memset. bcase; done || lia. Qed.

Lemma memset_in a v n m x : a ≤ x < a + n → memset a v n m x = v.
Proof.
  intros. unfold memset.
  by rewrite (proj2 (Z.leb_le _ _)), (proj2 (Z.ltb_lt _ _)) by lia.
Qed.

Lemma load64_memset_zero a n m b : a ≤ b → b + 8 ≤ a + n → load64 (memset a 0 n m) b = 0.
Proof.
  intros H1 H2. unfold load64, load_bytes.
  cbn [seq fmap list_fmap]. rewrite !memset_in by lia. reflexivity.
Qed.

Lemma load64_memset_other a v n m b :
  b + 8 ≤ a ∨ a + n ≤ b → load64 (memset a v n m) b = load64 m b.
Proof. intros. apply load64_agree. intros x Hx. apply memset_out. lia. Qed.

Lemma memcpy_out dst src n m x : x < dst ∨ dst + n ≤ x → memcpy dst src n m x = m x.
Proof. intros. unfold memcpy. bcase; done || lia. Qed.

Lemma memcpy_in dst src n m i :
  0 ≤ i < n → memcpy dst src n m (dst + i) = m (src + i).
Proof.
  intros. unfold memcpy. rewrite (proj2 (Z.leb_le _ _)), (proj2 (Z.ltb_lt _ _)) by lia.
  simpl. f_equal. lia.
Qed.

(** Memory of bytes stays so under stores of bytes. *)
Lemma memset_byte a v n m x : is_byte v → is_byte (m x) → is_byte (memset a v n m x).
Proof. intros. unfold memset. by bcase. Qed.

Lemma store_bytes_byte a l m x : Forall is_byte l → is_byte (m x) → is_byte (store_bytes a l m x).
Proof.
  intros Hl Hm. unfold store_bytes. bcase; [|done..]. destruct (l !! _) eqn:E; [|done].
  exact (Forall_lookup_1 _ _ _ _ Hl E).
Qed.

Lemma store64_byte a v m x : is_byte (m x) → is_byte (store64 a v m x).
Proof. apply store_bytes_byte, le_bytes_is_byte. Qed.

Lemma load64_bound m a : (∀ x, is_byte (m x)) → 0 ≤ load64 m a < u64_max.
Proof.
  intros H. unfold load64.
  assert (Hb : Forall is_byte (load_bytes m a 8)).
  { unfold load_bytes. apply Forall_fmap, Forall_true. intros i. apply H. }
  apply le_val_bound in Hb. rewrite length_load_bytes in Hb. exact Hb.
Qed.

End Mem.
