(* ===== verification/Kalloc.v ===== *)
(** * Physical page allocator

    crates/mm/src/kalloc.rs: a singly linked free list threaded through the
    free pages themselves. The abstract allocator is the list of free pages;
    [kinv] relates it to the words in memory. *)

From S2P Require Import Prelude Param Mmu Mem.

Module Kalloc.
Import Mmu Mem.

(** [static mut kmem], with the memory its list lives in. The [Spinlock] of
    the source is a stub whose [acquire] does nothing. *)
Record kmem_t := mkKmem {
  use_lock : bool;
  freelist : Z;
  kmem_mem : mem;
}.

Definition set_use_lock (b : bool) (k : kmem_t) : kmem_t :=
  mkKmem b (freelist k) (kmem_mem k).
Definition set_freelist (p : Z) (k : kmem_t) : kmem_t :=
  mkKmem (use_lock k) p (kmem_mem k).
Definition set_mem (m : mem) (k : kmem_t) : kmem_t :=
  mkKmem (use_lock k) (freelist k) m.

Section kalloc.
(** The linker symbol [end]: first address past the kernel image. *)
Variable kernel_end : Z.

Definition kfree (v : Z) : M kmem_t unit :=
  if negb (v mod PGSIZE =? 0) || (v <? kernel_end) || (PHYSTOP <=? V2P v)
  then panic "kfree"
  else
    modify (λ k, set_mem (memset v 1 PGSIZE (kmem_mem k)) k) ;;;
    let* k := get in
    if use_lock k then
      modify (λ k, set_mem (store64 v (freelist k) (kmem_mem k)) k) ;;;
      modify (set_freelist v)
    else
      modify (λ k, set_mem (store64 v (freelist k) (kmem_mem k)) k) ;;;
      modify (set_freelist v).

Definition kalloc : M kmem_t Z :=
  let* k := get in
  if use_lock k then
    let r := freelist k in
    if negb (r =? 0) then
      modify (λ k, set_freelist (load64 (kmem_mem k) r) k) ;;; ret r
    else panic "Out of memory!"
  else
    let r := freelist k in
    if negb (r =? 0) then
      modify (λ k, set_freelist (load64 (kmem_mem k) r) k) ;;; ret r
    else panic "Out of memory!".

Definition freerange (vstart vend : Z) : M kmem_t unit :=
  let* p := PGROUNDUP vstart in
  let* _ := whileM (Z.to_nat ((vend - vstart) / PGSIZE + 1))
              (λ p _, p + PGSIZE <=? vend)
              (λ p, kfree p ;;; ret (p + PGSIZE)) p in
  ret tt.

Definition kinit1 (vstart vend : Z) : M kmem_t unit :=
  modify (set_use_lock false) ;;;
  modify (set_freelist 0) ;;;
  freerange vstart vend.

Definition kinit2 : M kmem_t unit := modify (set_use_lock true).

(** ** Representation of the free list *)

Definition page_ok (p : Z) : Prop :=
  p mod PGSIZE = 0 ∧ kernel_end ≤ p ∧ KERNBASE ≤ p < KERNBASE + PHYSTOP.

Fixpoint list_at (m : mem) (head : Z) (l : list Z) : Prop :=
  match l with
  | [] => head = 0
  | p :: l' => head = p ∧ list_at m (load64 m p) l'
  end.

Definition kinv (k : kmem_t) (l : list Z) : Prop :=
  list_at (kmem_mem k) (freelist k) l ∧ NoDup l ∧ Forall page_ok l.

Lemma page_ok_nonzero p : page_ok p → 0 < p < u64_max.
Proof. unfold page_ok, KERNBASE, PHYSTOP, u64_max. lia. Qed.

(** The guard of [kfree] is exactly [page_ok]. *)
Lemma kfree_guard v :
  0 ≤ v < u64_max →
  negb (v mod PGSIZE =? 0) || (v <? kernel_end) || (PHYSTOP <=? V2P v) = false
  ↔ page_ok v.
Proof.
  intros Hv. unfold page_ok, V2P, as_u64, u64_max in *.
  rewrite !orb_false_iff, negb_false_iff, Z.eqb_eq, Z.ltb_ge, Z.leb_gt.
  split.
  - intros [[H1 H2] H3]. unfold KERNBASE, PHYSTOP in *. split_and!; try done.
    all: Z.to_euclidean_division_equations; lia.
  - intros (H1 & H2 & H3). split_and!; try done.
    unfold KERNBASE, PHYSTOP in *. rewrite Z.mod_small by lia. lia.
Qed.

Lemma pages_apart p q :
  p mod PGSIZE = 0 → q mod PGSIZE = 0 → p ≠ q → p + PGSIZE ≤ q ∨ q + PGSIZE ≤ p.
Proof. unfold PGSIZE. intros. Z.to_euclidean_division_equations. lia. Qed.

(** The list only depends on the first words of its pages. *)
Lemma list_at_frame m m' head l :
  Forall (λ p, agree m m' p 8) l → list_at m head l → list_at m' head l.
Proof.
  revert head. induction l as [|p l IH]; intros head Hf; [done|].
  simpl. intros [-> Hl]. apply Forall_cons in Hf as [Hp Hf].
  split; [done|]. rewrite (load64_agree m m' p Hp). by apply IH.
Qed.

(** Frame: the invariant is stable under writes outside the free pages. *)
Lemma kinv_frame k m' l :
  kinv k l → (∀ p x, p ∈ l → p ≤ x < p + PGSIZE → m' x = kmem_mem k x) →
  kinv (set_mem m' k) l.
Proof.
  intros (Hl & Hnd & Hok) Hfr. split; [|done]. simpl.
  eapply list_at_frame; [|done]. apply Forall_forall. intros p Hp x Hx.
  apply (Hfr p); [done|]. unfold PGSIZE. lia.
Qed.

(** In particular under writes inside a page that is not free. *)
Lemma kinv_page k m' l p :
  kinv k l → page_ok p → p ∉ l → (∀ x, x < p ∨ p + PGSIZE ≤ x → m' x = kmem_mem k x) → kinv (set_mem m' k) l.
Proof.
  intros Hk Hp Hn Hm. apply kinv_frame; [done|]. intros q x Hq Hx. apply Hm.
  destruct Hk as (_ & _ & Hok). pose proof (proj1 (Forall_forall _ _) Hok q Hq) as (Hqm & _).
  assert (q ≠ p) by (intros ->; done). destruct (pages_apart q p Hqm (proj1 Hp)); (done || lia).
Qed.

Lemma kfree_body k v :
  page_ok v →
  kfree v k =
  Ok (tt, mkKmem (use_lock k) v (store64 v (freelist k) (memset v 1 PGSIZE (kmem_mem k)))).
Proof.
  intros Hv. unfold kfree.
  rewrite (proj2 (kfree_guard v ltac:(pose proof (page_ok_nonzero v Hv); lia)) Hv).
  destruct k as [[] f m]; reflexivity.
Qed.

Lemma kfree_panics k v :
  0 ≤ v < u64_max → ¬ page_ok v → kfree v k = Panic "kfree".
Proof.
  intros Hv Hn. unfold kfree.
  destruct (negb _ || _ || _) eqn:E; [done|]. by apply kfree_guard in E.
Qed.

Lemma kfree_inv k v l :
  kinv k l → page_ok v → v ∉ l →
  wp (kfree v) k (λ _ k', kinv k' (v :: l) ∧ use_lock k' = use_lock k ∧
    ∀ x, x < v ∨ v + PGSIZE ≤ x → kmem_mem k' x = kmem_mem k x).
Proof.
  intros (Hl & Hnd & Hok) Hv Hni. apply wp_ok.
  do 2 eexists. split; [by apply kfree_body|]. simpl.
  assert (Hlo : 0 ≤ freelist k < u64_max).
  { destruct l as [|q l]; simpl in Hl; [rewrite Hl; unfold u64_max; lia|].
    apply Forall_cons in Hok as [Hq _]. destruct Hl as [-> _].
    pose proof (page_ok_nonzero q Hq). lia. }
  split; [|split; [done|]].
  - split; [|split; [by apply NoDup_cons|by apply Forall_cons]]. simpl. split; [done|].
    rewrite load64_store64 by done.
    eapply list_at_frame; [|done]. apply Forall_forall. intros p Hp x Hx.
    pose proof (proj1 (Forall_forall _ _) Hok p Hp) as (Hpm & _).
    assert (p ≠ v) by (intros ->; done).
    destruct (pages_apart p v Hpm (proj1 Hv)); unfold PGSIZE in *; try done.
    all: rewrite store64_out, memset_out by lia; done.
  - intros x Hx. unfold PGSIZE in *. by rewrite store64_out, memset_out by lia.
Qed.

Lemma kalloc_inv k p l :
  kinv k (p :: l) →
  kalloc k = Ok (p, set_freelist (load64 (kmem_mem k) p) k) ∧
  kinv (set_freelist (load64 (kmem_mem k) p) k) l.
Proof.
  intros ((Hh & Hl) & Hnd & Hok). apply NoDup_cons in Hnd as [Hp Hnd].
  apply Forall_cons in Hok as [Hpk Hok]. split; [|done].
  pose proof (page_ok_nonzero p Hpk).
  unfold kalloc, bind, get, modify, ret. rewrite Hh.
  assert ((p =? 0) = false) as -> by (apply Z.eqb_neq; lia). simpl.
  by destruct (use_lock k).
Qed.

Lemma kalloc_empty k : kinv k [] → kalloc k = Panic "Out of memory!".
Proof.
  intros ((* list_at *) Hh & _). simpl in Hh. unfold kalloc, bind, get. rewrite Hh.
  by destruct (use_lock k).
Qed.

(** Pages covered by [freerange]: [n] pages from [p], in the order they end up
    on the list (the last page freed is the first to be allocated). *)
Fixpoint pages_rev (p : Z) (n : nat) : list Z :=
  match n with
  | O => []
  | S n' => p + PGSIZE * Z.of_nat n' :: pages_rev p n'
  end.

Lemma elem_of_pages_rev p n q :
  q ∈ pages_rev p n ↔ ∃ i, 0 ≤ i < Z.of_nat n ∧ q = p + PGSIZE * i.
Proof.
  induction n as [|n IH]; simpl.
  - rewrite elem_of_nil. split; [done|]. intros (i & Hi & _). lia.
  - rewrite elem_of_cons, IH. split.
    + intros [->|(i & Hi & ->)]; [exists (Z.of_nat n)|exists i]; split; (lia || done).
    + intros (i & Hi & ->). destruct (decide (i = Z.of_nat n)) as [->|]; [by left|].
      right. exists i. split; [lia|done].
Qed.

Lemma pages_rev_shift p n :
  pages_rev p (S n) = pages_rev (p + PGSIZE) n ++ [p].
Proof.
  induction n as [|n IH]; [simpl; f_equal; lia|].
  change (pages_rev p (S (S n))) with (p + PGSIZE * Z.of_nat (S n) :: pages_rev p (S n)).
  rewrite IH. simpl. f_equal. lia.
Qed.

(** Only memory from [lo] to [hi] changed, and bytes are still bytes. *)
Definition filled (lo hi : Z) (k k' : kmem_t) : Prop :=
  (∀ x, x < lo ∨ hi ≤ x → kmem_mem k' x = kmem_mem k x) ∧
  ((∀ x, is_byte (kmem_mem k x)) → ∀ x, is_byte (kmem_mem k' x)).

Lemma filled_trans a b lo hi k1 k2 k3 :
  filled a b k1 k2 → filled b hi k2 k3 → lo ≤ a → a ≤ b → b ≤ hi → filled lo hi k1 k3.
Proof.
  intros [F1 B1] [F2 B2] ???. split; [|auto]. intros x Hx. by rewrite F2, F1 by lia.
Qed.

Lemma kfree_filled k v l : kinv k l → page_ok v → v ∉ l →
  wp (kfree v) k (λ _ k', kinv k' (v :: l) ∧ use_lock k' = use_lock k ∧ filled v (v + PGSIZE) k k').
Proof.
  intros Hk Hv Hn. destruct (proj1 (wp_ok _ _ _) (kfree_inv k v l Hk Hv Hn)) as ([] & k' & E & Hk' & Hu & Hf).
  eapply wp_eq; [exact E|]. split; [done|]. split; [done|]. split; [done|]. intros Hb x.
  rewrite (kfree_body k v Hv) in E. injection E as <-. cbn [kmem_mem]. by apply store64_byte, memset_byte.
Qed.

(** The loop of [freerange], from a page boundary [p] with [n] whole pages
    below [vend]. *)
Lemma freerange_loop vend n fuel p k l :
  (n ≤ fuel)%nat → p + PGSIZE * Z.of_nat n ≤ vend < p + PGSIZE * Z.of_nat n + PGSIZE →
  kinv k l → Forall page_ok (pages_rev p n) → (∀ q, q ∈ pages_rev p n → q ∉ l) →
  wp (whileM fuel (λ p _, p + PGSIZE <=? vend) (λ p, kfree p ;;; ret (p + PGSIZE)) p) k
     (λ _ k', kinv k' (pages_rev p n ++ l) ∧ use_lock k' = use_lock k ∧ filled p (p + PGSIZE * Z.of_nat n) k k').
Proof.
  revert fuel p k l. induction n as [|n IH]; intros fuel p k l Hf Hv Hk Hok Hd.
  - unfold wp. rewrite whileM_exit; [by split_and!|]. apply Z.leb_gt. unfold PGSIZE in *. lia.
  - destruct fuel as [|fuel]; [lia|].
    unfold wp. rewrite whileM_unfold by (apply Z.leb_le; unfold PGSIZE in *; lia).
    apply (wp_bind (kfree p ;;; ret (p + PGSIZE))). apply wp_bind.
    assert (Hpp : p ∈ pages_rev p (S n)).
    { apply elem_of_pages_rev. exists 0. lia. }
    assert (Hpk : page_ok p) by by apply (proj1 (Forall_forall _ _) Hok).
    eapply wp_mono.
    { apply kfree_filled; [done|done|by apply Hd]. }
    intros [] k' (Hk' & Hu & Hfill). apply wp_ret.
    rewrite pages_rev_shift in Hok, Hd |- *. apply Forall_app in Hok as [Hok _].
    eapply wp_mono; [apply (IH fuel (p + PGSIZE) k' (p :: l)); try done|].
    + lia.
    + unfold PGSIZE in *. lia.
    + intros q Hq. rewrite not_elem_of_cons. split.
      * apply elem_of_pages_rev in Hq as (i & Hi & ->). unfold PGSIZE. lia.
      * apply Hd. rewrite elem_of_app. by left.
    + simpl. rewrite <- app_assoc. simpl. intros a k'' (H1 & H2 & H3). split; [done|]. split; [congruence|].
      replace (p + PGSIZE * Z.of_nat (S n)) with (p + PGSIZE + PGSIZE * Z.of_nat n) by lia.
      eapply filled_trans; [exact Hfill|exact H3|unfold PGSIZE; lia..].
Qed.

(** ** The allocator with its clients

    [kstep]: one allocator event, with the set of pages its clients hold.
    Clients free only pages they hold and write only inside pages they hold. *)
Inductive kstep : kmem_t * list Z → kmem_t * list Z → Prop :=
| KAlloc k p k' held : kalloc k = Ok (p, k') → kstep (k, held) (k', p :: held)
| KFree k k' p h1 h2 :
    kfree p k = Ok (tt, k') → kstep (k, h1 ++ p :: h2) (k', h1 ++ h2)
| KWrite k m' held :
    (∀ x, m' x ≠ kmem_mem k x → ∃ p, p ∈ held ∧ p ≤ x < p + PGSIZE) →
    kstep (k, held) (set_mem m' k, held)
| KInit2 k k' held : kinit2 k = Ok (tt, k') → kstep (k, held) (k', held).

(** Free and held pages partition the pages [all] handed to [kinit1]. *)
Definition kheap (all : list Z) (c : kmem_t * list Z) : Prop :=
  ∃ l, kinv (fst c) l ∧ l ++ snd c ≡ₚ all ∧ NoDup all ∧ Forall page_ok all.

Lemma kheap_step all c c' : kheap all c → kstep c c' → kheap all c'.
Proof.
  intros (l & Hk & Hp & Hnd & Hok) Hs.
  assert (Hndl : NoDup (l ++ snd c)) by by rewrite Hp.
  assert (Hokl : Forall page_ok (l ++ snd c)) by by rewrite Hp.
  destruct Hs as [k p k' held Ha|k k' p h1 h2 Hf|k m' held Hw|k k' held Hi];
    simpl in *.
  - destruct l as [|q l].
    { by rewrite kalloc_empty in Ha. }
    destruct (kalloc_inv k q l Hk) as [Hq Hk']. rewrite Hq in Ha. simplify_eq.
    exists l. split; [done|]. split; [|done]. rewrite <- Hp. simpl.
    by rewrite Permutation_middle.
  - assert (Hpk : page_ok p).
    { apply (proj1 (Forall_forall _ _) Hokl). set_solver. }
    assert (Hpl : p ∉ l).
    { intros Hin. apply NoDup_app in Hndl as (_ & Hdis & _).
      apply (Hdis p Hin). set_solver. }
    pose proof (kfree_inv k p l Hk Hpk Hpl) as Hwp.
    destruct (wp_det _ _ _ _ _ Hwp Hf) as (Hk' & _).
    exists (p :: l). split; [done|]. split; [|done]. rewrite <- Hp. simpl.
    rewrite <- !Permutation_middle. done.
  - exists l. split; [|done]. apply kinv_frame; [done|].
    intros p x Hpl Hx. destruct (decide (m' x = kmem_mem k x)) as [|Hne]; [done|].
    destruct (Hw x Hne) as (q & Hq & Hqx).
    apply NoDup_app in Hndl as (_ & Hdis & _).
    assert (p ≠ q) as Hpq by (intros ->; by apply (Hdis q)).
    assert (page_ok p) as Hpp by (apply (proj1 (Forall_forall _ _) Hokl); set_solver).
    assert (page_ok q) as Hqq by (apply (proj1 (Forall_forall _ _) Hokl); set_solver).
    destruct (pages_apart p q (proj1 Hpp) (proj1 Hqq) Hpq); lia.
  - unfold kinit2, modify in Hi. simplify_eq. by exists l.
Qed.

Lemma kheap_steps all c c' : kheap all c → rtc kstep c c' → kheap all c'.
Proof. intros H Hr. induction Hr; [done|]. eauto using kheap_step. Qed.

Section range.
(** A range from [vstart] to [vend] with the [n] whole pages from [p] on. *)
Context (vstart vend p : Z) (n : nat)
  (Hp : p mod PGSIZE = 0) (Hs : 0 ≤ vstart) (Hsp : vstart ≤ p < vstart + PGSIZE)
  (Hend : kernel_end ≤ p) (Hlo : KERNBASE ≤ p)
  (Hn : p + PGSIZE * Z.of_nat n ≤ vend < p + PGSIZE * Z.of_nat n + PGSIZE)
  (Hhi : vend ≤ KERNBASE + PHYSTOP).

Lemma freerange_spec k l : kinv k l → (∀ q, q ∈ pages_rev p n → q ∉ l) →
  wp (freerange vstart vend) k (λ _ k', kinv k' (pages_rev p n ++ l) ∧ use_lock k' = use_lock k ∧ filled p vend k k').
Proof using All.
  intros Hk Hd. assert (Hvs : vstart + 4095 < u64_max).
  { unfold KERNBASE, PHYSTOP, u64_max, PGSIZE in *. lia. }
  unfold freerange. wp_auto.
  eapply wp_eq; [by apply PGROUNDUP_ok|]. cbv beta.
  replace (vstart + 4095 - (vstart + 4095) mod PGSIZE) with p
    by (unfold PGSIZE in *; Z.to_euclidean_division_equations; lia).
  apply wp_bind. eapply wp_mono.
  { eapply (freerange_loop vend n _ p _ l); [|done|done| |done].
    - unfold PGSIZE in *. apply Nat2Z.inj_le. rewrite Z2Nat.id;
        Z.to_euclidean_division_equations; lia.
    - apply Forall_forall. intros q (i & Hi & ->)%elem_of_pages_rev.
      unfold page_ok, PGSIZE in *. split_and!; try lia.
      Z.to_euclidean_division_equations; lia. }
  intros a k' (H1 & H2 & H3 & H4). apply wp_ret. split_and!; [done|done|]. split; [|done].
  intros x Hx. apply H3. lia.
Qed.

Lemma kinit1_filled k :
  wp (kinit1 vstart vend) k (λ _ k', kinv k' (pages_rev p n) ∧ use_lock k' = false ∧ filled p vend k k').
Proof using All.
  unfold kinit1. do 4 wp_step. eapply wp_mono; [apply (freerange_spec _ [])|].
  - split; [exact (eq_refl 0)|]. split; [apply NoDup_nil_2|apply Forall_nil_2].
  - intros q _. apply not_elem_of_nil.
  - intros ? k'. by rewrite app_nil_r.
Qed.

Lemma kinit1_inv k : wp (kinit1 vstart vend) k (λ _ k', kinv k' (pages_rev p n) ∧ use_lock k' = false).
Proof using All. eapply wp_mono; [apply kinit1_filled|]. naive_solver. Qed.

End range.

(** [kinit1] on a range of pages past the kernel image does not panic and
    leaves on the free list exactly the whole pages of the range, once each,
    with locking off. *)
Theorem kinit1_builds_freelist (k : kmem_t) (vstart vend p : Z) (n : nat)
    (Hp : p mod PGSIZE = 0) (Hs : 0 ≤ vstart) (Hsp : vstart ≤ p < vstart + PGSIZE)
    (Hend : kernel_end ≤ p) (Hlo : KERNBASE ≤ p)
    (Hn : p + PGSIZE * Z.of_nat n ≤ vend < p + PGSIZE * Z.of_nat n + PGSIZE)
    (Hhi : vend ≤ KERNBASE + PHYSTOP) :
  wp (kinit1 vstart vend) k (λ _ k',
    kinv k' (pages_rev p n) ∧ use_lock k' = false).
Proof. by apply kinit1_inv. Qed.

(** [kfree] of a page-aligned address of free RAM that is not already free
    pushes it on the free list, touching no other page; any other address
    panics. [kalloc] pops the head of the list, or panics when it is empty. *)
Theorem kalloc_kfree_refine_list (k : kmem_t) (l : list Z) (Hk : kinv k l) :
  (∀ v, 0 ≤ v < u64_max → ¬ page_ok v → kfree v k = Panic "kfree") ∧
  (∀ v, page_ok v → v ∉ l →
     wp (kfree v) k (λ _ k', kinv k' (v :: l) ∧ use_lock k' = use_lock k ∧
       ∀ x, x < v ∨ v + PGSIZE ≤ x → kmem_mem k' x = kmem_mem k x)) ∧
  match l with
  | [] => kalloc k = Panic "Out of memory!"
  | p :: l' => wp kalloc k (λ r k', r = p ∧ kinv k' l' ∧ kmem_mem k' = kmem_mem k)
  end.
Proof.
  split; [intros; by apply kfree_panics|].
  split; [intros; by apply kfree_inv|].
  destruct l as [|p l]; [by apply kalloc_empty|].
  destruct (kalloc_inv k p l Hk) as [E Hk']. apply wp_ok. eauto 10.
Qed.

(** C24: in every state reachable from [kinit1]'s by allocations, by frees of
    held pages and by writes of clients into the pages they hold, [kalloc]
    returns a page of the initial range that no client holds. *)
Theorem kalloc_never_aliases (all : list Z) (c c' : kmem_t * list Z) (p : Z) (k' : kmem_t)
    (Hinit : kheap all c) (Hreach : rtc kstep c c') (Ha : kalloc (fst c') = Ok (p, k')) :
  p ∈ all ∧ p ∉ snd c'.
Proof.
  destruct (kheap_steps all c c' Hinit Hreach) as (l & Hk & Hp & Hnd & Hok).
  destruct l as [|q l]; [by rewrite kalloc_empty in Ha|].
  destruct (kalloc_inv _ q l Hk) as [Hq _]. rewrite Hq in Ha. simplify_eq.
  split; [rewrite <- Hp; set_solver|].
  assert (NoDup ((p :: l) ++ snd c')) as Hndl by by rewrite Hp.
  apply NoDup_app in Hndl as (_ & Hdis & _). apply Hdis. set_solver.
Qed.

End kalloc.

(** ** Concrete instances *)

Definition mem0 : mem := λ _, 0.
Definition end0 : Z := KERNBASE + 0x200000.
Definition boot0 : kmem_t := mkKmem true 7 mem0.

Lemma kinit1_builds_freelist_witness :
  wp (kinit1 end0 (end0 + 10) (end0 + 3 * PGSIZE)) boot0 (λ _ k',
    kinv end0 k' (pages_rev (end0 + PGSIZE) 2) ∧ use_lock k' = false).
Proof.
  apply (kinit1_builds_freelist end0 boot0 (end0 + 10) (end0 + 3 * PGSIZE) (end0 + PGSIZE) 2);
    unfold end0, KERNBASE, PHYSTOP, PGSIZE; try lia; reflexivity.
Defined.

(** The state after [kinit1] of three pages, and two allocations from it. *)
Definition boot3 : kmem_t :=
  match kinit1 end0 end0 (end0 + 3 * PGSIZE) boot0 with Ok (_, k) => k | _ => boot0 end.

Lemma boot3_inv : kinv end0 boot3 (pages_rev end0 3).
Proof.
  assert (H : wp (kinit1 end0 end0 (end0 + 3 * PGSIZE)) boot0
                 (λ _ k, kinv end0 k (pages_rev end0 3) ∧ use_lock k = false)).
  { apply kinit1_inv; unfold end0, KERNBASE, PHYSTOP, PGSIZE; try lia; reflexivity. }
  apply wp_ok in H as (a & k & E & Hk & _). unfold boot3. by rewrite E.
Qed.

Lemma kalloc_kfree_refine_list_witness :
  kfree end0 0 boot3 = Panic "kfree" ∧
  wp kalloc boot3 (λ r _, r = end0 + 2 * PGSIZE).
Proof.
  destruct (kalloc_kfree_refine_list end0 boot3 _ boot3_inv) as (H1 & H2 & H3).
  split.
  - apply H1; [unfold u64_max; lia|]. unfold page_ok, end0, KERNBASE. lia.
  - eapply wp_mono; [exact H3|]. by intros r k' (-> & _).
Defined.

Lemma kalloc_never_aliases_witness :
  ∃ p k', kalloc boot3 = Ok (p, k') ∧ p ∈ pages_rev end0 3 ∧ p ∉ ([] : list Z).
Proof.
  destruct (kalloc_inv end0 boot3 _ _ boot3_inv) as [Ha _].
  do 2 eexists. split; [exact Ha|].
  refine (kalloc_never_aliases end0 (pages_rev end0 3) (boot3, []) (boot3, []) _ _ _ _ Ha);
    [|apply rtc_refl].
  pose proof boot3_inv as Hb. exists (pages_rev end0 3). simpl snd. rewrite app_nil_r.
  split; [done|]. split; [done|]. destruct Hb as (_ & ? & ?). done.
Defined.

End Kalloc.
