(* ===== verification/Sync.v ===== *)
(** * Spinlocks, interrupt nesting and sleep locks

    The spinlock shims and [pushcli]/[popcli] of kernel/src/glue.rs, and the
    sleep locks of crates/sync/src/sleeplock.rs.

    Channels are the addresses passed to [sleep] and [wakeup]; each kernel
    object that is slept on has a constructor. A call of [wakeup] by a
    component is recorded in its state as an event on the channel. *)

From S2P Require Import Prelude.

Inductive chan : Type :=
| ChBuf (i : nat)
| ChInode (i : nat)
| ChLog
| ChPipeRead (p : Z)
| ChPipeWrite (p : Z)
| ChProc (i : nat)
| ChTicks
| ChInput.

#[global] Instance chan_eq_dec : EqDecision chan.
Proof. solve_decision. Defined.

Module Sync.

(** [sync::spinlockh::spinlock]; [None] is the null [cpu] pointer. *)
Record spinlock := mkSpin {
  locked : Z;
  lname : string;
  lcpu : option nat;
}.

(** [CLI_DEPTH], [INT_ENABLED] and the processor's interrupt flag. *)
Record cli_state := mkCli {
  CLI_DEPTH : Z;
  INT_ENABLED : bool;
  cpu_if : bool;
}.

Definition pushcli : M cli_state unit :=
  let* eflags_if := gets cpu_if in
  modify (λ c, mkCli (CLI_DEPTH c) (INT_ENABLED c) false) ;;;
  let* c := get in
  (if CLI_DEPTH c =? 0
   then modify (λ c, mkCli (CLI_DEPTH c) eflags_if (cpu_if c))
   else ret tt) ;;;
  let* d := chk_i32 (CLI_DEPTH c + 1) in
  modify (λ c, mkCli d (INT_ENABLED c) (cpu_if c)).

Definition popcli : M cli_state unit :=
  let* c := get in
  let* d := chk_i32 (CLI_DEPTH c - 1) in
  modify (λ c, mkCli d (INT_ENABLED c) (cpu_if c)) ;;;
  if (d =? 0) && INT_ENABLED c
  then modify (λ c, mkCli (CLI_DEPTH c) (INT_ENABLED c) true)
  else ret tt.

Definition initlock (name : string) (lk : spinlock) : spinlock := mkSpin 0 name None.

(** The lock word and the interrupt state as one machine state. *)
Definition spin_state : Type := spinlock * cli_state.
Definition on_cli {A} (m : M cli_state A) : M spin_state A :=
  zoom snd (λ c s, (fst s, c)) m.

Definition set_locked (v : Z) (lk : spinlock) : spinlock := mkSpin v (lname lk) (lcpu lk).

Definition acquire : M spin_state unit :=
  on_cli pushcli ;;;
  modify (λ s, (set_locked 1 (fst s), snd s)).

Definition release : M spin_state unit :=
  modify (λ s, (set_locked 0 (fst s), snd s)) ;;;
  on_cli popcli.

Definition holding (lk : spinlock) : Z := if negb (locked lk =? 0) then 1 else 0.

(** ** Sleep locks *)

(** [sync::sleeplockh::sleeplock], with the [wakeup] events it has issued. *)
Record sleeplock := mkSleep {
  sl_locked : Z;
  sl_lk : spinlock;
  sl_name : string;
  sl_pid : Z;
}.

Definition initsleeplock (name : string) (lk : sleeplock) : sleeplock :=
  mkSleep 0 (initlock "sleep lock" (sl_lk lk)) name 0.

Definition set_sl_locked (v : Z) (l : sleeplock) : sleeplock :=
  mkSleep v (sl_lk l) (sl_name l) (sl_pid l).
Definition set_sl_lk (v : Z) (l : sleeplock) : sleeplock :=
  mkSleep (sl_locked l) (set_locked v (sl_lk l)) (sl_name l) (sl_pid l).
Definition set_sl_pid (v : Z) (l : sleeplock) : sleeplock :=
  mkSleep (sl_locked l) (sl_lk l) (sl_name l) v.

(** The lock together with the wakeups issued so far. The spinlock inside
    only changes its lock word here: its interrupt nesting is that of
    [acquire] and [release] above. *)
Definition sl_state : Type := sleeplock * list chan.
Definition on_lock (f : sleeplock → sleeplock) : M sl_state unit :=
  modify (λ s, (f (fst s), snd s)).
Definition sl_wakeup (c : chan) : M sl_state unit := modify (λ s, (fst s, snd s ++ [c])).

Definition acquiresleep (pid : Z) : M sl_state unit :=
  on_lock (set_sl_lk 1) ;;;
  let* s := get in
  if negb (sl_locked (fst s) =? 0) then blocked
  else
    on_lock (set_sl_locked 1) ;;;
    on_lock (set_sl_pid pid) ;;;
    on_lock (set_sl_lk 0).

Definition releasesleep (c : chan) : M sl_state unit :=
  on_lock (set_sl_lk 1) ;;;
  on_lock (set_sl_locked 0) ;;;
  on_lock (set_sl_pid 0) ;;;
  sl_wakeup c ;;;
  on_lock (set_sl_lk 0).

Definition holdingsleep : M sl_state Z :=
  on_lock (set_sl_lk 1) ;;;
  let* s := get in
  on_lock (set_sl_lk 0) ;;;
  ret (as_i32 (sl_locked (fst s))).

(** ** Interrupt nesting *)

Definition cli_ok (c : cli_state) : Prop :=
  0 ≤ CLI_DEPTH c < i32_hi ∧ (0 < CLI_DEPTH c → cpu_if c = false).

Lemma pushcli_spec c :
  cli_ok c → CLI_DEPTH c + 1 < i32_hi →
  pushcli c = Ok (tt, mkCli (CLI_DEPTH c + 1)
                        (if CLI_DEPTH c =? 0 then cpu_if c else INT_ENABLED c) false).
Proof.
  intros [[H0 H1] H2] Hlt. unfold pushcli, bind, gets, modify, get, ret. simpl.
  destruct (Z.eqb_spec (CLI_DEPTH c) 0) as [E|E]; simpl.
  all: rewrite chk_i32_ok by (unfold i32_lo; lia); done.
Qed.

Lemma popcli_spec c :
  cli_ok c → 0 < CLI_DEPTH c →
  popcli c = Ok (tt, mkCli (CLI_DEPTH c - 1) (INT_ENABLED c)
                       ((CLI_DEPTH c - 1 =? 0) && INT_ENABLED c)).
Proof.
  intros [[H0 H1] H2] Hlt. unfold popcli, bind, get, modify, ret. simpl.
  rewrite chk_i32_ok by (unfold i32_lo; lia).
  destruct (CLI_DEPTH c - 1 =? 0), (INT_ENABLED c); simpl; rewrite ?H2 by lia; done.
Qed.

(** A critical section: properly nested [acquire]/[release] pairs, on any
    locks, with anything that leaves the interrupt state alone in between. *)
Inductive nest : Type :=
| NDone
| NSeq (inner rest : nest).

Fixpoint depth (n : nest) : Z :=
  match n with
  | NDone => 0
  | NSeq a b => Z.max (1 + depth a) (depth b)
  end.

Fixpoint run_nest (n : nest) : M cli_state unit :=
  match n with
  | NDone => ret tt
  | NSeq a b => pushcli ;;; run_nest a ;;; popcli ;;; run_nest b
  end.

Lemma depth_nonneg n : 0 ≤ depth n.
Proof. induction n; simpl; lia. Qed.

Lemma run_nest_inner n c :
  0 < CLI_DEPTH c → CLI_DEPTH c + depth n < i32_hi → cpu_if c = false →
  run_nest n c = Ok (tt, c).
Proof.
  revert c. induction n as [|a IHa b IHb]; intros c Hd Hlt Hif; [done|].
  simpl in *. pose proof (depth_nonneg a). pose proof (depth_nonneg b).
  erewrite bind_ok; [|apply pushcli_spec; [split; [lia|done]|lia]].
  destruct (Z.eqb_spec (CLI_DEPTH c) 0); [lia|].
  erewrite bind_ok; [|apply IHa; simpl; [lia|lia|done]].
  erewrite bind_ok; [|apply popcli_spec; simpl; [split; simpl; [lia|done]|lia]].
  simpl. replace (CLI_DEPTH c + 1 - 1) with (CLI_DEPTH c) by lia.
  destruct (Z.eqb_spec (CLI_DEPTH c) 0); [lia|]. simpl.
  destruct c as [d ie f]. simpl in *. subst f. apply IHb; simpl; [done|lia|done].
Qed.

(** properly nested spinlock sections never underflow the nesting counter
    and leave it and the interrupt flag as they found them: interrupts come
    back on exactly when they were on before the outermost section. *)
Theorem nested_sections_restore_interrupts (n : nest) (c : cli_state)
    (Hd : CLI_DEPTH c = 0) (Hlt : depth n < i32_hi) :
  wp (run_nest n) c (λ _ c', CLI_DEPTH c' = 0 ∧ cpu_if c' = cpu_if c).
Proof.
  revert c Hd. induction n as [|a IHa b IHb]; intros c Hd; [by apply wp_ret|].
  simpl in *. pose proof (depth_nonneg a). pose proof (depth_nonneg b).
  apply wp_ok.
  erewrite bind_ok; [|apply pushcli_spec; [split; [unfold i32_hi; lia|lia]|lia]].
  rewrite Hd. simpl.
  erewrite bind_ok; [|apply run_nest_inner; simpl; [lia|lia|done]].
  erewrite bind_ok; [|apply popcli_spec; simpl; [split; simpl; [unfold i32_hi; lia|done]|lia]].
  simpl. apply wp_ok. eapply wp_mono; [apply IHb; simpl; [lia|done]|].
  simpl. intros _ c' [H1 H2]. by split.
Qed.

Lemma nested_sections_restore_interrupts_witness :
  wp (run_nest (NSeq (NSeq NDone (NSeq NDone NDone)) (NSeq NDone NDone))) (mkCli 0 false true)
     (λ _ c', CLI_DEPTH c' = 0 ∧ cpu_if c' = true).
Proof.
  apply (nested_sections_restore_interrupts _ (mkCli 0 false true)); [reflexivity|].
  vm_compute. reflexivity.
Defined.

(** ** Mutual exclusion of sleep locks *)

Lemma acquiresleep_free pid l w :
  sl_locked l = 0 →
  acquiresleep pid (l, w) = Ok (tt, (mkSleep 1 (set_locked 0 (sl_lk l)) (sl_name l) pid, w)).
Proof.
  intros H. unfold acquiresleep, bind, on_lock, modify, get. simpl. by rewrite H.
Qed.

Lemma acquiresleep_held pid l w : sl_locked l ≠ 0 → acquiresleep pid (l, w) = Blocked.
Proof.
  intros H. unfold acquiresleep, bind, on_lock, modify, get. simpl.
  by rewrite (proj2 (Z.eqb_neq _ _)).
Qed.

Lemma releasesleep_spec c l w :
  releasesleep c (l, w) =
  Ok (tt, (mkSleep 0 (set_locked 0 (sl_lk l)) (sl_name l) 0, w ++ [c])).
Proof. reflexivity. Qed.

Lemma holdingsleep_spec l w :
  holdingsleep (l, w) =
  Ok (as_i32 (sl_locked l),
      (mkSleep (sl_locked l) (set_locked 0 (sl_lk l)) (sl_name l) (sl_pid l), w)).
Proof. reflexivity. Qed.

End Sync.
