(* ===== verification/Disk.v ===== *)
(** * Buffers and block devices

    [Buf] of crates/fs/src/buf.rs, the interface the buffer cache expects of a
    disk driver ([BlockDev]), and the memory disk of
    crates/drivers/src/memide.rs as an instance of it. *)

From S2P Require Import Prelude Param Sync Mem.
Import Sync.

Definition B_VALID : Z := 0x2.
Definition B_DIRTY : Z := 0x4.

(** [Buf]. Pointers to buffers are indices into the cache's array, with the
    list head as one more index; [None] is the null [qnext]. *)
Record Buf := mkBuf {
  b_flags : Z;
  b_dev : Z;
  b_blockno : Z;
  b_lock : sleeplock;
  b_refcnt : Z;
  b_prev : nat;
  b_next : nat;
  b_qnext : option nat;
  b_data : list Z;
}.

Definition set_flags (v : Z) (b : Buf) : Buf :=
  mkBuf v (b_dev b) (b_blockno b) (b_lock b) (b_refcnt b) (b_prev b) (b_next b)
        (b_qnext b) (b_data b).
Definition set_dev (v : Z) (b : Buf) : Buf :=
  mkBuf (b_flags b) v (b_blockno b) (b_lock b) (b_refcnt b) (b_prev b) (b_next b)
        (b_qnext b) (b_data b).
Definition set_blockno (v : Z) (b : Buf) : Buf :=
  mkBuf (b_flags b) (b_dev b) v (b_lock b) (b_refcnt b) (b_prev b) (b_next b)
        (b_qnext b) (b_data b).
Definition set_lock (v : sleeplock) (b : Buf) : Buf :=
  mkBuf (b_flags b) (b_dev b) (b_blockno b) v (b_refcnt b) (b_prev b) (b_next b)
        (b_qnext b) (b_data b).
Definition set_refcnt (v : Z) (b : Buf) : Buf :=
  mkBuf (b_flags b) (b_dev b) (b_blockno b) (b_lock b) v (b_prev b) (b_next b)
        (b_qnext b) (b_data b).
Definition set_prev (v : nat) (b : Buf) : Buf :=
  mkBuf (b_flags b) (b_dev b) (b_blockno b) (b_lock b) (b_refcnt b) v (b_next b)
        (b_qnext b) (b_data b).
Definition set_next (v : nat) (b : Buf) : Buf :=
  mkBuf (b_flags b) (b_dev b) (b_blockno b) (b_lock b) (b_refcnt b) (b_prev b) v
        (b_qnext b) (b_data b).
Definition set_qnext (v : option nat) (b : Buf) : Buf :=
  mkBuf (b_flags b) (b_dev b) (b_blockno b) (b_lock b) (b_refcnt b) (b_prev b) (b_next b)
        v (b_data b).
Definition set_data (v : list Z) (b : Buf) : Buf :=
  mkBuf (b_flags b) (b_dev b) (b_blockno b) (b_lock b) (b_refcnt b) (b_prev b) (b_next b)
        (b_qnext b) v.

Definition is_valid (b : Buf) : bool := negb (Z.land (b_flags b) B_VALID =? 0).
Definition is_dirty (b : Buf) : bool := negb (Z.land (b_flags b) B_DIRTY =? 0).
Definition mark_dirty (b : Buf) : Buf := set_flags (Z.lor (b_flags b) B_DIRTY) b.
Definition mark_valid (b : Buf) : Buf := set_flags (Z.lor (b_flags b) B_VALID) b.

(** ** What the cache expects of a driver

    [iderw b d] synchronises buffer [b] with disk [d]; [blk d dev n] is the
    content of a block. A driver reads a buffer that is neither valid nor
    dirty, and writes a dirty one; the link [qnext] is the driver's own. *)
Class BlockDev (D : Type) := {
  iderw : Buf → D → outcome (Buf * D);
  blk : D → Z → Z → list Z;
  dev_ok : D → Z → Z → Prop;
  blk_length d dv bn : length (blk d dv bn) = Z.to_nat BSIZE;
  iderw_reads b d :
    dev_ok d (b_dev b) (b_blockno b) → b_flags b = 0 →
    ∃ qn d', iderw b d = Ok (set_qnext qn (set_flags B_VALID (set_data (blk d (b_dev b) (b_blockno b)) b)), d') ∧
          (∀ dv bn, blk d' dv bn = blk d dv bn) ∧ (∀ dv bn, dev_ok d' dv bn ↔ dev_ok d dv bn);
  iderw_writes b d :
    dev_ok d (b_dev b) (b_blockno b) → b_flags b = Z.lor B_VALID B_DIRTY →
    length (b_data b) = Z.to_nat BSIZE →
    ∃ qn d', iderw b d = Ok (set_qnext qn (set_flags B_VALID b), d') ∧
          (∀ dv bn, dev_ok d dv bn →
             blk d' dv bn = if bool_decide (dv = b_dev b ∧ bn = b_blockno b)
                            then b_data b else blk d dv bn) ∧
          (∀ dv bn, dev_ok d' dv bn ↔ dev_ok d dv bn);
}.

(** ** The memory disk *)

Module Memide.
Import Mem.

(** [DISKSIZE] and the bytes at [MEMDISK]. *)
Record memdisk := mkMemdisk {
  DISKSIZE : Z;
  MEMDISK : mem;
}.

(** [ideinit]: the image and its size in bytes come from the linker. *)
Definition ideinit (img : mem) (img_size : Z) : memdisk :=
  mkMemdisk (as_u32 (img_size / BSIZE)) img.

Definition iderw (b : Buf) (d : memdisk) : outcome (Buf * memdisk) :=
  if Z.land (b_flags b) (Z.lor B_VALID B_DIRTY) =? B_VALID then Panic "iderw: nothing to do"
  else if negb (b_dev b =? 1) then Panic "iderw: request not for disk 1"
  else if DISKSIZE d <=? b_blockno b then Panic "iderw: block out of range"
  else
    let p := b_blockno b * BSIZE in
    let '(b, d) :=
      if negb (Z.land (b_flags b) B_DIRTY =? 0) then
        let b := set_flags (Z.ldiff (b_flags b) B_DIRTY) b in
        (b, mkMemdisk (DISKSIZE d) (store_bytes p (b_data b) (MEMDISK d)))
      else (set_data (load_bytes (MEMDISK d) p (Z.to_nat BSIZE)) b, d) in
    Ok (set_flags (Z.lor (b_flags b) B_VALID) b, d).

Definition blk (d : memdisk) (dv bn : Z) : list Z :=
  load_bytes (MEMDISK d) (bn * BSIZE) (Z.to_nat BSIZE).
Definition dev_ok (d : memdisk) (dv bn : Z) : Prop := dv = 1 ∧ 0 ≤ bn < DISKSIZE d.

Lemma iderw_reads b d :
  dev_ok d (b_dev b) (b_blockno b) → b_flags b = 0 →
  ∃ qn d', iderw b d = Ok (set_qnext qn (set_flags B_VALID (set_data (blk d (b_dev b) (b_blockno b)) b)), d') ∧
        (∀ dv bn, blk d' dv bn = blk d dv bn) ∧ (∀ dv bn, dev_ok d' dv bn ↔ dev_ok d dv bn).
Proof.
  intros [Hd Hb] Hf. exists (b_qnext b), d. split; [|done]. unfold iderw. rewrite Hf, Hd.
  rewrite (proj2 (Z.leb_gt _ _)) by lia. simpl. unfold blk. rewrite Hf. reflexivity.
Qed.

Lemma iderw_writes b d :
  dev_ok d (b_dev b) (b_blockno b) → b_flags b = Z.lor B_VALID B_DIRTY →
  length (b_data b) = Z.to_nat BSIZE →
  ∃ qn d', iderw b d = Ok (set_qnext qn (set_flags B_VALID b), d') ∧
        (∀ dv bn, dev_ok d dv bn →
           blk d' dv bn = if bool_decide (dv = b_dev b ∧ bn = b_blockno b)
                          then b_data b else blk d dv bn) ∧
        (∀ dv bn, dev_ok d' dv bn ↔ dev_ok d dv bn).
Proof.
  intros [Hd Hb] Hf Hl.
  exists (b_qnext b), (mkMemdisk (DISKSIZE d) (store_bytes (b_blockno b * BSIZE) (b_data b) (MEMDISK d))).
  split; [|split; [|done]].
  - unfold iderw. rewrite Hf, Hd. rewrite (proj2 (Z.leb_gt _ _)) by lia. reflexivity.
  - intros dv bn [-> Hbn]. unfold blk. simpl. case_bool_decide as E.
    + destruct E as [_ ->]. rewrite <- Hl. apply load_store_bytes.
    + apply load_bytes_agree. intros x Hx. apply store_bytes_out. rewrite Hl.
      assert (bn ≠ b_blockno b) by (intros ->; by apply E).
      change (Z.of_nat (Z.to_nat BSIZE)) with 512 in *. unfold BSIZE in *. lia.
Qed.

#[global] Instance memide_dev : BlockDev memdisk := {|
  Disk.iderw := iderw;
  Disk.blk := blk;
  Disk.dev_ok := dev_ok;
  Disk.blk_length d dv bn := length_load_bytes _ _ _;
  Disk.iderw_reads := iderw_reads;
  Disk.iderw_writes := iderw_writes;
|}.

End Memide.
