(* ===== verification/Ring.v ===== *)
(** * Circular doubly linked lists

    Chains of successor pointers, for the list the buffer cache threads
    through its buffers. A list [l] hangs off a head [h] when following the
    pointers from [h] visits [l] and comes back to [h]; the backward chain
    is the forward chain of the reversed list. *)

From S2P Require Import Prelude.

(** Following [nx] from [a] visits [l] and then reaches [e]. *)
Fixpoint chain (nx : nat → nat) (a : nat) (l : list nat) (e : nat) : Prop :=
  match l with
  | [] => nx a = e
  | x :: l' => nx a = x ∧ chain nx x l' e
  end.

(** The last node before the end of the chain. *)
Definition chain_last (a : nat) (l : list nat) : nat := default a (last l).

Definition ring (nx pv : nat → nat) (h : nat) (l : list nat) : Prop :=
  chain nx h l h ∧ chain pv h (rev l) h ∧ NoDup (h :: l).

Lemma rev_reverse {A} (l : list A) : rev l = reverse l.
Proof. apply rev_alt. Qed.

Section chain.
Implicit Types nx pv : nat → nat.

Lemma chain_last_cons a x l : chain_last a (x :: l) = chain_last x l.
Proof.
  unfold chain_last. destruct l as [|y l]; [done|]. rewrite last_cons_cons.
  by destruct (last (y :: l)) eqn:E; [|apply last_None in E].
Qed.

Lemma chain_last_in a l : chain_last a l ∈ a :: l.
Proof.
  revert a. induction l as [|x l IH]; intros a.
  - unfold chain_last. simpl. set_solver.
  - rewrite chain_last_cons. set_solver.
Qed.

Lemma chain_last_snoc a l x : chain_last a (l ++ [x]) = x.
Proof. unfold chain_last. by rewrite last_snoc. Qed.

Lemma chain_ext nx nx' a l e :
  (∀ x, x ∈ a :: l → nx' x = nx x) → chain nx a l e → chain nx' a l e.
Proof.
  revert a. induction l as [|x l IH]; simpl; intros a Hx Hc.
  - rewrite Hx by set_solver. done.
  - destruct Hc as [Ha Hc]. rewrite Hx by set_solver. split; [done|].
    apply IH; [|done]. set_solver.
Qed.

Lemma chain_insert_out nx i v a l e :
  i ∉ a :: l → chain nx a l e → chain (<[i:=v]> nx) a l e.
Proof.
  intros Hi. apply chain_ext. intros x Hx. apply fn_lookup_insert_ne. set_solver.
Qed.

Lemma chain_app nx a l1 x l2 e :
  chain nx a (l1 ++ x :: l2) e ↔ chain nx a l1 x ∧ chain nx x l2 e.
Proof.
  revert a. induction l1 as [|y l1 IH]; simpl; intros a; [done|].
  rewrite IH. tauto.
Qed.

Lemma chain_end nx a l e : chain nx a l e → nx (chain_last a l) = e.
Proof.
  revert a. induction l as [|x l IH]; simpl; intros a; [done|].
  intros [_ H]. rewrite chain_last_cons. auto.
Qed.

Lemma chain_head nx a l e : chain nx a l e → nx a = default e (head l).
Proof. destruct l; simpl; [done|]. by intros [? _]. Qed.

Lemma chain_next_in nx a l e x : chain nx a l e → x ∈ a :: l → nx x ∈ e :: l.
Proof.
  revert a. induction l as [|y l IH]; simpl; intros a Hc Hx.
  - apply list_elem_of_singleton in Hx as ->. rewrite Hc. set_solver.
  - destruct Hc as [Ha Hc]. apply elem_of_cons in Hx as [->|Hx]; [rewrite Ha; set_solver|].
    specialize (IH y Hc Hx). set_solver.
Qed.

(** Retarget the end of a chain. *)
Lemma chain_retarget nx a l e e' :
  NoDup (a :: l) → chain nx a l e → chain (<[chain_last a l := e']> nx) a l e'.
Proof.
  revert a. induction l as [|x l IH]; simpl; intros a Hnd Hc.
  - unfold chain_last; simpl. apply fn_lookup_insert.
  - destruct Hc as [Ha Hc]. apply NoDup_cons in Hnd as [Hn Hnd].
    rewrite chain_last_cons. split; [|by apply IH].
    rewrite fn_lookup_insert_ne; [done|].
    intros E. apply Hn. rewrite <- E. apply chain_last_in.
Qed.

(** Unlinking a node. *)
Lemma chain_unlink nx a l1 i l2 e :
  NoDup (a :: l1 ++ i :: l2) → chain nx a (l1 ++ i :: l2) e →
  chain (<[chain_last a l1 := nx i]> nx) a (l1 ++ l2) e.
Proof.
  intros Hnd Hc. apply chain_app in Hc as [H1 H2].
  assert (Hnd1 : NoDup (a :: l1)).
  { rewrite app_comm_cons in Hnd. by apply NoDup_app in Hnd as [? _]. }
  assert (Hd : ∀ x, x ∈ a :: l1 → x ∉ i :: l2).
  { rewrite app_comm_cons in Hnd. by apply NoDup_app in Hnd as (_ & ? & _). }
  pose proof (chain_last_in a l1) as Hl.
  destruct l2 as [|y l2]; simpl in H2.
  - rewrite app_nil_r. rewrite <- H2. by eapply chain_retarget.
  - destruct H2 as [Hi H2]. rewrite Hi. apply chain_app. split.
    + by eapply chain_retarget.
    + apply chain_insert_out; [|done]. specialize (Hd _ Hl). set_solver.
Qed.

(** Linking a node at the front, and at the end. *)
Lemma chain_push nx a i l e :
  i ∉ a :: l → a ∉ l → chain nx a l e → chain (<[a:=i]> (<[i:=nx a]> nx)) a (i :: l) e.
Proof.
  intros Hi Ha Hc. simpl. rewrite fn_lookup_insert. split; [done|].
  assert (a ≠ i) by set_solver.
  destruct l as [|x l]; simpl in *.
  - rewrite fn_lookup_insert_ne, fn_lookup_insert by done. done.
  - destruct Hc as [Hx Hc].
    rewrite fn_lookup_insert_ne, fn_lookup_insert by done. split; [done|].
    apply chain_insert_out; [set_solver|]. apply chain_insert_out; [set_solver|]. done.
Qed.

Lemma chain_snoc nx a i l e :
  i ∉ a :: l → NoDup (a :: l) → chain nx a l e →
  chain (<[chain_last a l := i]> (<[i:=e]> nx)) a (l ++ [i]) e.
Proof.
  intros Hi Hnd Hc. apply chain_app. split.
  - eapply chain_retarget; [done|]. by apply chain_insert_out.
  - simpl. rewrite fn_lookup_insert_ne, fn_lookup_insert; [done|].
    intros E. apply Hi. rewrite <- E. apply chain_last_in.
Qed.

(** Moving a node of a ring to the front, by the six assignments of the
    source: unlink it, then link it after the head. *)
Lemma ring_move_front nx pv h l1 i l2 :
  ring nx pv h (l1 ++ i :: l2) →
  let pv1 := <[nx i := pv i]> pv in
  let nx1 := <[pv1 i := nx i]> nx in
  let nx2 := <[i := nx1 h]> nx1 in
  let pv2 := <[i := h]> pv1 in
  let pv3 := <[nx2 h := i]> pv2 in
  let nx3 := <[h := i]> nx2 in
  ring nx3 pv3 h (i :: l1 ++ l2).
Proof.
  intros (Hf & Hb & Hnd). cbv zeta.
  assert (Hi : i ∉ h :: l1 ++ l2 ∧ NoDup (h :: l1 ++ l2)).
  { apply NoDup_cons in Hnd as [Hh Hnd]. apply NoDup_app in Hnd as (N1 & N12 & N2).
    apply NoDup_cons in N2 as [Ni N2]. split; [set_solver|].
    apply NoDup_cons. split; [set_solver|]. apply NoDup_app. set_solver. }
  destruct Hi as [Hi Hnd'].
  rewrite rev_app_distr in Hb. simpl in Hb. rewrite <- app_assoc in Hb. simpl in Hb.
  pose proof Hf as Hf'. apply chain_app in Hf' as [Hf1 Hf2].
  pose proof Hb as Hb'. apply chain_app in Hb' as [Hb2 Hb1].
  (* the neighbours of [i] *)
  assert (Hp : pv i = chain_last h l1).
  { apply chain_head in Hb1. rewrite Hb1. unfold chain_last.
    by rewrite rev_reverse, head_reverse. }
  assert (Hn : nx i = chain_last h (rev l2)).
  { apply chain_head in Hf2. rewrite Hf2. unfold chain_last.
    by rewrite rev_reverse, last_reverse. }
  assert (Hni : nx i ≠ i).
  { rewrite Hn. intros E. apply Hi. rewrite <- E.
    pose proof (chain_last_in h (rev l2)) as Hl. rewrite rev_reverse in *.
    rewrite elem_of_cons, elem_of_reverse in Hl. set_solver. }
  rewrite (fn_lookup_insert_ne pv) by done.
  set (nx1 := <[pv i := nx i]> nx). set (pv1 := <[nx i := pv i]> pv).
  assert (Hf1' : chain nx1 h (l1 ++ l2) h).
  { unfold nx1. rewrite Hp. by apply chain_unlink. }
  assert (Hb1' : chain pv1 h (rev (l1 ++ l2)) h).
  { unfold pv1. rewrite Hn, rev_app_distr. apply chain_unlink; [|done].
    rewrite !rev_reverse. apply NoDup_cons. apply NoDup_cons in Hnd as [Hh Hnd].
    split; [set_solver|].
    rewrite !reverse_Permutation, (Permutation_app_comm l2). simpl.
    by rewrite Permutation_middle. }
  assert (Hh : h ≠ i) by set_solver.
  assert (Hl : nx1 h = chain_last h (rev (l1 ++ l2))).
  { apply chain_head in Hf1'. rewrite Hf1'. unfold chain_last.
    by rewrite rev_reverse, last_reverse. }
  rewrite (fn_lookup_insert_ne nx1) by done.
  split_and!.
  - apply chain_push; [done| |done]. by apply NoDup_cons in Hnd' as [? _].
  - change (i :: l1 ++ l2) with ([i] ++ (l1 ++ l2)). rewrite rev_app_distr. simpl rev at 2.
    rewrite Hl. apply chain_snoc; [|by rewrite rev_reverse, reverse_Permutation|done].
    rewrite rev_reverse. set_solver.
  - apply NoDup_cons in Hnd' as [? ?]. rewrite !NoDup_cons. set_solver.
Qed.

(** The ring of one more node linked after the head of a ring. *)
Lemma ring_link_front nx pv h i l :
  i ∉ h :: l → ring nx pv h l →
  let nx1 := <[i := nx h]> nx in
  let pv1 := <[i := h]> pv in
  let pv2 := <[nx1 h := i]> pv1 in
  let nx2 := <[h := i]> nx1 in
  ring nx2 pv2 h (i :: l).
Proof.
  intros Hi (Hf & Hb & Hnd). cbv zeta. assert (Hh : h ≠ i) by set_solver.
  assert (Hl : nx h = chain_last h (rev l)).
  { apply chain_head in Hf. rewrite Hf. unfold chain_last. by rewrite rev_reverse, last_reverse. }
  rewrite (fn_lookup_insert_ne nx) by done. split_and!.
  - apply chain_push; [done| |done]. by apply NoDup_cons in Hnd as [? _].
  - change (i :: l) with ([i] ++ l). rewrite rev_app_distr, Hl. simpl rev at 2.
    apply chain_snoc; [|by rewrite rev_reverse, reverse_Permutation|done].
    rewrite rev_reverse. set_solver.
  - apply NoDup_cons in Hnd as [? ?]. rewrite !NoDup_cons. set_solver.
Qed.

End chain.
