(* ===== verification/Bio.v ===== *)
(** * Buffer cache

    crates/fs/src/bio.rs: [NBUF] buffers on a circular list in least recently
    used order, each with a sleep lock and a reference count, over any block
    device.

    The implementation state is [bio]; the promise to the layers above is the
    abstract state [cache]: a disk, a view of the blocks that is newer than
    the disk on dirty and on held blocks only, and the set of held buffers.
    [bio_abs] relates the two and every operation preserves it. *)

From S2P Require Import Prelude Param Sync Disk Ring.
Import Sync.

Module Bio.

(** The list head is one more buffer after the [NBUF] of the array. *)
Definition HEAD : nat := Z.to_nat NBUF.
Lemma HEAD_eq : HEAD = Z.to_nat NBUF.
Proof. reflexivity. Qed.
#[global] Opaque HEAD.

Section bio.
Context {D : Type} `{!BlockDev D}.

(** [Bcache], the disk behind it, the running process's pid, the wakeups
    issued, and, as ghost state, the disk after each block write. *)
Record bio := mkBio {
  bc_lock : spinlock;
  bufs : list Buf;
  disk : D;
  cur_pid : Z;
  bwakes : list chan;
  dhist : list D;
}.

Definition set_bc_lock (v : Z) (s : bio) : bio :=
  mkBio (set_locked v (bc_lock s)) (bufs s) (disk s) (cur_pid s) (bwakes s) (dhist s).
Definition set_bufs (v : list Buf) (s : bio) : bio :=
  mkBio (bc_lock s) v (disk s) (cur_pid s) (bwakes s) (dhist s).

Definition buf_at (i : nat) : M bio Buf :=
  let* s := get in expect "wild buffer pointer" (bufs s !! i).
Definition on_buf (i : nat) (f : Buf → Buf) : M bio unit :=
  modify (λ s, set_bufs (alter f i (bufs s)) s).

(** Run a sleep-lock operation on the lock of buffer [i]. *)
Definition with_lock {A} (i : nat) (m : M sl_state A) : M bio A := λ s,
  match bufs s !! i with
  | None => Panic "wild buffer pointer"
  | Some b =>
      match m (b_lock b, bwakes s) with
      | Ok (a, (l, w)) =>
          Ok (a, mkBio (bc_lock s) (alter (set_lock l) i (bufs s)) (disk s) (cur_pid s) w (dhist s))
      | Panic e => Panic e
      | Blocked => Blocked
      | NoFuel => NoFuel
      end
  end.

(** Run the driver on buffer [i]. *)
Definition disk_rw (i : nat) : M bio unit := λ s,
  match bufs s !! i with
  | None => Panic "wild buffer pointer"
  | Some b =>
      match iderw b (disk s) with
      | Ok (b', d') =>
          Ok (tt, mkBio (bc_lock s) (<[i := b']> (bufs s)) d' (cur_pid s) (bwakes s) (dhist s))
      | Panic e => Panic e
      | Blocked => Blocked
      | NoFuel => NoFuel
      end
  end.
Definition note_write : M bio unit := modify (λ s,
  mkBio (bc_lock s) (bufs s) (disk s) (cur_pid s) (bwakes s) (dhist s ++ [disk s])).

Definition init : M bio unit :=
  modify (λ s, mkBio (initlock "bcache" (bc_lock s)) (bufs s) (disk s) (cur_pid s)
                     (bwakes s) (dhist s)) ;;;
  on_buf HEAD (set_prev HEAD) ;;;
  on_buf HEAD (set_next HEAD) ;;;
  forM (seq 0 (Z.to_nat NBUF)) (λ b,
    let* h := buf_at HEAD in
    on_buf b (set_next (b_next h)) ;;;
    on_buf b (set_prev HEAD) ;;;
    on_buf b (λ x, set_lock (initsleeplock "buffer" (b_lock x)) x) ;;;
    let* h := buf_at HEAD in
    on_buf (b_next h) (set_prev b) ;;;
    on_buf HEAD (set_next b)).

(** Walk the list from [b] in direction [dir] up to the head; the first
    buffer satisfying [p]. *)
Fixpoint scan (fuel : nat) (p : Buf → bool) (dir : Buf → nat) (b : nat) : M bio (option nat) :=
  match fuel with
  | O => nofuel
  | S fuel' =>
      if (b =? HEAD)%nat then ret None
      else
        let* x := buf_at b in
        if p x then ret (Some b) else scan fuel' p dir (dir x)
  end.
Definition scan_fuel : nat := S (Z.to_nat NBUF).

Definition lock_buf (b : nat) : M bio unit :=
  let* s := get in with_lock b (acquiresleep (cur_pid s)).

Definition get_buf (dev blockno : Z) : M bio nat :=
  modify (set_bc_lock 1) ;;;
  let* h := buf_at HEAD in
  let* r := scan scan_fuel (λ b, (b_dev b =? dev) && (b_blockno b =? blockno)) b_next (b_next h) in
  match r with
  | Some b =>
      let* x := buf_at b in
      let* n := chk_u32 (b_refcnt x + 1) in
      on_buf b (set_refcnt n) ;;;
      modify (set_bc_lock 0) ;;;
      lock_buf b ;;;
      ret b
  | None =>
      let* h := buf_at HEAD in
      let* r := scan scan_fuel (λ b, (b_refcnt b =? 0) && (Z.land (b_flags b) B_DIRTY =? 0))
                     b_prev (b_prev h) in
      match r with
      | Some b =>
          on_buf b (set_dev dev) ;;;
          on_buf b (set_blockno blockno) ;;;
          on_buf b (set_flags 0) ;;;
          on_buf b (set_refcnt 1) ;;;
          modify (set_bc_lock 0) ;;;
          lock_buf b ;;;
          ret b
      | None => panic "bget: no buffers"
      end
  end.

Definition read (dev blockno : Z) : M bio nat :=
  let* b := get_buf dev blockno in
  let* x := buf_at b in
  (if negb (is_valid x) then disk_rw b else ret tt) ;;;
  ret b.

Definition write (b : nat) : M bio unit :=
  let* h := with_lock b holdingsleep in
  if h =? 0 then panic "bwrite"
  else
    on_buf b mark_dirty ;;;
    disk_rw b ;;;
    note_write.

Definition release_buf (b : nat) : M bio unit :=
  let* h := with_lock b holdingsleep in
  if h =? 0 then panic "brelse"
  else
    with_lock b (releasesleep (ChBuf b)) ;;;
    modify (set_bc_lock 1) ;;;
    let* x := buf_at b in
    let* n := chk_u32 (b_refcnt x - 1) in
    on_buf b (set_refcnt n) ;;;
    (if n =? 0 then
       let* x := buf_at b in on_buf (b_next x) (set_prev (b_prev x)) ;;;
       let* x := buf_at b in on_buf (b_prev x) (set_next (b_next x)) ;;;
       let* h := buf_at HEAD in on_buf b (set_next (b_next h)) ;;;
       on_buf b (set_prev HEAD) ;;;
       let* h := buf_at HEAD in on_buf (b_next h) (set_prev b) ;;;
       on_buf HEAD (set_next b)
     else ret tt) ;;;
    modify (set_bc_lock 0).

(** The [extern "C"] names. *)
Definition binit : M bio unit := init.
Definition bread (dev blockno : Z) : M bio nat := read dev blockno.
Definition bwrite (b : nat) : M bio unit :=
  let* h := with_lock b holdingsleep in
  if h =? 0 then panic "bwrite"
  else
    on_buf b (λ x, set_flags (Z.lor (b_flags x) B_DIRTY) x) ;;;
    disk_rw b ;;;
    note_write.
Definition brelse (b : nat) : M bio unit := release_buf b.

(** ** The abstract cache *)

Definition key (b : Buf) : Z * Z := (b_dev b, b_blockno b).

(** [c_disk] is the disk, [c_view] what readers see; [c_dirty] the blocks
    kept from eviction until they are written, [c_held] the buffers handed
    out and their blocks, [c_hist] the disk after each block write. *)
Record cache := mkCache {
  c_ok : Z * Z → Prop;
  c_disk : Z * Z → list Z;
  c_view : Z * Z → list Z;
  c_dirty : gset (Z * Z);
  c_held : gmap nat (Z * Z);
  c_hist : list (Z * Z → list Z);
}.

Definition link (dir : Buf → nat) (bs : list Buf) (i : nat) : nat :=
  from_option dir O (bs !! i).

Record bufs_shape (bs : list Buf) (order : list nat) : Prop := {
  shape_length : length bs = S HEAD;
  shape_ring : ring (link b_next bs) (link b_prev bs) HEAD order;
  shape_all : order ≡ₚ seq 0 HEAD;
}.

(** What a buffer [b] of index [i] holds. *)
Record buf_ok (a : cache) (i : nat) (b : Buf) : Prop := {
  ok_data : length (b_data b) = Z.to_nat BSIZE;
  ok_flags : b_flags b = 0 ∨ b_flags b = B_VALID ∨ b_flags b = Z.lor B_VALID B_DIRTY;
  ok_ref : b_refcnt b = match c_held a !! i with Some _ => 1 | None => 0 end;
  ok_lock : sl_locked (b_lock b) = match c_held a !! i with Some _ => 1 | None => 0 end;
  ok_held k : c_held a !! i = Some k → key b = k ∧ b_flags b ≠ 0;
  ok_used : b_flags b ≠ 0 → 0 < b_dev b ∧ c_ok a (key b) ∧ b_data b = c_view a (key b);
  ok_dirty : b_flags b = Z.lor B_VALID B_DIRTY → key b ∈ c_dirty a;
}.

Record bufs_ok (bs : list Buf) (a : cache) : Prop := {
  bs_ok i b : (i < HEAD)%nat → bs !! i = Some b → buf_ok a i b;
  bs_unique i j b c :
    (i < HEAD)%nat → (j < HEAD)%nat → bs !! i = Some b → bs !! j = Some c →
    key b = key c → b_dev b ≠ 0 → i = j;
  bs_dirty k : k ∈ c_dirty a →
    ∃ i b, (i < HEAD)%nat ∧ bs !! i = Some b ∧ key b = k ∧ b_flags b = Z.lor B_VALID B_DIRTY;
  bs_held i k : c_held a !! i = Some k → (i < HEAD)%nat;
}.

Record disk_ok (d : D) (h : list D) (a : cache) : Prop := {
  dk_ok k : c_ok a k ↔ dev_ok d (fst k) (snd k);
  dk_blk k : c_ok a k → blk d (fst k) (snd k) = c_disk a k;
  dk_view k : c_ok a k → k ∉ c_dirty a → (∀ i, c_held a !! i ≠ Some k) → c_view a k = c_disk a k;
  dk_hist : Forall2 (λ d' f, (∀ k, c_ok a k ↔ dev_ok d' (fst k) (snd k)) ∧
              ∀ k, c_ok a k → blk d' (fst k) (snd k) = f k) h (c_hist a);
}.

Record bio_abs (s : bio) (a : cache) : Prop := {
  ba_shape : ∃ order, bufs_shape (bufs s) order;
  ba_bufs : bufs_ok (bufs s) a;
  ba_disk : disk_ok (disk s) (dhist s) a;
}.

(** ** The list of buffers *)

Lemma link_lookup dir bs i b : bs !! i = Some b → link dir bs i = dir b.
Proof. unfold link. by intros ->. Qed.

Lemma link_alter_next bs i v x :
  (i < length bs)%nat →
  link b_next (alter (set_next v) i bs) x = (<[i:=v]> (link b_next bs)) x ∧
  link b_prev (alter (set_next v) i bs) x = link b_prev bs x.
Proof.
  intros Hi. destruct (lookup_lt_is_Some_2 _ _ Hi) as [b Hb]. unfold link.
  destruct (decide (i = x)) as [->|Hne].
  - rewrite fn_lookup_insert, list_lookup_alter_eq, Hb. done.
  - by rewrite fn_lookup_insert_ne, list_lookup_alter_ne by done.
Qed.

Lemma link_alter_prev bs i v x :
  (i < length bs)%nat →
  link b_prev (alter (set_prev v) i bs) x = (<[i:=v]> (link b_prev bs)) x ∧
  link b_next (alter (set_prev v) i bs) x = link b_next bs x.
Proof.
  intros Hi. destruct (lookup_lt_is_Some_2 _ _ Hi) as [b Hb]. unfold link.
  destruct (decide (i = x)) as [->|Hne].
  - rewrite fn_lookup_insert, list_lookup_alter_eq, Hb. done.
  - by rewrite fn_lookup_insert_ne, list_lookup_alter_ne by done.
Qed.

Lemma ring_ext nx pv nx' pv' h l :
  (∀ x, nx' x = nx x) → (∀ x, pv' x = pv x) → ring nx pv h l → ring nx' pv' h l.
Proof.
  intros Hn Hp (H1 & H2 & H3). split_and!; [..|done].
  - eapply chain_ext; [|done]. auto.
  - eapply chain_ext; [|done]. auto.
Qed.

(** A change of a buffer that keeps its links keeps the list. *)
Lemma shape_insert bs order i b b' :
  bs !! i = Some b → b_next b' = b_next b → b_prev b' = b_prev b →
  bufs_shape bs order → bufs_shape (<[i:=b']> bs) order.
Proof.
  intros Hb Hn Hp [Hl Hr Ha]. split; [by rewrite length_insert| |done].
  assert (Hi : (i < length bs)%nat) by (by eapply lookup_lt_Some).
  eapply ring_ext; [..|exact Hr]; intros x; unfold link;
    (destruct (decide (i = x)) as [->|Hne];
     [by rewrite list_lookup_insert_eq, Hb by done|by rewrite list_lookup_insert_ne]).
Qed.

(** The pure result of a walk. *)
Definition first_match (bs : list Buf) (p : Buf → bool) (l : list nat) : option nat :=
  List.find (λ i, match bs !! i with Some b => p b | None => false end) l.

Lemma scan_spec fuel p dir a l s :
  chain (link dir (bufs s)) a l HEAD →
  Forall (λ i, i ≠ HEAD ∧ is_Some (bufs s !! i)) l →
  (length l < fuel)%nat →
  scan fuel p dir (link dir (bufs s) a) s = Ok (first_match (bufs s) p l, s).
Proof.
  revert a l. induction fuel as [|fuel IH]; intros a l Hc Hl Hf; [lia|].
  destruct l as [|x l]; simpl in Hc.
  - rewrite Hc. cbn [scan]. by rewrite Nat.eqb_refl.
  - destruct Hc as [Ha Hc]. apply Forall_cons in Hl as [[Hx [b Hb]] Hl].
    rewrite Ha. cbn [scan]. rewrite (proj2 (Nat.eqb_neq _ _)) by done.
    unfold bind, buf_at, get, expect. cbn -[HEAD scan]. rewrite Hb. cbn -[HEAD scan].
    destruct (p b); [done|]. rewrite <- (link_lookup dir _ _ _ Hb).
    apply IH; [done..|simpl in Hf; lia].
Qed.

(** ** Symbolic execution of the primitives *)

Lemma wp_buf_at i b s (Q : Buf → bio → Prop) :
  bufs s !! i = Some b → Q b s → wp (buf_at i) s Q.
Proof. intros Hb HQ. unfold wp, buf_at, bind, get, expect. by rewrite Hb. Qed.

Lemma wp_on_buf i f b s (Q : unit → bio → Prop) :
  bufs s !! i = Some b → Q tt (set_bufs (<[i := f b]> (bufs s)) s) → wp (on_buf i f) s Q.
Proof.
  intros Hb HQ. unfold wp, on_buf, modify. by rewrite (alter_is_insert _ _ _ _ Hb).
Qed.

Lemma wp_lock_buf i b s (Q : unit → bio → Prop) :
  bufs s !! i = Some b → sl_locked (b_lock b) = 0 →
  Q tt (set_bufs (<[i := set_lock (mkSleep 1 (set_locked 0 (sl_lk (b_lock b)))
                                    (sl_name (b_lock b)) (cur_pid s)) b]> (bufs s)) s) →
  wp (lock_buf i) s Q.
Proof.
  intros Hb Hl HQ. unfold wp, lock_buf, bind, get, with_lock. rewrite Hb.
  rewrite acquiresleep_free by done. by rewrite (alter_is_insert _ _ _ _ Hb).
Qed.

Lemma lookup_insert_self (bs : list Buf) i b b' : bs !! i = Some b → <[i:=b']> bs !! i = Some b'.
Proof. intros. apply list_lookup_insert_eq. by eapply lookup_lt_Some. Qed.

Lemma first_match_Some bs p l i :
  first_match bs p l = Some i → i ∈ l ∧ ∃ b, bs !! i = Some b ∧ p b = true.
Proof.
  intros H. apply find_some in H as [Hi Hp]. split; [by apply list_elem_of_In|].
  destruct (bs !! i) as [b|]; [|done]. eauto.
Qed.

Lemma first_match_None bs p l i b :
  first_match bs p l = None → i ∈ l → bs !! i = Some b → p b = false.
Proof.
  intros H Hi Hb. pose proof (find_none _ _ H i) as Hn. simpl in Hn. rewrite Hb in Hn.
  apply Hn. by apply list_elem_of_In.
Qed.

Lemma first_match_ext bs p q l : (∀ b, p b = q b) → first_match bs p l = first_match bs q l.
Proof.
  intros H. unfold first_match. induction l as [|i l IH]; simpl; [done|].
  destruct (bs !! i) as [b|]; [rewrite H|]; by rewrite IH.
Qed.

Lemma shape_lookup bs order i :
  bufs_shape bs order → (i ≤ HEAD)%nat → ∃ b, bs !! i = Some b.
Proof. intros [Hl _ _] Hi. apply lookup_lt_is_Some_2. lia. Qed.

Lemma shape_order bs order i : bufs_shape bs order → i ∈ order ↔ (i < HEAD)%nat.
Proof. intros [_ _ Ha]. rewrite Ha, elem_of_seq. lia. Qed.

(** Either walk of [get_buf] visits the whole list. *)
Lemma scan_fwd s order p h :
  bufs_shape (bufs s) order → bufs s !! HEAD = Some h →
  scan scan_fuel p b_next (b_next h) s = Ok (first_match (bufs s) p order, s).
Proof.
  intros Hs Hh. rewrite <- (link_lookup b_next _ _ _ Hh). apply scan_spec.
  - apply Hs.
  - apply Forall_forall. intros i Hi. apply (shape_order _ _ _ Hs) in Hi.
    split; [lia|]. destruct (shape_lookup _ _ i Hs) as [b Hb]; [lia|]. by rewrite Hb.
  - rewrite (shape_all _ _ Hs), length_seq. unfold scan_fuel. rewrite HEAD_eq. lia.
Qed.

Lemma scan_bwd s order p h :
  bufs_shape (bufs s) order → bufs s !! HEAD = Some h →
  scan scan_fuel p b_prev (b_prev h) s = Ok (first_match (bufs s) p (rev order), s).
Proof.
  intros Hs Hh. rewrite <- (link_lookup b_prev _ _ _ Hh). apply scan_spec.
  - apply Hs.
  - apply Forall_forall. intros i Hi. rewrite rev_reverse, elem_of_reverse in Hi.
    apply (shape_order _ _ _ Hs) in Hi.
    split; [lia|]. destruct (shape_lookup _ _ i Hs) as [b Hb]; [lia|]. by rewrite Hb.
  - rewrite length_rev, (shape_all _ _ Hs), length_seq. unfold scan_fuel. rewrite HEAD_eq. lia.
Qed.

(** The blocks that pin a buffer: dirty ones and those handed out. *)
Definition in_use (a : cache) : gset (Z * Z) := c_dirty a ∪ map_img (c_held a).

(** Counting: as long as fewer than [NBUF] blocks are in use, some buffer can
    be recycled. *)
Lemma room_exists bs order a :
  bufs_shape bs order → bufs_ok bs a → (size (in_use a) < HEAD)%nat →
  ∃ i b, (i < HEAD)%nat ∧ bs !! i = Some b ∧ b_refcnt b = 0 ∧ Z.land (b_flags b) B_DIRTY = 0.
Proof.
  intros Hs Hb Hroom.
  set (free i := from_option (λ b, (b_refcnt b =? 0) && (Z.land (b_flags b) B_DIRTY =? 0))
                   false (bs !! i)).
  destruct (List.find free (seq 0 HEAD)) as [i|] eqn:Hf.
  { apply find_some in Hf as [Hi Hp]. apply list_elem_of_In, elem_of_seq in Hi.
    unfold free in Hp. destruct (bs !! i) as [b|] eqn:E; [|done]. simpl in Hp. b2p.
    exists i, b. repeat split; (done || lia). }
  exfalso.
  assert (Hall : ∀ i b, (i < HEAD)%nat → bs !! i = Some b → key b ∈ in_use a ∧ b_dev b ≠ 0).
  { intros i b Hi E. pose proof (find_none _ _ Hf i) as Hn. unfold free in Hn.
    rewrite E in Hn. simpl in Hn. specialize (Hn ltac:(apply list_elem_of_In, elem_of_seq; lia)).
    destruct (bs_ok _ _ Hb i b Hi E) as [_ Hfl Hr _ Hh Hu Hd]. unfold in_use.
    destruct (c_held a !! i) as [k|] eqn:Eh.
    - destruct (Hh _ eq_refl) as [-> Hnz]. destruct (Hu Hnz) as [? _]. split; [|lia].
      apply elem_of_union_r. by eapply elem_of_map_img_2.
    - rewrite Hr in Hn. destruct Hfl as [Hz|[Hz|Hz]]; rewrite Hz in *; try done.
      split; [apply elem_of_union_l; auto|]. assert (0 < b_dev b) by (by apply Hu). lia. }
  set (kof i := from_option key (0, 0) (bs !! i)).
  assert (H2 : (length (kof <$> seq 0 HEAD) ≤ size (in_use a))%nat).
  { assert (Hat : ∀ i, i ∈ seq 0 HEAD → ∃ b, (i < HEAD)%nat ∧ bs !! i = Some b).
    { intros i Hi%elem_of_seq. destruct (shape_lookup _ _ i Hs) as [b ?]; [lia|].
      exists b. split; [lia|done]. }
    apply NoDup_length_le_size.
    - apply NoDup_fmap_2_strong; [|apply NoDup_seq].
      intros i j (b & ? & E)%Hat (c & ? & E')%Hat. unfold kof. rewrite E, E'. simpl.
      intros Hk. eapply (bs_unique _ _ Hb); eauto. by apply (Hall i b).
    - intros k (i & -> & Hi)%list_elem_of_fmap. destruct (Hat i Hi) as (b & ? & E).
      unfold kof. rewrite E. by apply (Hall i b). }
  rewrite length_fmap, length_seq in H2. lia.
Qed.

(** ** Looking a block up *)

(** What [get_buf] does to the buffers: one unheld buffer [i] becomes
    referenced and locked; it is the buffer of the block, or, when the block
    is not cached, a recycled clean one. *)
Record got (s s' : bio) (a : cache) (k : Z * Z) (i : nat) (b b' : Buf) : Prop := {
  got_i : (i < HEAD)%nat;
  got_unheld : c_held a !! i = None;
  got_old : bufs s !! i = Some b;
  got_new : bufs s' = <[i := b']> (bufs s);
  got_links : b_next b' = b_next b ∧ b_prev b' = b_prev b;
  got_key : key b' = k;
  got_ref : b_refcnt b' = 1;
  got_lock : sl_locked (b_lock b') = 1;
  got_data : b_data b' = b_data b;
  got_case :
    (key b = k ∧ b_flags b' = b_flags b) ∨
    ((∀ j c, (j < HEAD)%nat → bufs s !! j = Some c → key c ≠ k) ∧
     b_flags b' = 0 ∧ b_flags b ≠ Z.lor B_VALID B_DIRTY);
  got_disk : disk s' = disk s ∧ dhist s' = dhist s ∧ cur_pid s' = cur_pid s;
}.

Ltac buf_step :=
  first [ wp_step; cbv beta
        | eapply wp_buf_at; [by (eassumption || eapply lookup_insert_self; eassumption)|]
        | eapply wp_on_buf; [by (eassumption || eapply lookup_insert_self; eassumption)|]
        | eapply wp_eq; [apply chk_u32_ok; unfold u32_max; lia|] ].

Lemma get_buf_spec s a dv bn :
  bio_abs s a → 0 < dv → (∀ i, c_held a !! i ≠ Some (dv, bn)) →
  ((dv, bn) ∈ c_dirty a ∨ (size (in_use a) < HEAD)%nat) →
  wp (get_buf dv bn) s (λ i s', ∃ b b', got s s' a (dv, bn) i b b').
Proof.
  intros [[order Hs] Hb Hd] Hdv Hnh Hroom.
  destruct (shape_lookup _ _ HEAD Hs) as [h Hh]; [done|].
  unfold get_buf. do 2 wp_step. wp_step. eapply wp_buf_at; [exact Hh|]. cbv beta.
  wp_step. eapply wp_eq; [by eapply (scan_fwd (set_bc_lock 1 s))|]. cbv beta.
  simpl bufs. destruct (first_match _ _ order) as [i|] eqn:Hfm.
  - apply first_match_Some in Hfm as [Hi (b & E & Hp)]. b2p.
    apply (shape_order _ _ _ Hs) in Hi.
    assert (Hk : key b = (dv, bn)) by (unfold key; congruence).
    assert (Hun : c_held a !! i = None).
    { destruct (c_held a !! i) as [k|] eqn:Eh; [|done].
      destruct (ok_held _ _ _ (bs_ok _ _ Hb i b Hi E) _ Eh) as [Hk' _]. exfalso.
      apply (Hnh i). by rewrite Eh, <- Hk', Hk. }
    pose proof (bs_ok _ _ Hb i b Hi E) as [_ _ Hr Hl _ _ _]. rewrite Hun in Hr, Hl.
    wp_step. eapply wp_buf_at; [exact E|]. cbv beta.
    wp_step. eapply wp_eq; [apply chk_u32_ok; rewrite Hr; unfold u32_max; lia|]. cbv beta.
    wp_step. eapply wp_on_buf; [exact E|]. cbv beta. do 2 wp_step.
    wp_step. eapply wp_lock_buf; [by eapply lookup_insert_self|exact Hl|].
    wp_step. simpl. rewrite list_insert_insert_eq.
    eexists b, _. split; try done; simpl; [..|by left].
    rewrite Hr. done.
  - assert (Hmiss : ∀ j c, (j < HEAD)%nat → bufs s !! j = Some c → key c ≠ (dv, bn)).
    { intros j c Hj Ej Hk. unfold key in Hk.
      pose proof (first_match_None _ _ _ j c Hfm) as Hn. simpl in Hn.
      rewrite (shape_order _ _ _ Hs) in Hn. specialize (Hn Hj Ej).
      inversion Hk; subst. rewrite !Z.eqb_refl in Hn. done. }
    destruct (room_exists _ _ _ Hs Hb) as (j & c & Hj & Ej & Hrj & Hfj).
    { destruct Hroom as [Hin|?]; [|done]. exfalso.
      destruct (bs_dirty _ _ Hb _ Hin) as (j & c & Hj & Ej & Hk & _). by eapply Hmiss. }
    wp_step. eapply wp_buf_at; [exact Hh|]. cbv beta.
    wp_step. eapply wp_eq; [by eapply (scan_bwd (set_bc_lock 1 s))|]. cbv beta.
    simpl bufs. destruct (first_match _ _ (rev order)) as [i|] eqn:Hfm2.
    2: { exfalso. pose proof (first_match_None _ _ _ j c Hfm2) as Hn.
         rewrite rev_reverse, elem_of_reverse, (shape_order _ _ _ Hs) in Hn.
         specialize (Hn Hj Ej). simpl in Hn. rewrite Hrj, Hfj in Hn. done. }
    apply first_match_Some in Hfm2 as [Hi (b & E & Hp)]. b2p.
    rewrite rev_reverse, elem_of_reverse, (shape_order _ _ _ Hs) in Hi.
    pose proof (bs_ok _ _ Hb i b Hi E) as [_ _ Hr Hl _ _ _].
    assert (Hun : c_held a !! i = None) by (destruct (c_held a !! i); [lia|done]).
    rewrite Hun in Hl.
    do 4 (wp_step; eapply wp_on_buf; [first [exact E | by eapply lookup_insert_self]|]; cbv beta;
          simpl; rewrite ?list_insert_insert_eq).
    do 2 wp_step. wp_step. eapply wp_lock_buf; [by eapply lookup_insert_self|exact Hl|].
    wp_step. simpl. rewrite list_insert_insert_eq.
    eexists b, _. split; try done; simpl. right. split_and!; [done|done|].
    intros Hz. rewrite Hz in *. done.
Qed.

(** ** Abstract operations *)

Definition a_hold (i : nat) (k : Z * Z) (a : cache) : cache :=
  mkCache (c_ok a) (c_disk a) (c_view a) (c_dirty a) (<[i := k]> (c_held a)) (c_hist a).
Definition a_release (i : nat) (a : cache) : cache :=
  mkCache (c_ok a) (c_disk a) (c_view a) (c_dirty a) (delete i (c_held a)) (c_hist a).
Definition a_set (k : Z * Z) (d : list Z) (a : cache) : cache :=
  mkCache (c_ok a) (c_disk a) (<[k := d]> (c_view a)) (c_dirty a) (c_held a) (c_hist a).
Definition a_pin (k : Z * Z) (a : cache) : cache :=
  mkCache (c_ok a) (c_disk a) (c_view a) ({[k]} ∪ c_dirty a) (c_held a) (c_hist a).
Definition a_write (k : Z * Z) (a : cache) : cache :=
  let d := <[k := c_view a k]> (c_disk a) in
  mkCache (c_ok a) d (c_view a) (c_dirty a ∖ {[k]}) (c_held a) (c_hist a ++ [d]).

(** Replacing one buffer, with an abstract change that the other buffers do
    not see. *)
Lemma bufs_ok_insert bs a a' i b b' :
  bufs_ok bs a → (i < HEAD)%nat → bs !! i = Some b →
  (∀ j c, j ≠ i → (j < HEAD)%nat → bs !! j = Some c → buf_ok a' j c) →
  buf_ok a' i b' →
  (key b' = key b ∨ ∀ j c, (j < HEAD)%nat → bs !! j = Some c → key c ≠ key b') →
  (∀ k, k ∈ c_dirty a' →
     (k = key b' ∧ b_flags b' = Z.lor B_VALID B_DIRTY) ∨ (k ∈ c_dirty a ∧ k ≠ key b)) →
  (∀ j k, c_held a' !! j = Some k → (j < HEAD)%nat) →
  bufs_ok (<[i := b']> bs) a'.
Proof.
  intros [Hok Hun Hdi Hhe] Hi E Hoth Hself Hkey Hdirty Hheld.
  assert (Hlk : ∀ j c, <[i:=b']> bs !! j = Some c →
            (j = i ∧ c = b') ∨ (j ≠ i ∧ bs !! j = Some c)).
  { intros j c Hc. apply list_lookup_insert_Some in Hc. naive_solver. }
  split.
  - intros j c Hj Hc. destruct (Hlk _ _ Hc) as [[-> ->]|[? ?]]; eauto.
  - intros j1 j2 c1 c2 Hj1 Hj2 H1 H2 Hk Hdev.
    destruct (Hlk _ _ H1) as [[-> ->]|[? ?]], (Hlk _ _ H2) as [[-> ->]|[? ?]]; eauto.
    + destruct Hkey as [Hkey|Hkey]; [|by exfalso; eapply (Hkey j2 c2); eauto].
      assert (b_dev b ≠ 0) by (unfold key in *; congruence).
      eapply Hun; eauto. congruence.
    + destruct Hkey as [Hkey|Hkey]; [|by exfalso; eapply (Hkey j1 c1); eauto].
      eapply Hun; eauto. congruence.
  - intros k Hk. destruct (Hdirty k Hk) as [[-> Hf]|[Hin Hne]].
    + exists i, b'. split_and!; try done. by eapply lookup_insert_self.
    + destruct (Hdi k Hin) as (j & c & Hj & Ej & Hkj & Hf). exists j, c. split_and!; try done.
      rewrite list_lookup_insert_ne; [done|]. intros <-. congruence.
  - done.
Qed.

(** Dirty blocks are exactly those of the dirty buffers. *)
Lemma dirty_flags bs a i b :
  bufs_ok bs a → (i < HEAD)%nat → bs !! i = Some b → b_dev b ≠ 0 →
  key b ∈ c_dirty a → b_flags b = Z.lor B_VALID B_DIRTY.
Proof.
  intros Hb Hi E Hd Hin. destruct (bs_dirty _ _ Hb _ Hin) as (j & c & Hj & Ej & Hk & Hf).
  assert (j = i) as ->; [|by simplify_eq].
  eapply (bs_unique _ _ Hb); eauto. unfold key in Hk. congruence.
Qed.

Lemma buf_ok_hold_other a i j k c : j ≠ i → buf_ok a j c → buf_ok (a_hold i k a) j c.
Proof.
  intros Hne [? ? ? ? ? ? ?]. split; simpl; rewrite ?lookup_insert_ne by done; done.
Qed.

(** Handing out buffer [i], once it holds the block. *)
Lemma hold_abs s a dv bn i b b' lk d p w :
  bio_abs s a → 0 < dv → c_ok a (dv, bn) →
  (i < HEAD)%nat → c_held a !! i = None → bufs s !! i = Some b →
  (key b = (dv, bn) ∨
   (∀ j c, (j < HEAD)%nat → bufs s !! j = Some c → key c ≠ (dv, bn)) ∧
   b_flags b ≠ Z.lor B_VALID B_DIRTY) →
  b_next b' = b_next b → b_prev b' = b_prev b →
  key b' = (dv, bn) → b_refcnt b' = 1 → sl_locked (b_lock b') = 1 →
  b_flags b' = (if bool_decide ((dv, bn) ∈ c_dirty a) then Z.lor B_VALID B_DIRTY else B_VALID) →
  b_data b' = c_view a (dv, bn) → length (b_data b') = Z.to_nat BSIZE →
  disk_ok d (dhist s) a →
  bio_abs (mkBio lk (<[i := b']> (bufs s)) d p w (dhist s)) (a_hold i (dv, bn) a).
Proof.
  intros [[order Hs] Hb _] Hdv Hok Hi Hun E Hcase Hnx Hpv Hk Hr Hl Hf Hv Hlen Hd.
  split; simpl; [exists order; by eapply shape_insert| |].
  - eapply bufs_ok_insert; try done.
    + intros j c Hj1 Hj2 Ej. apply buf_ok_hold_other; [done|]. by eapply bs_ok.
    + assert (b_flags b' ≠ 0) by (rewrite Hf; by case_bool_decide).
      split; simpl; rewrite ?lookup_insert_eq; try done.
      * rewrite Hf. case_bool_decide; auto.
      * intros k [= <-]. done.
      * rewrite Hk. intros _. split; [unfold key in Hk; simplify_eq; done|]. done.
      * rewrite Hk, Hf. by case_bool_decide.
    + rewrite Hk. destruct Hcase as [?|[? _]]; auto.
    + simpl. intros k Hin. destruct (decide (k = (dv, bn))) as [->|Hne].
      * left. rewrite Hf, bool_decide_eq_true_2 by done. done.
      * right. split; [done|]. intros ->. destruct Hcase as [?|(_ & Hnd)]; [done|].
        apply Hnd. eapply dirty_flags; eauto.
        destruct (bs_dirty _ _ Hb _ Hin) as (j & c & Hj & Ej & Hkj & Hfj).
        destruct (ok_used _ _ _ (bs_ok _ _ Hb j c Hj Ej)) as [? _]; [by rewrite Hfj|].
        unfold key in Hkj. assert (b_dev c = b_dev b) by congruence. lia.
    + simpl. intros j k. destruct (decide (j = i)) as [->|]; [done|].
      rewrite lookup_insert_ne by done. apply (bs_held _ _ Hb).
  - destruct Hd as [? ? Hvw ?]. split; simpl; try done. intros k Hk1 Hk2 Hk3. apply Hvw; [done..|].
    intros j Hj. apply (Hk3 j). rewrite lookup_insert_ne; [done|]. intros ->. congruence.
Qed.

(** A buffer handed out without valid data holds a block that is not dirty. *)
Lemma got_invalid_clean s s' a dv bn i b b' :
  bufs_ok (bufs s) a → 0 < dv → got s s' a (dv, bn) i b b' → is_valid b' = false →
  b_flags b' = 0 ∧ (dv, bn) ∉ c_dirty a.
Proof.
  intros Hb Hdv [Hi _ E _ _ _ _ _ _ Hcase _] Hv.
  pose proof (bs_ok _ _ Hb i b Hi E) as [_ Hfl _ _ _ _ _].
  assert (Hf0 : b_flags b' = 0).
  { destruct Hcase as [[_ Hf]|(_ & Hf & _)]; [|done]. rewrite Hf.
    destruct Hfl as [?|[Hz|Hz]]; [done|..]; unfold is_valid in Hv; rewrite Hf, Hz in Hv; done. }
  split; [done|]. intros Hin. destruct Hcase as [[Hkb Hf]|(Hm & _)].
  - rewrite <- Hkb in Hin. apply (dirty_flags _ _ i b Hb) in Hin; try done.
    + rewrite <- Hf, Hf0 in Hin. done.
    + unfold key in Hkb. simplify_eq. lia.
  - destruct (bs_dirty _ _ Hb _ Hin) as (j & c & Hj & Ej & Hkj & _). by eapply Hm.
Qed.

(** A disk with the same blocks. *)
Lemma disk_ok_same d d' h a :
  (∀ dv bn, blk d' dv bn = blk d dv bn) → (∀ dv bn, dev_ok d' dv bn ↔ dev_ok d dv bn) →
  disk_ok d h a → disk_ok d' h a.
Proof.
  intros Hb Hd [H1 H2 H3 H4]. split; try done.
  - intros k. rewrite H1. symmetry. apply Hd.
  - intros k Hk. rewrite Hb. auto.
Qed.

(** [bread] hands out the block's buffer holding what the cache shows for it. *)
Lemma bread_spec s a dv bn :
  bio_abs s a → 0 < dv → c_ok a (dv, bn) → (∀ i, c_held a !! i ≠ Some (dv, bn)) →
  ((dv, bn) ∈ c_dirty a ∨ (size (in_use a) < HEAD)%nat) →
  wp (bread dv bn) s (λ i s',
    bio_abs s' (a_hold i (dv, bn) a) ∧ c_held a !! i = None ∧ cur_pid s' = cur_pid s).
Proof.
  intros Ha Hdv Hok Hnh Hroom. unfold bread, read. wp_step.
  eapply wp_mono; [by eapply get_buf_spec|]. simpl. intros i s' (b & b' & Hg).
  pose proof Ha as [_ Hb Hd]. pose proof (got_invalid_clean _ _ _ _ _ _ _ _ Hb Hdv Hg) as Hinv.
  destruct Hg as [Hi Hun E Hnew [Hnx Hpv] Hk Hr Hl Hda Hcase (Hdk & Hhi & Hpi)].
  assert (E' : bufs s' !! i = Some b') by (rewrite Hnew; by eapply lookup_insert_self).
  wp_step. eapply wp_buf_at; [exact E'|]. cbv beta.
  pose proof (bs_ok _ _ Hb i b Hi E) as [Hln Hfl _ _ _ Hus Hdi].
  pose proof Hk as Hk'. unfold key in Hk'. simplify_eq.
  destruct (negb (is_valid b')) eqn:Hv; wp_step.
  - apply negb_true_iff in Hv. destruct (Hinv Hv) as [Hf0 Hnd].
    destruct (iderw_reads b' (disk s')) as (qn & d' & Hrw & Hbl & Hdo); [|done|].
    { rewrite Hdk. by apply (dk_ok _ _ _ Hd (b_dev b', b_blockno b')). }
    unfold disk_rw. eapply wp_eq; [rewrite E', Hrw; reflexivity|]. cbv beta.
    wp_step. rewrite Hhi, Hnew, list_insert_insert_eq, Hdk. split; [|done].
    eapply hold_abs; simpl; try done.
    + destruct Hcase as [[? _]|(? & _ & ?)]; auto.
    + by rewrite bool_decide_eq_false_2.
    + rewrite (dk_view _ _ _ Hd _ Hok Hnd Hnh). exact (dk_blk _ _ _ Hd _ Hok).
    + apply blk_length.
    + rewrite Hdk in *. by eapply disk_ok_same.
  - wp_step. apply negb_false_iff in Hv. unfold is_valid in Hv.
    destruct Hcase as [[Hkb Hf]|(_ & Hf & _)]; rewrite Hf in Hv; [|done].
    assert (Hf0 : b_flags b ≠ 0) by (intros Hz; by rewrite Hz in Hv).
    destruct (Hus Hf0) as (Hus1 & _ & Hus2). rewrite Hkb in Hus2.
    split; [|done]. destruct s' as [lk' bs' d' p' w' h']; simpl in *. subst.
    eapply hold_abs; try done; try congruence; [by left|].
    rewrite Hf, <- Hk, Hk, <- Hkb. case_bool_decide as Hin.
    + eapply dirty_flags; eauto. lia.
    + destruct Hfl as [?|[?|Hz]]; [done|done|]. by apply Hdi in Hz.
Qed.

(** ** Releasing a buffer *)

(** A buffer without its list links. *)
Definition strip (b : Buf) : Buf := set_prev O (set_next O b).

Lemma strip_alter (f : Buf → Buf) (i : nat) (bs : list Buf) :
  (∀ b, strip (f b) = strip b) → strip <$> alter f i bs = strip <$> bs.
Proof.
  intros Hf. apply list_eq. intros j. rewrite !list_lookup_fmap.
  destruct (decide (i = j)) as [<-|Hne].
  - rewrite list_lookup_alter_eq. destruct (bs !! i); simpl; [by rewrite Hf|done].
  - by rewrite list_lookup_alter_ne.
Qed.

(** The contents of the cache do not depend on the links. *)
Lemma bufs_ok_strip bs bs' a : strip <$> bs' = strip <$> bs → bufs_ok bs a → bufs_ok bs' a.
Proof.
  intros Hst [Hok Hun Hdi Hhe].
  assert (Hlk : ∀ i b, bs' !! i = Some b → ∃ b0, bs !! i = Some b0 ∧ strip b = strip b0).
  { intros i b Hb. assert (Hi : (strip <$> bs') !! i = Some (strip b))
      by (by rewrite list_lookup_fmap, Hb).
    rewrite Hst, list_lookup_fmap in Hi.
    destruct (bs !! i) as [b0|]; [|done]. exists b0. split; [done|]. simpl in Hi. congruence. }
  assert (Hlk' : ∀ i b, bs !! i = Some b → ∃ b0, bs' !! i = Some b0 ∧ strip b = strip b0).
  { intros i b Hb. assert (Hi : (strip <$> bs) !! i = Some (strip b))
      by (by rewrite list_lookup_fmap, Hb).
    rewrite <- Hst, list_lookup_fmap in Hi.
    destruct (bs' !! i) as [b0|]; [|done]. exists b0. split; [done|]. simpl in Hi. congruence. }
  split.
  - intros i b Hi (b0 & Hb0 & Hs)%Hlk. destruct b, b0. unfold strip in Hs. simpl in Hs. simplify_eq.
    destruct (Hok _ _ Hi Hb0) as [? ? ? ? ? ? ?]. by split.
  - intros i j b c Hi Hj (b0 & Hb0 & Hs)%Hlk (c0 & Hc0 & Hs')%Hlk.
    destruct b, b0, c, c0. unfold strip in *. simpl in *. simplify_eq. intros.
    by eapply (Hun _ _ _ _ Hi Hj Hb0 Hc0).
  - intros k Hk. destruct (Hdi k Hk) as (i & b & Hi & (b0 & Hb0 & Hs)%Hlk' & Hkb & Hf).
    exists i, b0. destruct b, b0. unfold strip in Hs. simpl in *. by simplify_eq.
  - done.
Qed.

Lemma shape_link_range bs order i :
  bufs_shape bs order → (i ≤ HEAD)%nat →
  (link b_next bs i ≤ HEAD)%nat ∧ (link b_prev bs i ≤ HEAD)%nat.
Proof.
  intros Hs Hi. pose proof Hs as [_ (Hf & Hb & _) _].
  assert (Hin : ∀ x, x ∈ HEAD :: order → (x ≤ HEAD)%nat).
  { intros x [->|Hx]%elem_of_cons; [done|]. apply (shape_order _ _ _ Hs) in Hx. lia. }
  assert (Hi' : i ∈ HEAD :: order).
  { apply elem_of_cons. rewrite (shape_order _ _ _ Hs). lia. }
  rewrite rev_reverse in Hb. split; apply Hin.
  - by eapply chain_next_in.
  - apply (chain_next_in _ _ _ _ i) in Hb; [|revert Hi'; rewrite !elem_of_cons, elem_of_reverse; done].
    revert Hb. rewrite !elem_of_cons, elem_of_reverse. done.
Qed.

(** The list after the six assignments of [release_buf]. *)
Definition move_front (i : nat) (bs : list Buf) : list Buf :=
  let bs1 := alter (set_prev (link b_prev bs i)) (link b_next bs i) bs in
  let bs2 := alter (set_next (link b_next bs1 i)) (link b_prev bs1 i) bs1 in
  let bs3 := alter (set_next (link b_next bs2 HEAD)) i bs2 in
  let bs4 := alter (set_prev HEAD) i bs3 in
  let bs5 := alter (set_prev i) (link b_next bs4 HEAD) bs4 in
  alter (set_next i) HEAD bs5.

(** The links of [bs] are the functions [nx] and [pv]. *)
Definition linked_as (bs : list Buf) (nx pv : nat → nat) : Prop :=
  length bs = S HEAD ∧ (∀ x, link b_next bs x = nx x) ∧ (∀ x, link b_prev bs x = pv x).

Lemma fn_insert_ext (f g : nat → nat) i v x : (∀ y, f y = g y) → (<[i:=v]> f) x = (<[i:=v]> g) x.
Proof.
  intros H. destruct (decide (i = x)) as [->|];
    [by rewrite !fn_lookup_insert|by rewrite !fn_lookup_insert_ne].
Qed.

Lemma fn_insert_range (f : nat → nat) i v x n :
  (v ≤ n)%nat → (f x ≤ n)%nat → ((<[i:=v]> f) x ≤ n)%nat.
Proof.
  intros. destruct (decide (i = x)) as [->|];
    [by rewrite fn_lookup_insert|by rewrite fn_lookup_insert_ne].
Qed.

Lemma as_next bs nx pv i v i' v' :
  linked_as bs nx pv → i = i' → v = v' → (i' ≤ HEAD)%nat →
  linked_as (alter (set_next v) i bs) (<[i' := v']> nx) pv.
Proof.
  intros (Hl & Hn & Hp) -> -> Hi. split_and!; [by rewrite length_alter| |]; intros x.
  - rewrite (proj1 (link_alter_next bs i' v' x ltac:(lia))). by apply fn_insert_ext.
  - rewrite (proj2 (link_alter_next bs i' v' x ltac:(lia))). done.
Qed.

Lemma as_prev bs nx pv i v i' v' :
  linked_as bs nx pv → i = i' → v = v' → (i' ≤ HEAD)%nat →
  linked_as (alter (set_prev v) i bs) nx (<[i' := v']> pv).
Proof.
  intros (Hl & Hn & Hp) -> -> Hi. split_and!; [by rewrite length_alter| |]; intros x.
  - rewrite (proj2 (link_alter_prev bs i' v' x ltac:(lia))). done.
  - rewrite (proj1 (link_alter_prev bs i' v' x ltac:(lia))). by apply fn_insert_ext.
Qed.

Lemma shape_linked_as bs nx pv order :
  linked_as bs nx pv → ring nx pv HEAD order → order ≡ₚ seq 0 HEAD → bufs_shape bs order.
Proof. intros (Hl & Hn & Hp) Hr Ha. split; [done| |done]. by eapply ring_ext. Qed.

Lemma move_front_shape bs l1 i l2 :
  bufs_shape bs (l1 ++ i :: l2) →
  bufs_shape (move_front i bs) (i :: l1 ++ l2) ∧ strip <$> move_front i bs = strip <$> bs.
Proof.
  intros Hs. pose proof Hs as [Hl Hr Ha].
  assert (Hi : (i < HEAD)%nat) by (apply (shape_order _ _ _ Hs); set_solver).
  destruct (shape_link_range _ _ i Hs) as [Rn Rp]; [lia|].
  destruct (shape_link_range _ _ HEAD Hs) as [Rh _]; [lia|].
  split; [|unfold move_front; cbv zeta; by rewrite !strip_alter].
  apply ring_move_front in Hr. cbv zeta in Hr.
  eapply shape_linked_as; [|exact Hr|by rewrite Permutation_middle].
  assert (H0 : linked_as bs (link b_next bs) (link b_prev bs)) by done.
  clear Hr Hs Hl Ha. unfold move_front. cbv zeta. revert H0 Rn Rp Rh.
  generalize (link b_next bs) as nx, (link b_prev bs) as pv. intros nx pv H0 Rn Rp Rh.
  set (bs1 := alter _ (nx i) bs).
  assert (H1 : linked_as bs1 nx (<[nx i := pv i]> pv)) by by apply as_prev.
  revert H1. generalize bs1, (<[nx i := pv i]> pv) as pv1,
    (fn_insert_range pv (nx i) (pv i) i _ Rp Rp). intros bs1' pv1 Rp1 H1.
  set (bs2 := alter _ _ bs1').
  assert (H2 : linked_as bs2 (<[pv1 i := nx i]> nx) pv1) by (apply as_next; [done|apply H1..|done]).
  revert H2. generalize bs2, (<[pv1 i := nx i]> nx) as nx1,
    (fn_insert_range nx (pv1 i) (nx i) HEAD _ Rn Rh). intros bs2' nx1 Rn1 H2.
  set (bs4 := alter (set_prev HEAD) i _).
  assert (H4 : linked_as bs4 (<[i := nx1 HEAD]> nx1) (<[i := HEAD]> pv1)).
  { apply as_prev; [|done|done|lia]. apply as_next; [done|done|apply H2|lia]. }
  apply as_next; [|done..]. apply as_prev; [done|apply H4|done|]. by apply fn_insert_range.
Qed.

(** ** Operations on a held buffer *)

(** The buffer handed out under index [i]. *)
Lemma held_buf s a i k :
  bio_abs s a → c_held a !! i = Some k →
  ∃ b, bufs s !! i = Some b ∧ (i < HEAD)%nat ∧ buf_ok a i b ∧ key b = k ∧
       b_data b = c_view a k ∧ 0 < b_dev b ∧ c_ok a k ∧
       b_refcnt b = 1 ∧ sl_locked (b_lock b) = 1 ∧
       b_flags b = (if bool_decide (k ∈ c_dirty a) then Z.lor B_VALID B_DIRTY else B_VALID).
Proof.
  intros [[order Hs] Hb Hd] Hh. pose proof (bs_held _ _ Hb _ _ Hh) as Hi.
  destruct (shape_lookup _ _ i Hs) as [b E]; [lia|]. exists b.
  pose proof (bs_ok _ _ Hb i b Hi E) as Ho. pose proof Ho as [_ Hfl Hr Hl Hk Hu Hdi].
  rewrite Hh in *. destruct (Hk _ eq_refl) as [Hkb Hf0]. destruct (Hu Hf0) as (Hdv & Hc & Hdat).
  rewrite Hkb in *. split_and!; try done. case_bool_decide as Hin.
  - rewrite <- Hkb in Hin. eapply dirty_flags; eauto. lia.
  - destruct Hfl as [?|[?|?]]; [done|done|]. exfalso. auto.
Qed.

Lemma held_data s a i k (Q : Buf → bio → Prop) :
  bio_abs s a → c_held a !! i = Some k →
  (∀ b, key b = k → b_data b = c_view a k → Q b s) → wp (buf_at i) s Q.
Proof.
  intros Ha Hh HQ. destruct (held_buf _ _ _ _ Ha Hh) as (b & E & _ & _ & Hk & Hd & _).
  eapply wp_buf_at; eauto.
Qed.

(** A buffer of another index holds another block, unless it is empty. *)
Lemma other_key s a i j k c :
  bio_abs s a → c_held a !! i = Some k → (j < HEAD)%nat → bufs s !! j = Some c → j ≠ i →
  key c ≠ k.
Proof.
  intros Ha Hh Hj Ej Hne Hk.
  destruct (held_buf _ _ _ _ Ha Hh) as (b & E & Hi & _ & Hkb & _ & Hdv & _).
  apply Hne. eapply (bs_unique _ _ (ba_bufs _ _ Ha)); eauto; [congruence|].
  unfold key in *. assert (b_dev c = b_dev b) by congruence. lia.
Qed.

(** Replace the held buffer [i] and change the abstract state at its block
    [k] only, keeping what is held. *)
Lemma held_update s a a' i k b b' d lk p w h :
  bio_abs s a → c_held a !! i = Some k → bufs s !! i = Some b →
  c_held a' = c_held a → (∀ x, c_ok a' x ↔ c_ok a x) →
  (∀ x, x ≠ k → c_view a' x = c_view a x) →
  (∀ x, x ≠ k → x ∈ c_dirty a' ↔ x ∈ c_dirty a) →
  b_next b' = b_next b → b_prev b' = b_prev b → buf_ok a' i b' →
  (k ∈ c_dirty a' → b_flags b' = Z.lor B_VALID B_DIRTY) → disk_ok d h a' →
  bio_abs (mkBio lk (<[i := b']> (bufs s)) d p w h) a'.
Proof.
  intros Ha Hh E Hhe Hok Hvi Hdi Hn Hp Hb' Hd' Hdisk. pose proof Ha as [[order Hs] Hb _].
  destruct (held_buf _ _ _ _ Ha Hh) as (b0 & E0 & Hi & Hbo & Hkb & _).
  assert (b0 = b) as -> by congruence. subst k.
  assert (Hk' : key b' = key b).
  { apply (ok_held _ _ _ Hb'). by rewrite Hhe. }
  split; simpl; [exists order; by eapply shape_insert| |done].
  eapply bufs_ok_insert; try done.
  - intros j c Hne Hj Ej. destruct (bs_ok _ _ Hb j c Hj Ej) as [? ? ? ? ? Hu Hdd].
    pose proof (other_key _ _ _ _ _ _ Ha Hh Hj Ej Hne) as Hkc.
    split; rewrite ?Hhe; try done.
    + intros Hf. destruct (Hu Hf) as (? & ? & ?). rewrite Hok, Hvi by done. done.
    + intros Hf. apply Hdi; auto.
  - by left.
  - intros x Hx. destruct (decide (x = key b)) as [->|Hne].
    + left. rewrite Hk'. split; [done|]. auto.
    + right. split; [|done]. by apply Hdi.
  - intros j x. rewrite Hhe. apply (bs_held _ _ Hb).
Qed.

(** Writing into the data of a held buffer. *)
Lemma set_data_spec s a i k f :
  bio_abs s a → c_held a !! i = Some k → length (f (c_view a k)) = Z.to_nat BSIZE →
  wp (on_buf i (λ b, set_data (f (b_data b)) b)) s (λ _ s',
    bio_abs s' (a_set k (f (c_view a k)) a) ∧ cur_pid s' = cur_pid s).
Proof.
  intros Ha Hh Hl.
  destruct (held_buf _ _ _ _ Ha Hh) as (b & E & Hi & Hbo & Hkb & Hd & Hdv & Hok & Hr & Hlk & Hf).
  eapply wp_on_buf; [exact E|]. split; [|done].
  eapply held_update; try done.
  - simpl. intros x Hx. by rewrite fn_lookup_insert_ne.
  - destruct Hbo as [H1 H2 H3 H4 H5 H6 H7]. split; simpl; try done.
    + by rewrite Hd.
    + intros Hnz. destruct (H6 Hnz) as (? & ? & ?). split_and!; try done.
      change (key (set_data (f (b_data b)) b)) with (key b). by rewrite Hkb, fn_lookup_insert, Hd.
  - simpl. intros Hin. rewrite Hf, bool_decide_eq_true_2 by done. done.
  - destruct (ba_disk _ _ Ha) as [D1 D2 D3 D4]. split; simpl; try done.
    intros x Hx1 Hx2 Hx3. rewrite fn_lookup_insert_ne; [by apply D3|]. intros <-. by apply (Hx3 i).
Qed.

(** Marking a held buffer dirty, as [log_write] does. *)
Lemma pin_spec s a i k :
  bio_abs s a → c_held a !! i = Some k →
  wp (on_buf i (λ x, set_flags (Z.lor (b_flags x) B_DIRTY) x)) s (λ _ s',
    bio_abs s' (a_pin k a) ∧ cur_pid s' = cur_pid s).
Proof.
  intros Ha Hh.
  destruct (held_buf _ _ _ _ Ha Hh) as (b & E & Hi & Hbo & Hkb & Hd & Hdv & Hok & Hr & Hlk & Hf).
  assert (Hfl : Z.lor (b_flags b) B_DIRTY = Z.lor B_VALID B_DIRTY).
  { rewrite Hf. by case_bool_decide. }
  eapply wp_on_buf; [exact E|]. split; [|done].
  eapply held_update; try done.
  - simpl. set_solver.
  - destruct Hbo as [H1 H2 H3 H4 H5 H6 H7]. split; simpl; try done; rewrite Hfl.
    + auto.
    + intros k' Hk'. split; [by apply H5|done].
    + intros _. apply H6. rewrite Hf. by case_bool_decide.
    + intros _. change (key _) with (key b). set_solver.
  - destruct (ba_disk _ _ Ha) as [D1 D2 D3 D4]. split; simpl; try done.
    intros x Hx1 Hx2 Hx3. apply D3; [done|set_solver|done].
Qed.

(** Testing the lock of a held buffer. *)
Lemma holding_spec s a i k :
  bio_abs s a → c_held a !! i = Some k →
  wp (with_lock i holdingsleep) s (λ h s', h = 1 ∧ bio_abs s' a ∧ cur_pid s' = cur_pid s).
Proof.
  intros Ha Hh.
  destruct (held_buf _ _ _ _ Ha Hh) as (b & E & Hi & Hbo & Hkb & Hd & Hdv & Hok & Hr & Hlk & Hf).
  unfold wp, with_lock. rewrite E, holdingsleep_spec, Hlk. split; [done|].
  rewrite (alter_is_insert _ _ _ _ E). split; [|done].
  eapply held_update; try done.
  - destruct Hbo as [H1 H2 H3 H4 H5 H6 H7]. split; simpl; try done. by rewrite Hh.
  - simpl. intros Hin. rewrite Hf, bool_decide_eq_true_2 by done. done.
  - apply Ha.
Qed.

(** [bwrite] puts what the cache shows for the block on the disk. *)
Lemma bwrite_spec s a i k :
  bio_abs s a → c_held a !! i = Some k →
  wp (bwrite i) s (λ _ s', bio_abs s' (a_write k a) ∧ cur_pid s' = cur_pid s).
Proof.
  intros Ha Hh. unfold bwrite. wp_step. eapply wp_mono; [by eapply holding_spec|].
  intros h s1 (-> & Ha1 & Hp1). simpl. wp_step. eapply wp_mono; [by eapply pin_spec|].
  intros _ s2 [Ha2 Hp2]. rewrite <- Hp1, <- Hp2.
  destruct (held_buf _ _ _ _ Ha2 Hh) as (b & E & Hi & Hbo & Hkb & Hd & Hdv & Hok & Hr & Hlk & Hf).
  rewrite bool_decide_eq_true_2 in Hf by (simpl; set_solver).
  pose proof (ba_disk _ _ Ha2) as [D1 D2 D3 D4].
  destruct (iderw_writes b (disk s2)) as (qn & d' & Hrw & Hbl & Hdo); [|done|apply Hbo|].
  { rewrite <- Hkb in Hok. by apply D1 in Hok. }
  wp_step. unfold disk_rw. eapply wp_eq; [rewrite E, Hrw; reflexivity|]. cbv beta.
  unfold note_write. wp_step. simpl. split; [|done].
  assert (Hblk : ∀ x, c_ok a x → blk d' (fst x) (snd x) = (<[k := c_view a k]> (c_disk a)) x).
  { intros [dv bn] Hx. rewrite Hbl by (by apply D1). subst k. unfold key in *. simpl in *.
    case_bool_decide as Heq.
    - destruct Heq as [-> ->]. by rewrite fn_lookup_insert.
    - rewrite fn_lookup_insert_ne; [by apply (D2 (dv, bn))|]. intros ?. simplify_eq. by apply Heq. }
  eapply held_update; try done.
  - simpl. set_solver.
  - destruct Hbo as [H1 H2 H3 H4 H5 H6 H7]. simpl in *. split; simpl; try done.
    + auto.
    + intros k' Hk'. split; [by apply H5|done].
    + intros _. apply H6. by rewrite Hf.
  - simpl. set_solver.
  - simpl in D1, D3. split; simpl; try done.
    + intros x. rewrite D1. symmetry. apply Hdo.
    + intros x Hx1 Hx2 Hx3. rewrite fn_lookup_insert_ne by (intros <-; by apply (Hx3 i)).
      apply D3; [done|set_solver|done].
    + apply Forall2_app; [done|]. apply Forall2_cons. split; [|constructor]. split; [|done].
      intros x. rewrite D1. symmetry. apply Hdo.
Qed.

(** The state of a held buffer that may be given back: on disk, or pinned. *)
Definition settled (a : cache) (k : Z * Z) : Prop := k ∈ c_dirty a ∨ c_view a k = c_disk a k.

(** The steps of [release_buf] that move the buffer to the front. *)
Lemma move_front_spec s order i :
  bufs_shape (bufs s) order → (i < HEAD)%nat →
  wp (let* x := buf_at i in on_buf (b_next x) (set_prev (b_prev x)) ;;;
      let* x := buf_at i in on_buf (b_prev x) (set_next (b_next x)) ;;;
      let* h := buf_at HEAD in on_buf i (set_next (b_next h)) ;;;
      on_buf i (set_prev HEAD) ;;;
      let* h := buf_at HEAD in on_buf (b_next h) (set_prev i) ;;;
      on_buf HEAD (set_next i)) s
     (λ _ s', s' = set_bufs (move_front i (bufs s)) s).
Proof.
  intros Hs Hi. assert (Hl : length (bufs s) = S HEAD) by apply Hs.
  assert (Hat : ∀ j (s' : bio) (Q : Buf → bio → Prop), (j ≤ HEAD)%nat → length (bufs s') = S HEAD →
            (∀ b, b_next b = link b_next (bufs s') j → b_prev b = link b_prev (bufs s') j → Q b s') →
            wp (buf_at j) s' Q).
  { intros j s' Q Hj Hl' HQ. destruct (lookup_lt_is_Some_2 (bufs s') j) as [b E]; [lia|].
    eapply wp_buf_at; [exact E|]. apply HQ; by rewrite (link_lookup _ _ _ _ E). }
  unfold on_buf.
  do 2 (wp_step; apply Hat; [lia|simpl; rewrite ?length_alter; done|];
        intros ? -> ->; do 2 wp_step; simpl).
  wp_step. apply Hat; [lia|simpl; rewrite ?length_alter; done|]. intros ? -> _. do 4 wp_step. simpl.
  wp_step. apply Hat; [lia|simpl; rewrite ?length_alter; done|]. intros ? -> _. do 3 wp_step. done.
Qed.

Lemma brelse_spec s a i k :
  bio_abs s a → c_held a !! i = Some k → settled a k →
  wp (brelse i) s (λ _ s', bio_abs s' (a_release i a) ∧ cur_pid s' = cur_pid s).
Proof.
  intros Ha Hh Hset. unfold brelse, release_buf. wp_step.
  eapply wp_mono; [by eapply holding_spec|]. intros h s1 (-> & Ha1 & Hp1). simpl. rewrite <- Hp1.
  clear Ha Hp1.
  destruct (held_buf _ _ _ _ Ha1 Hh) as (b & E & Hi & Hbo & Hkb & Hd & Hdv & Hok & Hr & Hlk & Hf).
  pose proof Ha1 as [[order Hs] Hb Hdk].
  wp_step. unfold with_lock at 1.
  eapply wp_eq; [rewrite E, releasesleep_spec, (alter_is_insert _ _ _ _ E); reflexivity|].
  cbv beta. do 2 wp_step. wp_step. eapply wp_buf_at; [by eapply lookup_insert_self|]. simpl.
  wp_step. eapply wp_eq; [apply chk_u32_ok; rewrite Hr; unfold u32_max; lia|]. cbv beta.
  wp_step. eapply wp_on_buf; [by eapply lookup_insert_self|]. cbv beta. simpl.
  rewrite Hr, list_insert_insert_eq. simpl.
  match goal with |- context [<[i := ?x]> (bufs s1)] => set (b' := x) end.
  assert (Hs' : bufs_shape (<[i := b']> (bufs s1)) order) by (by eapply shape_insert).
  assert (Hio : i ∈ order) by (by apply (shape_order _ _ _ Hs)).
  apply list_elem_of_split in Hio as (l1 & l2 & ->).
  destruct (move_front_shape _ _ _ _ Hs') as [Hs'' Hst].
  wp_step. eapply wp_mono; [by eapply move_front_spec|]. cbv beta. intros _ s2 ->.
  wp_step. simpl. split; [|done]. split; simpl; [by eexists| |].
  - eapply bufs_ok_strip; [exact Hst|]. eapply bufs_ok_insert; try done.
    + intros j c Hne Hj Ej. destruct (bs_ok _ _ Hb j c Hj Ej) as [? ? ? ? ? ? ?].
      split; simpl; rewrite ?lookup_delete_ne by done; done.
    + destruct Hbo as [H1 H2 H3 H4 H5 H6 H7]. split; simpl; rewrite ?lookup_delete_eq; done.
    + by left.
    + simpl. intros x Hx. destruct (decide (x = k)) as [->|Hne].
      * left. split; [done|]. change (b_flags b') with (b_flags b).
        rewrite Hf, bool_decide_eq_true_2 by done. done.
      * right. split; [done|congruence].
    + simpl. intros j x Hj. apply lookup_delete_Some in Hj as [_ Hj]. by eapply bs_held.
  - destruct Hdk as [D1 D2 D3 D4]. split; simpl; try done. intros x Hx1 Hx2 Hx3.
    destruct (decide (x = k)) as [->|Hne]; [by destruct Hset|].
    apply D3; [done..|]. intros j Hj. apply (Hx3 j). apply lookup_delete_Some.
    split; [|done]. intros <-. congruence.
Qed.

(** ** Initialisation *)

Definition zero_lock : sleeplock := mkSleep 0 (mkSpin 0 EmptyString None) EmptyString 0.
Definition zero_buf (z : list Z) : Buf := mkBuf 0 0 0 zero_lock 0 O O None z.
(** [BCACHE_STORAGE], zero-filled; [z] is the data array of a buffer. *)
Definition storage_of (z : list Z) (d : D) (pid : Z) : bio :=
  mkBio (mkSpin 0 EmptyString None) (replicate (S HEAD) (zero_buf z)) d pid [] [].
Definition bcache_storage : D → Z → bio := storage_of (replicate (Z.to_nat BSIZE) 0).

Definition blank (b : Buf) : bool :=
  (b_flags b =? 0) && (b_dev b =? 0) && (b_refcnt b =? 0) && (sl_locked (b_lock b) =? 0).

Lemma init_blank z d pid :
  ∃ s', init (storage_of z d pid) = Ok (tt, s') ∧ disk s' = d ∧ dhist s' = [] ∧
        cur_pid s' = pid ∧ bufs_shape (bufs s') (rev (seq 0 HEAD)) ∧
        forallb blank (bufs s') = true ∧ Forall (λ b, b_data b = z) (bufs s').
Proof.
  eexists. split; [vm_compute; reflexivity|]. cbn [disk dhist cur_pid bufs].
  split_and!; [done|done|done| |reflexivity|].
  - split; [done| |by rewrite rev_reverse, reverse_Permutation].
    split_and!; [vm_compute; repeat split..|].
    rewrite rev_reverse, reverse_Permutation. apply NoDup_cons.
    split; [rewrite elem_of_seq; lia|apply NoDup_seq].
  - repeat constructor.
Qed.

Definition cache_empty (d : D) : cache :=
  mkCache (λ k, dev_ok d (fst k) (snd k)) (λ k, blk d (fst k) (snd k))
          (λ k, blk d (fst k) (snd k)) ∅ ∅ [].

Lemma binit_abs d pid :
  wp binit (bcache_storage d pid) (λ _ s', bio_abs s' (cache_empty d) ∧ cur_pid s' = pid).
Proof.
  destruct (init_blank (replicate (Z.to_nat BSIZE) 0) d pid)
    as (s' & E & Hd & Hh & Hp & Hs & Hb & Hz).
  unfold binit, bcache_storage. eapply wp_eq; [exact E|]. split; [|done].
  rewrite forallb_forall in Hb.
  assert (Hb' : ∀ i b, bufs s' !! i = Some b → blank b = true).
  { intros i b Ei. apply Hb, list_elem_of_In. by eapply list_elem_of_lookup_2. }
  split; [by eexists| |].
  - clear E. split; [| |by intros k Hk%elem_of_empty|by intros i k Hk].
    + intros i b _ Ei. specialize (Hb' _ _ Ei). unfold blank in Hb'. b2p.
      rewrite Forall_lookup in Hz.
      split; [by rewrite (Hz _ _ Ei), length_replicate|auto|done|done|done|congruence|].
      intros Hf. rewrite Hf in *. done.
    + intros i j b c _ _ Ei _ _ Hdv. specialize (Hb' _ _ Ei). unfold blank in Hb'. b2p. done.
  - rewrite Hd, Hh. by split.
Qed.

(** ** The simulation *)

(** What a client does with the cache: read a block, overwrite the data of
    a held buffer, write it to disk, pin it, give it back. *)
Inductive bop :=
| OpRead (dv bn : Z)
| OpSet (i : nat) (d : list Z)
| OpWrite (i : nat)
| OpPin (i : nat)
| OpRelease (i : nat).

(** Run one operation; a read shows the data found in the buffer. *)
Definition run_op (o : bop) : M bio (option (nat * list Z)) :=
  match o with
  | OpRead dv bn =>
      let* i := bread dv bn in
      let* b := buf_at i in ret (Some (i, b_data b))
  | OpSet i d => on_buf i (λ b, set_data d b) ;;; ret None
  | OpWrite i => bwrite i ;;; ret None
  | OpPin i => on_buf i (λ x, set_flags (Z.lor (b_flags x) B_DIRTY) x) ;;; ret None
  | OpRelease i => brelse i ;;; ret None
  end.

(** The client's side: a block is read once at a time and only while a
    buffer can be spared, and given back on disk or pinned. *)
Definition op_legal (a : cache) (o : bop) : Prop :=
  match o with
  | OpRead dv bn =>
      0 < dv ∧ c_ok a (dv, bn) ∧ (∀ i, c_held a !! i ≠ Some (dv, bn)) ∧
      ((dv, bn) ∈ c_dirty a ∨ (size (in_use a) < HEAD)%nat)
  | OpSet i d => is_Some (c_held a !! i) ∧ length d = Z.to_nat BSIZE
  | OpWrite i | OpPin i => is_Some (c_held a !! i)
  | OpRelease i => ∃ k, c_held a !! i = Some k ∧ settled a k
  end.

Inductive cache_step (a : cache) : bop → option (nat * list Z) → cache → Prop :=
| step_read dv bn i :
    c_held a !! i = None →
    cache_step a (OpRead dv bn) (Some (i, c_view a (dv, bn))) (a_hold i (dv, bn) a)
| step_set i k d : c_held a !! i = Some k → cache_step a (OpSet i d) None (a_set k d a)
| step_write i k : c_held a !! i = Some k → cache_step a (OpWrite i) None (a_write k a)
| step_pin i k : c_held a !! i = Some k → cache_step a (OpPin i) None (a_pin k a)
| step_release i : cache_step a (OpRelease i) None (a_release i a).

(** C2: The buffer cache implements the abstract cache. From related states,
    any legal client operation runs to completion (no panic, no sleep, the
    list walks terminate), returns what the abstract step returns (a read
    shows the newest data of the block) and leads to related states. *)
Theorem bio_refines_cache (s : bio) (a : cache) (o : bop)
    (Habs : bio_abs s a) (Hlegal : op_legal a o) :
  ∃ r s' a', run_op o s = Ok (r, s') ∧ cache_step a o r a' ∧ bio_abs s' a'.
Proof.
  cut (wp (run_op o) s (λ r s', ∃ a', cache_step a o r a' ∧ bio_abs s' a')).
  { rewrite wp_ok. naive_solver. }
  destruct o as [dv bn|i d|i|i|i]; simpl in *.
  - destruct Hlegal as (? & ? & ? & ?). wp_step. eapply wp_mono; [by eapply bread_spec|].
    intros i s1 (Ha1 & Hi & _). cbv beta. wp_step.
    eapply held_data; [exact Ha1|apply lookup_insert_eq|]. intros b _ ->. cbv beta. wp_step.
    exists (a_hold i (dv, bn) a). split; [|done]. exact (step_read a dv bn i Hi).
  - destruct Hlegal as [[k Hk] Hl]. wp_step.
    eapply wp_mono; [by apply (set_data_spec s a i k (λ _, d))|].
    intros _ s1 [Ha1 _]. wp_step. eauto using cache_step.
  - destruct Hlegal as [k Hk]. wp_step. eapply wp_mono; [by eapply bwrite_spec|].
    intros _ s1 [Ha1 _]. cbv beta. wp_step. eauto using cache_step.
  - destruct Hlegal as [k Hk]. wp_step. eapply wp_mono; [by eapply pin_spec|].
    intros _ s1 [Ha1 _]. cbv beta. wp_step. eauto using cache_step.
  - destruct Hlegal as (k & Hk & Hs). wp_step. eapply wp_mono; [by eapply brelse_spec|].
    intros _ s1 [Ha1 _]. cbv beta. wp_step. eauto using cache_step.
Qed.

(** On a miss, [get_buf] recycles the least recently released buffer
    that is neither referenced nor dirty: the first such one met walking the
    list backwards; and it panics exactly when there is none. *)
Theorem bget_recycles_lru (s : bio) (order : list nat) (dv bn : Z)
    (Hshape : bufs_shape (bufs s) order)
    (Hmiss : ∀ i b, (i < HEAD)%nat → bufs s !! i = Some b → key b ≠ (dv, bn)) :
  match first_match (bufs s) (λ b, (b_refcnt b =? 0) && negb (is_dirty b)) (rev order) with
  | Some i =>
      ∀ b, bufs s !! i = Some b → sl_locked (b_lock b) = 0 →
      wp (get_buf dv bn) s (λ i' s', i' = i ∧
        ∃ b', bufs s' !! i = Some b' ∧ key b' = (dv, bn) ∧ b_flags b' = 0 ∧
              b_refcnt b' = 1 ∧ sl_locked (b_lock b') = 1)
  | None => get_buf dv bn s = Panic "bget: no buffers"
  end.
Proof.
  destruct (shape_lookup _ _ HEAD Hshape) as [h Hh]; [done|].
  assert (Hfm : first_match (bufs s) (λ b, (b_dev b =? dv) && (b_blockno b =? bn)) order = None).
  { destruct (first_match _ _ order) as [i|] eqn:E; [|done]. exfalso.
    apply first_match_Some in E as [Hi (b & Eb & Hp)]. b2p.
    apply (shape_order _ _ _ Hshape) in Hi. apply (Hmiss i b Hi Eb). unfold key. congruence. }
  set (s1 := set_bc_lock 1 s).
  pose proof (scan_fwd s1 order (λ b, (b_dev b =? dv) && (b_blockno b =? bn)) h Hshape Hh) as Hf.
  pose proof (scan_bwd s1 order (λ b, (b_refcnt b =? 0) && (Z.land (b_flags b) B_DIRTY =? 0))
                h Hshape Hh) as Hb.
  simpl bufs in Hf, Hb. rewrite Hfm in Hf.
  assert (Hsame : first_match (bufs s) (λ b, (b_refcnt b =? 0) && negb (is_dirty b)) (rev order) =
            first_match (bufs s) (λ b, (b_refcnt b =? 0) && (Z.land (b_flags b) B_DIRTY =? 0))
              (rev order)).
  { apply first_match_ext. intros b. unfold is_dirty. by rewrite negb_involutive. }
  rewrite Hsame. destruct (first_match _ _ (rev order)) as [i|] eqn:E.
  - intros b Eb Hl. unfold get_buf. do 2 wp_step. fold s1.
    wp_step. eapply wp_buf_at; [exact Hh|]. cbv beta.
    wp_step. eapply wp_eq; [exact Hf|]. cbv beta iota.
    wp_step. eapply wp_buf_at; [exact Hh|]. cbv beta.
    wp_step. eapply wp_eq; [exact Hb|]. cbv beta iota.
    do 4 (wp_step; eapply wp_on_buf; [first [exact Eb | by eapply lookup_insert_self]|]; cbv beta;
          simpl; rewrite ?list_insert_insert_eq).
    do 2 wp_step. wp_step. eapply wp_lock_buf; [by eapply lookup_insert_self|exact Hl|].
    wp_step. simpl. rewrite list_insert_insert_eq. split; [done|].
    eexists. split; [by eapply lookup_insert_self|]. done.
  - assert (Hat : buf_at HEAD s1 = Ok (h, s1)).
    { unfold buf_at, bind, get, expect. change (bufs s1) with (bufs s). by rewrite Hh. }
    unfold get_buf. rewrite (bind_ok _ _ s tt s1) by done.
    rewrite (bind_ok _ _ _ _ _ Hat), (bind_ok _ _ _ _ _ Hf).
    by rewrite (bind_ok _ _ _ _ _ Hat), (bind_ok _ _ _ _ _ Hb).
Qed.

End bio.

(** A memory disk of 2000 blocks, every byte seven. *)
Definition disk0 : Memide.memdisk := Memide.ideinit (λ _, 7) (2000 * BSIZE).

Lemma bio_refines_cache_witness :
  ∃ (s : bio (D := Memide.memdisk)) r s' a', bio_abs s (cache_empty disk0) ∧ op_legal (cache_empty disk0) (OpRead 1 3) ∧
    run_op (OpRead 1 3) s = Ok (r, s') ∧ cache_step (cache_empty disk0) (OpRead 1 3) r a' ∧
    bio_abs s' a'.
Proof.
  destruct (proj1 (wp_ok _ _ _) (binit_abs disk0 1)) as (u & s & _ & Ha & _).
  assert (Hl : op_legal (cache_empty disk0) (OpRead 1 3)).
  { split_and!; [lia| |by intros i|].
    - split; [reflexivity|]. vm_compute. by split.
    - right. rewrite HEAD_eq. vm_compute. lia. }
  destruct (bio_refines_cache s (cache_empty disk0) (OpRead 1 3) Ha Hl) as (r & s' & a' & ? & ? & ?).
  by exists s, r, s', a'.
Defined.

Lemma bget_recycles_lru_witness :
  ∃ s : bio (D := Memide.memdisk), bufs_shape (bufs s) (rev (seq 0 HEAD)) ∧
  match first_match (bufs s) (λ b, (b_refcnt b =? 0) && negb (is_dirty b)) (rev (rev (seq 0 HEAD))) with
  | Some i =>
      ∀ b, bufs s !! i = Some b → sl_locked (b_lock b) = 0 →
      wp (get_buf 1 5) s (λ i' s', i' = i ∧
        ∃ b', bufs s' !! i = Some b' ∧ key b' = (1, 5) ∧ b_flags b' = 0 ∧
              b_refcnt b' = 1 ∧ sl_locked (b_lock b') = 1)
  | None => get_buf 1 5 s = Panic "bget: no buffers"
  end.
Proof.
  destruct (init_blank [] disk0 1) as (s & _ & _ & _ & _ & Hs & Hb & _). exists s.
  split; [exact Hs|]. apply (bget_recycles_lru s (rev (seq 0 HEAD)) 1 5 Hs).
  intros i b _ E Hk. rewrite forallb_forall in Hb.
  specialize (Hb b ltac:(apply list_elem_of_In; by eapply list_elem_of_lookup_2)).
  unfold blank in Hb. b2p. unfold key in Hk. congruence.
Defined.

End Bio.
