(* ===== verification/Fsh.v ===== *)
(** * On-disk formats

    crates/fs/src/fsh.rs: the super block, the disk inode and the directory
    entry as the bytes of a block, with the block arithmetic that locates
    them; and the log header of crates/fs/src/log.rs. All are [#[repr(C)]],
    little-endian, without padding. *)

From S2P Require Import Prelude Param.

Module Fsh.

Definition ROOTINO : Z := 1.
Definition NDIRECT : Z := 12.
Definition NINDIRECT : Z := BSIZE / 4.
Definition MAXFILE : Z := NDIRECT + NINDIRECT.
Definition DIRSIZ : Z := 14.

(** Field accesses through a pointer into the bytes of a block. *)
Definition rd_u16 (off : nat) (d : list Z) : Z := le_val (slice off 2 d).
Definition rd_i16 (off : nat) (d : list Z) : Z := as_i16 (le_val (slice off 2 d)).
Definition rd_u32 (off : nat) (d : list Z) : Z := le_val (slice off 4 d).
Definition rd_i32 (off : nat) (d : list Z) : Z := as_i32 (le_val (slice off 4 d)).
Definition wr_u32 (off : nat) (v : Z) (d : list Z) : list Z := splice off (le_bytes 4 v) d.
Definition wr_i32 (off : nat) (v : Z) (d : list Z) : list Z := splice off (le_bytes 4 (as_u32 v)) d.

Record Superblock := mkSB {
  sb_size : Z;
  sb_nblocks : Z;
  sb_ninodes : Z;
  sb_nlog : Z;
  sb_logstart : Z;
  sb_inodestart : Z;
  sb_bmapstart : Z;
}.
Definition sb_zero : Superblock := mkSB 0 0 0 0 0 0 0.
Definition sizeof_sb : nat := 28.
Definition enc_sb (sb : Superblock) : list Z :=
  le_bytes 4 (sb_size sb) ++ le_bytes 4 (sb_nblocks sb) ++ le_bytes 4 (sb_ninodes sb) ++
  le_bytes 4 (sb_nlog sb) ++ le_bytes 4 (sb_logstart sb) ++ le_bytes 4 (sb_inodestart sb) ++
  le_bytes 4 (sb_bmapstart sb).
Definition dec_sb (d : list Z) : Superblock :=
  mkSB (rd_u32 0 d) (rd_u32 4 d) (rd_u32 8 d) (rd_u32 12 d) (rd_u32 16 d) (rd_u32 20 d)
       (rd_u32 24 d).

Record Dinode := mkDinode {
  di_type : Z;
  di_major : Z;
  di_minor : Z;
  di_nlink : Z;
  di_size : Z;
  di_addrs : list Z;
}.
Definition sizeof_dinode : nat := 64.
Definition enc_dinode (di : Dinode) : list Z :=
  le_bytes 2 (as_u16 (di_type di)) ++ le_bytes 2 (as_u16 (di_major di)) ++
  le_bytes 2 (as_u16 (di_minor di)) ++ le_bytes 2 (as_u16 (di_nlink di)) ++
  le_bytes 4 (di_size di) ++ concat (le_bytes 4 <$> di_addrs di).
Definition dec_dinode (d : list Z) : Dinode :=
  mkDinode (rd_i16 0 d) (rd_i16 2 d) (rd_i16 4 d) (rd_i16 6 d) (rd_u32 8 d)
           ((λ i, rd_u32 (12 + 4 * i) d) <$> seq 0 13).

Record Dirent := mkDirent {
  de_inum : Z;
  de_name : list Z;
}.
Definition sizeof_dirent : nat := 16.
Definition EMPTY : Dirent := mkDirent 0 (replicate 14 0).
Definition is_free (de : Dirent) : bool := de_inum de =? 0.
Definition enc_dirent (de : Dirent) : list Z := le_bytes 2 (de_inum de) ++ de_name de.
Definition dec_dirent (d : list Z) : Dirent := mkDirent (rd_u16 0 d) (slice 2 14 d).

Definition IPB : Z := BSIZE / 64.
Definition iblock {S} (i : Z) (sb : Superblock) : M S Z := chk_u32 (i / IPB + sb_inodestart sb).
Definition BPB : Z := BSIZE * 8.
Definition bblock {S} (b : Z) (sb : Superblock) : M S Z := chk_u32 (b / BPB + sb_bmapstart sb).

(** The inode in slot [i] of the bytes of an inode block. *)
Definition get_dinode (i : nat) (d : list Z) : Dinode :=
  dec_dinode (slice (sizeof_dinode * i) sizeof_dinode d).
Definition put_dinode (i : nat) (di : Dinode) (d : list Z) : list Z :=
  splice (sizeof_dinode * i) (enc_dinode di) d.

(** ** Round trips *)

Definition is_u32 (x : Z) : Prop := 0 ≤ x < u32_max.
Definition is_i16 (x : Z) : Prop := -32768 ≤ x < 32768.

Record dinode_ok (di : Dinode) : Prop := {
  dio_type : is_i16 (di_type di);
  dio_major : is_i16 (di_major di);
  dio_minor : is_i16 (di_minor di);
  dio_nlink : is_i16 (di_nlink di);
  dio_size : is_u32 (di_size di);
  dio_len : length (di_addrs di) = 13%nat;
  dio_addrs : Forall is_u32 (di_addrs di);
}.

Lemma le4_roundtrip x : is_u32 x → le_val (le_bytes 4 x) = x.
Proof. intros H. apply le_val_bytes_small. exact H. Qed.

Lemma i16_roundtrip x : is_i16 x → as_i16 (le_val (le_bytes 2 (as_u16 x))) = x.
Proof.
  intros H. rewrite le_val_bytes_small.
  - unfold as_i16, as_u16, is_i16, u16_max in *. bcase; Z.to_euclidean_division_equations; lia.
  - unfold as_u16, u16_max. change (256 ^ Z.of_nat 2) with 65536. apply Z.mod_pos_bound. lia.
Qed.

Lemma i32_roundtrip x : i32_lo ≤ x < i32_hi → as_i32 (le_val (le_bytes 4 (as_u32 x))) = x.
Proof.
  intros H. unfold i32_lo, i32_hi in *. rewrite le_val_bytes_small.
  - unfold as_i32, as_u32, i32_hi, u32_max in *. bcase; Z.to_euclidean_division_equations; lia.
  - unfold as_u32, u32_max. change (256 ^ Z.of_nat 4) with 4294967296. apply Z.mod_pos_bound. lia.
Qed.

Lemma length_wr_i32 off v d : (off + 4 ≤ length d)%nat → length (wr_i32 off v d) = length d.
Proof. intros. unfold wr_i32. by rewrite length_splice by (by rewrite length_le_bytes). Qed.

Lemma rd_wr_i32_same off v d :
  i32_lo ≤ v < i32_hi → (off + 4 ≤ length d)%nat → rd_i32 off (wr_i32 off v d) = v.
Proof.
  intros Hv Hl. unfold rd_i32, wr_i32.
  pose proof (slice_splice_same off (le_bytes 4 (as_u32 v)) d) as Hs.
  rewrite length_le_bytes in Hs. rewrite Hs by done. by apply i32_roundtrip.
Qed.

Lemma rd_wr_i32_other off off' v d :
  (off + 4 ≤ length d)%nat → (off' + 4 ≤ off ∨ off + 4 ≤ off')%nat →
  rd_i32 off' (wr_i32 off v d) = rd_i32 off' d.
Proof.
  intros Hl Ho. unfold rd_i32, wr_i32. by rewrite slice_splice_other by (by rewrite length_le_bytes).
Qed.

Lemma length_words l : length (concat (le_bytes 4 <$> l)) = (4 * length l)%nat.
Proof.
  induction l as [|x l IH]; [done|].
  rewrite fmap_cons. cbn [concat]. rewrite length_app, IH, length_le_bytes. simpl. lia.
Qed.

Lemma length_enc_dinode di : length (di_addrs di) = 13%nat → length (enc_dinode di) = sizeof_dinode.
Proof.
  intros H. unfold enc_dinode. by rewrite !length_app, !length_le_bytes, length_words, H.
Qed.

Lemma dec_enc_dinode di : dinode_ok di → dec_dinode (enc_dinode di) = di.
Proof.
  destruct di as [ty ma mi nl sz ad]. intros [H1 H2 H3 H4 H5 H6 H7]. simpl in *.
  do 13 (destruct ad as [|? ad]; [done|]). destruct ad; [|done].
  repeat (apply Forall_cons in H7 as [? H7]).
  unfold dec_dinode, enc_dinode. simpl di_addrs. simpl di_type. simpl di_major. simpl di_minor.
  simpl di_nlink. simpl di_size.
  f_equal; try (by apply i16_roundtrip); try (by apply le4_roundtrip).
  cbn [seq fmap list_fmap]. repeat (apply f_equal2; [by apply le4_roundtrip|]). reflexivity.
Qed.

Definition rd_dirent_ok (de : Dirent) : Prop := 0 ≤ de_inum de < u16_max ∧ length (de_name de) = 14%nat.

Lemma dec_enc_dirent de : rd_dirent_ok de → dec_dirent (enc_dirent de) = de.
Proof.
  destruct de as [n nm]. intros [H1 H2]. simpl in *.
  unfold dec_dirent, enc_dirent. simpl de_inum. simpl de_name. f_equal.
  - unfold rd_u16, slice. rewrite drop_0, take_app_length' by (by rewrite length_le_bytes).
    by apply le_val_bytes_small.
  - unfold slice. rewrite drop_app_length' by (by rewrite length_le_bytes).
    rewrite take_ge by lia. done.
Qed.

Record sb_ok (sb : Superblock) : Prop := {
  sbo_size : is_u32 (sb_size sb);
  sbo_nblocks : is_u32 (sb_nblocks sb);
  sbo_ninodes : is_u32 (sb_ninodes sb);
  sbo_nlog : is_u32 (sb_nlog sb);
  sbo_logstart : is_u32 (sb_logstart sb);
  sbo_inodestart : is_u32 (sb_inodestart sb);
  sbo_bmapstart : is_u32 (sb_bmapstart sb);
}.

Lemma dec_enc_sb sb rest : sb_ok sb → dec_sb (enc_sb sb ++ rest) = sb.
Proof.
  destruct sb as [a b c d e f g]. intros [H1 H2 H3 H4 H5 H6 H7]. simpl in *.
  unfold dec_sb, enc_sb. simpl sb_size. simpl sb_nblocks. simpl sb_ninodes. simpl sb_nlog.
  simpl sb_logstart. simpl sb_inodestart. simpl sb_bmapstart.
  f_equal; by apply le4_roundtrip.
Qed.

(** The slots of an inode block are independent: writing an inode into
    slot [i] and reading slot [j] gives the inode written when [i = j], with
    every field intact, and the old content otherwise; the block keeps its
    size. *)
Theorem dinode_slots_independent (di : Dinode) (d : list Z) (i j : nat)
    (Hok : dinode_ok di) (Hlen : length d = Z.to_nat BSIZE)
    (Hi : (i < Z.to_nat IPB)%nat) (Hj : (j < Z.to_nat IPB)%nat) :
  length (put_dinode i di d) = length d ∧
  get_dinode j (put_dinode i di d) = if decide (i = j) then di else get_dinode j d.
Proof.
  change (Z.to_nat IPB) with 8%nat in *. change (Z.to_nat BSIZE) with 512%nat in Hlen.
  pose proof (length_enc_dinode di (dio_len _ Hok)) as Hl.
  unfold put_dinode, get_dinode, sizeof_dinode in *.
  split; [apply length_splice; lia|]. destruct (decide (i = j)) as [<-|Hne].
  - rewrite <- Hl at 2. rewrite slice_splice_same by lia. by apply dec_enc_dinode.
  - by rewrite slice_splice_other by lia.
Qed.

Lemma dinode_slots_independent_witness :
  length (put_dinode 3 (mkDinode 2 0 0 1 700 (replicate 13 29)) (replicate 512 0)) = 512%nat ∧
  get_dinode 3 (put_dinode 3 (mkDinode 2 0 0 1 700 (replicate 13 29)) (replicate 512 0))
  = mkDinode 2 0 0 1 700 (replicate 13 29).
Proof.
  destruct (dinode_slots_independent (mkDinode 2 0 0 1 700 (replicate 13 29)) (replicate 512 0) 3 3)
    as [H1 H2]; [| |vm_compute; lia|vm_compute; lia|].
  - split; simpl; try (unfold is_i16, is_u32, u32_max; lia).
    repeat (apply Forall_cons; split; [unfold is_u32, u32_max; lia|]). apply Forall_nil_2.
  - reflexivity.
  - split; [exact H1|]. rewrite H2. reflexivity.
Defined.

End Fsh.
