(* ===== verification/Log.v ===== *)
(** * Write-ahead log

    crates/fs/src/log.rs over the buffer cache: transactions are pinned in the
    cache, copied to the log area, committed by one write of the header block
    and then installed; after a crash the header decides whether to install
    again. [readsb] of crates/fs/src/fs.rs, which [initlog] calls, is here
    too. *)

From S2P Require Import Prelude Param Sync Mem Disk Ring Bio Fsh.
Import Sync Bio Fsh.

Module Log.

Section log.
Context {D : Type} `{!BlockDev D}.

(** [Log], with its [LogHeader] as the last two fields. *)
Record Log := mkLog {
  lg_lock : spinlock;
  lg_start : Z;
  lg_size : Z;
  lg_outstanding : Z;
  lg_committing : bool;
  lg_dev : Z;
  lh_n : Z;
  lh_block : list Z;
}.

(** The log, the buffer cache under it, and the wakeups it issued. *)
Record lstate := mkL {
  lg : Log;
  lb : bio (D := D);
  lwakes : list chan;
}.

Definition on_log (f : Log → Log) : M lstate unit :=
  modify (λ s, mkL (f (lg s)) (lb s) (lwakes s)).
Definition on_bio {A} (m : M bio A) : M lstate A :=
  zoom lb (λ b s, mkL (lg s) b (lwakes s)) m.
Definition log_wakeup : M lstate unit := modify (λ s, mkL (lg s) (lb s) (lwakes s ++ [ChLog])).

Definition set_lg_lock (v : Z) (l : Log) : Log :=
  mkLog (set_locked v (lg_lock l)) (lg_start l) (lg_size l) (lg_outstanding l)
        (lg_committing l) (lg_dev l) (lh_n l) (lh_block l).
Definition set_outstanding (v : Z) (l : Log) : Log :=
  mkLog (lg_lock l) (lg_start l) (lg_size l) v (lg_committing l) (lg_dev l) (lh_n l) (lh_block l).
Definition set_committing (v : bool) (l : Log) : Log :=
  mkLog (lg_lock l) (lg_start l) (lg_size l) (lg_outstanding l) v (lg_dev l) (lh_n l) (lh_block l).
Definition set_n (v : Z) (l : Log) : Log :=
  mkLog (lg_lock l) (lg_start l) (lg_size l) (lg_outstanding l) (lg_committing l) (lg_dev l) v
        (lh_block l).
Definition set_block (i : nat) (v : Z) (l : Log) : Log :=
  mkLog (lg_lock l) (lg_start l) (lg_size l) (lg_outstanding l) (lg_committing l) (lg_dev l)
        (lh_n l) (<[i := v]> (lh_block l)).
Definition set_geometry (start size dev : Z) (l : Log) : Log :=
  mkLog (lg_lock l) start size (lg_outstanding l) (lg_committing l) dev (lh_n l) (lh_block l).

(** [0..n as usize] of a loop whose body indexes the header's array: a count
    past [LOGSIZE], and a negative one, end in the index check of iteration
    [LOGSIZE], so no more iterations than that are ever started. *)
Definition head_iters (n : Z) : list nat :=
  seq 0 (if n <? 0 then S (Z.to_nat LOGSIZE) else Nat.min (Z.to_nat n) (S (Z.to_nat LOGSIZE))).

Definition lh_at (i : nat) : M lstate Z :=
  let* l := gets lg in expect "index out of bounds" (lh_block l !! i).
Definition log_slot (tail : nat) : M lstate Z :=
  let* l := gets lg in
  let* x := chk_i32 (lg_start l + Z.of_nat tail) in
  let* y := chk_i32 (x + 1) in
  ret (as_u32 y).

Definition install_trans : M lstate unit :=
  let* n := gets (λ s, lh_n (lg s)) in
  forM (head_iters n) (λ tail,
    let* l := gets lg in
    let* slot := log_slot tail in
    let* lbuf := on_bio (read (as_u32 (lg_dev l)) slot) in
    let* home := lh_at tail in
    let* dbuf := on_bio (read (as_u32 (lg_dev l)) (as_u32 home)) in
    let* x := on_bio (buf_at lbuf) in
    on_bio (on_buf dbuf (λ b, set_data (b_data x) b)) ;;;
    on_bio (write dbuf) ;;;
    on_bio (release_buf dbuf) ;;;
    on_bio (release_buf lbuf)).

(** The fields of [LogHeader] in the bytes of a block. *)
Definition hd_n (d : list Z) : Z := rd_i32 0 d.
Definition hd_block (i : nat) (d : list Z) : Z := rd_i32 (4 + 4 * i) d.

Definition read_head : M lstate unit :=
  let* l := gets lg in
  let* buf := on_bio (read (as_u32 (lg_dev l)) (as_u32 (lg_start l))) in
  let* x := on_bio (buf_at buf) in
  on_log (set_n (hd_n (b_data x))) ;;;
  let* n := gets (λ s, lh_n (lg s)) in
  forM (head_iters n) (λ i,
    assert_ (i <? Z.to_nat LOGSIZE)%nat "index out of bounds" ;;;
    on_log (set_block i (hd_block i (b_data x)))) ;;;
  on_bio (release_buf buf).

Definition write_head : M lstate unit :=
  let* l := gets lg in
  let* buf := on_bio (read (as_u32 (lg_dev l)) (as_u32 (lg_start l))) in
  on_bio (on_buf buf (λ b, set_data (wr_i32 0 (lh_n l) (b_data b)) b)) ;;;
  forM (head_iters (lh_n l)) (λ i,
    let* v := lh_at i in
    on_bio (on_buf buf (λ b, set_data (wr_i32 (4 + 4 * i) v (b_data b)) b))) ;;;
  on_bio (write buf) ;;;
  on_bio (release_buf buf).

Definition recover_from_log : M lstate unit :=
  read_head ;;;
  install_trans ;;;
  on_log (set_n 0) ;;;
  write_head.

Definition write_log : M lstate unit :=
  let* n := gets (λ s, lh_n (lg s)) in
  forM (head_iters n) (λ tail,
    let* l := gets lg in
    let* home := lh_at tail in
    let* from := on_bio (read (as_u32 (lg_dev l)) (as_u32 home)) in
    let* slot := log_slot tail in
    let* to := on_bio (read (as_u32 (lg_dev l)) slot) in
    let* x := on_bio (buf_at from) in
    on_bio (on_buf to (λ b, set_data (b_data x) b)) ;;;
    on_bio (write to) ;;;
    on_bio (release_buf to) ;;;
    on_bio (release_buf from)).

Definition commit : M lstate unit :=
  let* n := gets (λ s, lh_n (lg s)) in
  if 0 <? n then
    write_log ;;;
    write_head ;;;
    install_trans ;;;
    on_log (set_n 0) ;;;
    write_head
  else ret tt.

(** [readsb] of fs.rs. *)
Definition readsb (dev : Z) : M bio Superblock :=
  let* buf := read (as_u32 dev) 1 in
  let* x := buf_at buf in
  release_buf buf ;;;
  ret (dec_sb (take sizeof_sb (b_data x))).

Definition sizeof_logheader : Z := 4 + 4 * LOGSIZE.

Definition initlog (dev : Z) : M lstate unit :=
  if BSIZE <=? sizeof_logheader then panic "initlog: too big logheader"
  else
    on_log (λ l, mkLog (initlock "log" (lg_lock l)) (lg_start l) (lg_size l) (lg_outstanding l)
                       (lg_committing l) (lg_dev l) (lh_n l) (lh_block l)) ;;;
    let* sb := on_bio (readsb dev) in
    on_log (set_geometry (as_i32 (sb_logstart sb)) (as_i32 (sb_nlog sb)) dev) ;;;
    recover_from_log.

(** One pass of the loop of [begin_op]: it sleeps, or is admitted. *)
Definition begin_op : M lstate unit :=
  on_log (set_lg_lock 1) ;;;
  let* l := gets lg in
  if lg_committing l then blocked
  else
    let* o := chk_i32 (lg_outstanding l + 1) in
    let* r := chk_i32 (o * MAXOPBLOCKS) in
    let* t := chk_i32 (lh_n l + r) in
    if LOGSIZE <? t then blocked
    else
      on_log (set_outstanding o) ;;;
      on_log (set_lg_lock 0).

Definition end_op : M lstate unit :=
  on_log (set_lg_lock 1) ;;;
  let* l := gets lg in
  let* o := chk_i32 (lg_outstanding l - 1) in
  on_log (set_outstanding o) ;;;
  if lg_committing l then panic "log.committing"
  else
    let* do_commit :=
      (if o =? 0 then on_log (set_committing true) ;;; ret true
       else log_wakeup ;;; ret false) in
    on_log (set_lg_lock 0) ;;;
    if do_commit then
      commit ;;;
      on_log (set_lg_lock 1) ;;;
      on_log (set_committing false) ;;;
      log_wakeup ;;;
      on_log (set_lg_lock 0)
    else ret tt.

(** The search of [log_write]: the first slot holding [bno], or [n]. *)
Definition log_search (bno : Z) : M lstate Z :=
  whileM (S (Z.to_nat LOGSIZE))
    (λ i s, (i <? lh_n (lg s)) &&
            negb (match lh_block (lg s) !! Z.to_nat i with Some v => v =? bno | None => false end))
    (λ i, let* v := lh_at (Z.to_nat i) in ret (i + 1)) 0.

(** [lg.lh.n >= LOGSIZE || lg.lh.n >= lg.size - 1]. *)
Definition txn_full (l : Log) : M lstate bool :=
  if LOGSIZE <=? lh_n l then ret true
  else let* m := chk_i32 (lg_size l - 1) in ret (m <=? lh_n l).

(** The part of [log_write] under the log's lock. *)
Definition log_record (b : nat) : M lstate unit :=
  on_log (set_lg_lock 1) ;;;
  let* x := on_bio (buf_at b) in
  let bno := as_i32 (b_blockno x) in
  let* i := log_search bno in
  let* _ := lh_at (Z.to_nat i) in
  on_log (set_block (Z.to_nat i) bno) ;;;
  let* l := gets lg in
  (if i =? lh_n l then
     let* n := chk_i32 (lh_n l + 1) in on_log (set_n n)
   else ret tt) ;;;
  on_bio (on_buf b (λ x, set_flags (Z.lor (b_flags x) B_DIRTY) x)) ;;;
  on_log (set_lg_lock 0).

Definition log_write (b : nat) : M lstate unit :=
  let* l := gets lg in
  let* big := txn_full l in
  if (big : bool) then panic "too big a transaction"
  else if lg_outstanding l <? 1 then panic "log_write outside of trans"
  else log_record b.

(** ** Copying a block through the cache *)

Lemma wp_on_bio {A} (m : M bio A) s (Q : A → lstate → Prop) :
  wp m (lb s) (λ x b, Q x (mkL (lg s) b (lwakes s))) → wp (on_bio m) s Q.
Proof. intros H. unfold on_bio. apply (wp_zoom lb). exact H. Qed.

(** Block [dst] gets what the cache shows for [src], in the cache and on disk. *)
Definition a_copy (src dst : Z * Z) (a : cache) : cache :=
  let d := <[dst := c_view a src]> (c_disk a) in
  mkCache (c_ok a) d (<[dst := c_view a src]> (c_view a)) (c_dirty a ∖ {[dst]}) (c_held a)
          (c_hist a ++ [d]).

Lemma in_use_hold a i k : c_held a = ∅ → in_use (a_hold i k a) = c_dirty a ∪ {[k]}.
Proof.
  intros H. unfold in_use. simpl. rewrite H. f_equal.
  by rewrite insert_empty, map_img_singleton_L.
Qed.

Lemma in_use_none a : c_held a = ∅ → in_use a = c_dirty a.
Proof. intros H. unfold in_use. rewrite H, map_img_empty_L. set_solver. Qed.

(** A block nobody holds is on disk or pinned. *)
Lemma unheld_settled s a k : bio_abs s a → c_ok a k → (∀ i, c_held a !! i ≠ Some k) → settled a k.
Proof.
  intros Ha Hk Hh. destruct (decide (k ∈ c_dirty a)); [by left|]. right.
  by apply (dk_view _ _ _ (ba_disk _ _ Ha)).
Qed.

Definition copy_rest (i : nat) (dv bn : Z) : M lstate unit :=
  let* j := on_bio (read dv bn) in
  let* x := on_bio (buf_at i) in
  on_bio (on_buf j (λ b, set_data (b_data x) b)) ;;;
  on_bio (write j) ;;;
  on_bio (release_buf j) ;;;
  on_bio (release_buf i).

Lemma copy_rest_spec s a i src dv bn :
  bio_abs (lb s) (a_hold i src a) → c_held a = ∅ → settled a src → 0 < dv →
  c_ok a (dv, bn) → src ≠ (dv, bn) →
  ((dv, bn) ∈ c_dirty a ∨ (size (c_dirty a ∪ {[src]}) < HEAD)%nat) →
  wp (copy_rest i dv bn) s (λ _ s',
    lg s' = lg s ∧ bio_abs (lb s') (a_copy src (dv, bn) a)).
Proof.
  intros Ha Hh Hset Hdv Hok Hne Hroom. unfold copy_rest.
  assert (Hi : c_held (a_hold i src a) !! i = Some src) by apply lookup_insert_eq.
  wp_step. apply wp_on_bio. eapply wp_mono.
  { apply (bread_spec _ _ dv bn Ha); try done.
    - intros j. simpl. rewrite Hh, insert_empty. rewrite lookup_singleton_Some. naive_solver.
    - by rewrite in_use_hold. }
  intros j b1 (Ha1 & Hj & _). simpl in Hj. simpl.
  assert (Hij : j ≠ i) by (intros ->; by rewrite lookup_insert_eq in Hj).
  set (a1 := a_hold j (dv, bn) (a_hold i src a)) in *.
  assert (H1i : c_held a1 !! i = Some src) by (simpl; by rewrite lookup_insert_ne).
  assert (H1j : c_held a1 !! j = Some (dv, bn)) by apply lookup_insert_eq.
  wp_step. apply wp_on_bio. eapply held_data; [exact Ha1|exact H1i|]. intros x _ Hx. simpl.
  assert (Hlen : length (c_view a src) = Z.to_nat BSIZE).
  { destruct (held_buf _ _ _ _ Ha1 H1i) as (c & _ & _ & Hc & _ & Hcd & _).
    change (c_view a src) with (c_view a1 src). rewrite <- Hcd. apply Hc. }
  wp_step. apply wp_on_bio. eapply wp_mono.
  { apply (set_data_spec _ _ j _ (λ _, b_data x) Ha1 H1j). by rewrite Hx. }
  rewrite Hx. change (c_view a1 src) with (c_view a src). intros _ b2 [Ha2 _]. simpl.
  wp_step. apply wp_on_bio. eapply wp_mono.
  { change (write j) with (bwrite (D := D) j). apply (bwrite_spec _ _ j _ Ha2 H1j). }
  intros _ b3 [Ha3 _]. simpl.
  wp_step. apply wp_on_bio. eapply wp_mono.
  { apply (brelse_spec _ _ j _ Ha3 H1j). right. simpl. by rewrite !fn_lookup_insert. }
  intros _ b4 [Ha4 _]. simpl.
  apply wp_on_bio. eapply wp_mono.
  { apply (brelse_spec _ _ i src Ha4).
    - simpl. by rewrite lookup_delete_ne.
    - destruct Hset as [Hd|Hv]; [left; simpl; set_solver|right]. simpl.
      by rewrite !fn_lookup_insert, !fn_lookup_insert_ne. }
  intros _ b5 [Ha5 _]. simpl. split; [done|].
  replace (a_copy src (dv, bn) a) with (a_release i (a_release j
    (a_write (dv, bn) (a_set (dv, bn) (c_view a src) a1)))); [done|].
  unfold a_copy, a_release, a_write, a_set, a1, a_hold. simpl.
  rewrite fn_lookup_insert, Hh. f_equal.
  rewrite insert_empty, delete_insert_id, delete_singleton_eq; [done|].
  by rewrite lookup_singleton_ne.
Qed.

(** ** The blocks of a transaction *)

Definition hdr_key (l : Log) : Z * Z := (lg_dev l, lg_start l).
Definition slot_key (l : Log) (i : nat) : Z * Z := (lg_dev l, lg_start l + 1 + Z.of_nat i).
Definition home_key (l : Log) (i : nat) : Z * Z := (lg_dev l, as_u32 (nth i (lh_block l) 0)).

(** A log whose first [n] entries are usable: the blocks exist, homes lie
    outside the log, and nothing of the log itself is pinned. *)
Record log_geom (l : Log) (n : nat) (a : cache) : Prop := {
  geo_dev : 0 < lg_dev l < i32_hi;
  geo_start : 0 ≤ lg_start l ∧ lg_start l + LOGSIZE + 1 < i32_hi;
  geo_len : length (lh_block l) = Z.to_nat LOGSIZE;
  geo_n : (n ≤ Z.to_nat LOGSIZE)%nat;
  geo_hdr : c_ok a (hdr_key l) ∧ hdr_key l ∉ c_dirty a;
  geo_slot i : (i < n)%nat → c_ok a (slot_key l i) ∧ slot_key l i ∉ c_dirty a;
  geo_home i : (i < n)%nat → c_ok a (home_key l i) ∧ home_key l i ≠ hdr_key l;
  geo_apart i j : (i < n)%nat → (j < n)%nat → home_key l i ≠ slot_key l j;
}.

(** The disk after [j] slots are copied home, and after [j] blocks of the
    view [v] are copied to their slots. *)
Definition inst (l : Log) (j : nat) (f : Z * Z → list Z) : Z * Z → list Z :=
  foldl (λ g i, <[home_key l i := g (slot_key l i)]> g) f (seq 0 j).
Definition logged (l : Log) (v : Z * Z → list Z) (j : nat) (f : Z * Z → list Z) : Z * Z → list Z :=
  foldl (λ g i, <[slot_key l i := v (home_key l i)]> g) f (seq 0 j).

Lemma inst_S l j f :
  inst l (S j) f = <[home_key l j := inst l j f (slot_key l j)]> (inst l j f).
Proof. unfold inst. by rewrite seq_S, foldl_app. Qed.
Lemma logged_S l v j f :
  logged l v (S j) f = <[slot_key l j := v (home_key l j)]> (logged l v j f).
Proof. unfold logged. by rewrite seq_S, foldl_app. Qed.

Lemma inst_other l j f k : (∀ i, (i < j)%nat → home_key l i ≠ k) → inst l j f k = f k.
Proof.
  induction j as [|j IH]; intros H; [done|]. rewrite inst_S.
  rewrite fn_lookup_insert_ne by (apply H; lia). apply IH. auto with lia.
Qed.

Lemma logged_other l v j f k : (∀ i, (i < j)%nat → slot_key l i ≠ k) → logged l v j f k = f k.
Proof.
  induction j as [|j IH]; intros H; [done|]. rewrite logged_S.
  rewrite fn_lookup_insert_ne by (apply H; lia). apply IH. auto with lia.
Qed.

Lemma slot_key_inj l i j : slot_key l i = slot_key l j → i = j.
Proof. unfold slot_key. intros [=]. lia. Qed.
Lemma slot_key_hdr l i : slot_key l i ≠ hdr_key l.
Proof. unfold slot_key, hdr_key. intros [=]. lia. Qed.

Lemma logged_slot l v j f i : (i < j)%nat → logged l v j f (slot_key l i) = v (home_key l i).
Proof.
  induction j as [|j IH]; intros H; [lia|]. rewrite logged_S.
  destruct (decide (i = j)) as [->|]; [by rewrite fn_lookup_insert|].
  rewrite fn_lookup_insert_ne by (intros ?%slot_key_inj; lia). apply IH. lia.
Qed.

Lemma inst_slot l n a j f i :
  log_geom l n a → (j ≤ n)%nat → (i < n)%nat → inst l j f (slot_key l i) = f (slot_key l i).
Proof. intros Hg Hj Hi. apply inst_other. intros x Hx. apply (geo_apart _ _ _ Hg); lia. Qed.

(** With distinct homes, a home block gets the content of its slot. *)
Lemma inst_home l n a j f i :
  log_geom l n a → (j ≤ n)%nat → (i < j)%nat →
  (∀ x y, (x < n)%nat → (y < n)%nat → home_key l x = home_key l y → x = y) →
  inst l j f (home_key l i) = f (slot_key l i).
Proof.
  intros Hg Hj Hi Hinj. induction j as [|j IH]; [lia|]. rewrite inst_S.
  destruct (decide (i = j)) as [->|Hne].
  - rewrite fn_lookup_insert. apply (inst_slot l n a); [done|lia|lia].
  - rewrite fn_lookup_insert_ne; [apply IH; lia|]. intros E. apply Hinj in E; lia.
Qed.

(** ** Evaluating the header accesses *)

Lemma head_iters_nat n : (n ≤ Z.to_nat LOGSIZE)%nat → head_iters (Z.of_nat n) = seq 0 n.
Proof.
  intros H. unfold head_iters. rewrite (proj2 (Z.ltb_ge _ _)) by lia.
  rewrite Nat2Z.id, Nat.min_l by lia. done.
Qed.

Lemma as_u32_id x : 0 ≤ x < u32_max → as_u32 x = x.
Proof. apply Z.mod_small. Qed.

Lemma wp_lh_at s i (Q : Z → lstate → Prop) :
  (i < length (lh_block (lg s)))%nat → Q (nth i (lh_block (lg s)) 0) s → wp (lh_at i) s Q.
Proof.
  intros Hi HQ. unfold lh_at. wp_step. wp_step.
  destruct (lookup_lt_is_Some_2 _ _ Hi) as [x Hx]. rewrite Hx. simpl. apply wp_ret.
  by rewrite (nth_lookup_Some _ _ _ _ Hx) in HQ.
Qed.

Lemma wp_log_slot s n a i (Q : Z → lstate → Prop) :
  log_geom (lg s) n a → (i < n)%nat →
  Q (lg_start (lg s) + 1 + Z.of_nat i) s → wp (log_slot i) s Q.
Proof.
  intros Hg Hi HQ. destruct (geo_start _ _ _ Hg) as [H0 H1]. pose proof (geo_n _ _ _ Hg) as Hn.
  change (Z.to_nat LOGSIZE) with 30%nat in Hn. change LOGSIZE with 30 in H1.
  unfold i32_hi in H1. unfold log_slot. wp_step. wp_step.
  wp_step. eapply wp_eq; [apply chk_i32_ok; unfold i32_lo, i32_hi; lia|]. cbv beta.
  wp_step. eapply wp_eq; [apply chk_i32_ok; unfold i32_lo, i32_hi; lia|]. cbv beta.
  wp_step. rewrite as_u32_id by (unfold u32_max; lia).
  by replace (lg_start (lg s) + Z.of_nat i + 1) with (lg_start (lg s) + 1 + Z.of_nat i) by lia.
Qed.

(** ** Installing a transaction *)

(** The cache after [j] iterations of [install_trans] started in [a]. *)
Record installed (l : Log) (j : nat) (a a' : cache) : Prop := {
  in_ok : c_ok a' = c_ok a;
  in_held : c_held a' = ∅;
  in_disk : c_disk a' = inst l j (c_disk a);
  in_dirty k : k ∈ c_dirty a' ↔ k ∈ c_dirty a ∧ ∀ i, (i < j)%nat → home_key l i ≠ k;
  in_view k : (∀ i, (i < j)%nat → home_key l i ≠ k) → c_view a' k = c_view a k;
  in_hist : c_hist a' = c_hist a ++ ((λ i, inst l i (c_disk a)) <$> seq 1 j);
}.

(** Buffers suffice: there is room for two more blocks, or for one when the
    home blocks are distinct and pinned. *)
Definition install_room (l : Log) (n : nat) (a : cache) : Prop :=
  (size (c_dirty a) + 1 < HEAD)%nat ∨
  ((size (c_dirty a) < HEAD)%nat ∧
   (∀ i, (i < n)%nat → home_key l i ∈ c_dirty a) ∧
   (∀ x y, (x < n)%nat → (y < n)%nat → home_key l x = home_key l y → x = y)).

Lemma geom_dev_u32 l n a : log_geom l n a → as_u32 (lg_dev l) = lg_dev l.
Proof.
  intros Hg. apply as_u32_id. pose proof (geo_dev _ _ _ Hg). unfold i32_hi, u32_max in *. lia.
Qed.

Lemma dirty_size_mono (X Y : gset (Z * Z)) : (∀ k, k ∈ X → k ∈ Y) → (size X ≤ size Y)%nat.
Proof. intros H. apply subseteq_size. done. Qed.

Lemma install_step l n a j s a' :
  log_geom l n a → install_room l n a → (j < n)%nat →
  lg s = l → bio_abs (lb s) a' → installed l j a a' →
  wp (let* l := gets lg in
      let* slot := log_slot j in
      let* lbuf := on_bio (read (as_u32 (lg_dev l)) slot) in
      let* home := lh_at j in
      copy_rest lbuf (as_u32 (lg_dev l)) (as_u32 home)) s
     (λ _ s', lg s' = l ∧ ∃ a'', bio_abs (lb s') a'' ∧ installed l (S j) a a'').
Proof.
  intros Hg Hroom Hj <- Ha [Iok Ihe Idi Idr Ivi Ihi].
  assert (Hsz : (size (c_dirty a') ≤ size (c_dirty a))%nat)
    by (apply dirty_size_mono; intros k Hk; by apply Idr in Hk as [? _]).
  destruct (geo_slot _ _ _ Hg j Hj) as [Hso Hsd]. destruct (geo_home _ _ _ Hg j Hj) as [Hho Hhh].
  assert (Hsd' : slot_key (lg s) j ∉ c_dirty a') by (by intros [? _]%Idr).
  assert (Hnh : ∀ k i, c_held a' !! i ≠ Some k) by (intros k i; rewrite Ihe, lookup_empty; done).
  wp_step. wp_step. wp_step. eapply wp_log_slot; [done..|]. rewrite (geom_dev_u32 _ _ _ Hg).
  wp_step. apply wp_on_bio. eapply wp_mono.
  { apply (bread_spec _ _ (lg_dev (lg s)) (lg_start (lg s) + 1 + Z.of_nat j) Ha); [apply Hg| |auto|].
    - by rewrite Iok.
    - right. rewrite in_use_none by done. destruct Hroom as [?|[? _]]; lia. }
  intros i b1 (Ha1 & _ & _). change (lg_dev (lg s), _) with (slot_key (lg s) j) in Ha1.
  wp_step. apply wp_lh_at; [simpl; rewrite (geo_len _ _ _ Hg); pose proof (geo_n _ _ _ Hg); lia|].
  assert (Hvs : c_view a' (slot_key (lg s) j) = inst (lg s) j (c_disk a) (slot_key (lg s) j)).
  { rewrite <- Idi. apply (dk_view _ _ _ (ba_disk _ _ Ha)); [by rewrite Iok|done|auto]. }
  eapply wp_mono.
  { eapply (copy_rest_spec _ a' i (slot_key (lg s) j)); [exact Ha1|done| |apply Hg| | |].
    - eapply unheld_settled; [done|by rewrite Iok|auto].
    - rewrite Iok. exact Hho.
    - intros E. symmetry in E. revert E. apply (geo_apart _ _ _ Hg); lia.
    - destruct Hroom as [Hr|(Hr & Hd & Hinj)].
      + right. pose proof (size_union_alt (c_dirty a') {[slot_key (lg s) j]}) as Hu.
        assert (size ({[slot_key (lg s) j]} ∖ c_dirty a') ≤ 1)%nat; [|lia].
        transitivity (size ({[slot_key (lg s) j]} : gset (Z * Z))); [apply subseteq_size; set_solver|].
        by rewrite size_singleton.
      + left. apply Idr. split; [by apply Hd|]. intros x Hx E. apply Hinj in E; lia. }
  intros _ s' [Hlg Ha']. split; [done|]. eexists. split; [exact Ha'|].
  change (lg_dev (lg s), as_u32 _) with (home_key (lg s) j).
  split; unfold a_copy; cbn [c_ok c_disk c_view c_dirty c_held c_hist]; [done|done| | | |].
  - by rewrite inst_S, Hvs, Idi.
  - intros k. rewrite elem_of_difference, elem_of_singleton, Idr. split.
    + intros [[? H] ?]. split; [done|]. intros x Hx. destruct (decide (x = j)) as [->|]; [done|]. apply H. lia.
    + intros [? H]. split; [split; [done|]; intros x Hx; apply H; lia|].
      intros ->. by apply (H j); [lia|].
  - intros k H. rewrite fn_lookup_insert_ne by (apply H; lia). apply Ivi. intros x Hx. apply H. lia.
  - rewrite seq_S, fmap_app, app_assoc, <- Ihi. cbn [fmap list_fmap Nat.add]. by rewrite inst_S, Hvs, Idi.
Qed.

Lemma install_trans_spec s a n :
  lh_n (lg s) = Z.of_nat n → log_geom (lg s) n a → install_room (lg s) n a → c_held a = ∅ →
  bio_abs (lb s) a →
  wp install_trans s (λ _ s', lg s' = lg s ∧ ∃ a', bio_abs (lb s') a' ∧ installed (lg s) n a a').
Proof.
  intros Hn Hg Hroom Hh Ha. unfold install_trans. wp_step. wp_step.
  rewrite Hn, head_iters_nat by apply Hg.
  apply (wp_forM_seq _ (λ j s', lg s' = lg s ∧ ∃ a', bio_abs (lb s') a' ∧ installed (lg s) j a a')).
  - split; [done|]. exists a. split; [done|]. split; try done.
    + naive_solver lia.
    + simpl. by rewrite app_nil_r.
  - intros j s' Hj (Hl & a' & Ha' & Hi).
    by apply (install_step (lg s) n a j s' a').
Qed.

(** ** Copying a transaction to the log *)

(** The cache after [j] iterations of [write_log] started in [a]. *)
Record copied (l : Log) (j : nat) (a a' : cache) : Prop := {
  co_ok : c_ok a' = c_ok a;
  co_held : c_held a' = ∅;
  co_disk : c_disk a' = logged l (c_view a) j (c_disk a);
  co_dirty : c_dirty a' = c_dirty a;
  co_view k : (∀ i, (i < j)%nat → slot_key l i ≠ k) → c_view a' k = c_view a k;
  co_hist : c_hist a' = c_hist a ++ ((λ i, logged l (c_view a) i (c_disk a)) <$> seq 1 j);
}.

(** The transaction is what is pinned. *)
Definition pinned (l : Log) (n : nat) (a : cache) : Prop :=
  (size (c_dirty a) < HEAD)%nat ∧ ∀ i, (i < n)%nat → home_key l i ∈ c_dirty a.

Lemma copied_step l n a j s a' :
  log_geom l n a → pinned l n a → (j < n)%nat →
  lg s = l → bio_abs (lb s) a' → copied l j a a' →
  wp (let* l := gets lg in
      let* home := lh_at j in
      let* from := on_bio (read (as_u32 (lg_dev l)) (as_u32 home)) in
      let* slot := log_slot j in
      copy_rest from (as_u32 (lg_dev l)) slot) s
     (λ _ s', lg s' = l ∧ ∃ a'', bio_abs (lb s') a'' ∧ copied l (S j) a a'').
Proof.
  intros Hg [Hroom Hpin] Hj <- Ha [Iok Ihe Idi Idr Ivi Ihi].
  destruct (geo_slot _ _ _ Hg j Hj) as [Hso Hsd]. destruct (geo_home _ _ _ Hg j Hj) as [Hho Hhh].
  specialize (Hpin j Hj).
  assert (Hnh : ∀ k i, c_held a' !! i ≠ Some k) by (intros k i; rewrite Ihe, lookup_empty; done).
  do 3 wp_step. apply wp_lh_at; [rewrite (geo_len _ _ _ Hg); pose proof (geo_n _ _ _ Hg); lia|].
  rewrite (geom_dev_u32 _ _ _ Hg). wp_step. apply wp_on_bio. eapply wp_mono.
  { apply (bread_spec _ _ _ _ Ha); [apply Hg| |auto|].
    - rewrite Iok. exact Hho.
    - left. rewrite Idr. exact Hpin. }
  intros i b1 (Ha1 & _ & _). change (lg_dev (lg s), as_u32 _) with (home_key (lg s) j) in Ha1.
  wp_step. eapply wp_log_slot; [done..|].
  assert (Hvh : c_view a' (home_key (lg s) j) = c_view a (home_key (lg s) j)).
  { apply Ivi. intros x Hx E. symmetry in E. revert E. apply (geo_apart _ _ _ Hg); lia. }
  eapply wp_mono.
  { eapply (copy_rest_spec _ a' i (home_key (lg s) j)); [exact Ha1|done| |apply Hg| | |].
    - left. by rewrite Idr.
    - rewrite Iok. exact Hso.
    - by apply (geo_apart _ _ _ Hg j j).
    - right. rewrite Idr. replace (c_dirty a ∪ {[home_key (lg s) j]}) with (c_dirty a); [done|].
      set_solver. }
  intros _ s' [Hlg Ha']. split; [done|]. eexists. split; [exact Ha'|].
  change (lg_dev (lg s), _) with (slot_key (lg s) j).
  split; unfold a_copy; cbn [c_ok c_disk c_view c_dirty c_held c_hist]; [done|done| | | |].
  - by rewrite logged_S, Hvh, Idi.
  - rewrite Idr. set_solver.
  - intros k H. rewrite fn_lookup_insert_ne by (apply H; lia). apply Ivi. intros x Hx. apply H. lia.
  - rewrite seq_S, fmap_app, app_assoc, <- Ihi. cbn [fmap list_fmap Nat.add].
    by rewrite logged_S, Hvh, Idi.
Qed.

Lemma write_log_spec s a n :
  lh_n (lg s) = Z.of_nat n → log_geom (lg s) n a → pinned (lg s) n a → c_held a = ∅ →
  bio_abs (lb s) a →
  wp write_log s (λ _ s', lg s' = lg s ∧ ∃ a', bio_abs (lb s') a' ∧ copied (lg s) n a a').
Proof.
  intros Hn Hg Hroom Hh Ha. unfold write_log. wp_step. wp_step.
  rewrite Hn, head_iters_nat by apply Hg.
  apply (wp_forM_seq _ (λ j s', lg s' = lg s ∧ ∃ a', bio_abs (lb s') a' ∧ copied (lg s) j a a')).
  - split; [done|]. exists a. split; [done|]. split; try done.
    simpl. by rewrite app_nil_r.
  - intros j s' Hj (Hl & a' & Ha' & Hi). by apply (copied_step (lg s) n a j s' a').
Qed.

(** ** The header block *)

(** The header written over the bytes [d], up to entry [j]. *)
Definition head_part (l : Log) (n : nat) (d : list Z) (j : nat) : list Z :=
  foldl (λ d i, wr_i32 (4 + 4 * i) (nth i (lh_block l) 0) d) (wr_i32 0 (Z.of_nat n) d) (seq 0 j).
Definition put_head (l : Log) (n : nat) (d : list Z) : list Z := head_part l n d n.

Lemma head_part_S l n d j :
  head_part l n d (S j) = wr_i32 (4 + 4 * j) (nth j (lh_block l) 0) (head_part l n d j).
Proof. unfold head_part. by rewrite seq_S, foldl_app. Qed.

Lemma head_part_props l n d j :
  length d = Z.to_nat BSIZE → (n ≤ Z.to_nat LOGSIZE)%nat → (j ≤ n)%nat →
  Forall (λ x, i32_lo ≤ x < i32_hi) (lh_block l) → length (lh_block l) = Z.to_nat LOGSIZE →
  length (head_part l n d j) = Z.to_nat BSIZE ∧ hd_n (head_part l n d j) = Z.of_nat n ∧
  ∀ i, (i < j)%nat → hd_block i (head_part l n d j) = nth i (lh_block l) 0.
Proof.
  change (Z.to_nat BSIZE) with 512%nat. change (Z.to_nat LOGSIZE) with 30%nat.
  intros Hd Hn Hj Hr Hl. induction j as [|j IH].
  - unfold head_part. cbn [seq foldl]. rewrite length_wr_i32 by lia.
    split; [done|]. split; [|lia]. apply rd_wr_i32_same; [unfold i32_lo, i32_hi; lia|lia].
  - rewrite head_part_S. destruct IH as (IH1 & IH2 & IH3); [lia|].
    rewrite length_wr_i32 by lia. split; [done|]. split.
    + unfold hd_n. rewrite rd_wr_i32_other by lia. exact IH2.
    + intros i Hi. unfold hd_block. destruct (decide (i = j)) as [->|].
      * apply rd_wr_i32_same; [|lia]. eapply Forall_nth; [exact Hr|lia].
      * rewrite rd_wr_i32_other by lia. apply IH3. lia.
Qed.

(** ** Writing and reading the header *)

(** Block [k] overwritten with [h], in the cache and on disk. *)
Record headed (k : Z * Z) (h : list Z) (a a' : cache) : Prop := {
  he_ok : c_ok a' = c_ok a;
  he_held : c_held a' = ∅;
  he_disk : c_disk a' = <[k := h]> (c_disk a);
  he_dirty : c_dirty a' = c_dirty a;
  he_view x : c_view a' x = (<[k := h]> (c_view a)) x;
  he_hist : c_hist a' = c_hist a ++ [<[k := h]> (c_disk a)];
}.

(** The cache while the header in buffer [i] is being filled in. *)
Record filling (i : nat) (k : Z * Z) (h : list Z) (a a' : cache) : Prop := {
  fi_ok : c_ok a' = c_ok a;
  fi_held : c_held a' = {[i := k]};
  fi_disk : c_disk a' = c_disk a;
  fi_dirty : c_dirty a' = c_dirty a;
  fi_view x : c_view a' x = (<[k := h]> (c_view a)) x;
  fi_hist : c_hist a' = c_hist a;
}.

Lemma filling_set s i k h h' a a' f :
  bio_abs (lb s) a' → filling i k h a a' → f h = h' → length h' = Z.to_nat BSIZE →
  wp (on_bio (on_buf i (λ b, set_data (f (b_data b)) b))) s (λ _ s',
    lg s' = lg s ∧ ∃ a'', bio_abs (lb s') a'' ∧ filling i k h' a a'').
Proof.
  intros Ha [H1 H2 H3 H4 H5 H6] Hf Hl. apply wp_on_bio.
  assert (Hv : c_view a' k = h) by (by rewrite H5, fn_lookup_insert).
  eapply wp_mono.
  { apply (set_data_spec _ _ i k f Ha); [by rewrite H2, lookup_singleton_eq|].
    by rewrite Hv, Hf. }
  intros _ b [Ha' _]. split; [done|]. eexists. split; [exact Ha'|].
  rewrite Hv, Hf. split; try done. simpl. intros x. destruct (decide (k = x)) as [<-|Hne].
  - by rewrite !fn_lookup_insert.
  - rewrite !fn_lookup_insert_ne by done. by rewrite H5, fn_lookup_insert_ne.
Qed.

Lemma view_hdr s l n a :
  bio_abs s a → log_geom l n a → c_held a = ∅ → c_view a (hdr_key l) = c_disk a (hdr_key l).
Proof.
  intros Ha Hg Hh. destruct (geo_hdr _ _ _ Hg). apply (dk_view _ _ _ (ba_disk _ _ Ha)); [done..|].
  intros i. by rewrite Hh.
Qed.

Lemma read_hdr s n a (Q : nat → lstate → Prop) :
  bio_abs (lb s) a → log_geom (lg s) n a → c_held a = ∅ → (size (c_dirty a) < HEAD)%nat →
  (∀ i b, bio_abs b (a_hold i (hdr_key (lg s)) a) → Q i (mkL (lg s) b (lwakes s))) →
  wp (on_bio (read (as_u32 (lg_dev (lg s))) (as_u32 (lg_start (lg s))))) s Q.
Proof.
  intros Ha Hg Hh Hr HQ. rewrite (geom_dev_u32 _ _ _ Hg).
  rewrite (as_u32_id (lg_start (lg s))).
  2: { destruct (geo_start _ _ _ Hg). change LOGSIZE with 30 in *. unfold i32_hi, u32_max in *. lia. }
  apply wp_on_bio. eapply wp_mono.
  { apply (bread_spec _ _ _ _ Ha); [apply Hg|apply Hg| |].
    - intros i. by rewrite Hh.
    - right. by rewrite in_use_none. }
  intros i b (Ha' & _). by apply HQ.
Qed.

Lemma block_length s a k : bio_abs s a → c_ok a k → length (c_disk a k) = Z.to_nat BSIZE.
Proof. intros Ha Hk. rewrite <- (dk_blk _ _ _ (ba_disk _ _ Ha) k Hk). apply blk_length. Qed.

Definition entries_ok (l : Log) : Prop := Forall (λ x, i32_lo ≤ x < i32_hi) (lh_block l).

(** Filling in the entries of the header in the held buffer [i]. *)
Lemma fill_head_spec s a a1 i n m k :
  log_geom (lg s) m a → (n ≤ m)%nat → entries_ok (lg s) →
  length (c_disk a k) = Z.to_nat BSIZE →
  bio_abs (lb s) a1 → filling i k (head_part (lg s) n (c_disk a k) 0) a a1 →
  wp (forM (seq 0 n) (λ j, let* v := lh_at j in
        on_bio (on_buf i (λ b, set_data (wr_i32 (4 + 4 * j) v (b_data b)) b)))) s
     (λ _ s', lg s' = lg s ∧ ∃ a', bio_abs (lb s') a' ∧
        filling i k (put_head (lg s) n (c_disk a k)) a a').
Proof.
  intros Hg Hnm He Hlen Ha1 Hf1. pose proof (geo_n _ _ _ Hg) as Hm.
  apply (wp_forM_seq _ (λ j s', lg s' = lg s ∧ ∃ a', bio_abs (lb s') a' ∧
           filling i k (head_part (lg s) n (c_disk a k) j) a a')).
  - split; [done|]. by exists a1.
  - intros j s' Hj (Hl & a' & Ha' & Hf).
    wp_step. apply wp_lh_at; [rewrite Hl, (geo_len _ _ _ Hg); lia|]. rewrite Hl.
    eapply wp_mono.
    { eapply (filling_set _ i k _ (head_part (lg s) n (c_disk a k) (S j)) _ _ (wr_i32 (4 + 4 * j) _));
        [exact Ha'|exact Hf|by rewrite head_part_S|].
      apply head_part_props; [done|lia|lia|done|apply Hg]. }
    intros _ s'' (Hl'' & H''). by rewrite Hl''.
Qed.

Lemma write_head_spec s a n m :
  lh_n (lg s) = Z.of_nat n → log_geom (lg s) m a → (n ≤ m)%nat → entries_ok (lg s) →
  c_held a = ∅ → (size (c_dirty a) < HEAD)%nat → bio_abs (lb s) a →
  wp write_head s (λ _ s', lg s' = lg s ∧ ∃ a', bio_abs (lb s') a' ∧
    headed (hdr_key (lg s)) (put_head (lg s) n (c_disk a (hdr_key (lg s)))) a a').
Proof.
  intros Hn Hg Hnm He Hh Hr Ha. set (k := hdr_key (lg s)). pose proof (geo_n _ _ _ Hg) as Hm.
  assert (Hlen : length (c_disk a k) = Z.to_nat BSIZE) by (eapply block_length; [done|apply Hg]).
  pose proof (view_hdr _ _ _ _ Ha Hg Hh) as Hv. fold k in Hv.
  assert (Hkd : k ∉ c_dirty a) by apply Hg.
  unfold write_head. do 2 wp_step. wp_step. eapply read_hdr; [done..|]. intros i b Ha1. fold k in Ha1.
  assert (Hf0 : filling i k (c_disk a k) a (a_hold i k a)).
  { split; try done; simpl; [by rewrite Hh, insert_empty|].
    intros x. destruct (decide (k = x)) as [<-|]; [by rewrite fn_lookup_insert|].
    by rewrite fn_lookup_insert_ne. }
  wp_step. eapply wp_mono.
  { eapply (filling_set _ i k _ (head_part (lg s) n (c_disk a k) 0) _ _ (wr_i32 0%nat (lh_n (lg s))));
      [exact Ha1|exact Hf0|by rewrite Hn|].
    apply head_part_props; [done|lia|lia|done|apply Hg]. }
  intros _ s1 (Hl1 & a1 & Ha1' & Hf1). simpl in Hl1.
  wp_step. rewrite Hn, head_iters_nat by lia. rewrite <- Hl1 in *. eapply wp_mono.
  { by eapply fill_head_spec. }
  intros _ s2 (Hl2 & a2 & Ha2 & [F1 F2 F3 F4 F5 F6]).
  assert (H2i : c_held a2 !! i = Some k) by (by rewrite F2, lookup_singleton_eq).
  wp_step. apply wp_on_bio. eapply wp_mono.
  { change (write i) with (bwrite (D := D) i). apply (bwrite_spec _ _ i _ Ha2 H2i). }
  intros _ b3 [Ha3 _]. apply wp_on_bio. eapply wp_mono.
  { apply (brelse_spec _ _ i k Ha3 H2i). right. simpl. by rewrite fn_lookup_insert. }
  intros _ b4 [Ha4 _]. simpl. split; [done|]. eexists. split; [exact Ha4|].
  assert (Hk : c_view a2 k = put_head (lg s1) n (c_disk a k)) by (by rewrite F5, fn_lookup_insert).
  split; simpl; rewrite ?F1, ?F2, ?F3, ?F4, ?F6, ?Hk; try done.
  - by rewrite delete_singleton_eq.
  - clear - Hkd. set_solver.
Qed.

(** The log after [read_head] found [n] entries in the header [d]. *)
Definition loaded_blocks (d : list Z) (n : nat) (bl : list Z) : list Z :=
  foldl (λ bl i, <[i := hd_block i d]> bl) bl (seq 0 n).
Definition loaded (l : Log) (d : list Z) (n : nat) : Log :=
  mkLog (lg_lock l) (lg_start l) (lg_size l) (lg_outstanding l) (lg_committing l) (lg_dev l)
        (Z.of_nat n) (loaded_blocks d n (lh_block l)).

Lemma loaded_blocks_S d n bl :
  loaded_blocks d (S n) bl = <[n := hd_block n d]> (loaded_blocks d n bl).
Proof. unfold loaded_blocks. by rewrite seq_S, foldl_app. Qed.

Lemma loaded_blocks_props d n bl :
  (n ≤ length bl)%nat →
  length (loaded_blocks d n bl) = length bl ∧
  ∀ i, (i < n)%nat → nth i (loaded_blocks d n bl) 0 = hd_block i d.
Proof.
  induction n as [|n IH]; intros Hn; [split; [done|lia]|].
  destruct IH as [H1 H2]; [lia|]. rewrite loaded_blocks_S, length_insert. split; [done|].
  intros i Hi. rewrite nth_lookup. destruct (decide (i = n)) as [->|].
  - by rewrite list_lookup_insert_eq by lia.
  - rewrite list_lookup_insert_ne by done. rewrite <- nth_lookup. apply H2. lia.
Qed.

Lemma release_hold i k a : c_held a = ∅ → a_release i (a_hold i k a) = a.
Proof.
  destruct a. simpl. intros ->. unfold a_release, a_hold. simpl. f_equal.
  by rewrite insert_empty, delete_singleton_eq.
Qed.

Lemma read_head_spec s a n m :
  log_geom (lg s) m a → hd_n (c_disk a (hdr_key (lg s))) = Z.of_nat n →
  (n ≤ Z.to_nat LOGSIZE)%nat → c_held a = ∅ → (size (c_dirty a) < HEAD)%nat → bio_abs (lb s) a →
  wp read_head s (λ _ s',
    lg s' = loaded (lg s) (c_disk a (hdr_key (lg s))) n ∧ bio_abs (lb s') a).
Proof.
  intros Hg Hn Hn30 Hh Hr Ha. pose proof (view_hdr _ _ _ _ Ha Hg Hh) as Hv.
  set (d := c_disk a (hdr_key (lg s))) in *.
  unfold read_head. do 2 wp_step. wp_step. eapply read_hdr; [done..|]. intros i b Ha1.
  wp_step. apply wp_on_bio. eapply held_data; [exact Ha1|apply lookup_insert_eq|].
  intros x _ Hx. simpl in Hx. rewrite Hv in Hx. rewrite Hx. simpl. unfold on_log.
  do 4 wp_step. simpl. rewrite Hn, head_iters_nat by done.
  wp_step. eapply wp_mono.
  { apply (wp_forM_seq _ (λ j s', lb s' = b ∧
      lg s' = set_n (Z.of_nat n) (loaded (lg s) d j))).
    - split; [done|]. by destruct (lg s).
    - intros j s' Hj [Hb Hl]. wp_step. unfold assert_.
      rewrite (proj2 (Nat.ltb_lt _ _)) by lia. do 2 wp_step. simpl. split; [done|].
      rewrite Hl. unfold loaded, set_n, set_block. simpl. by rewrite loaded_blocks_S. }
  intros _ s2 [Hb2 Hl2]. apply wp_on_bio. rewrite Hb2. eapply wp_mono.
  { apply (brelse_spec _ _ i (hdr_key (lg s)) Ha1); [apply lookup_insert_eq|]. right. simpl. by rewrite Hv. }
  intros _ b3 [Ha3 _]. simpl. split; [by rewrite Hl2|]. by rewrite release_hold in Ha3.
Qed.

(** ** Geometry is stable *)

Lemma geom_mono l n a a' :
  (∀ k, c_ok a' k ↔ c_ok a k) → (∀ k, k ∈ c_dirty a' → k ∈ c_dirty a) →
  log_geom l n a → log_geom l n a'.
Proof.
  intros Ho Hd [H1 H2 H3 H4 [H5 H5'] H6 H7 H8].
  split; [done|done|done|done| | | |done].
  - rewrite Ho. auto.
  - intros i Hi. rewrite Ho. destruct (H6 i Hi). auto.
  - intros i Hi. rewrite Ho. auto.
Qed.

Lemma geom_le l n m a : (m ≤ n)%nat → log_geom l n a → log_geom l m a.
Proof.
  intros Hm [H1 H2 H3 H4 H5 H6 H7 H8]. split; auto with lia.
Qed.

Lemma geom_same l l' n a :
  lg_dev l' = lg_dev l → lg_start l' = lg_start l → length (lh_block l') = length (lh_block l) →
  (∀ i, (i < n)%nat → nth i (lh_block l') 0 = nth i (lh_block l) 0) →
  log_geom l n a → log_geom l' n a.
Proof.
  intros Hd Hs Hl Hb [H1 H2 H3 H4 H5 H6 H7 H8].
  assert (Hk : ∀ i, (i < n)%nat → home_key l' i = home_key l i).
  { intros i Hi. unfold home_key. by rewrite Hd, Hb. }
  assert (Hsk : ∀ i, slot_key l' i = slot_key l i) by (intros; unfold slot_key; by rewrite Hd, Hs).
  assert (Hh : hdr_key l' = hdr_key l) by (unfold hdr_key; by rewrite Hd, Hs).
  split; rewrite ?Hd, ?Hs, ?Hh, ?Hl; try done.
  - intros i Hi. rewrite Hsk. auto.
  - intros i Hi. rewrite Hk by done. auto.
  - intros i j Hi Hj. rewrite Hk, Hsk by done. auto.
Qed.

Lemma inst_same l l' j f :
  (∀ i, slot_key l' i = slot_key l i) → (∀ i, (i < j)%nat → home_key l' i = home_key l i) →
  inst l' j f = inst l j f.
Proof.
  intros Hs. induction j as [|j IH]; intros Hk; [done|].
  rewrite !inst_S, IH, Hs, Hk by auto with lia. done.
Qed.

(** ** Recovery *)

(** What recovery makes of a disk [f] whose header is [d] with [n] entries. *)
Definition recovered (l : Log) (n : nat) (f : Z * Z → list Z) : Z * Z → list Z :=
  inst (loaded l (f (hdr_key l)) n) n f.

Lemma entries_ok_loaded l d n :
  (n ≤ length (lh_block l))%nat → entries_ok l → entries_ok (loaded l d n).
Proof.
  unfold entries_ok. intros Hn He. simpl. induction n as [|n IH]; [done|].
  rewrite loaded_blocks_S. apply Forall_insert; [apply IH; lia|].
  unfold hd_block, rd_i32, as_i32, i32_lo, i32_hi, u32_max. cbv zeta.
  bcase; Z.to_euclidean_division_equations; lia.
Qed.

Lemma recover_spec s a n :
  log_geom (loaded (lg s) (c_disk a (hdr_key (lg s))) n) n a → entries_ok (lg s) →
  length (lh_block (lg s)) = Z.to_nat LOGSIZE →
  hd_n (c_disk a (hdr_key (lg s))) = Z.of_nat n → c_held a = ∅ → c_dirty a = ∅ → bio_abs (lb s) a →
  wp recover_from_log s (λ _ s', ∃ a' h, bio_abs (lb s') a' ∧ hd_n h = 0 ∧
    c_ok a' = c_ok a ∧ c_held a' = ∅ ∧ c_dirty a' = ∅ ∧
    c_disk a' = <[hdr_key (lg s) := h]> (recovered (lg s) n (c_disk a)) ∧
    lh_n (lg s') = 0 ∧ lg_start (lg s') = lg_start (lg s) ∧ lg_dev (lg s') = lg_dev (lg s)).
Proof.
  intros Hg He Hlen Hn Hh Hd Ha. set (l' := loaded _ _ n) in *.
  pose proof (geo_n _ _ _ Hg) as Hn30.
  assert (Hg0 : log_geom (lg s) 0 a).
  { destruct Hg as [? ? ? ? ? ? ? ?]. split; try done; lia. }
  assert (Hsz : (size (c_dirty a) < HEAD)%nat) by (rewrite Hd, HEAD_eq; vm_compute; lia).
  unfold recover_from_log. wp_step. eapply wp_mono.
  { by eapply (read_head_spec s a n 0). }
  intros _ s1 [Hl1 Ha1]. fold l' in Hl1. wp_step. eapply wp_mono.
  { apply (install_trans_spec s1 a n); rewrite ?Hl1; try done.
    left. rewrite Hd, HEAD_eq. vm_compute. lia. }
  rewrite Hl1. intros _ s2 (Hl2 & a2 & Ha2 & [I1 I2 I3 I4 I5 I6]).
  assert (Hd2 : c_dirty a2 = ∅).
  { apply set_eq. intros k. rewrite I4, Hd. set_solver. }
  unfold on_log. do 2 wp_step. eapply wp_mono.
  { eapply (write_head_spec _ a2 0 n); simpl; rewrite ?Hl2; try done.
    - eapply geom_same; [..|eapply geom_mono; [by rewrite I1| |exact Hg]]; try done.
      intros k. by rewrite I4; intros [? _].
    - lia.
    - apply entries_ok_loaded; [lia|done].
    - rewrite Hd2, HEAD_eq. vm_compute. lia. }
  simpl. rewrite Hl2. intros _ s3 (Hl3 & a3 & Ha3 & [J1 J2 J3 J4 J5 J6]).
  exists a3. eexists. split; [done|]. split; [|rewrite J1, J3, J4, I1, I3, Hl3; split_and!; done].
  apply head_part_props; [|lia|done|by apply entries_ok_loaded; [lia|]|apply Hg].
  rewrite <- I3. eapply block_length; [exact Ha2|]. rewrite I1. apply Hg.
Qed.

(** ** Commit *)

(** The successive disks of [commit], given the disk [f], the view [v] and
    the header blocks [h] with the entries and [h0] without. *)
Definition commit_disks (l : Log) (n : nat) (v f : Z * Z → list Z) (h h0 : list Z)
  : list (Z * Z → list Z) :=
  let f1 := logged l v n f in
  let f2 := <[hdr_key l := h]> f1 in
  ((λ i, logged l v i f) <$> seq 1 n) ++ [f2] ++
  ((λ i, inst l i f2) <$> seq 1 n) ++ [<[hdr_key l := h0]> (inst l n f2)].

(** A transaction ready to commit: its blocks are distinct and are exactly
    what is pinned. *)
Record txn_ok (l : Log) (n : nat) (a : cache) : Prop := {
  tx_n : lh_n l = Z.of_nat n;
  tx_geom : log_geom l n a;
  tx_entries : entries_ok l;
  tx_held : c_held a = ∅;
  tx_room : (size (c_dirty a) < HEAD)%nat;
  tx_pinned i : (i < n)%nat → home_key l i ∈ c_dirty a;
  tx_only k : k ∈ c_dirty a → ∃ i, (i < n)%nat ∧ home_key l i = k;
  tx_inj i j : (i < n)%nat → (j < n)%nat → home_key l i = home_key l j → i = j;
}.

Lemma commit_spec s a n :
  txn_ok (lg s) n a → (0 < n)%nat → bio_abs (lb s) a →
  wp commit s (λ _ s', ∃ a' h h0, bio_abs (lb s') a' ∧
    length h = Z.to_nat BSIZE ∧
    hd_n h = Z.of_nat n ∧ (∀ i, (i < n)%nat → hd_block i h = nth i (lh_block (lg s)) 0) ∧
    hd_n h0 = 0 ∧ c_held a' = ∅ ∧ c_dirty a' = ∅ ∧ c_ok a' = c_ok a ∧
    c_hist a' = c_hist a ++ commit_disks (lg s) n (c_view a) (c_disk a) h h0 ∧
    c_disk a' = <[hdr_key (lg s) := h0]>
                  (inst (lg s) n (<[hdr_key (lg s) := h]> (logged (lg s) (c_view a) n (c_disk a)))) ∧
    lg s' = set_n 0 (lg s)).
Proof.
  intros [Hn Hg He Hh Hr Hp Ho Hi] Hpos Ha. pose proof (geo_n _ _ _ Hg) as Hn30.
  unfold commit. do 2 wp_step. rewrite Hn, (proj2 (Z.ltb_lt _ _)) by lia.
  wp_step. eapply wp_mono; [by eapply write_log_spec|].
  intros _ s1 (Hl1 & a1 & Ha1 & [C1 C2 C3 C4 C5 C6]).
  assert (Hg1 : log_geom (lg s) n a1).
  { eapply geom_mono; [by rewrite C1| |exact Hg]. by rewrite C4. }
  wp_step. eapply wp_mono.
  { apply (write_head_spec s1 a1 n n); rewrite ?Hl1, ?C4; done. }
  rewrite Hl1. set (h := put_head _ n _).
  intros _ s2 (Hl2 & a2 & Ha2 & [E1 E2 E3 E4 E5 E6]).
  assert (Hh' : length h = Z.to_nat BSIZE ∧ hd_n h = Z.of_nat n ∧
            ∀ i, (i < n)%nat → hd_block i h = nth i (lh_block (lg s)) 0).
  { apply head_part_props; [|done|done|done|apply Hg]. eapply block_length; [exact Ha1|]. apply Hg1. }
  wp_step. eapply wp_mono.
  { apply (install_trans_spec s2 a2 n); rewrite ?Hl2; try done.
    - eapply geom_mono; [by rewrite E1| |exact Hg1]. by rewrite E4.
    - right. rewrite E4, C4. done. }
  rewrite Hl2. intros _ s3 (Hl3 & a3 & Ha3 & [I1 I2 I3 I4 I5 I6]).
  assert (Hd3 : c_dirty a3 = ∅).
  { apply set_eq. intros k. rewrite I4, E4, C4. split; [|set_solver].
    intros [Hk Hno]. apply Ho in Hk as (i & ? & ?). exfalso. by apply (Hno i). }
  unfold on_log. do 2 wp_step. eapply wp_mono.
  { eapply (write_head_spec _ a3 0 n); simpl; rewrite ?Hl3; try done.
    - eapply geom_same; [..|eapply (geom_mono _ _ a1); [by rewrite I1, E1| |exact Hg1]]; try done.
      rewrite Hd3. set_solver.
    - lia.
    - rewrite Hd3, HEAD_eq. vm_compute. lia. }
  simpl. rewrite Hl3. intros _ s4 (Hl4 & a4 & Ha4 & [J1 J2 J3 J4 J5 J6]).
  destruct Hh' as (Hh1 & Hh2 & Hh3).
  exists a4, h. eexists. do 4 (split; [done|]). split.
  2: { rewrite J6, J4, J3, J1, I6, I3, I1, E6, E3, E1, C6, C3, Hl4. unfold commit_disks.
       rewrite <- !app_assoc. split_and!; done. }
  apply head_part_props; [|lia|done|exact He|apply Hg].
  rewrite <- C3, <- E3, <- I3. eapply block_length; [exact Ha3|]. rewrite I1, E1. apply Hg1.
Qed.

(** ** Crashes *)

(** A block of the file system proper: neither header nor log slot. *)
Definition data_block (l : Log) (n : nat) (a : cache) (k : Z * Z) : Prop :=
  c_ok a k ∧ k ≠ hdr_key l ∧ ∀ i, (i < n)%nat → k ≠ slot_key l i.

(** The log of a freshly booted kernel: same place on disk, empty header. *)
Definition same_place (l l' : Log) : Prop :=
  lg_dev l' = lg_dev l ∧ lg_start l' = lg_start l ∧ length (lh_block l') = Z.to_nat LOGSIZE.

Lemma same_place_keys l l' d n :
  same_place l l' → hdr_key (loaded l' d n) = hdr_key l ∧ ∀ i, slot_key (loaded l' d n) i = slot_key l i.
Proof. intros (Hd & Hs & _). unfold hdr_key, slot_key. simpl. rewrite Hd, Hs. done. Qed.

Lemma loaded_home l l' h n :
  same_place l l' → (n ≤ Z.to_nat LOGSIZE)%nat →
  (∀ i, (i < n)%nat → hd_block i h = nth i (lh_block l) 0) →
  ∀ i, (i < n)%nat → home_key (loaded l' h n) i = home_key l i.
Proof.
  intros (Hd & Hs & Hl) Hn Hb i Hi. unfold home_key. simpl.
  destruct (loaded_blocks_props h n (lh_block l')) as [_ Hp]; [lia|].
  by rewrite Hd, Hp, Hb.
Qed.

Lemma install_new s l n a g k :
  txn_ok l n a → bio_abs s a → data_block l n a k →
  (∀ i, (i < n)%nat → g (slot_key l i) = c_view a (home_key l i)) →
  ((∀ i, (i < n)%nat → home_key l i ≠ k) → g k = c_disk a k) →
  inst l n g k = c_view a k.
Proof.
  intros [Hn Hg He Hh Hr Hp Ho Hi] Ha (Hok & Hnh & Hns) Hslot Hother.
  destruct (decide (Exists (λ i, home_key l i = k) (seq 0 n))) as [Hex|Hex].
  - apply Exists_exists in Hex as (i & Hin & <-). apply elem_of_seq in Hin.
    rewrite (inst_home l n a) by (done || lia). apply Hslot. lia.
  - assert (Hno : ∀ i, (i < n)%nat → home_key l i ≠ k).
    { intros i Hlt E. apply Hex, Exists_exists. exists i. split; [apply elem_of_seq; lia|done]. }
    rewrite inst_other, Hother by done. symmetry. apply (dk_view _ _ _ (ba_disk _ _ Ha)); [done| |].
    + intros (i & ? & ?)%Ho. by apply (Hno i).
    + intros i. by rewrite Hh.
Qed.

(** The outcome of recovering from disk [g]: the blocks of [f], or of [v]. *)
Definition recovers_to (l l' : Log) (n : nat) (a : cache) (g : Z * Z → list Z) : Prop :=
  ∃ m, (m = O ∨ m = n ∧ ∀ i, (i < n)%nat → hd_block i (g (hdr_key l)) = nth i (lh_block l) 0) ∧
    hd_n (g (hdr_key l)) = Z.of_nat m ∧
    ((∀ k, data_block l n a k → recovered l' m g k = c_disk a k) ∨
     (∀ k, data_block l n a k → recovered l' m g k = c_view a k)).

Lemma recovered_0 l' g : recovered l' 0 g = g.
Proof. done. Qed.

Lemma recovered_n l l' n g :
  same_place l l' → (n ≤ Z.to_nat LOGSIZE)%nat →
  (∀ i, (i < n)%nat → hd_block i (g (hdr_key l)) = nth i (lh_block l) 0) →
  recovered l' n g = inst l n g.
Proof.
  intros Hsp Hn Hb. unfold recovered.
  assert (E : hdr_key l' = hdr_key l) by (destruct Hsp as (? & ? & _); unfold hdr_key; congruence).
  rewrite E. apply inst_same; [apply (same_place_keys _ _ _ _ Hsp)|].
  by apply loaded_home.
Qed.

Lemma commit_disks_recover s l l' n a h h0 g :
  txn_ok l n a → bio_abs s a → same_place l l' →
  hd_n (c_disk a (hdr_key l)) = 0 → hd_n h = Z.of_nat n →
  (∀ i, (i < n)%nat → hd_block i h = nth i (lh_block l) 0) → hd_n h0 = 0 →
  g ∈ c_disk a :: commit_disks l n (c_view a) (c_disk a) h h0 →
  recovers_to l l' n a g.
Proof.
  intros Ht Ha Hsp Hf Hh Hb Hh0 Hin. pose proof (tx_geom _ _ _ Ht) as Hg.
  pose proof (geo_n _ _ _ Hg) as Hn.
  assert (Hold : ∀ j, recovers_to l l' n a (logged l (c_view a) j (c_disk a)) ∨ (n < j)%nat).
  { intros j. destruct (decide (j ≤ n)%nat); [left|right; lia]. exists O.
    rewrite logged_other by (intros; apply slot_key_hdr). split_and!; [by left|done|].
    left. intros k (_ & _ & Hk). rewrite recovered_0. apply logged_other.
    intros i Hi E. symmetry in E. revert E. apply Hk. lia. }
  set (f2 := <[hdr_key l := h]> (logged l (c_view a) n (c_disk a))).
  assert (Hf2s : ∀ i, (i < n)%nat → f2 (slot_key l i) = c_view a (home_key l i)).
  { intros i Hi. unfold f2. rewrite fn_lookup_insert_ne by (intros E; symmetry in E; by apply slot_key_hdr in E).
    by apply logged_slot. }
  assert (Hf2o : ∀ k, data_block l n a k → f2 k = c_disk a k).
  { intros k (_ & Hk1 & Hk2). unfold f2. rewrite fn_lookup_insert_ne by done. apply logged_other.
    intros i Hi E. symmetry in E. revert E. by apply Hk2. }
  assert (Hf2h : ∀ j, (j ≤ n)%nat → inst l j f2 (hdr_key l) = h).
  { intros j Hj. rewrite inst_other; [apply fn_lookup_insert|]. intros i Hi. apply (geo_home _ _ _ Hg). lia. }
  assert (Hnew : ∀ j k, (j ≤ n)%nat → data_block l n a k → inst l n (inst l j f2) k = c_view a k).
  { intros j k Hj Hk. eapply install_new; [done..| |].
    - intros i Hi. rewrite (inst_slot l n a) by done. auto.
    - intros Hno. rewrite inst_other by (intros; apply Hno; lia). auto. }
  assert (Hmid : ∀ j, (j ≤ n)%nat → recovers_to l l' n a (inst l j f2)).
  { intros j Hj. exists n. rewrite Hf2h by done. split_and!; [by right|done|]. right.
    intros k Hk. rewrite (recovered_n l) by (rewrite ?Hf2h by done; done). by apply Hnew. }
  unfold commit_disks in Hin. fold f2 in Hin.
  rewrite elem_of_cons, !elem_of_app, !list_elem_of_fmap, !list_elem_of_singleton in Hin.
  destruct Hin as [->|[(j & -> & Hj%elem_of_seq)|[->|[(j & -> & Hj%elem_of_seq)| ->]]]].
  - destruct (Hold O) as [?|?]; [done|lia].
  - destruct (Hold j) as [?|?]; [done|lia].
  - apply (Hmid O). lia.
  - apply Hmid. lia.
  - exists O. rewrite fn_lookup_insert. split_and!; [by left|done|]. right. intros k Hk.
    rewrite recovered_0, fn_lookup_insert_ne by (intros <-; by destruct Hk as (_ & ? & _)).
    by apply (Hnew O); [lia|].
Qed.

(** ** Booting from a crashed disk *)

Definition log_storage : Log := mkLog (mkSpin 0 EmptyString None) 0 0 0 false 0 0
  (replicate (Z.to_nat LOGSIZE) 0).
(** The kernel's statics at boot, over disk [d]. *)
Definition boot (d : D) (pid : Z) : lstate := mkL log_storage (bcache_storage d pid) [].

Lemma inst_ext l j f g (P : Z * Z → Prop) :
  (∀ i, (i < j)%nat → P (slot_key l i)) → (∀ k, P k → f k = g k) →
  ∀ k, P k → inst l j f k = inst l j g k.
Proof.
  intros Hs Hfg. induction j as [|j IH]; intros k Hk; [by apply Hfg|]. rewrite !inst_S.
  destruct (decide (home_key l j = k)) as [<-|].
  - rewrite !fn_lookup_insert. apply IH; auto with lia.
  - rewrite !fn_lookup_insert_ne by done. apply IH; auto with lia.
Qed.

Lemma readsb_spec s a dev :
  0 < dev < i32_hi → c_ok a (dev, 1) → c_held a = ∅ → c_dirty a = ∅ → bio_abs s a →
  wp (readsb dev) s (λ sb s', sb = dec_sb (take sizeof_sb (c_disk a (dev, 1))) ∧ bio_abs s' a).
Proof.
  intros Hd Hok Hh Hdi Ha. unfold readsb.
  rewrite as_u32_id by (unfold i32_hi, u32_max in *; lia).
  assert (Hnh : ∀ k i, c_held a !! i ≠ Some k) by (intros k i; by rewrite Hh).
  wp_step. eapply wp_mono.
  { apply (bread_spec _ _ dev 1 Ha); [lia|done|auto|]. right.
    rewrite in_use_none, Hdi, HEAD_eq by done. vm_compute. lia. }
  intros i b (Ha1 & _). assert (Hi : c_held (a_hold i (dev, 1) a) !! i = Some (dev, 1)) by apply lookup_insert_eq.
  assert (Hv : c_view a (dev, 1) = c_disk a (dev, 1)).
  { apply (dk_view _ _ _ (ba_disk _ _ Ha)); [done| |auto]. rewrite Hdi. set_solver. }
  wp_step. eapply held_data; [exact Ha1|exact Hi|]. intros x _ Hx. simpl in Hx.
  wp_step. eapply wp_mono.
  { apply (brelse_spec _ _ i _ Ha1 Hi). by right. }
  intros _ b2 [Ha2 _]. cbv beta. wp_step. rewrite release_hold in Ha2 by done.
  by rewrite Hx, Hv.
Qed.

Lemma boot_spec s l n a d g pid :
  txn_ok l n a → bio_abs s a → same_place l (set_geometry (lg_start l) 0 (lg_dev l) log_storage) →
  recovers_to l (set_geometry (lg_start l) 0 (lg_dev l) log_storage) n a g →
  (∀ k, c_ok a k ↔ dev_ok d (fst k) (snd k)) → (∀ k, c_ok a k → blk d (fst k) (snd k) = g k) →
  c_ok a (lg_dev l, 1) →
  as_i32 (sb_logstart (dec_sb (take sizeof_sb (g (lg_dev l, 1))))) = lg_start l →
  wp (on_bio binit ;;; initlog (lg_dev l)) (boot d pid) (λ _ s',
    (∀ k, data_block l n a k → blk (disk (lb s')) (fst k) (snd k) = c_disk a k) ∨
    (∀ k, data_block l n a k → blk (disk (lb s')) (fst k) (snd k) = c_view a k)).
Proof.
  intros Ht Ha Hsp (m & Hm & Hhd & Hrec) Hok Hblk Hok1 Hsb.
  pose proof (tx_geom _ _ _ Ht) as Hg. pose proof (geo_n _ _ _ Hg) as Hn.
  set (c := cache_empty d). set (l0 := set_geometry (lg_start l) 0 (lg_dev l) log_storage) in *.
  assert (Hcok : ∀ k, c_ok c k ↔ c_ok a k) by (intros k; by rewrite Hok).
  assert (Hcd : ∀ k, c_ok a k → c_disk c k = g k) by auto.
  wp_step. apply wp_on_bio. eapply wp_mono; [apply binit_abs|]. intros _ b1 [Ha1 _]. simpl. fold c in Ha1.
  unfold initlog. change (BSIZE <=? sizeof_logheader) with false. cbv iota. unfold on_log.
  do 3 wp_step. apply wp_on_bio. simpl lb. eapply wp_mono.
  { apply (readsb_spec _ c); [apply Hg|by apply Hcok|done|done|done]. }
  intros sb b2 [-> Ha2]. cbv beta. rewrite Hcd, Hsb by done. do 2 wp_step. simpl.
  match goal with |- wp recover_from_log (mkL ?x _ _) _ => set (l1 := x) end.
  assert (Hhk : hdr_key l1 = hdr_key l) by done.
  assert (Hm30 : (m ≤ n)%nat) by (destruct Hm as [->|[-> _]]; lia).
  destruct (geo_hdr _ _ _ Hg) as [Hhok _].
  assert (Hlb : length (lh_block (loaded l1 (g (hdr_key l)) m)) = Z.to_nat LOGSIZE ∧
            ∀ i, (i < m)%nat → nth i (lh_block (loaded l1 (g (hdr_key l)) m)) 0 = hd_block i (g (hdr_key l))).
  { apply (loaded_blocks_props (g (hdr_key l)) m (replicate (Z.to_nat LOGSIZE) 0)).
    rewrite length_replicate. lia. }
  eapply wp_mono.
  { apply (recover_spec _ c m); cbn [lg lb]; rewrite ?Hhk, ?(Hcd _ Hhok); try done.
    2: { unfold entries_ok. change (lh_block l1) with (replicate (Z.to_nat LOGSIZE) 0).
         apply Forall_replicate. unfold i32_lo, i32_hi. lia. }
    eapply geom_same; [..|eapply (geom_mono l m a c); [done|simpl; set_solver|by eapply geom_le]]; try done.
    - by rewrite (geo_len _ _ _ Hg), (proj1 Hlb).
    - intros i Hi. destruct Hm as [->|[-> Hb]]; [lia|]. rewrite <- Hb by done. by apply Hlb. }
  intros _ s' (a' & h & Ha' & Hh0 & Hok' & Hh' & Hd' & Hdk & _). cbn [lg] in Hdk.
  rewrite Hhk in Hdk. unfold recovered in Hdk. rewrite Hhk, (Hcd _ Hhok) in Hdk.
  assert (Hfin : ∀ k, data_block l n a k → blk (disk (lb s')) (fst k) (snd k) = recovered l0 m g k).
  { intros k (Hk1 & Hk2 & Hk3).
    rewrite (dk_blk _ _ _ (ba_disk _ _ Ha')) by (rewrite Hok'; by apply Hcok).
    rewrite Hdk, fn_lookup_insert_ne by done. unfold recovered.
    rewrite (inst_same (loaded l0 (g (hdr_key l0)) m)) by done.
    apply (inst_ext _ _ _ _ (c_ok a)); [|done|done]. intros i Hi.
    apply (geo_slot _ _ _ Hg). lia. }
  destruct Hrec as [Hr|Hr]; [left|right]; intros k Hk; by rewrite Hfin, Hr.
Qed.

(** Blocks outside the transaction stay as they are throughout. *)
Lemma commit_disks_other l n v f h h0 g k :
  k ≠ hdr_key l → (∀ i, (i < n)%nat → slot_key l i ≠ k) → (∀ i, (i < n)%nat → home_key l i ≠ k) →
  g ∈ f :: commit_disks l n v f h h0 → g k = f k.
Proof.
  intros Hk Hs Hh Hin. unfold commit_disks in Hin.
  rewrite elem_of_cons, !elem_of_app, !list_elem_of_fmap, !list_elem_of_singleton in Hin.
  assert (Hf2 : (<[hdr_key l := h]> (logged l v n f)) k = f k)
    by (rewrite fn_lookup_insert_ne, logged_other; done).
  destruct Hin as [->|[(j & -> & Hj%elem_of_seq)|[->|[(j & -> & Hj%elem_of_seq)| ->]]]]; try done.
  - apply logged_other. intros. apply Hs. lia.
  - rewrite inst_other; [done|]. intros. apply Hh. lia.
  - rewrite fn_lookup_insert_ne, inst_other; done.
Qed.


(** ** Adding a block to the transaction *)

(** The entries of an open transaction: distinct, and exactly what is
    pinned; blocks may be held. *)
Record txn_inv (l : Log) (n : nat) (a : cache) : Prop := {
  ti_n : lh_n l = Z.of_nat n;
  ti_len : length (lh_block l) = Z.to_nat LOGSIZE;
  ti_entries i : (i < n)%nat → 0 ≤ nth i (lh_block l) 0 < i32_hi;
  ti_dirty k : k ∈ c_dirty a ↔ ∃ i, (i < n)%nat ∧ k = (lg_dev l, nth i (lh_block l) 0);
  ti_inj i j : (i < n)%nat → (j < n)%nat →
    nth i (lh_block l) 0 = nth j (lh_block l) 0 → i = j;
}.

(** The first entry equal to [bno], or [n]. *)
Definition entry_of (l : Log) (n : nat) (bno : Z) : nat :=
  default n (List.find (λ i, nth i (lh_block l) 0 =? bno) (seq 0 n)).

Lemma log_search_from s n bno i fuel :
  lh_n (lg s) = Z.of_nat n → length (lh_block (lg s)) = Z.to_nat LOGSIZE →
  (n ≤ Z.to_nat LOGSIZE)%nat → (i ≤ n)%nat → (n - i < fuel)%nat →
  whileM fuel
    (λ i s, (i <? lh_n (lg s)) &&
            negb (match lh_block (lg s) !! Z.to_nat i with Some v => v =? bno | None => false end))
    (λ i, let* v := lh_at (Z.to_nat i) in ret (i + 1)) (Z.of_nat i) s =
  Ok (Z.of_nat (default n (List.find (λ i, nth i (lh_block (lg s)) 0 =? bno) (seq i (n - i)))), s).
Proof.
  intros Hn Hl H30. revert i. induction fuel as [|fuel IH]; intros i Hi Hf; [lia|].
  destruct (decide (i = n)) as [->|Hne].
  { rewrite whileM_exit; [by rewrite Nat.sub_diag|]. rewrite Hn, Z.ltb_irrefl. done. }
  replace (n - i)%nat with (S (n - S i)) by lia. cbn [seq List.find].
  destruct (lookup_lt_is_Some_2 (lh_block (lg s)) i) as [v Hv]; [lia|].
  rewrite (nth_lookup_Some _ _ _ _ Hv).
  destruct (v =? bno) eqn:E.
  - rewrite whileM_exit; [done|]. rewrite Nat2Z.id, Hv, E. apply andb_false_r.
  - rewrite whileM_unfold.
    2: { rewrite Nat2Z.id, Hv, E, Hn. rewrite (proj2 (Z.ltb_lt _ _)) by lia. done. }
    unfold lh_at, bind, gets, expect. rewrite Nat2Z.id, Hv. simpl.
    replace (Z.of_nat i + 1) with (Z.of_nat (S i)) by lia. apply IH; lia.
Qed.

Lemma log_search_spec s n bno :
  lh_n (lg s) = Z.of_nat n → length (lh_block (lg s)) = Z.to_nat LOGSIZE →
  (n ≤ Z.to_nat LOGSIZE)%nat →
  log_search bno s = Ok (Z.of_nat (entry_of (lg s) n bno), s).
Proof.
  intros Hn Hl H30. unfold log_search, entry_of.
  pose proof (log_search_from s n bno 0 (S (Z.to_nat LOGSIZE)) Hn Hl H30) as H.
  rewrite Nat.sub_0_r in H. apply H; lia.
Qed.

Lemma entry_of_props l n bno :
  ((entry_of l n bno < n)%nat ∧ nth (entry_of l n bno) (lh_block l) 0 = bno) ∨
  (entry_of l n bno = n ∧ ∀ i, (i < n)%nat → nth i (lh_block l) 0 ≠ bno).
Proof.
  unfold entry_of. destruct (List.find _ (seq 0 n)) as [i|] eqn:E; simpl.
  - left. apply find_some in E as [Hi%list_elem_of_In%elem_of_seq He%Z.eqb_eq]. split; [lia|done].
  - right. split; [done|]. intros i Hi. apply Z.eqb_neq, (find_none _ _ E i).
    apply list_elem_of_In, elem_of_seq. lia.
Qed.

Lemma nth_insert_list (l : list Z) i j v :
  (i < length l)%nat → nth j (<[i := v]> l) 0 = if decide (i = j) then v else nth j l 0.
Proof.
  intros Hi. rewrite !nth_lookup. destruct (decide (i = j)) as [<-|].
  - by rewrite list_lookup_insert_eq.
  - by rewrite list_lookup_insert_ne.
Qed.

(** Recording block [bno] in the header: absorbed, or appended. *)
Definition record_block (l : Log) (n : nat) (bno : Z) : Log :=
  let i := entry_of l n bno in
  set_lg_lock 0 (set_n (if (i =? n)%nat then Z.of_nat n + 1 else Z.of_nat n)
                       (set_block i bno (set_lg_lock 1 l))).

Lemma record_block_inv l n a bno k :
  txn_inv l n a → (n < Z.to_nat LOGSIZE)%nat → 0 ≤ bno < i32_hi → k = (lg_dev l, bno) →
  txn_inv (record_block l n bno) (if decide (k ∈ c_dirty a) then n else S n) (a_pin k a).
Proof.
  intros [Hn Hl He Hd Hi] H30 Hb ->. unfold record_block.
  pose proof (entry_of_props l n bno) as Hj. generalize dependent (entry_of l n bno). intros j Hj.
  assert (Hjl : (j < length (lh_block l))%nat) by (destruct Hj as [[? _]|[-> _]]; lia).
  destruct (decide ((lg_dev l, bno) ∈ c_dirty a)) as [Hin|Hin].
  - destruct Hj as [[Hj1 Hj2]|[_ Hno]].
    2: { exfalso. apply Hd in Hin as (i & Hlt & [=E]). by apply (Hno i). }
    rewrite (proj2 (Nat.eqb_neq _ _)) by lia.
    assert (Hsame : ∀ i, nth i (<[j := bno]> (lh_block l)) 0 = nth i (lh_block l) 0).
    { intros i. rewrite nth_insert_list by done. destruct (decide (j = i)) as [<-|]; done. }
    split; simpl; rewrite ?length_insert; try done.
    + intros i. rewrite Hsame. auto.
    + intros k. rewrite elem_of_union, elem_of_singleton. setoid_rewrite Hsame. rewrite Hd.
      apply Hd in Hin. split; [by intros [->|?]|by right].
    + intros i i'. rewrite !Hsame. auto.
  - destruct Hj as [[Hj1 Hj2]|[Hjn Hno]].
    { exfalso. apply Hin, Hd. exists j. split; [done|]. by rewrite Hj2. }
    rewrite Hjn, Nat.eqb_refl.
    assert (Hnew : ∀ i, nth i (<[n := bno]> (lh_block l)) 0 = if decide (n = i) then bno else nth i (lh_block l) 0).
    { intros i. apply nth_insert_list. lia. }
    split; simpl; rewrite ?length_insert; [lia|done| | |].
    + intros i Hlt. rewrite Hnew. case_decide; [done|]. apply He. lia.
    + intros k. rewrite elem_of_union, elem_of_singleton, Hd. split.
      * intros [->|(i & Hlt & ->)].
        -- exists n. split; [lia|]. rewrite Hnew. by rewrite decide_True.
        -- exists i. split; [lia|]. rewrite Hnew. by rewrite decide_False by lia.
      * intros (i & Hlt & ->). rewrite Hnew. case_decide; [by left|]. right. exists i. split; [lia|done].
    + intros i i' Hi1 Hi2. rewrite !Hnew. do 2 case_decide; subst; try done.
      * intros E. exfalso. apply (Hno i'); [lia|done].
      * intros E. exfalso. apply (Hno i); [lia|done].
      * apply Hi; lia.
Qed.

Lemma txn_full_spec s n :
  lh_n (lg s) = Z.of_nat n → i32_lo < lg_size (lg s) < i32_hi →
  txn_full (lg s) s = Ok ((LOGSIZE <=? Z.of_nat n) || (lg_size (lg s) - 1 <=? Z.of_nat n), s).
Proof.
  intros Hlh Hsize. unfold txn_full. rewrite Hlh.
  destruct (LOGSIZE <=? Z.of_nat n); [done|]. simpl.
  by rewrite (bind_ok _ _ _ _ _ (chk_i32_ok (lg_size (lg s) - 1) s ltac:(unfold i32_lo, i32_hi in *; lia))).
Qed.

Lemma log_record_spec s a n i bno :
  bio_abs (lb s) a → txn_inv (lg s) n a → (n < Z.to_nat LOGSIZE)%nat →
  c_held a !! i = Some (lg_dev (lg s), bno) → 0 ≤ bno < i32_hi →
  wp (log_record i) s (λ _ s',
    bio_abs (lb s') (a_pin (lg_dev (lg s), bno) a) ∧
    lg s' = record_block (lg s) n bno ∧
    txn_inv (lg s') (if decide ((lg_dev (lg s), bno) ∈ c_dirty a) then n else S n)
            (a_pin (lg_dev (lg s), bno) a)).
Proof.
  intros Habs Htxn Hn Hheld Hbno. pose proof Htxn as [Hlh Hlen _ _ _].
  unfold log_record, on_log. do 3 wp_step. apply wp_on_bio. eapply held_data; [exact Habs|exact Hheld|].
  intros x Hx _. simpl lb. assert (Hxb : as_i32 (b_blockno x) = bno).
  { unfold key in Hx. injection Hx as _ ->. unfold as_i32, u32_max, i32_hi in *.
    rewrite Z.mod_small by lia. rewrite (proj2 (Z.ltb_lt _ _)) by lia. done. }
  rewrite Hxb. wp_step. eapply wp_eq.
  { apply (log_search_spec (mkL (set_lg_lock 1 (lg s)) (lb s) (lwakes s)) n); (done || simpl; lia). }
  cbv beta. change (entry_of (lg (mkL _ _ _)) n bno) with (entry_of (lg s) n bno).
  rewrite Nat2Z.id. set (j := entry_of (lg s) n bno).
  assert (Hj : (j ≤ n)%nat) by (unfold j; destruct (entry_of_props (lg s) n bno) as [[? _]|[-> _]]; lia).
  wp_step. apply wp_lh_at; [simpl; lia|]. do 5 wp_step. simpl lh_n. rewrite Hlh.
  replace (Z.of_nat j =? Z.of_nat n) with (j =? n)%nat.
  2: { destruct (Nat.eqb_spec j n), (Z.eqb_spec (Z.of_nat j) (Z.of_nat n)); (done || lia). }
  eapply (wp_mono _ _ (λ _ s', lb s' = lb s ∧
    lg s' = set_n (if (j =? n)%nat then Z.of_nat n + 1 else Z.of_nat n)
              (set_block j bno (set_lg_lock 1 (lg s))))).
  { destruct (j =? n)%nat.
    - wp_step. eapply wp_eq; [apply chk_i32_ok; unfold i32_lo, i32_hi; change (Z.to_nat LOGSIZE) with 30%nat in *; lia|].
      cbv beta. wp_step. done.
    - wp_step. split; [done|]. rewrite <- Hlh. by destruct (lg s). }
  intros _ s1 [Hb1 Hl1]. wp_step. apply wp_on_bio. rewrite Hb1. eapply wp_mono; [by eapply pin_spec|].
  intros _ b' [Hb' _]. cbv beta. wp_step. simpl. rewrite Hl1. split; [done|]. split; [done|].
  by apply (record_block_inv (lg s) n a bno).
Qed.

(** [log_write] adds a block to the open transaction. It records the
    block number once (a second write of the block is absorbed), pins the
    buffer, and keeps the entries distinct and equal to the pinned blocks; it
    panics when the header or the log area is full, and outside a
    transaction. *)
Theorem log_write_records (s : lstate) (a : cache) (n i : nat) (bno : Z)
    (Habs : bio_abs (lb s) a) (Htxn : txn_inv (lg s) n a) (Hn : (n ≤ Z.to_nat LOGSIZE)%nat)
    (Hheld : c_held a !! i = Some (lg_dev (lg s), bno)) (Hbno : 0 ≤ bno < i32_hi)
    (Hsize : i32_lo < lg_size (lg s) < i32_hi) :
  if (LOGSIZE <=? Z.of_nat n) || (lg_size (lg s) - 1 <=? Z.of_nat n)
  then log_write i s = Panic "too big a transaction"
  else if lg_outstanding (lg s) <? 1
  then log_write i s = Panic "log_write outside of trans"
  else wp (log_write i) s (λ _ s',
    bio_abs (lb s') (a_pin (lg_dev (lg s), bno) a) ∧
    lg s' = record_block (lg s) n bno ∧
    txn_inv (lg s') (if decide ((lg_dev (lg s), bno) ∈ c_dirty a) then n else S n)
            (a_pin (lg_dev (lg s), bno) a)).
Proof.
  pose proof Htxn as [Hlh Hlen _ _ _].
  assert (Heq : log_write i s = if (LOGSIZE <=? Z.of_nat n) || (lg_size (lg s) - 1 <=? Z.of_nat n)
            then Panic "too big a transaction"
            else if lg_outstanding (lg s) <? 1 then Panic "log_write outside of trans"
            else log_record i s).
  { unfold log_write. rewrite (bind_ok _ _ s (lg s) s) by done.
    rewrite (bind_ok _ _ _ _ _ (txn_full_spec s n Hlh Hsize)).
    destruct (_ || _); [done|]. by destruct (_ <? 1). }
  unfold wp at 1. rewrite Heq. destruct (_ || _) eqn:E1; [done|].
  apply orb_false_elim in E1 as [E1%Z.leb_gt E2%Z.leb_gt].
  destruct (lg_outstanding (lg s) <? 1); [done|].
  apply log_record_spec; try done. lia.
Qed.

(** ** Reservation of log space *)

(** [us] has, for each operation between [begin_op] and [end_op], how many
    blocks it has added to the header. *)
Definition budget (us : list Z) : Z := foldr (λ u b, MAXOPBLOCKS - u + b) 0 us.

Record reserved (l : Log) (us : list Z) : Prop := {
  rs_out : lg_outstanding l = Z.of_nat (length us);
  rs_us : Forall (λ u, 0 ≤ u ≤ MAXOPBLOCKS) us;
  rs_n : 0 ≤ lh_n l;
  rs_budget : lh_n l + budget us ≤ LOGSIZE;
}.

(** Steps of the operations that use the log: each adds at most [MAXOPBLOCKS]
    blocks to the header. *)
Inductive op_step : lstate * list Z → lstate * list Z → Prop :=
| op_begin s s' us : begin_op s = Ok (tt, s') → op_step (s, us) (s', 0 :: us)
| op_write s s' us j u i :
    us !! j = Some u → u < MAXOPBLOCKS → log_write i s = Ok (tt, s') →
    op_step (s, us) (s', <[j := u + (lh_n (lg s') - lh_n (lg s))]> us)
| op_end s s' us j : (j < length us)%nat → end_op s = Ok (tt, s') → op_step (s, us) (s', delete j us).

Lemma budget_nonneg us : Forall (λ u, 0 ≤ u ≤ MAXOPBLOCKS) us → 0 ≤ budget us.
Proof. induction 1; simpl; lia. Qed.

Lemma budget_le us : Forall (λ u, 0 ≤ u ≤ MAXOPBLOCKS) us → budget us ≤ MAXOPBLOCKS * Z.of_nat (length us).
Proof. induction 1; simpl; unfold MAXOPBLOCKS in *; lia. Qed.

Lemma budget_insert us j u v :
  us !! j = Some u → budget (<[j := v]> us) = budget us + u - v.
Proof.
  revert j. induction us as [|x us IH]; intros [|j] H; simplify_eq/=; [lia|].
  rewrite (IH _ H). lia.
Qed.

Lemma budget_delete us j :
  Forall (λ u, 0 ≤ u ≤ MAXOPBLOCKS) us → budget (delete j us) ≤ budget us.
Proof.
  intros H. revert j. induction H as [|x us Hx H IH]; intros [|j]; simpl; try lia.
  specialize (IH j). lia.
Qed.

Lemma install_keeps : keeps lg install_trans.
Proof. unfold install_trans, log_slot, lh_at, on_bio. eauto 30 with keeps. Qed.
Lemma write_head_keeps : keeps lg write_head.
Proof. unfold write_head, lh_at, on_bio. eauto 30 with keeps. Qed.
Lemma write_log_keeps : keeps lg write_log.
Proof. unfold write_log, log_slot, lh_at, on_bio. eauto 30 with keeps. Qed.

Lemma begin_op_inv s s' :
  begin_op s = Ok (tt, s') →
  lh_n (lg s') = lh_n (lg s) ∧ lg_outstanding (lg s') = lg_outstanding (lg s) + 1 ∧
  lh_n (lg s) + (lg_outstanding (lg s) + 1) * MAXOPBLOCKS ≤ LOGSIZE.
Proof.
  unfold begin_op, bind, on_log, modify, gets. simpl.
  destruct (lg_committing (lg s)); [done|].
  unfold chk_i32 at 1. destruct (_ && _); [|done]. unfold ret at 1.
  unfold chk_i32 at 1. destruct (_ && _); [|done]. unfold ret at 1.
  unfold chk_i32 at 1. destruct (_ && _); [|done]. unfold ret at 1.
  destruct (Z.ltb_spec LOGSIZE (lh_n (lg s) + (lg_outstanding (lg s) + 1) * MAXOPBLOCKS)); [done|].
  intros [= <-]. simpl. split_and!; (done || lia).
Qed.

Lemma commit_lg s s' :
  commit s = Ok (tt, s') →
  lg_outstanding (lg s') = lg_outstanding (lg s) ∧
  lh_n (lg s') = if 0 <? lh_n (lg s) then 0 else lh_n (lg s).
Proof.
  unfold commit, bind at 1, gets. destruct (0 <? lh_n (lg s)); [|by intros [= <-]].
  intros H. apply bind_Ok_inv in H as (u1 & s1 & E1 & H). apply write_log_keeps in E1.
  apply bind_Ok_inv in H as (u2 & s2 & E2 & H). apply write_head_keeps in E2.
  apply bind_Ok_inv in H as (u3 & s3 & E3 & H). apply install_keeps in E3.
  apply bind_Ok_inv in H as (u4 & s4 & [= _ <-] & H). apply write_head_keeps in H.
  rewrite H. simpl. by rewrite E3, E2, E1.
Qed.

Lemma end_op_inv s s' :
  end_op s = Ok (tt, s') →
  lg_outstanding (lg s') = lg_outstanding (lg s) - 1 ∧
  (lh_n (lg s') = lh_n (lg s) ∨ lh_n (lg s') = 0).
Proof.
  unfold end_op. intros H.
  apply bind_Ok_inv in H as (u1 & s1 & [= _ <-] & H). apply bind_Ok_inv in H as (l & s1 & [= <- <-] & H).
  apply bind_Ok_inv in H as (o & s1 & E & H). unfold chk_i32 in E. destruct (_ && _); [|done].
  injection E as <- <-. apply bind_Ok_inv in H as (u2 & s2 & [= _ <-] & H). simpl in H.
  destruct (lg_committing (lg s)); [done|]. apply bind_Ok_inv in H as (dc & s3 & E & H).
  assert (E3 : lg_outstanding (lg s3) = lg_outstanding (lg s) - 1 ∧ lh_n (lg s3) = lh_n (lg s)).
  { destruct (_ =? 0); by injection E as _ <-. }
  apply bind_Ok_inv in H as (u4 & s4 & [= _ <-] & H). destruct dc; [|by injection H as <-; simpl; naive_solver].
  apply bind_Ok_inv in H as ([] & s5 & Hc & H). apply commit_lg in Hc as [Hc1 Hc2]. simpl in *.
  injection H as <-. simpl. rewrite Hc1, Hc2. destruct E3 as [-> ->]. split; [done|].
  clear Hc2. destruct (0 <? lh_n (lg s)); auto.
Qed.

Lemma log_search_bound s i s' : log_search i s = Ok (s') → lg (snd s') = lg s.
Proof.
  destruct s' as [x s']. intros H. assert (K : keeps lg (log_search i)).
  { unfold log_search, lh_at. eauto 20 with keeps. }
  by apply K in H.
Qed.

Lemma log_write_inv i s s' :
  log_write i s = Ok (tt, s') →
  lg_outstanding (lg s') = lg_outstanding (lg s) ∧
  (lh_n (lg s') = lh_n (lg s) ∨ lh_n (lg s') = lh_n (lg s) + 1).
Proof.
  unfold log_write. intros H. apply bind_Ok_inv in H as (l & s1 & [= <- <-] & H).
  apply bind_Ok_inv in H as (big & s1 & E & H). destruct big; [done|].
  assert (K : keeps id (txn_full (lg s))) by (unfold txn_full; eauto with keeps).
  apply K in E. simpl in E. subst s1. destruct (_ <? 1); [done|]. clear K.
  unfold log_record in H. apply bind_Ok_inv in H as (u2 & s2 & [= _ <-] & H).
  apply bind_Ok_inv in H as (x & s3 & E & H).
  assert (K : keeps lg (on_bio (buf_at i))) by (unfold on_bio; eauto with keeps).
  apply K in E. simpl in E. apply bind_Ok_inv in H as (j & s4 & E4 & H).
  apply log_search_bound in E4. simpl in E4. rewrite E in E4.
  apply bind_Ok_inv in H as (v & s5 & E5 & H).
  assert (K5 : keeps lg (lh_at (Z.to_nat j))) by (unfold lh_at; eauto with keeps).
  apply K5 in E5. rewrite E4 in E5. apply bind_Ok_inv in H as (u6 & s6 & [= _ <-] & H).
  apply bind_Ok_inv in H as (l & s7 & [= <- <-] & H). simpl in H. rewrite E5 in H. simpl in H.
  apply bind_Ok_inv in H as ([] & s8 & E8 & H).
  assert (H8 : lg_outstanding (lg s8) = lg_outstanding (lg s) ∧
            (lh_n (lg s8) = lh_n (lg s) ∨ lh_n (lg s8) = lh_n (lg s) + 1)).
  { destruct (j =? lh_n (lg s)).
    - apply bind_Ok_inv in E8 as (n & s9 & E9 & E8). unfold chk_i32 in E9.
      destruct (_ && _); [|done]. injection E9 as <- <-. injection E8 as <-. simpl. rewrite ?E5. auto.
    - injection E8 as <-. simpl. rewrite ?E5. auto. }
  apply bind_Ok_inv in H as ([] & s10 & E10 & [= <-]).
  assert (K10 : keeps lg (on_bio (on_buf i (λ x, set_flags (Z.lor (b_flags x) B_DIRTY) x))))
    by (unfold on_bio; eauto with keeps).
  apply K10 in E10. simpl. by rewrite E10.
Qed.

Lemma reserved_step c c' : op_step c c' → reserved (lg (fst c)) (snd c) → reserved (lg (fst c')) (snd c').
Proof.
  intros Hs [Ho Hu Hn Hb]. destruct Hs as [s s' us H|s s' us j u i Hj Hlt H|s s' us j Hj H]; simpl in *.
  - apply begin_op_inv in H as (H1 & H2 & H3). pose proof (budget_le us Hu).
    rewrite Ho in H3. split; simpl; [lia| |lia|unfold MAXOPBLOCKS in *; lia].
    constructor; [unfold MAXOPBLOCKS; lia|done].
  - apply log_write_inv in H as [H1 H2]. rewrite Forall_lookup in Hu. specialize (Hu _ _ Hj) as Hju.
    split; simpl.
    + by rewrite H1, length_insert.
    + apply Forall_insert; [by apply Forall_lookup|]. lia.
    + lia.
    + rewrite (budget_insert _ _ _ _ Hj). lia.
  - apply end_op_inv in H as [H1 H2]. pose proof (budget_delete us j Hu). pose proof (budget_nonneg us Hu).
    split; simpl.
    + rewrite H1, Ho, length_delete by (by apply lookup_lt_is_Some_2). lia.
    + by apply Forall_delete.
    + lia.
    + pose proof (budget_nonneg _ (Forall_delete _ _ j Hu)). lia.
Qed.

(** C26: Log space is never overcommitted. However system calls interleave
    their [begin_op], [log_write] (at most [MAXOPBLOCKS] new blocks each) and
    [end_op], the header holds at most [LOGSIZE] blocks, and on a log area of
    more than [LOGSIZE] blocks an operation within its budget never finds the
    log full. *)
Theorem log_space_reserved (s0 s : lstate) (us : list Z)
    (Hfresh : lh_n (lg s0) = 0 ∧ lg_outstanding (lg s0) = 0)
    (Hreach : rtc op_step (s0, []) (s, us)) :
  0 ≤ lh_n (lg s) ≤ LOGSIZE ∧
  ∀ j u, us !! j = Some u → u < MAXOPBLOCKS → LOGSIZE < lg_size (lg s) < i32_hi →
    txn_full (lg s) s = Ok (false, s).
Proof.
  assert (Hr : reserved (lg s) us).
  { assert (H0 : reserved (lg (fst (s0, [] : list Z))) (snd (s0, [] : list Z))).
    { destruct Hfresh as [Hf1 Hf2]. split; simpl; [done|constructor|lia|]. rewrite Hf1. done. }
    change (reserved (lg (fst (s, us))) (snd (s, us))). revert H0.
    induction Hreach; [done|]. eauto using reserved_step. }
  destruct Hr as [Ho Hu Hn Hb]. pose proof (budget_nonneg us Hu). split; [lia|].
  intros j u Hj Hlt Hsz.
  assert (Hbj : MAXOPBLOCKS - u ≤ budget us).
  { pose proof (budget_insert us j u MAXOPBLOCKS Hj).
    assert (0 ≤ budget (<[j := MAXOPBLOCKS]> us)); [|lia].
    apply budget_nonneg, Forall_insert; [done|unfold MAXOPBLOCKS; lia]. }
  rewrite (txn_full_spec s (Z.to_nat (lh_n (lg s)))); [|lia|].
  - rewrite (proj2 (Z.leb_gt _ _)), (proj2 (Z.leb_gt _ _)) by lia. done.
  - change LOGSIZE with 30 in *. unfold i32_lo. lia.
Qed.

End log.

(** ** On mkfs's image *)

(** The super block mkfs writes: the log is [LOGSIZE] blocks from block 2. *)
Definition sb0 : Superblock := mkSB 2000 1941 200 30 2 32 58.
Definition disk1 : Memide.memdisk :=
  Memide.ideinit (Mem.store_bytes 512 (enc_sb sb0) (λ _, 0)) (2000 * BSIZE).

(** Read blocks [bs] of device 1 and add each to the transaction. *)
Definition write_blocks (bs : list Z) : M (lstate (D := Memide.memdisk)) unit :=
  forM bs (λ b,
    let* i := on_bio (bread 1 b) in
    log_write i ;;;
    on_bio (brelse i)).


(** ** Witnesses *)

(** A log on [disk1] with block 50 as its transaction. *)
Definition log1 : Log :=
  mkLog (mkSpin 0 EmptyString None) 2 31 1 false 1 1 (50 :: replicate 29 0).
Definition log0 : Log :=
  mkLog (mkSpin 0 EmptyString None) 2 31 1 false 1 0 (replicate 30 0).

Lemma disk1_ok bn : 0 ≤ bn < 2000 → c_ok (cache_empty disk1) (1, bn).
Proof. intros H. split; [done|]. exact H. Qed.

(** The cache with block 50 read, and then pinned and given back. *)
Lemma cache_with_50 :
  ∃ i (s1 s2 : bio (D := Memide.memdisk)),
    bio_abs s1 (a_hold i (1, 50) (cache_empty disk1)) ∧
    bio_abs s2 (a_release i (a_pin (1, 50) (a_hold i (1, 50) (cache_empty disk1)))).
Proof.
  destruct (proj1 (wp_ok _ _ _) (binit_abs disk1 1)) as (u0 & s0 & _ & Ha0 & _).
  pose proof (bread_spec s0 _ 1 50 Ha0 ltac:(lia) (disk1_ok 50 ltac:(lia)) ltac:(by intros i)
    ltac:(right; rewrite HEAD_eq; vm_compute; lia)) as H1.
  apply wp_ok in H1 as (i & s1 & _ & Ha1 & _).
  pose proof (pin_spec s1 _ i (1, 50) Ha1 ltac:(apply lookup_insert_eq)) as H2.
  apply wp_ok in H2 as (u2 & s2 & _ & Ha2 & _).
  pose proof (brelse_spec s2 _ i (1, 50) Ha2 ltac:(apply lookup_insert_eq)
    ltac:(left; simpl; set_solver)) as H3.
  apply wp_ok in H3 as (u3 & s3 & _ & Ha3 & _). by exists i, s1, s3.
Qed.

Lemma log1_txn i :
  txn_ok log1 1 (a_release i (a_pin (1, 50) (a_hold i (1, 50) (cache_empty disk1)))).
Proof.
  assert (Hk : ∀ j, (j < 1)%nat → home_key log1 j = (1, 50)) by (intros [|] ?; [done|lia]).
  assert (Hs : ∀ j, (j < 1)%nat → slot_key log1 j = (1, 3)) by (intros [|] ?; [done|lia]).
  split.
  - done.
  - split; [simpl; unfold i32_hi; lia|vm_compute; split; congruence|done|vm_compute; lia| | | |].
    + split; [by apply (disk1_ok 2)|set_solver].
    + intros j Hj. rewrite Hs by done. split; [by apply (disk1_ok 3)|set_solver].
    + intros j Hj. rewrite Hk by done. split; [by apply (disk1_ok 50)|done].
    + intros j j' Hj Hj'. rewrite Hk, Hs by done. done.
  - unfold entries_ok. simpl. repeat constructor; unfold i32_lo, i32_hi; lia.
  - simpl. rewrite insert_empty. apply delete_singleton_eq.
  - rewrite HEAD_eq. vm_compute. lia.
  - intros j Hj. rewrite Hk by done. set_solver.
  - intros k Hin. exists O. split; [lia|]. rewrite Hk by lia. set_solver.
  - intros j j'. lia.
Qed.


Lemma log0_txn i : txn_inv log0 0 (a_hold i (1, 50) (cache_empty disk1)).
Proof.
  split; simpl; try done; try lia.
  intros k. split; [set_solver|]. intros (j & ? & _). lia.
Qed.

Lemma log_write_records_witness :
  ∃ (s : lstate (D := Memide.memdisk)) i,
    wp (log_write i) s (λ _ s',
      bio_abs (lb s') (a_pin (1, 50) (a_hold i (1, 50) (cache_empty disk1))) ∧
      lg s' = record_block log0 0 50 ∧
      txn_inv (lg s') 1 (a_pin (1, 50) (a_hold i (1, 50) (cache_empty disk1)))).
Proof.
  destruct cache_with_50 as (i & s1 & s2 & Ha1 & _). exists (mkL log0 s1 []), i.
  exact (log_write_records (mkL log0 s1 []) _ 0 i 50 Ha1 (log0_txn i) ltac:(lia)
    ltac:(apply lookup_insert_eq) ltac:(unfold i32_hi; lia) ltac:(unfold i32_lo, i32_hi; simpl; lia)).
Defined.

(** Two operations admitted on a fresh log. *)
Definition fresh : lstate (D := Memide.memdisk) :=
  mkL (set_outstanding 0 log0) (bcache_storage disk1 1) [].
Definition after_begin (n : Z) : lstate (D := Memide.memdisk) :=
  mkL (set_outstanding n log0) (bcache_storage disk1 1) [].

Lemma log_space_reserved_witness :
  rtc op_step (fresh, []) (after_begin 2, [0; 0]) ∧
  0 ≤ lh_n (lg (after_begin 2)) ≤ LOGSIZE ∧
  txn_full (lg (after_begin 2)) (after_begin 2) = Ok (false, after_begin 2).
Proof.
  assert (Hr : rtc op_step (fresh, []) (after_begin 2, [0; 0])).
  { eapply rtc_l; [by apply (op_begin fresh (after_begin 1))|].
    eapply rtc_l; [by apply (op_begin (after_begin 1) (after_begin 2))|]. apply rtc_refl. }
  destruct (log_space_reserved fresh (after_begin 2) [0; 0] ltac:(done) Hr) as [H1 H2].
  split; [exact Hr|]. split; [exact H1|].
  apply (H2 0%nat 0); [done|unfold MAXOPBLOCKS; lia|vm_compute; split; congruence].
Defined.

End Log.
