(* ===== verification/Fs.v ===== *)
(** * File system

    crates/fs/src/fs.rs: the block allocator, the inode cache, inode contents
    through direct and indirect blocks, directories and path lookup, over the
    log and the buffer cache.

    Inode pointers are indices into the inode cache. A C string or a byte
    buffer is the list of its bytes; reading past the end of a string reads
    its terminating zero. *)

From S2P Require Import Prelude Param Sync Mem Disk Ring Bio Fsh Log.
Import Sync Bio Fsh Log.

Module Fs.

(** [Inode]. *)
Record Inode := mkInode {
  i_dev : Z;
  i_inum : Z;
  i_ref : Z;
  i_lock : sleeplock;
  i_flags : Z;
  i_type : Z;
  i_major : Z;
  i_minor : Z;
  i_nlink : Z;
  i_size : Z;
  i_addrs : list Z;
}.

Definition I_VALID : Z := 0x2.
Definition is_free (ip : Inode) : bool := i_ref ip =? 0.
Definition is_valid (ip : Inode) : bool := negb (Z.land (i_flags ip) I_VALID =? 0).
Definition is_dir (ip : Inode) : bool := i_type ip =? T_DIR.
Definition is_dev (ip : Inode) : bool := i_type ip =? T_DEV.

Definition set_ref (v : Z) (ip : Inode) : Inode :=
  mkInode (i_dev ip) (i_inum ip) v (i_lock ip) (i_flags ip) (i_type ip) (i_major ip)
          (i_minor ip) (i_nlink ip) (i_size ip) (i_addrs ip).
Definition set_ilock (v : sleeplock) (ip : Inode) : Inode :=
  mkInode (i_dev ip) (i_inum ip) (i_ref ip) v (i_flags ip) (i_type ip) (i_major ip)
          (i_minor ip) (i_nlink ip) (i_size ip) (i_addrs ip).
Definition set_iflags (v : Z) (ip : Inode) : Inode :=
  mkInode (i_dev ip) (i_inum ip) (i_ref ip) (i_lock ip) v (i_type ip) (i_major ip)
          (i_minor ip) (i_nlink ip) (i_size ip) (i_addrs ip).
Definition set_type (v : Z) (ip : Inode) : Inode :=
  mkInode (i_dev ip) (i_inum ip) (i_ref ip) (i_lock ip) (i_flags ip) v (i_major ip)
          (i_minor ip) (i_nlink ip) (i_size ip) (i_addrs ip).
Definition set_nlink (v : Z) (ip : Inode) : Inode :=
  mkInode (i_dev ip) (i_inum ip) (i_ref ip) (i_lock ip) (i_flags ip) (i_type ip) (i_major ip)
          (i_minor ip) v (i_size ip) (i_addrs ip).
Definition set_devno (ma mi : Z) (ip : Inode) : Inode :=
  mkInode (i_dev ip) (i_inum ip) (i_ref ip) (i_lock ip) (i_flags ip) (i_type ip) ma mi
          (i_nlink ip) (i_size ip) (i_addrs ip).
Definition set_size (v : Z) (ip : Inode) : Inode :=
  mkInode (i_dev ip) (i_inum ip) (i_ref ip) (i_lock ip) (i_flags ip) (i_type ip) (i_major ip)
          (i_minor ip) (i_nlink ip) v (i_addrs ip).
Definition set_addr (n : nat) (v : Z) (ip : Inode) : Inode :=
  mkInode (i_dev ip) (i_inum ip) (i_ref ip) (i_lock ip) (i_flags ip) (i_type ip) (i_major ip)
          (i_minor ip) (i_nlink ip) (i_size ip) (<[n := v]> (i_addrs ip)).
Definition set_slot (dev inum : Z) (ip : Inode) : Inode :=
  mkInode dev inum 1 (i_lock ip) 0 (i_type ip) (i_major ip)
          (i_minor ip) (i_nlink ip) (i_size ip) (i_addrs ip).
Definition from_dinode (di : Dinode) (ip : Inode) : Inode :=
  mkInode (i_dev ip) (i_inum ip) (i_ref ip) (i_lock ip) (i_flags ip) (di_type di) (di_major di)
          (di_minor di) (di_nlink di) (di_size di) (di_addrs di).
Definition to_dinode (ip : Inode) : Dinode :=
  mkDinode (i_type ip) (i_major ip) (i_minor ip) (i_nlink ip) (i_size ip) (i_addrs ip).
Definition mark_valid (ip : Inode) : Inode := set_iflags (Z.lor (i_flags ip) I_VALID) ip.

Section fs.
Context {D : Type} `{!BlockDev D}.

(** The log and the cache below, [SB], [Icache], the wakeups issued, and the
    running process's current directory. *)
Record fstate := mkFs {
  fl : lstate (D := D);
  SB : Superblock;
  ic_lock : spinlock;
  inodes : list Inode;
  iwakes : list chan;
  cwd : option nat;
}.

Definition on_l {A} (m : M lstate A) : M fstate A :=
  zoom fl (λ l s, mkFs l (SB s) (ic_lock s) (inodes s) (iwakes s) (cwd s)) m.
Definition on_b {A} (m : M bio A) : M fstate A := on_l (on_bio m).
Definition set_SB (v : Superblock) (s : fstate) : fstate :=
  mkFs (fl s) v (ic_lock s) (inodes s) (iwakes s) (cwd s).
Definition set_ic_lock (v : Z) (s : fstate) : fstate :=
  mkFs (fl s) (SB s) (set_locked v (ic_lock s)) (inodes s) (iwakes s) (cwd s).
Definition set_inodes (v : list Inode) (s : fstate) : fstate :=
  mkFs (fl s) (SB s) (ic_lock s) v (iwakes s) (cwd s).
Definition inode_at (i : nat) : M fstate Inode :=
  let* s := get in expect "wild inode pointer" (inodes s !! i).
Definition on_inode (i : nat) (f : Inode → Inode) : M fstate unit :=
  modify (λ s, set_inodes (alter f i (inodes s)) s).

Definition with_ilock {A} (i : nat) (m : M sl_state A) : M fstate A := λ s,
  match inodes s !! i with
  | None => Panic "wild inode pointer"
  | Some ip =>
      match m (i_lock ip, iwakes s) with
      | Ok (a, (l, w)) =>
          Ok (a, mkFs (fl s) (SB s) (ic_lock s) (alter (set_ilock l) i (inodes s)) w (cwd s))
      | Panic e => Panic e
      | Blocked => Blocked
      | NoFuel => NoFuel
      end
  end.

(** ** Block allocator *)

Definition bzero (dev bno : Z) : M fstate unit :=
  let* buf := on_b (read dev bno) in
  on_b (on_buf buf (λ b, set_data (replicate (length (b_data b)) 0) b)) ;;;
  on_l (log_write buf) ;;;
  on_b (release_buf buf).

(** The bit of block [bi] of a bitmap block. *)
Definition bit_of (bi : Z) : Z := Z.shiftl 1 (bi mod 8).
Definition byte_of (bi : Z) : nat := Z.to_nat (bi / 8).
Definition bit_set (d : list Z) (bi : Z) : bool :=
  negb (Z.land (nth (byte_of bi) d 0) (bit_of bi) =? 0).

(** The scan of one bitmap block: the first clear bit below the end of the
    file system. *)
Fixpoint scan_bits (fuel : nat) (size b bi : Z) (d : list Z) : option Z :=
  match fuel with
  | O => None
  | S fuel' =>
      if BPB <=? bi then None
      else if size <=? b + bi then None
      else if bit_set d bi then scan_bits fuel' size b (bi + 1) d else Some bi
  end.

Fixpoint balloc_from (fuel : nat) (dev b : Z) : M fstate Z :=
  match fuel with
  | O => nofuel
  | S fuel' =>
      let* s := get in
      if b <? sb_size (SB s) then
        let* bn := bblock b (SB s) in
        let* buf := on_b (read dev bn) in
        let* x := on_b (buf_at buf) in
        match scan_bits (Z.to_nat BPB) (sb_size (SB s)) b 0 (b_data x) with
        | Some bi =>
            on_b (on_buf buf (λ y, set_data (<[byte_of bi :=
                    Z.lor (nth (byte_of bi) (b_data y) 0) (bit_of bi)]> (b_data y)) y)) ;;;
            on_l (log_write buf) ;;;
            on_b (release_buf buf) ;;;
            bzero dev (b + bi) ;;;
            ret (b + bi)
        | None =>
            on_b (release_buf buf) ;;;
            let* b' := chk_u32 (b + BPB) in
            balloc_from fuel' dev b'
        end
      else panic "balloc: out of blocks"
  end.
Definition balloc (dev : Z) : M fstate Z :=
  let* s := get in
  balloc_from (S (S (Z.to_nat (sb_size (SB s) / BPB)))) dev 0.

Definition bfree (dev b : Z) : M fstate unit :=
  let* sb := on_b (readsb (as_i32 dev)) in
  modify (set_SB sb) ;;;
  let* s := get in
  let* bn := bblock b (SB s) in
  let* buf := on_b (read dev bn) in
  let bi := b mod BPB in
  let* x := on_b (buf_at buf) in
  if negb (bit_set (b_data x) bi) then panic "freeing free block"
  else
    on_b (on_buf buf (λ y, set_data (<[byte_of bi :=
            Z.ldiff (nth (byte_of bi) (b_data y) 0) (bit_of bi)]> (b_data y)) y)) ;;;
    on_l (log_write buf) ;;;
    on_b (release_buf buf).

(** ** Inodes *)

Definition iinit (dev : Z) : M fstate unit :=
  modify (λ s, mkFs (fl s) (SB s) (initlock "icache" (ic_lock s)) (inodes s) (iwakes s) (cwd s)) ;;;
  forM (seq 0 (Z.to_nat NINODE)) (λ i,
    on_inode i (λ ip, set_ilock (initsleeplock "inode" (i_lock ip)) ip)) ;;;
  let* sb := on_b (readsb dev) in
  modify (set_SB sb).

(** The loop of [iget]: the referenced slot of the inode, or the first free
    slot seen. *)
Fixpoint iget_scan (dev inum : Z) (i : nat) (empty : option nat) (l : list Inode)
  : nat + option nat :=
  match l with
  | [] => inr empty
  | ip :: l' =>
      if (0 <? i_ref ip) && (i_dev ip =? dev) && (i_inum ip =? inum) then inl i
      else
        let empty := match empty with
                     | None => if is_free ip then Some i else None
                     | Some e => Some e
                     end in
        iget_scan dev inum (S i) empty l'
  end.

Definition iget (dev inum : Z) : M fstate nat :=
  modify (set_ic_lock 1) ;;;
  let* s := get in
  match iget_scan dev inum 0 None (inodes s) with
  | inl i =>
      let* ip := inode_at i in
      let* r := chk_i32 (i_ref ip + 1) in
      on_inode i (set_ref r) ;;;
      modify (set_ic_lock 0) ;;;
      ret i
  | inr None => panic "iget: no inodes"
  | inr (Some i) =>
      on_inode i (set_slot dev inum) ;;;
      modify (set_ic_lock 0) ;;;
      ret i
  end.

Fixpoint ialloc_from (fuel : nat) (dev ty inum : Z) : M fstate nat :=
  match fuel with
  | O => nofuel
  | S fuel' =>
      let* s := get in
      if inum <? sb_ninodes (SB s) then
        let* bn := iblock inum (SB s) in
        let* buf := on_b (read dev bn) in
        let slot := Z.to_nat (inum mod IPB) in
        let* x := on_b (buf_at buf) in
        if di_type (get_dinode slot (b_data x)) =? 0 then
          on_b (on_buf buf (λ y, set_data (put_dinode slot
                  (mkDinode ty 0 0 0 0 (replicate 13 0)) (b_data y)) y)) ;;;
          on_l (log_write buf) ;;;
          on_b (release_buf buf) ;;;
          iget dev inum
        else
          on_b (release_buf buf) ;;;
          ialloc_from fuel' dev ty (inum + 1)
      else panic "ialloc: no inodes"
  end.
Definition ialloc (dev ty : Z) : M fstate nat :=
  let* s := get in
  ialloc_from (S (Z.to_nat (sb_ninodes (SB s)))) dev ty 1.

Definition iupdate (i : nat) : M fstate unit :=
  let* ip := inode_at i in
  let* s := get in
  let* bn := iblock (i_inum ip) (SB s) in
  let* buf := on_b (read (i_dev ip) bn) in
  on_b (on_buf buf (λ y, set_data (put_dinode (Z.to_nat (i_inum ip mod IPB)) (to_dinode ip)
                                    (b_data y)) y)) ;;;
  on_l (log_write buf) ;;;
  on_b (release_buf buf).

Definition idup (i : nat) : M fstate nat :=
  modify (set_ic_lock 1) ;;;
  let* ip := inode_at i in
  let* r := chk_i32 (i_ref ip + 1) in
  on_inode i (set_ref r) ;;;
  modify (set_ic_lock 0) ;;;
  ret i.

Definition ilock (i : nat) : M fstate unit :=
  let* ip := inode_at i in
  if i_ref ip <? 1 then panic "ilock"
  else
    let* s := get in
    with_ilock i (acquiresleep (cur_pid (lb (fl s)))) ;;;
    let* ip := inode_at i in
    if negb (is_valid ip) then
      let* s := get in
      let* bn := iblock (i_inum ip) (SB s) in
      let* buf := on_b (read (i_dev ip) bn) in
      let* x := on_b (buf_at buf) in
      on_inode i (from_dinode (get_dinode (Z.to_nat (i_inum ip mod IPB)) (b_data x))) ;;;
      on_inode i mark_valid ;;;
      let* ip := inode_at i in
      (if i_type ip =? 0 then panic "ilock: no type" else ret tt) ;;;
      on_b (release_buf buf)
    else ret tt.

Definition iunlock (i : nat) : M fstate unit :=
  let* h := with_ilock i holdingsleep in
  if h =? 0 then panic "iunlock"
  else
    let* ip := inode_at i in
    if i_ref ip <? 1 then panic "iunlock"
    else with_ilock i (releasesleep (ChInode i)).

Definition itrunc (i : nat) : M fstate unit :=
  forM (seq 0 (Z.to_nat NDIRECT)) (λ j,
    let* ip := inode_at i in
    let* a := expect "index out of bounds" (i_addrs ip !! j) in
    if negb (a =? 0) then
      bfree (i_dev ip) a ;;;
      on_inode i (set_addr j 0)
    else ret tt) ;;;
  let* ip := inode_at i in
  let* ind := expect "index out of bounds" (i_addrs ip !! Z.to_nat NDIRECT) in
  (if negb (ind =? 0) then
     let* buf := on_b (read (i_dev ip) ind) in
     forM (seq 0 (Z.to_nat NINDIRECT)) (λ j,
       let* x := on_b (buf_at buf) in
       let block := rd_u32 (4 * j) (b_data x) in
       if negb (block =? 0) then bfree (i_dev ip) block else ret tt) ;;;
     on_b (release_buf buf) ;;;
     bfree (i_dev ip) ind ;;;
     on_inode i (set_addr (Z.to_nat NDIRECT) 0)
   else ret tt) ;;;
  on_inode i (set_size 0) ;;;
  iupdate i.

Definition iput (i : nat) : M fstate unit :=
  modify (set_ic_lock 1) ;;;
  let* ip := inode_at i in
  (if (i_ref ip =? 1) && is_valid ip && (i_nlink ip =? 0) then
     modify (set_ic_lock 0) ;;;
     itrunc i ;;;
     on_inode i (set_type 0) ;;;
     iupdate i ;;;
     modify (set_ic_lock 1) ;;;
     on_inode i (set_iflags 0)
   else ret tt) ;;;
  let* ip := inode_at i in
  let* r := chk_i32 (i_ref ip - 1) in
  on_inode i (set_ref r) ;;;
  modify (set_ic_lock 0).

Definition iunlockput (i : nat) : M fstate unit := iunlock i ;;; iput i.

(** ** Inode contents *)

Definition bmap (i : nat) (bn : Z) : M fstate Z :=
  let* ip := inode_at i in
  if bn <? NDIRECT then
    let* a := expect "index out of bounds" (i_addrs ip !! Z.to_nat bn) in
    if a =? 0 then
      let* a := balloc (i_dev ip) in
      on_inode i (set_addr (Z.to_nat bn) a) ;;;
      ret a
    else ret a
  else
    let bn := bn - NDIRECT in
    if bn <? NINDIRECT then
      let* ind := expect "index out of bounds" (i_addrs ip !! Z.to_nat NDIRECT) in
      let* ind :=
        (if ind =? 0 then
           let* a := balloc (i_dev ip) in
           on_inode i (set_addr (Z.to_nat NDIRECT) a) ;;;
           ret a
         else ret ind) in
      let* buf := on_b (read (i_dev ip) ind) in
      let* x := on_b (buf_at buf) in
      let addr := rd_u32 (4 * Z.to_nat bn) (b_data x) in
      (if addr =? 0 then
         let* a := balloc (i_dev ip) in
         on_b (on_buf buf (λ y, set_data (wr_u32 (4 * Z.to_nat bn) a (b_data y)) y)) ;;;
         on_l (log_write buf)
       else ret tt) ;;;
      let* x := on_b (buf_at buf) in
      let result := rd_u32 (4 * Z.to_nat bn) (b_data x) in
      on_b (release_buf buf) ;;;
      ret result
    else panic "bmap: out of range".

Definition stati (i : nat) : M fstate stat :=
  let* ip := inode_at i in
  ret (mkStat (i_type ip) (as_i32 (i_dev ip)) (i_inum ip) (i_nlink ip) (i_size ip)).

(** [DEVSW]: the device functions, by major number. *)
Context (devsw_read : Z → option (nat → Z → Z → M fstate (Z * list Z)))
        (devsw_write : Z → option (nat → Z → list Z → Z → M fstate Z)).

(** The loop of [readi]; [acc] is what has been copied to the destination. *)
Fixpoint readi_loop (fuel : nat) (i : nat) (n tot off : Z) (acc : list Z) : M fstate (list Z) :=
  match fuel with
  | O => nofuel
  | S fuel' =>
      if tot <? n then
        let* ip := inode_at i in
        let* bn := bmap i (off / BSIZE) in
        let* buf := on_b (read (i_dev ip) bn) in
        let m := Z.min (n - tot) (BSIZE - off mod BSIZE) in
        let* x := on_b (buf_at buf) in
        let acc := acc ++ slice (Z.to_nat (off mod BSIZE)) (Z.to_nat m) (b_data x) in
        on_b (release_buf buf) ;;;
        let* tot := chk_u32 (tot + m) in
        let* off := chk_u32 (off + m) in
        readi_loop fuel' i n tot off acc
      else ret acc
  end.

(** The return value and the bytes copied to [dst]. *)
Definition readi (i : nat) (off n : Z) : M fstate (Z * list Z) :=
  let* ip := inode_at i in
  if is_dev ip then
    let major := as_u64 (i_major ip) in
    if NDEV <=? major then ret (-1, [])
    else match devsw_read major with
         | Some read_fn => read_fn i off (as_i32 n)
         | None => ret (-1, [])
         end
  else if (i_size ip <? off) || (as_u32 (off + n) <? off) then ret (-1, [])
  else
    let n := Z.min n (i_size ip - off) in
    let* bs := readi_loop (S (Z.to_nat (n / BSIZE + 2))) i n 0 off [] in
    ret (as_i32 n, bs).

Fixpoint writei_loop (fuel : nat) (i : nat) (src : list Z) (n tot off : Z) : M fstate Z :=
  match fuel with
  | O => nofuel
  | S fuel' =>
      if tot <? n then
        let* ip := inode_at i in
        let* bn := bmap i (off / BSIZE) in
        let* buf := on_b (read (i_dev ip) bn) in
        let m := Z.min (n - tot) (BSIZE - off mod BSIZE) in
        on_b (on_buf buf (λ y, set_data (splice (Z.to_nat (off mod BSIZE))
                (slice (Z.to_nat tot) (Z.to_nat m) src) (b_data y)) y)) ;;;
        on_l (log_write buf) ;;;
        on_b (release_buf buf) ;;;
        let* tot := chk_u32 (tot + m) in
        let* off := chk_u32 (off + m) in
        writei_loop fuel' i src n tot off
      else ret off
  end.

(** [src] has the [n] bytes at the source pointer. *)
Definition writei (i : nat) (src : list Z) (off n : Z) : M fstate Z :=
  let* ip := inode_at i in
  if is_dev ip then
    let major := as_u64 (i_major ip) in
    if NDEV <=? major then ret (-1)
    else match devsw_write major with
         | Some write_fn => write_fn i off src (as_i32 n)
         | None => ret (-1)
         end
  else if (i_size ip <? off) || (as_u32 (off + n) <? off) then ret (-1)
  else
    let* e := chk_u32 (off + n) in
    if MAXFILE * BSIZE <? e then ret (-1)
    else
      let* off := writei_loop (S (Z.to_nat (n / BSIZE + 2))) i src n 0 off in
      let* ip := inode_at i in
      (if (0 <? n) && (i_size ip <? off) then
         on_inode i (set_size off) ;;;
         iupdate i
       else ret tt) ;;;
      ret (as_i32 n).

(** ** Directories *)

(** The comparison loop of [namecmp] from index [i]. *)
Fixpoint namecmp_from (fuel : nat) (s t : list Z) (i : nat) : bool :=
  match fuel with
  | O => true
  | S fuel' =>
      let sc := nth i s 0 in
      let tc := nth i t 0 in
      if negb (sc =? tc) then false
      else if sc =? 0 then true
      else namecmp_from fuel' s t (S i)
  end.
Definition namecmp (s t : list Z) : bool :=
  namecmp_from (Nat.min (length s) (Z.to_nat DIRSIZ)) s t 0.

(** [name_len] of a C string. *)
Fixpoint name_len_from (fuel : nat) (s : list Z) : nat :=
  match fuel with
  | O => O
  | S fuel' =>
      match s with
      | [] => O
      | c :: s' => if c =? 0 then O else S (name_len_from fuel' s')
      end
  end.
Definition name_len (s : list Z) : nat := name_len_from (Z.to_nat DIRSIZ) s.

Definition de_size : Z := Z.of_nat sizeof_dirent.

(** The loop of [dirlookup]: the inode and the offset of the entry. *)
Fixpoint dirlookup_from (fuel : nat) (dp : nat) (name : list Z) (off : Z)
  : M fstate (option (nat * Z)) :=
  match fuel with
  | O => nofuel
  | S fuel' =>
      let* d := inode_at dp in
      if off <? i_size d then
        let* ' (r, bs) := readi dp off de_size in
        if negb (r =? de_size) then panic "dirlookup read"
        else
          let de := dec_dirent bs in
          if negb (de_inum de =? 0) && namecmp (take (name_len name) name) (de_name de)
          then
            let* ip := iget (i_dev d) (de_inum de) in
            ret (Some (ip, off))
          else
            let* off := chk_u32 (off + de_size) in
            dirlookup_from fuel' dp name off
      else ret None
  end.
Definition dir_fuel (d : Inode) : nat := S (Z.to_nat (i_size d / de_size + 1)).

Definition dirlookup (dp : nat) (name : list Z) : M fstate (option (nat * Z)) :=
  let* d := inode_at dp in
  if negb (is_dir d) then panic "dirlookup not DIR"
  else dirlookup_from (dir_fuel d) dp name 0.

(** The first free entry of a directory, or its end. *)
Fixpoint free_slot (fuel : nat) (dp : nat) (off : Z) : M fstate Z :=
  match fuel with
  | O => nofuel
  | S fuel' =>
      let* d := inode_at dp in
      if off <? i_size d then
        let* ' (r, bs) := readi dp off de_size in
        if negb (r =? de_size) then panic "dirlink read"
        else if de_inum (dec_dirent bs) =? 0 then ret off
        else
          let* off := chk_u32 (off + de_size) in
          free_slot fuel' dp off
      else ret off
  end.

Definition dirlink (dp : nat) (name : list Z) (inum : Z) : M fstate Z :=
  let* r := dirlookup dp name in
  match r with
  | Some (ip, _) => iput ip ;;; ret (-1)
  | None =>
      let* d := inode_at dp in
      let* off := free_slot (dir_fuel d) dp 0 in
      let copy_len := Nat.min (name_len name) (Z.to_nat DIRSIZ) in
      let de := mkDirent (as_u16 inum)
                  (take copy_len name ++ replicate (Z.to_nat DIRSIZ - copy_len) 0) in
      let* r := writei dp (enc_dirent de) off de_size in
      if negb (r =? de_size) then panic "dirlink" else ret 0
  end.

(** ** Paths *)

Definition SLASH : Z := 47.

Fixpoint skip_slashes (p : list Z) : list Z :=
  match p with
  | c :: p' => if c =? SLASH then skip_slashes p' else p
  | [] => []
  end.
(** The bytes up to the next slash or the end, and what follows. *)
Fixpoint elem_split (p : list Z) : list Z * list Z :=
  match p with
  | c :: p' =>
      if negb (c =? SLASH) && negb (c =? 0)
      then let '(s, r) := elem_split p' in (c :: s, r)
      else ([], p)
  | [] => ([], [])
  end.

(** The remaining path and the new content of the name buffer. *)
Definition skipelem (path name : list Z) : option (list Z * list Z) :=
  let p := skip_slashes path in
  if nth 0 p 0 =? 0 then None
  else
    let '(s, p) := elem_split p in
    let copy_len := Nat.min (length s) (Z.to_nat DIRSIZ) in
    let name := splice 0 (take copy_len s) name in
    let name := if (copy_len <? Z.to_nat DIRSIZ)%nat then <[copy_len := 0]> name else name in
    Some (skip_slashes p, name).

Fixpoint namex_loop (fuel : nat) (ip : nat) (path : list Z) (find_parent : bool) (name : list Z)
  : M fstate (option nat * list Z) :=
  match fuel with
  | O => nofuel
  | S fuel' =>
      match skipelem path name with
      | None =>
          if find_parent then iput ip ;;; ret (None, name)
          else ret (Some ip, name)
      | Some (path, name) =>
          ilock ip ;;;
          let* d := inode_at ip in
          if negb (is_dir d) then
            iunlockput ip ;;;
            ret (None, name)
          else if find_parent && (nth 0 path 0 =? 0) then
            iunlock ip ;;;
            ret (Some ip, name)
          else
            let* next := dirlookup ip name in
            iunlockput ip ;;;
            match next with
            | None => ret (None, name)
            | Some (next, _) => namex_loop fuel' next path find_parent name
            end
      end
  end.

Definition namex (path : list Z) (find_parent : bool) (name : list Z)
  : M fstate (option nat * list Z) :=
  let* ip :=
    (if nth 0 path 0 =? SLASH then iget ROOTDEV ROOTINO
     else
       let* s := get in
       let* c := expect "null cwd" (cwd s) in
       idup c) in
  namex_loop (S (length path)) ip path find_parent name.

Definition namei (path : list Z) : M fstate (option nat) :=
  let* ' (r, _) := namex path false (replicate (Z.to_nat DIRSIZ) 0) in ret r.

(** The parent, and the name copied out when there is one. *)
Definition nameiparent (path : list Z) : M fstate (option (nat * list Z)) :=
  let* ' (r, name) := namex path true (replicate (Z.to_nat DIRSIZ) 0) in
  ret (match r with Some ip => Some (ip, name) | None => None end).

End fs.
End Fs.
