(* ===== verification/FsPath.v ===== *)
(** * Path elements and directory-entry names

    [skipelem] against a reference definition of the components of a path,
    and what [namecmp] compares (crates/fs/src/fs.rs). *)

From S2P Require Import Prelude Param Fsh Fs.
Import Fsh Fs.

Module FsPath.

(** ** Components of a path *)

(** Split on slashes. *)
Fixpoint split_slash (p : list Z) : list (list Z) :=
  match p with
  | [] => [[]]
  | c :: p' =>
      if c =? SLASH then [] :: split_slash p'
      else match split_slash p' with
           | e :: es => (c :: e) :: es
           | [] => [[c]]
           end
  end.
Definition components (p : list Z) : list (list Z) :=
  filter (λ e, e ≠ []) (split_slash p).

(** The C string in a name buffer. *)
Definition cstr (name : list Z) : list Z := take (name_len name) name.

Lemma split_slash_nonempty p : split_slash p ≠ [].
Proof. destruct p as [|c p]; simpl; [done|]. destruct (c =? SLASH); [done|]. by destruct (split_slash p). Qed.

Lemma components_slash p : components (SLASH :: p) = components p.
Proof. done. Qed.

Lemma components_skip p : components (skip_slashes p) = components p.
Proof.
  induction p as [|c p IH]; [done|]. simpl. destruct (Z.eqb_spec c SLASH) as [->|]; [|done].
  by rewrite IH, components_slash.
Qed.

Lemma skip_head p : nth 0 (skip_slashes p) 0 ≠ SLASH.
Proof.
  induction p as [|c p IH]; simpl; [done|]. destruct (Z.eqb_spec c SLASH); done.
Qed.

Lemma elem_split_app p : let '(e, r) := elem_split p in p = e ++ r.
Proof.
  induction p as [|c p IH]; [done|]. simpl. destruct (negb (c =? SLASH) && negb (c =? 0)); [|done].
  destruct (elem_split p) as [e r]. simpl. by rewrite <- IH.
Qed.

(** The split of a zero-free path: an element without slashes, then a slash
    or the end. *)
Lemma elem_split_spec p :
  Forall (λ c, c ≠ 0) p →
  let '(e, r) := elem_split p in Forall (λ c, c ≠ SLASH) e ∧ (r = [] ∨ ∃ r', r = SLASH :: r').
Proof.
  induction p as [|c p IH]; intros Hz; [split; [constructor|by left]|].
  apply Forall_cons in Hz as [Hc Hz]. specialize (IH Hz). simpl.
  destruct (Z.eqb_spec c SLASH) as [->|Hs]; simpl; [split; [constructor|by eauto]|].
  rewrite (proj2 (Z.eqb_neq _ _)) by done. simpl. destruct (elem_split p) as [e r].
  destruct IH as [He Hr]. split; [by constructor|done].
Qed.

Lemma split_slash_elem e r :
  Forall (λ c, c ≠ SLASH) e →
  split_slash (e ++ SLASH :: r) = e :: split_slash r ∧ split_slash e = [e].
Proof.
  induction 1 as [|c e Hc _ [IH1 IH2]]; [done|]. simpl.
  rewrite (proj2 (Z.eqb_neq _ _)) by done. by rewrite IH1, IH2.
Qed.

Lemma components_cons e r :
  Forall (λ c, c ≠ SLASH) e → e ≠ [] → (r = [] ∨ ∃ r', r = SLASH :: r') →
  components (e ++ r) = e :: components r.
Proof.
  intros He Hne [->|[r' ->]]; unfold components.
  - rewrite app_nil_r. rewrite (proj2 (split_slash_elem e [] He)).
    rewrite filter_cons_True by done. done.
  - rewrite (proj1 (split_slash_elem e r' He)). by rewrite filter_cons_True.
Qed.

Lemma name_len_from_app fuel e rest :
  Forall (λ c, c ≠ 0) e → (length e ≤ fuel)%nat → (length e = fuel ∨ nth 0 rest 0 = 0) →
  name_len_from fuel (e ++ rest) = length e.
Proof.
  intros He. revert fuel. induction He as [|c e Hc _ IH]; intros fuel Hl Hr; simpl in *.
  - destruct fuel as [|fuel]; [done|]. destruct Hr as [?|Hr]; [lia|].
    destruct rest as [|x rest]; [done|]. simpl in *. by rewrite Hr.
  - destruct fuel as [|fuel]; [lia|]. simpl. rewrite (proj2 (Z.eqb_neq _ _)) by done.
    f_equal. apply IH; [lia|]. destruct Hr as [?|?]; [left; lia|by right].
Qed.

(** The name buffer after an element has been copied into it. *)
Lemma name_buffer e name :
  Forall (λ c, c ≠ 0) e → length name = 14%nat →
  let len := Nat.min (length e) 14 in
  let name1 := splice 0 (take len e) name in
  let name2 := if (len <? 14)%nat then <[len := 0]> name1 else name1 in
  length name2 = 14%nat ∧ cstr name2 = take 14 e.
Proof.
  intros He Hn len name1 name2.
  assert (Hlt : length (take len e) = len) by (rewrite length_take; unfold len; lia).
  assert (Hte : take len e = take 14 e).
  { unfold len. destruct (decide (length e ≤ 14)%nat).
    - rewrite Nat.min_l, !take_ge by lia. done.
    - by rewrite Nat.min_r by lia. }
  assert (Hl1 : length name1 = 14%nat) by (unfold name1; rewrite length_splice; [done|unfold len in *; lia]).
  assert (Hform : ∃ rest, name2 = take 14 e ++ rest ∧ (len = 14%nat ∨ nth 0 rest 0 = 0)).
  { unfold name2, name1, splice. simpl. rewrite Hlt, Hte in *. destruct (Nat.ltb_spec len 14).
    - destruct (drop len name) as [|x rest] eqn:Hd.
      { apply (f_equal length) in Hd. rewrite length_drop in Hd. simpl in Hd. lia. }
      exists (0 :: rest). split; [|by right].
      rewrite <- (Nat.add_0_r len), <- Hlt at 1. by rewrite insert_app_r.
    - exists (drop len name). split; [done|]. left. unfold len in *. lia. }
  split; [unfold name2; destruct (_ <? _)%nat; rewrite ?length_insert; done|].
  destruct Hform as (rest & -> & Hr). unfold cstr, name_len. change (Z.to_nat DIRSIZ) with 14%nat.
  rewrite name_len_from_app.
  - by rewrite take_app_length.
  - by apply Forall_take.
  - rewrite length_take. lia.
  - destruct Hr as [Hr|Hr]; [left|by right]. rewrite length_take. unfold len in Hr. lia.
Qed.

(** [skipelem] walks the components of a path. It returns nothing exactly
    when no component is left; otherwise it copies the next component, cut to
    [DIRSIZ] bytes, into the name buffer, and the rest of the path has the
    remaining components and is shorter, so the loop of [namex] ends. *)
Theorem skipelem_components (path name : list Z)
    (Hzero : Forall (λ c, c ≠ 0) path) (Hname : length name = Z.to_nat DIRSIZ) :
  match skipelem path name with
  | None => components path = []
  | Some (rest, name') =>
      ∃ e, components path = e :: components rest ∧ cstr name' = take (Z.to_nat DIRSIZ) e ∧
           length name' = Z.to_nat DIRSIZ ∧ (length rest < length path)%nat ∧
           Forall (λ c, c ≠ 0) rest
  end.
Proof.
  assert (Hskip : ∀ p, Forall (λ c, c ≠ 0) p → Forall (λ c, c ≠ 0) (skip_slashes p) ∧
            (length (skip_slashes p) ≤ length p)%nat).
  { induction 1 as [|c p Hc Hp [IH1 IH2]]; simpl; [by split|].
    destruct (c =? SLASH); [split; [done|lia]|split; [by constructor|simpl; lia]]. }
  unfold skipelem. rewrite <- (components_skip path). destruct (Hskip path Hzero) as [Hz Hl].
  pose proof (skip_head path) as Hh. revert Hz Hl Hh.
  generalize (skip_slashes path). intros p Hz Hl Hh.
  destruct (Z.eqb_spec (nth 0 p 0) 0) as [E|E].
  { destruct p as [|c p]; [done|]. apply Forall_cons in Hz as [? _]. done. }
  pose proof (elem_split_app p) as Happ. pose proof (elem_split_spec p Hz) as Hsp.
  destruct (elem_split p) as [e r]. destruct Hsp as [He Hr].
  assert (Hne : e ≠ []).
  { intros ->. simpl in Happ. subst p. destruct Hr as [->|[r' ->]]; simpl in *; done. }
  rewrite Happ in Hz, Hl. apply Forall_app in Hz as [Hze Hzr].
  destruct (name_buffer e name Hze Hname) as [Hb1 Hb2].
  exists e. rewrite Happ, components_cons, components_skip by done. split_and!; try done.
  - destruct (Hskip r Hzr) as [_ Hlr]. rewrite length_app in Hl. destruct e; [done|]. simpl in Hl. lia.
  - by apply Hskip.
Qed.

Lemma skipelem_components_witness :
  Forall (λ c, c ≠ 0) [47; 97; 47; 98] ∧
  match skipelem [47; 97; 47; 98] (replicate 14 0) with
  | None => components [47; 97; 47; 98] = []
  | Some (rest, name') =>
      ∃ e, components [47; 97; 47; 98] = e :: components rest ∧ cstr name' = take (Z.to_nat DIRSIZ) e ∧
           length name' = Z.to_nat DIRSIZ ∧ (length rest < length [47; 97; 47; 98]%Z)%nat ∧
           Forall (λ c, c ≠ 0) rest
  end.
Proof.
  assert (H : Forall (λ c, c ≠ 0) [47; 97; 47; 98]) by (repeat constructor; lia).
  split; [exact H|]. exact (skipelem_components [47; 97; 47; 98] (replicate 14 0) H eq_refl).
Defined.

(** ** Comparing names *)

Lemma namecmp_from_spec fuel s t i :
  (∀ j, (j < i + fuel)%nat → nth j s 0 ≠ 0) →
  namecmp_from fuel s t i = true ↔ ∀ j, (i ≤ j < i + fuel)%nat → nth j s 0 = nth j t 0.
Proof.
  revert i. induction fuel as [|fuel IH]; intros i Hz; simpl; [split; [lia|done]|].
  destruct (Z.eqb_spec (nth i s 0) (nth i t 0)) as [E|E]; simpl.
  - rewrite (proj2 (Z.eqb_neq _ _)) by (apply Hz; lia). rewrite IH by (intros; apply Hz; lia).
    split; intros H j Hj; [|apply H; lia].
    destruct (decide (j = i)) as [->|]; [done|]. apply H. lia.
  - split; [done|]. intros H. exfalso. apply E, H. lia.
Qed.

(** What [namecmp] decides. For the name of a lookup (the bytes before its
    terminator) and the 14-byte name field of an entry, it answers yes exactly
    when the name is a prefix of the field: the terminator is not compared, so
    a lookup of [a] also matches an entry [abc]. *)
Theorem namecmp_is_prefix (s t : list Z)
    (Hs : Forall (λ c, c ≠ 0) s) (Hls : (length s ≤ Z.to_nat DIRSIZ)%nat)
    (Hlt : length t = Z.to_nat DIRSIZ) :
  namecmp s t = true ↔ s `prefix_of` t.
Proof.
  unfold namecmp. rewrite Nat.min_l by done. rewrite namecmp_from_spec.
  2: { intros j Hj. eapply (Forall_nth _ 0) in Hs; [exact Hs|]. simpl in Hj. lia. }
  split.
  - intros H. exists (drop (length s) t).
    rewrite <- (take_drop (length s) t) at 1. f_equal.
    apply (nth_ext _ _ 0 0); [rewrite length_take; lia|].
    rewrite length_take. intros j Hj. rewrite nth_lookup, lookup_take_lt by lia.
    rewrite <- nth_lookup. symmetry. apply H. lia.
  - intros [k ->] j Hj. by rewrite app_nth1 by lia.
Qed.

Lemma namecmp_is_prefix_witness :
  namecmp [97] ([97; 98; 99] ++ replicate 11 0) = true ↔ [97] `prefix_of` ([97; 98; 99] ++ replicate 11 0).
Proof.
  apply (namecmp_is_prefix [97] ([97; 98; 99] ++ replicate 11 0));
    [repeat constructor; lia|vm_compute; lia|reflexivity].
Defined.

End FsPath.
