(* ===== verification/Icache.v ===== *)
(** * Inode cache

    The table of in-memory inodes of crates/fs/src/fs.rs as a reference
    counting map: [iget] and [idup] against the count of each (device, inode
    number). *)

From S2P Require Import Prelude Param Sync Mem Disk Ring Bio Fsh Log Fs.
Import Fsh Fs.

Module Icache.

Definition ikey (ip : Inode) : Z * Z := (i_dev ip, i_inum ip).
Definition in_use (ip : Inode) : Prop := 0 < i_ref ip.

(** A (device, inode number) is in at most one referenced slot. *)
Record icache_ok (l : list Inode) : Prop := {
  ic_nonneg i ip : l !! i = Some ip → 0 ≤ i_ref ip;
  ic_unique i j ip jp :
    l !! i = Some ip → l !! j = Some jp → in_use ip → in_use jp → ikey ip = ikey jp → i = j;
}.

(** How many references the cache has to an inode. *)
Definition refs (l : list Inode) (k : Z * Z) : Z :=
  foldr (λ ip n, (if bool_decide (0 < i_ref ip ∧ ikey ip = k) then i_ref ip else 0) + n) 0 l.

(** What the scan of [iget] finds. *)
Lemma iget_scan_spec dev inum l i empty :
  match iget_scan dev inum i empty l with
  | inl j => ∃ ip, (i ≤ j)%nat ∧ l !! (j - i)%nat = Some ip ∧ in_use ip ∧ ikey ip = (dev, inum)
  | inr r =>
      (∀ j ip, l !! j = Some ip → in_use ip → ikey ip ≠ (dev, inum)) ∧
      match empty, r with
      | Some e, _ => r = Some e
      | None, Some j => ∃ ip, (i ≤ j)%nat ∧ l !! (j - i)%nat = Some ip ∧ i_ref ip = 0
      | None, None => ∀ j ip, l !! j = Some ip → i_ref ip ≠ 0
      end
  end.
Proof.
  revert i empty. induction l as [|x l IH]; intros i empty; simpl.
  { split; [done|]. by destruct empty. }
  destruct (0 <? i_ref x) eqn:E1; simpl; [destruct (i_dev x =? dev) eqn:E2; simpl;
    [destruct (i_inum x =? inum) eqn:E3|]|]; b2p.
  { exists x. rewrite Nat.sub_diag. unfold in_use, ikey. split_and!; (done || congruence). }
  all: set (e' := match empty with Some e => Some e | None => _ end);
    specialize (IH (S i) e');
    destruct (iget_scan dev inum (S i) e' l) as [j|r].
  all: try (destruct IH as (ip & Hj & Hl & Hu & Hk); exists ip; split_and!; try done; [lia|];
    by replace (j - i)%nat with (S (j - S i)) by lia).
  all: destruct IH as [Hno Hr]; split;
    [intros [|j] ip Hj; [injection Hj as <-; unfold in_use, ikey; intros ? [= ? ?]; (congruence || lia)|by eapply Hno]|].
  all: unfold e' in Hr; destruct empty as [e|]; [done|]; unfold is_free in Hr.
  all: destruct (Z.eqb_spec (i_ref x) 0) as [Hz|Hz]; [subst r; exists x; rewrite Nat.sub_diag; done|].
  all: destruct r as [j|]; [destruct Hr as (ip & Hj & Hl & Hu); exists ip; split_and!; try done; [lia|];
         by replace (j - i)%nat with (S (j - S i)) by lia|].
  all: intros [|j] ip Hj; [by injection Hj as <-|by eapply Hr].
Qed.

Lemma refs_insert l i ip ip' k :
  l !! i = Some ip →
  refs (<[i := ip']> l) k = refs l k
    - (if bool_decide (0 < i_ref ip ∧ ikey ip = k) then i_ref ip else 0)
    + (if bool_decide (0 < i_ref ip' ∧ ikey ip' = k) then i_ref ip' else 0).
Proof.
  revert i. induction l as [|x l IH]; intros [|i] H; simplify_eq/=; [lia|].
  rewrite (IH _ H). lia.
Qed.

Lemma icache_insert l i ip ip' :
  icache_ok l → l !! i = Some ip → 0 ≤ i_ref ip' →
  (in_use ip' → (in_use ip ∧ ikey ip' = ikey ip) ∨
     ∀ j jp, l !! j = Some jp → in_use jp → ikey jp ≠ ikey ip') →
  icache_ok (<[i := ip']> l).
Proof.
  intros [Hn Hu] Hi H0 Hk.
  assert (Hlk : ∀ j c, <[i:=ip']> l !! j = Some c → (j = i ∧ c = ip') ∨ (j ≠ i ∧ l !! j = Some c)).
  { intros j c Hc. apply list_lookup_insert_Some in Hc. naive_solver. }
  split.
  - intros j c Hc. destruct (Hlk _ _ Hc) as [[-> ->]|[? ?]]; eauto.
  - intros j1 j2 c1 c2 H1 H2 Hu1 Hu2 Heq.
    destruct (Hlk _ _ H1) as [[-> ->]|[? ?]], (Hlk _ _ H2) as [[-> ->]|[? ?]]; eauto.
    + destruct (Hk Hu1) as [[? ?]|Hno]; [eapply Hu; eauto; congruence|].
      exfalso. by eapply (Hno j2 c2).
    + destruct (Hk Hu2) as [[? ?]|Hno]; [eapply Hu; eauto; congruence|].
      exfalso. by eapply (Hno j1 c1).
Qed.

Lemma refs_none l k :
  (∀ j ip, l !! j = Some ip → in_use ip → ikey ip ≠ k) → refs l k = 0.
Proof.
  induction l as [|x l IH]; intros H; [done|]. simpl. rewrite IH.
  - rewrite bool_decide_eq_false_2; [done|]. intros [? ?]. by apply (H O x).
  - intros j ip Hj. by apply (H (S j)).
Qed.

Lemma refs_slot l i ip :
  icache_ok l → l !! i = Some ip → in_use ip → refs l (ikey ip) = i_ref ip.
Proof.
  intros Hok Hi Hu. pose proof (refs_insert l i ip (set_ref 0 ip) (ikey ip) Hi) as Hr.
  rewrite (bool_decide_eq_true_2 (_ ∧ _)) in Hr by done. simpl in Hr.
  rewrite (refs_none (<[i := _]> l)) in Hr; [lia|].
  intros j jp Hj Hju Hk. apply list_lookup_insert_Some in Hj as [(-> & <- & _)|[Hne Hj]].
  - unfold in_use in Hju. simpl in Hju. lia.
  - apply Hne. by eapply (ic_unique _ Hok).
Qed.

Section icache.
Context {D : Type} `{!BlockDev D}.
Implicit Types s : fstate (D := D).

Lemma inode_insert s i ip f :
  inodes s !! i = Some ip → alter f i (inodes s) = <[i := f ip]> (inodes s).
Proof.
  intros Hi. apply list_eq. intros j. destruct (decide (i = j)) as [<-|Hne].
  - rewrite list_lookup_alter_eq, Hi. symmetry. apply list_lookup_insert_eq. by eapply lookup_lt_Some.
  - by rewrite list_lookup_alter_ne, list_lookup_insert_ne.
Qed.

Lemma wp_inode_at s i ip (Q : Inode → fstate → Prop) :
  inodes s !! i = Some ip → Q ip s → wp (inode_at i) s Q.
Proof. intros Hi HQ. unfold wp, inode_at, bind, get, expect. by rewrite Hi. Qed.

Lemma wp_on_inode s i ip f (Q : unit → fstate → Prop) :
  inodes s !! i = Some ip → Q tt (set_inodes (<[i := f ip]> (inodes s)) s) → wp (on_inode i f) s Q.
Proof. intros Hi HQ. unfold wp, on_inode, modify. by rewrite (inode_insert _ _ _ _ Hi). Qed.

(** [iget] hands out the one slot of an inode. On a well-formed cache it
    adds one reference to the inode and none to any other, keeps every
    referenced inode in a single slot, leaves the other slots alone, and a
    slot that was not referenced before comes back marked as not read from
    disk; when the inode is not cached and no slot is free it panics. *)
Theorem iget_counts_references (s : fstate (D := D)) (dev inum : Z)
    (Hok : icache_ok (inodes s)) (Hmax : refs (inodes s) (dev, inum) + 1 < i32_hi) :
  match iget dev inum s with
  | Ok (i, s') =>
      icache_ok (inodes s') ∧
      (∃ ip, inodes s' !! i = Some ip ∧ ikey ip = (dev, inum) ∧
             i_ref ip = refs (inodes s) (dev, inum) + 1 ∧
             (refs (inodes s) (dev, inum) = 0 → is_valid ip = false)) ∧
      (∀ k, refs (inodes s') k =
            refs (inodes s) k + if decide (k = (dev, inum)) then 1 else 0) ∧
      (∀ j, j ≠ i → inodes s' !! j = inodes s !! j)
  | Panic e =>
      e = "iget: no inodes"%string ∧ refs (inodes s) (dev, inum) = 0 ∧
      ∀ j ip, inodes s !! j = Some ip → in_use ip
  | _ => False
  end.
Proof.
  pose proof (iget_scan_spec dev inum (inodes s) 0 None) as Hscan.
  destruct (iget_scan dev inum 0 None (inodes s)) as [i|[i|]] eqn:E.
  - destruct Hscan as (ip & _ & Hi & Hu & Hk). rewrite Nat.sub_0_r in Hi.
    assert (Hrefs : refs (inodes s) (dev, inum) = i_ref ip) by (rewrite <- Hk; by eapply refs_slot).
    assert (Hrun : iget dev inum s = Ok (i, set_ic_lock 0 (set_inodes
              (<[i := set_ref (i_ref ip + 1) ip]> (inodes s)) (set_ic_lock 1 s)))).
    { unfold iget, bind, modify, get. simpl. rewrite E. unfold inode_at, bind, get, expect. simpl.
      rewrite Hi. simpl. unfold in_use in Hu. rewrite chk_i32_ok by (unfold i32_lo; lia).
      unfold on_inode, modify. rewrite (inode_insert (set_ic_lock 1 s) _ _ _ Hi). done. }
    rewrite Hrun. simpl. split_and!.
    + eapply icache_insert; [done..| |]; unfold in_use in *; simpl; [lia|]. by left.
    + eexists. split; [by eapply list_lookup_insert_eq, lookup_lt_Some|].
      split; [done|]. simpl. unfold in_use in Hu. split; lia.
    + intros k. rewrite (refs_insert _ _ _ _ k Hi). simpl. unfold in_use in Hu.
      change (ikey (set_ref _ ip)) with (ikey ip). rewrite Hk.
      destruct (decide (k = (dev, inum))) as [->|Hne].
      * rewrite !bool_decide_eq_true_2 by (split; (done || lia)). lia.
      * rewrite !bool_decide_eq_false_2 by naive_solver. lia.
    + intros j Hj. by rewrite list_lookup_insert_ne.
  - destruct Hscan as [Hno (ip & _ & Hi & Hz)]. rewrite Nat.sub_0_r in Hi.
    pose proof (refs_none _ _ Hno) as Hrefs.
    assert (Hrun : iget dev inum s = Ok (i, set_ic_lock 0 (set_inodes
              (<[i := set_slot dev inum ip]> (inodes s)) (set_ic_lock 1 s)))).
    { unfold iget, bind, modify, get. simpl. rewrite E. unfold on_inode, modify.
      rewrite (inode_insert (set_ic_lock 1 s) _ _ _ Hi). done. }
    rewrite Hrun. simpl. split_and!.
    + eapply icache_insert; [done..| |]; simpl; [lia|]. by right.
    + eexists. split; [by eapply list_lookup_insert_eq, lookup_lt_Some|].
      split; [done|]. simpl. split; [lia|done].
    + intros k. rewrite (refs_insert _ _ _ _ k Hi). simpl.
      change (ikey (set_slot _ _ ip)) with (dev, inum).
      rewrite (bool_decide_eq_false_2 (0 < i_ref ip ∧ _)) by lia.
      destruct (decide (k = (dev, inum))) as [->|Hne].
      * rewrite bool_decide_eq_true_2 by (split; (done || lia)). lia.
      * rewrite bool_decide_eq_false_2 by naive_solver. lia.
    + intros j Hj. by rewrite list_lookup_insert_ne.
  - destruct Hscan as [Hno Hfull].
    assert (Hrun : iget dev inum s = Panic "iget: no inodes")
      by (unfold iget, bind, modify, get; simpl; by rewrite E).
    rewrite Hrun. split; [done|]. split; [by apply refs_none|].
    intros j ip Hj. pose proof (ic_nonneg _ Hok j ip Hj). pose proof (Hfull j ip Hj).
    unfold in_use. lia.
Qed.

End icache.

(** An empty cache over the memory disk. *)
Definition inode0 : Inode :=
  mkInode 0 0 0 Bio.zero_lock 0 0 0 0 0 0 (replicate 13 0).
Definition fs0 : fstate (D := Memide.memdisk) :=
  mkFs (Log.boot Bio.disk0 1) sb_zero (Sync.mkSpin 0 EmptyString None)
       (replicate 50 inode0) [] None.

Lemma icache_ok_fs0 : icache_ok (inodes fs0).
Proof.
  assert (H : ∀ i ip, inodes fs0 !! i = Some ip → i_ref ip = 0).
  { intros i ip Hi. apply lookup_replicate in Hi as [-> _]. done. }
  split.
  - intros i ip Hi. rewrite (H _ _ Hi). lia.
  - intros i j ip jp Hi _ Hu. unfold in_use in Hu. rewrite (H _ _ Hi) in Hu. lia.
Qed.

Lemma iget_counts_references_witness :
  icache_ok (inodes fs0) ∧
  match iget 1 7 fs0 with
  | Ok (i, s') =>
      icache_ok (inodes s') ∧
      (∃ ip, inodes s' !! i = Some ip ∧ ikey ip = (1, 7) ∧
             i_ref ip = refs (inodes fs0) (1, 7) + 1 ∧
             (refs (inodes fs0) (1, 7) = 0 → is_valid ip = false)) ∧
      (∀ k, refs (inodes s') k = refs (inodes fs0) k + if decide (k = (1, 7)) then 1 else 0) ∧
      (∀ j, j ≠ i → inodes s' !! j = inodes fs0 !! j)
  | Panic e =>
      e = "iget: no inodes"%string ∧ refs (inodes fs0) (1, 7) = 0 ∧
      ∀ j ip, inodes fs0 !! j = Some ip → in_use ip
  | _ => False
  end.
Proof.
  split; [exact icache_ok_fs0|].
  apply (iget_counts_references fs0 1 7 icache_ok_fs0). vm_compute. reflexivity.
Defined.

End Icache.
