(* ===== verification/Txn.v ===== *)
(** * Blocks as a file-system operation sees them

    Between [begin_op] and [end_op] the file system reads blocks, changes the
    data of held ones and records the change with [log_write]. [tview] is the
    state of the blocks at that level: what each block holds, which ones are
    held, which have changes not recorded yet, and how many more blocks the
    log takes. [txn_abs] relates it to the log and the cache, and the lemmas
    give each primitive its meaning on it. *)

From S2P Require Import Prelude Param Sync Mem Disk Ring Bio Fsh Log.
Import Sync Bio Fsh Log.

Module Txn.

Record tview := mkT {
  tv_dev : Z;
  tv_ok : Z * Z → Prop;
  tv_v : Z * Z → list Z;
  tv_held : gmap nat (Z * Z);
  tv_open : gset (Z * Z);
  tv_left : nat;
}.

(** Log entries a transaction uses at most; it leaves three buffers. *)
Definition TXN_MAX : nat := 27.

Section txn.
Context {D : Type} `{!BlockDev D}.
Implicit Types s : lstate (D := D).

Record txn_rel (s : lstate (D := D)) (T : tview) (a : cache) (n : nat) : Prop := {
  tr_abs : bio_abs (lb s) a;
  tr_inv : txn_inv (lg s) n a;
  tr_dev : lg_dev (lg s) = tv_dev T ∧ 0 < tv_dev T < i32_hi;
  tr_room : (n + tv_left T ≤ TXN_MAX)%nat;
  tr_log : (0 < tv_left T)%nat → 1 ≤ lg_outstanding (lg s) ∧
             Z.of_nat (n + tv_left T) ≤ lg_size (lg s) - 1 ∧ lg_size (lg s) < i32_hi;
  tr_ok k : c_ok a k ↔ tv_ok T k;
  tr_view k : c_view a k = tv_v T k;
  tr_held : c_held a = tv_held T;
  tr_open i k : tv_held T !! i = Some k → k ∉ tv_open T → settled a k;
}.
Definition txn_abs (s : lstate (D := D)) (T : tview) : Prop := ∃ a n, txn_rel s T a n.

(** Abstract primitives. *)
Definition t_hold (i : nat) (k : Z * Z) (T : tview) : tview :=
  mkT (tv_dev T) (tv_ok T) (tv_v T) (<[i := k]> (tv_held T)) (tv_open T) (tv_left T).
Definition t_set (k : Z * Z) (d : list Z) (T : tview) : tview :=
  mkT (tv_dev T) (tv_ok T) (<[k := d]> (tv_v T)) (tv_held T) ({[k]} ∪ tv_open T) (tv_left T).
Definition t_log (k : Z * Z) (T : tview) : tview :=
  mkT (tv_dev T) (tv_ok T) (tv_v T) (tv_held T) (tv_open T ∖ {[k]}) (pred (tv_left T)).
Definition t_release (i : nat) (T : tview) : tview :=
  mkT (tv_dev T) (tv_ok T) (tv_v T) (delete i (tv_held T)) (tv_open T) (tv_left T).

Lemma view_length (b0 : bio (D := D)) a k : bio_abs b0 a → c_ok a k → length (c_view a k) = Z.to_nat BSIZE.
Proof.
  intros Ha Hk. destruct (decide (k ∈ c_dirty a)) as [Hd|Hd].
  { destruct (bs_dirty _ _ (ba_bufs _ _ Ha) _ Hd) as (i & b & Hi & E & <- & Hf).
    destruct (bs_ok _ _ (ba_bufs _ _ Ha) i b Hi E) as [Hl _ _ _ _ Hu _].
    destruct (Hu ltac:(by rewrite Hf)) as (_ & _ & <-). done. }
  destruct (decide (k ∈ (map_img (c_held a) : gset (Z * Z)))) as [Hh|Hh].
  - apply elem_of_map_img in Hh as [i Hi].
    destruct (held_buf _ _ _ _ Ha Hi) as (b & _ & _ & Hb & _ & <- & _). apply Hb.
  - rewrite (dk_view _ _ _ (ba_disk _ _ Ha)); [by eapply block_length|done|done|].
    intros i Hi. apply Hh. by eapply elem_of_map_img_2.
Qed.

Lemma txn_view_length s T k : txn_abs s T → tv_ok T k → length (tv_v T k) = Z.to_nat BSIZE.
Proof.
  intros (a & n & R) Hk. rewrite <- (tr_view _ _ _ _ R). eapply view_length; [apply R|].
  by apply (tr_ok _ _ _ _ R).
Qed.

Lemma dirty_size l n a : txn_inv l n a → (size (c_dirty a) ≤ n)%nat.
Proof.
  intros Hi. transitivity (size (list_to_set ((λ i, (lg_dev l, nth i (lh_block l) 0)) <$> seq 0 n)
    : gset (Z * Z))).
  - apply subseteq_size. intros k (i & Hlt & ->)%(ti_dirty _ _ _ Hi).
    apply elem_of_list_to_set, list_elem_of_fmap. exists i. split; [done|]. apply elem_of_seq. lia.
  - pose proof (size_list_to_set_le ((λ i, (lg_dev l, nth i (lh_block l) 0)) <$> seq 0 n)) as H.
    rewrite length_fmap, length_seq in H. done.
Qed.

Lemma in_use_size a : (size (in_use a) ≤ size (c_dirty a) + size (c_held a))%nat.
Proof.
  unfold in_use. rewrite size_union_alt.
  assert (H : (size (map_img (c_held a) ∖ c_dirty a : gset (Z * Z)) ≤ size (c_held a))%nat); [|lia].
  transitivity (size (map_img (c_held a) : gset (Z * Z))); [apply subseteq_size; set_solver|].
  induction (c_held a) as [|i k m Hm Hfirst IH] using map_first_key_ind.
  - by rewrite map_img_empty_L, size_empty.
  - rewrite map_size_insert_None by done.
    transitivity (size ({[k]} ∪ map_img m : gset (Z * Z))); [apply subseteq_size; apply map_img_insert_subseteq|].
    rewrite size_union_alt, size_singleton.
    assert ((size (map_img m ∖ {[k]} : gset (Z * Z)) ≤ size (map_img m : gset (Z * Z)))%nat); [|lia].
    apply subseteq_size. set_solver.
Qed.

(** ** What the primitives do *)

Lemma txn_hold s T a n i k :
  txn_rel s T a n → c_ok a k → (∀ j, c_held a !! j ≠ Some k) → c_held a !! i = None →
  ∀ s', bio_abs (lb s') (a_hold i k a) → lg s' = lg s →
  txn_rel s' (t_hold i k T) (a_hold i k a) n.
Proof.
  intros R Hk Hnh Hi s' Ha Hl. destruct R as [Ra Ri Rd Rr Rl Ro Rv Rh Rs]. split; simpl; rewrite ?Hl; try done.
  - destruct Ri as [I1 I2 I3 I4 I5]. by split.
  - by rewrite Rh.
  - intros j x. rewrite lookup_insert_Some, <- Rh. intros [[<- <-]|[_ Hj]] Hx.
    + destruct (unheld_settled _ _ _ Ra Hk Hnh) as [|]; [by left|by right].
    + rewrite Rh in Hj. destruct (Rs _ _ Hj Hx) as [|]; [by left|by right].
Qed.

Lemma t_read_spec s T bn :
  txn_abs s T → tv_ok T (tv_dev T, bn) → (∀ j, tv_held T !! j ≠ Some (tv_dev T, bn)) →
  (size (tv_held T) ≤ 2)%nat →
  wp (on_bio (bread (tv_dev T) bn)) s (λ i s',
    txn_abs s' (t_hold i (tv_dev T, bn) T) ∧ tv_held T !! i = None).
Proof.
  intros (a & n & R) Hk Hnh Hsz. pose proof R as [Ra Ri Rd Rr Rl Ro Rv Rh Rs].
  assert (Hnh' : ∀ j, c_held a !! j ≠ Some (tv_dev T, bn)) by (intros j; rewrite Rh; apply Hnh).
  apply wp_on_bio. eapply wp_mono.
  - eapply bread_spec; [done|lia|by apply Ro|done|]. right.
    pose proof (in_use_size a) as H1. pose proof (dirty_size _ _ _ Ri) as H2.
    rewrite Rh in H1. rewrite HEAD_eq. change (Z.to_nat NBUF) with 30%nat. unfold TXN_MAX in *. lia.
  - intros i b' (Hb & Hi & _). simpl. rewrite Rh in Hi. split; [|done].
    exists (a_hold i (tv_dev T, bn) a), n.
    eapply txn_hold; [exact R|by apply Ro|done|by rewrite Rh|done|done].
Qed.

Lemma t_data_spec s T i k (Q : Buf → lstate → Prop) :
  txn_abs s T → tv_held T !! i = Some k →
  (∀ b, key b = k → b_data b = tv_v T k → Q b s) → wp (on_bio (buf_at i)) s Q.
Proof.
  intros (a & n & R) Hi HQ. apply wp_on_bio. rewrite <- (tr_held _ _ _ _ R) in Hi.
  eapply held_data; [apply R|exact Hi|]. intros b Hk Hd. rewrite (tr_view _ _ _ _ R) in Hd.
  destruct s. by apply HQ.
Qed.

Lemma t_set_spec s T i k f :
  txn_abs s T → tv_held T !! i = Some k → length (f (tv_v T k)) = Z.to_nat BSIZE →
  wp (on_bio (on_buf i (λ b, set_data (f (b_data b)) b))) s (λ _ s',
    txn_abs s' (t_set k (f (tv_v T k)) T)).
Proof.
  intros (a & n & R) Hi Hl. pose proof R as [Ra Ri Rd Rr Rl Ro Rv Rh Rs].
  apply wp_on_bio. eapply wp_mono.
  - eapply set_data_spec; [done|by rewrite Rh|by rewrite Rv].
  - intros _ b' [Hb _]. exists (a_set k (f (c_view a k)) a), n. split; simpl; try done.
    + destruct Ri as [I1 I2 I3 I4 I5]. by split.
    + intros x. rewrite Rv. destruct (decide (x = k)) as [->|].
      * by rewrite !fn_lookup_insert.
      * by rewrite !fn_lookup_insert_ne.
    + intros j x Hj Hx. destruct (decide (x = k)) as [->|Hne]; [set_solver|].
      destruct (Rs j x Hj) as [|Hs]; [set_solver|by left|right]. simpl. by rewrite fn_lookup_insert_ne.
Qed.

Lemma log_write_ok s T i bno :
  txn_abs s T → tv_held T !! i = Some (tv_dev T, bno) → 0 ≤ bno < i32_hi → (0 < tv_left T)%nat →
  wp (log_write i) s (λ _ s', txn_abs s' (t_log (tv_dev T, bno) T)).
Proof.
  intros (a & n & R) Hi Hb Hleft. pose proof R as [Ra Ri Rd Rr Rl Ro Rv Rh Rs].
  destruct (Rl Hleft) as (Ho & Hs & Hs'). pose proof (ti_n _ _ _ Ri) as Hn.
  assert (Hn30 : (n < Z.to_nat LOGSIZE)%nat).
  { change (Z.to_nat LOGSIZE) with 30%nat. unfold TXN_MAX in Rr. lia. }
  unfold log_write. do 2 wp_step. wp_step. eapply wp_eq.
  { apply (txn_full_spec s n); [done|]. unfold i32_lo, i32_hi in *. lia. }
  cbv beta. rewrite (proj2 (Z.leb_gt _ _)) by (change LOGSIZE with 30 in *; lia).
  rewrite (proj2 (Z.leb_gt (lg_size (lg s) - 1) _)) by lia. cbn [orb].
  rewrite (proj2 (Z.ltb_ge _ _)) by lia.
  eapply wp_mono; [eapply log_record_spec; eauto; rewrite Rh; rewrite (proj1 Rd); done|].
  intros _ s' (Hab & Hlg & Hinv). rewrite (proj1 Rd) in *.
  exists (a_pin (tv_dev T, bno) a), (if decide ((tv_dev T, bno) ∈ c_dirty a) then n else S n).
  split; simpl; try done.
  - rewrite Hlg. done.
  - destruct (decide _); lia.
  - intros Hl. destruct Rl as (? & ? & ?); [lia|]. rewrite Hlg. simpl. destruct (decide _); lia.
  - intros j x Hj Hx. destruct (decide (x = (tv_dev T, bno))) as [->|Hne].
    + left. simpl. set_solver.
    + destruct (Rs j x Hj) as [|Hset]; [set_solver| |].
      * left. simpl. set_solver.
      * by right.
Qed.

Lemma t_release_spec s T i k :
  txn_abs s T → tv_held T !! i = Some k → k ∉ tv_open T →
  wp (on_bio (brelse i)) s (λ _ s', txn_abs s' (t_release i T)).
Proof.
  intros (a & n & R) Hi Hk. pose proof R as [Ra Ri Rd Rr Rl Ro Rv Rh Rs].
  apply wp_on_bio. eapply wp_mono.
  - eapply brelse_spec; [done|by rewrite Rh|by eapply Rs].
  - intros _ b' [Hb _]. exists (a_release i a), n. split; simpl; try done.
    + destruct Ri as [I1 I2 I3 I4 I5]. by split.
    + by rewrite Rh.
    + intros j x [_ Hj]%lookup_delete_Some Hx. destruct (Rs j x Hj Hx) as [|]; [by left|by right].
Qed.

End txn.
End Txn.
