(* ===== verification/FsBlocks.v ===== *)
(** * Block allocation

    [balloc] and [bfree] of crates/fs/src/fs.rs against the free bitmap: the
    first free block is taken, marked and zeroed, freeing clears exactly its
    bit, and a full disk or a double free panics. The first part lifts the
    block primitives to the file-system state. *)

From S2P Require Import Prelude Param Sync Mem Disk Ring Bio Fsh Log Fs Txn.
Import Sync Bio Fsh Log Fs Txn.

Module FsBlocks.

(** Replacing block [k] by [d] in one logged step. *)
Definition t_upd (k : Z * Z) (d : list Z) (T : tview) : tview :=
  mkT (tv_dev T) (tv_ok T) (<[k := d]> (tv_v T)) (tv_held T) (tv_open T) (pred (tv_left T)).

(** A block that is on the disk and not held. *)
Definition t_free (T : tview) (k : Z * Z) : Prop :=
  tv_ok T k ∧ ∀ j, tv_held T !! j ≠ Some k.

Lemma t_release_hold i k T : tv_held T !! i = None → t_release i (t_hold i k T) = T.
Proof. intros H. destruct T. unfold t_release, t_hold. simpl in *. by rewrite delete_insert_id. Qed.

Lemma t_log_set i k d T :
  tv_held T !! i = None → tv_open T = ∅ →
  t_release i (t_log k (t_set k d (t_hold i k T))) = t_upd k d T.
Proof.
  intros H Ho. destruct T. unfold t_release, t_log, t_set, t_hold, t_upd. simpl in *.
  rewrite delete_insert_id by done. f_equal. set_solver.
Qed.

Section blocks.
Context {D : Type} `{!BlockDev D}.
Implicit Types s : fstate (D := D).

Definition set_fl (l : lstate (D := D)) (s : fstate (D := D)) : fstate (D := D) :=
  mkFs l (SB s) (ic_lock s) (inodes s) (iwakes s) (cwd s).
Definition fs_abs (s : fstate (D := D)) (T : tview) : Prop := txn_abs (fl s) T.

Lemma set_fl_same s : set_fl (fl s) s = s.
Proof. by destruct s. Qed.

Lemma wp_on_l {A} (m : M lstate A) s (Q : A → fstate → Prop) :
  wp m (fl s) (λ a l, Q a (set_fl l s)) → wp (on_l m) s Q.
Proof. apply wp_zoom. Qed.

Lemma fs_read s T bn (Q : nat → fstate → Prop) :
  fs_abs s T → t_free T (tv_dev T, bn) → (size (tv_held T) ≤ 2)%nat →
  (∀ i l, txn_abs l (t_hold i (tv_dev T, bn) T) → tv_held T !! i = None → Q i (set_fl l s)) →
  wp (on_b (read (tv_dev T) bn)) s Q.
Proof.
  intros Ha [Hk Hn] Hs HQ. apply wp_on_l. eapply wp_mono; [by apply t_read_spec|].
  intros i l [Hl Hi]. auto.
Qed.

Lemma fs_data s T i k (Q : Buf → fstate → Prop) :
  fs_abs s T → tv_held T !! i = Some k →
  (∀ b, key b = k → b_data b = tv_v T k → Q b s) → wp (on_b (buf_at i)) s Q.
Proof.
  intros Ha Hi HQ. apply wp_on_l. eapply t_data_spec; [exact Ha|exact Hi|].
  intros b Hk Hd. rewrite set_fl_same. auto.
Qed.

Lemma fs_release s T i k (Q : unit → fstate → Prop) :
  fs_abs s (t_hold i k T) → tv_held T !! i = None → tv_open T = ∅ →
  (∀ l, txn_abs l T → Q tt (set_fl l s)) → wp (on_b (release_buf i)) s Q.
Proof.
  intros Ha Hi Ho HQ. apply wp_on_l.
  eapply wp_mono; [apply (t_release_spec _ _ _ k Ha); simpl; [apply lookup_insert_eq|set_solver]|].
  intros [] l Hl. rewrite t_release_hold in Hl by done. auto.
Qed.

(** A held block is changed, logged and given back. *)
Lemma fs_update s T i bn f (Q : unit → fstate → Prop) :
  fs_abs s (t_hold i (tv_dev T, bn) T) → tv_held T !! i = None → tv_open T = ∅ →
  0 ≤ bn < i32_hi → (0 < tv_left T)%nat → length (f (tv_v T (tv_dev T, bn))) = Z.to_nat BSIZE →
  (∀ l, txn_abs l (t_upd (tv_dev T, bn) (f (tv_v T (tv_dev T, bn))) T) → Q tt (set_fl l s)) →
  wp (on_b (on_buf i (λ b, set_data (f (b_data b)) b)) ;;;
      on_l (log_write i) ;;;
      on_b (release_buf i)) s Q.
Proof.
  intros Ha Hi Ho Hb Hleft Hlen HQ. set (k := (tv_dev T, bn)) in *.
  assert (Hik : tv_held (t_hold i k T) !! i = Some k) by apply lookup_insert_eq.
  wp_step. apply wp_on_l. eapply wp_mono; [by apply (t_set_spec _ _ _ _ f Ha Hik)|].
  intros ? l1 H1. cbv beta in H1 |- *. wp_step. apply wp_on_l.
  eapply wp_mono; [by apply (log_write_ok _ _ i bn H1)|]. intros ? l2 H2. cbv beta in H2 |- *.
  apply wp_on_l. eapply wp_mono; [apply (t_release_spec _ _ i k H2); [done|simpl; set_solver]|].
  intros [] l3 H3. change (tv_dev (t_set _ _ _), bn) with k in H3. rewrite t_log_set in H3 by done. apply HQ. exact H3.
Qed.

Lemma fs_update_then {A} s T i bn f (rest : M fstate A) (Q : A → fstate → Prop) :
  fs_abs s (t_hold i (tv_dev T, bn) T) → tv_held T !! i = None → tv_open T = ∅ →
  0 ≤ bn < i32_hi → (0 < tv_left T)%nat → length (f (tv_v T (tv_dev T, bn))) = Z.to_nat BSIZE →
  (∀ l, txn_abs l (t_upd (tv_dev T, bn) (f (tv_v T (tv_dev T, bn))) T) → wp rest (set_fl l s) Q) →
  wp (on_b (on_buf i (λ b, set_data (f (b_data b)) b)) ;;;
      on_l (log_write i) ;;;
      on_b (release_buf i) ;;; rest) s Q.
Proof.
  intros Ha Hi Ho Hb Hleft Hlen HQ.
  pose proof (fs_update s T i bn f (λ _ s', wp rest s' Q) Ha Hi Ho Hb Hleft Hlen HQ) as H.
  apply wp_bind. apply wp_bind_inv in H. eapply wp_mono; [exact H|]. cbv beta. intros _ s1 H1.
  apply wp_bind. apply wp_bind_inv in H1. eapply wp_mono; [exact H1|]. cbv beta. intros _ s2 H2.
  by apply wp_bind.
Qed.

(** ** The bitmap *)

Definition bm_key (dv : Z) (sb : Superblock) (b : Z) : Z * Z := (dv, b / BPB + sb_bmapstart sb).
Definition allocated (dv : Z) (sb : Superblock) (v : Z * Z → list Z) (b : Z) : bool :=
  bit_set (v (bm_key dv sb b)) (b mod BPB).

(** The bitmap and the blocks it describes lie on the disk, block numbers fit
    a log entry, bitmap blocks are not held, and a free block is neither held
    nor part of the bitmap. *)
Record bm_layout (sb : Superblock) (T : tview) : Prop := {
  bl_size : 0 ≤ sb_size sb < i32_hi;
  bl_start : 0 ≤ sb_bmapstart sb ∧ sb_size sb / BPB + sb_bmapstart sb < i32_hi;
  bl_map b : 0 ≤ b < sb_size sb → t_free T (bm_key (tv_dev T) sb b);
  bl_block b : 0 ≤ b < sb_size sb → allocated (tv_dev T) sb (tv_v T) b = false →
    t_free T (tv_dev T, b) ∧
    ∀ b', 0 ≤ b' < sb_size sb → bm_key (tv_dev T) sb b' ≠ (tv_dev T, b);
}.

Definition mark_bit (bi : Z) (d : list Z) : list Z :=
  <[byte_of bi := Z.lor (nth (byte_of bi) d 0) (bit_of bi)]> d.
Definition clear_bit (bi : Z) (d : list Z) : list Z :=
  <[byte_of bi := Z.ldiff (nth (byte_of bi) d 0) (bit_of bi)]> d.
Definition zeros : list Z := replicate (Z.to_nat BSIZE) 0.

(** What [balloc] returning [b] and [bfree] of [b] do to the blocks. *)
Definition t_balloc (sb : Superblock) (b : Z) (T : tview) : tview :=
  let k := bm_key (tv_dev T) sb b in
  t_upd (tv_dev T, b) zeros (t_upd k (mark_bit (b mod BPB) (tv_v T k)) T).
Definition t_bfree (sb : Superblock) (b : Z) (T : tview) : tview :=
  let k := bm_key (tv_dev T) sb b in
  t_upd k (clear_bit (b mod BPB) (tv_v T k)) T.

Lemma land_bit x j : 0 ≤ j → negb (Z.land x (Z.shiftl 1 j) =? 0) = Z.testbit x j.
Proof.
  intros Hj. rewrite Z.shiftl_1_l. destruct (Z.testbit x j) eqn:E.
  - apply negb_true_iff, Z.eqb_neq. intros H. assert (Z.testbit (Z.land x (2 ^ j)) j = false) as H'.
    { rewrite H. apply Z.bits_0. }
    rewrite Z.land_spec, E, Z.pow2_bits_true in H' by done. done.
  - apply negb_false_iff, Z.eqb_eq, Z.bits_inj_0. intros i.
    rewrite Z.land_spec, Z.pow2_bits_eqb by done. destruct (Z.eqb_spec j i) as [->|]; [by rewrite E|].
    apply andb_false_r.
Qed.

Lemma bit_set_testbit d bi : bit_set d bi = Z.testbit (nth (byte_of bi) d 0) (bi mod 8).
Proof. unfold bit_set, bit_of. apply land_bit. apply Z.mod_pos_bound. lia. Qed.

Lemma bit_pos_inj bi bj :
  0 ≤ bi → 0 ≤ bj → byte_of bi = byte_of bj → bi mod 8 = bj mod 8 → bi = bj.
Proof. unfold byte_of. intros. Z.to_euclidean_division_equations. lia. Qed.

(** Setting or clearing bit [bi] changes that bit only. *)
Lemma bit_update (g : bool → bool) (op : Z → Z → Z) d bi bj :
  (∀ x j i, 0 ≤ j → Z.testbit (op x (2 ^ j)) i = if j =? i then g (Z.testbit x i) else Z.testbit x i) →
  0 ≤ bi → 0 ≤ bj → (byte_of bi < length d)%nat →
  bit_set (<[byte_of bi := op (nth (byte_of bi) d 0) (bit_of bi)]> d) bj =
  if bi =? bj then g (bit_set d bj) else bit_set d bj.
Proof.
  intros Hop Hi Hj Hl. rewrite !bit_set_testbit.
  pose proof (Z.mod_pos_bound bi 8 ltac:(lia)) as Hm.
  rewrite nth_insert_list by done. unfold bit_of. rewrite Z.shiftl_1_l.
  destruct (decide (byte_of bi = byte_of bj)) as [E|E].
  - rewrite Hop by lia. rewrite <- E. destruct (Z.eqb_spec bi bj) as [->|Hne].
    + by rewrite Z.eqb_refl.
    + rewrite (proj2 (Z.eqb_neq _ _)); [done|]. intros E'. by apply Hne, bit_pos_inj.
  - rewrite (proj2 (Z.eqb_neq _ _)); [done|]. by intros ->.
Qed.

Lemma mark_bit_spec d bi bj :
  0 ≤ bi → 0 ≤ bj → (byte_of bi < length d)%nat →
  bit_set (mark_bit bi d) bj = if bi =? bj then true else bit_set d bj.
Proof.
  intros. apply (bit_update (λ _, true)); try done. intros x j i Hj.
  rewrite Z.lor_spec, Z.pow2_bits_eqb by done. destruct (j =? i); [apply orb_true_r|apply orb_false_r].
Qed.

Lemma clear_bit_spec d bi bj :
  0 ≤ bi → 0 ≤ bj → (byte_of bi < length d)%nat →
  bit_set (clear_bit bi d) bj = if bi =? bj then false else bit_set d bj.
Proof.
  intros. apply (bit_update (λ _, false)); try done. intros x j i Hj.
  rewrite Z.ldiff_spec, Z.pow2_bits_eqb by done. destruct (j =? i); [apply andb_false_r|apply andb_true_r].
Qed.

Lemma byte_in_block b : (byte_of (b mod BPB) < Z.to_nat BSIZE)%nat.
Proof.
  unfold byte_of. change BPB with 4096. change BSIZE with 512.
  pose proof (Z.mod_pos_bound b 4096 ltac:(lia)). Z.to_euclidean_division_equations. lia.
Qed.

Lemma scan_bits_spec size b d fuel : ∀ bi,
  0 ≤ bi → BPB - bi ≤ Z.of_nat fuel →
  match scan_bits fuel size b bi d with
  | Some r => bi ≤ r < BPB ∧ b + r < size ∧ bit_set d r = false ∧
              ∀ j, bi ≤ j < r → bit_set d j = true
  | None => ∀ j, bi ≤ j < BPB → b + j < size → bit_set d j = true
  end.
Proof.
  induction fuel as [|fuel IH]; intros bi Hb Hf; [simpl; intros; lia|]. simpl.
  destruct (Z.leb_spec BPB bi); [intros; lia|].
  destruct (Z.leb_spec size (b + bi)); [intros; lia|].
  destruct (bit_set d bi) eqn:E.
  - specialize (IH (bi + 1) ltac:(lia) ltac:(lia)). destruct (scan_bits _ _ _ _ _) as [r|].
    + destruct IH as (H1 & H2 & H3 & H4). split_and!; [lia|lia|done|done|]. intros j Hj.
      destruct (decide (j = bi)) as [->|]; [done|]. apply H4. lia.
    + intros j Hj Hs. destruct (decide (j = bi)) as [->|]; [done|]. apply IH; lia.
  - split_and!; [lia|lia|done|done|]. intros j Hj. lia.
Qed.

Lemma bm_key_block dv sb b bi :
  b mod BPB = 0 → 0 ≤ bi < BPB → bm_key dv sb (b + bi) = bm_key dv sb b ∧ (b + bi) mod BPB = bi.
Proof.
  unfold bm_key. change BPB with 4096. intros. split; [do 2 f_equal|];
  Z.to_euclidean_division_equations; lia.
Qed.

Lemma bblock_spec s sb T b (Q : Z → fstate → Prop) :
  bm_layout sb T → 0 ≤ b < sb_size sb → Q (b / BPB + sb_bmapstart sb) s → wp (bblock b sb) s Q.
Proof.
  intros [_ [Hs He] _ _] Hb HQ. eapply wp_eq; [|exact HQ]. apply chk_u32_ok.
  assert (b / BPB ≤ sb_size sb / BPB) by (apply Z.div_le_mono; [done|lia]).
  assert (0 ≤ b / BPB) by (apply Z.div_pos; [lia|done]). unfold i32_hi, u32_max in *. lia.
Qed.

Lemma bm_block_range sb T b :
  bm_layout sb T → 0 ≤ b < sb_size sb → 0 ≤ b / BPB + sb_bmapstart sb < i32_hi.
Proof.
  intros [_ [Hs He] _ _] Hb.
  assert (b / BPB ≤ sb_size sb / BPB) by (apply Z.div_le_mono; [done|lia]).
  assert (0 ≤ b / BPB) by (apply Z.div_pos; [lia|done]). lia.
Qed.

Lemma bzero_spec s T b (Q : unit → fstate → Prop) :
  fs_abs s T → t_free T (tv_dev T, b) → tv_open T = ∅ → (size (tv_held T) ≤ 2)%nat →
  0 ≤ b < i32_hi → (0 < tv_left T)%nat →
  (∀ l, txn_abs l (t_upd (tv_dev T, b) zeros T) → Q tt (set_fl l s)) →
  wp (bzero (tv_dev T) b) s Q.
Proof.
  intros Ha Hf Ho Hs Hb Hl HQ. unfold bzero. wp_step. eapply fs_read; [done..|].
  intros i l H1 Hi. assert (Hlen : length (tv_v T (tv_dev T, b)) = Z.to_nat BSIZE).
  { eapply (txn_view_length (fl s)); [exact Ha|apply Hf]. }
  apply (fs_update _ T i b (λ d, replicate (length d) 0)); try done.
  - by rewrite length_replicate.
  - intros l2 H2. rewrite Hlen in H2. by apply HQ.
Qed.

Lemma mark_length bi d : length (mark_bit bi d) = length d.
Proof. apply length_insert. Qed.
Lemma clear_length bi d : length (clear_bit bi d) = length d.
Proof. apply length_insert. Qed.

(** The block found is taken from the bitmap and zeroed. *)
Lemma balloc_take s T i b r (Q : Z → fstate → Prop) :
  fs_abs s (t_hold i (bm_key (tv_dev T) (SB s) r) T) → tv_held T !! i = None →
  bm_layout (SB s) T → tv_open T = ∅ → (size (tv_held T) ≤ 2)%nat → (2 ≤ tv_left T)%nat →
  0 ≤ r < sb_size (SB s) → allocated (tv_dev T) (SB s) (tv_v T) r = false →
  b + r mod BPB = r →
  (∀ l, txn_abs l (t_balloc (SB s) r T) → Q r (set_fl l s)) →
  wp (let bi := r mod BPB in
      on_b (on_buf i (λ y, set_data (<[byte_of bi :=
              Z.lor (nth (byte_of bi) (b_data y) 0) (bit_of bi)]> (b_data y)) y)) ;;;
      on_l (log_write i) ;;;
      on_b (release_buf i) ;;;
      bzero (tv_dev T) (b + bi) ;;; ret (b + bi)) s Q.
Proof.
  intros Ha Hi Hl Ho Hh Hleft Hr Hfree Hbi HQ. cbv zeta. rewrite Hbi. pose proof Hl as [Hs _ _ _].
  destruct (bl_block _ _ Hl r Hr Hfree) as [[Hok Hnh] Hnb].
  assert (Hm : length (tv_v T (bm_key (tv_dev T) (SB s) r)) = Z.to_nat BSIZE).
  { apply (txn_view_length (fl s) (t_hold i (bm_key (tv_dev T) (SB s) r) T)); [exact Ha|].
    apply (bl_map _ _ Hl r Hr). }
  apply (fs_update_then s T i _ (mark_bit (r mod BPB)) _ Q Ha); try done; [by eapply bm_block_range|lia| |].
  - rewrite mark_length. exact Hm.
  - intros l H1. wp_step.
    eapply (bzero_spec (set_fl l s) (t_upd (bm_key (tv_dev T) (SB s) r) _ T) r);
      [exact H1|done|done|done|lia|simpl; lia|].
    intros l2 H2. apply wp_ret. apply HQ. exact H2.
Qed.

(** What an iteration of [balloc] does once it holds the bitmap block. *)
Definition balloc_body (fuel : nat) (dev b : Z) (buf : nat) (found : option Z) : M (fstate (D := D)) Z :=
  match found with
  | Some bi =>
      on_b (on_buf buf (λ y, set_data (<[byte_of bi :=
              Z.lor (nth (byte_of bi) (b_data y) 0) (bit_of bi)]> (b_data y)) y)) ;;;
      on_l (log_write buf) ;;;
      on_b (release_buf buf) ;;;
      bzero dev (b + bi) ;;;
      ret (b + bi)
  | None =>
      on_b (release_buf buf) ;;;
      let* b' := chk_u32 (b + BPB) in
      balloc_from fuel dev b'
  end.

Lemma balloc_iter s T b l fuel (P : outcome (Z * fstate) → Prop) :
  txn_abs l T → bm_layout (SB s) T → (size (tv_held T) ≤ 2)%nat → 0 ≤ b < sb_size (SB s) →
  (∀ i l1, txn_abs l1 (t_hold i (bm_key (tv_dev T) (SB s) b) T) → tv_held T !! i = None →
     P (balloc_body fuel (tv_dev T) b i
          (scan_bits (Z.to_nat BPB) (sb_size (SB s)) b 0 (tv_v T (bm_key (tv_dev T) (SB s) b)))
          (set_fl l1 s))) →
  P (balloc_from (S fuel) (tv_dev T) b (set_fl l s)).
Proof.
  intros Ha Hl Hh Hb HP. cbn [balloc_from]. apply (bind_via _ _ _ P), wp_get. cbn [SB set_fl].
  rewrite (proj2 (Z.ltb_lt _ _)) by lia. apply (bind_via _ _ _ P). eapply bblock_spec; [exact Hl|lia|].
  apply (bind_via _ _ _ P). eapply fs_read; [exact Ha|by apply (bl_map _ _ Hl)|done|]. intros i l1 H1 Hi.
  apply (bind_via _ _ _ P). eapply (fs_data _ _ i (bm_key (tv_dev T) (SB s) b)); [exact H1|apply lookup_insert_eq|].
  intros x _ Hx. rewrite Hx. by apply HP.
Qed.

Lemma balloc_next s T b l fuel i (P : outcome (Z * fstate) → Prop) :
  txn_abs l (t_hold i (bm_key (tv_dev T) (SB s) b) T) → tv_held T !! i = None → tv_open T = ∅ →
  0 ≤ b + BPB < u32_max →
  (∀ l1, txn_abs l1 T → P (balloc_from fuel (tv_dev T) (b + BPB) (set_fl l1 s))) →
  P (balloc_body fuel (tv_dev T) b i None (set_fl l s)).
Proof.
  intros Ha Hi Ho Hb HP. apply (bind_via _ _ _ P). eapply fs_release; [exact Ha|done|done|]. intros l1 H1.
  apply (bind_via _ _ _ P). eapply wp_eq; [by apply chk_u32_ok|]. by apply HP.
Qed.

(** From a bitmap block boundary on, [balloc] finds the first free block, or
    panics when there is none. *)
Lemma balloc_loop s T fuel : ∀ b l,
  txn_abs l T → bm_layout (SB s) T → tv_open T = ∅ → (size (tv_held T) ≤ 2)%nat →
  (2 ≤ tv_left T)%nat → 0 ≤ b → b mod BPB = 0 → (1 ≤ fuel)%nat →
  sb_size (SB s) - b ≤ BPB * (Z.of_nat fuel - 1) →
  (∀ r, b ≤ r < sb_size (SB s) → allocated (tv_dev T) (SB s) (tv_v T) r = false →
     (∀ j, b ≤ j < r → allocated (tv_dev T) (SB s) (tv_v T) j = true) →
     wp (balloc_from fuel (tv_dev T) b) (set_fl l s) (λ r' s',
       r' = r ∧ ∃ l', txn_abs l' (t_balloc (SB s) r T) ∧ s' = set_fl l' s)) ∧
  ((∀ j, b ≤ j < sb_size (SB s) → allocated (tv_dev T) (SB s) (tv_v T) j = true) →
   balloc_from fuel (tv_dev T) b (set_fl l s) = Panic "balloc: out of blocks").
Proof.
  induction fuel as [|fuel IH]; intros b l Ha Hl Ho Hh Hleft Hb Hm Hf Hfuel; [lia|].
  destruct (Z.ltb_spec b (sb_size (SB s))) as [Hlt|Hge].
  2: { split; [intros; lia|]. intros _. cbn [balloc_from]. unfold bind, get. cbn [SB set_fl].
       by rewrite (proj2 (Z.ltb_ge _ _)). }
  pose proof (scan_bits_spec (sb_size (SB s)) b (tv_v T (bm_key (tv_dev T) (SB s) b))
                (Z.to_nat BPB) 0 ltac:(lia) ltac:(lia)) as Hscan.
  assert (Hal : ∀ j, b ≤ j < b + BPB → allocated (tv_dev T) (SB s) (tv_v T) j =
                bit_set (tv_v T (bm_key (tv_dev T) (SB s) b)) (j - b) ∧ j mod BPB = j - b ∧
                bm_key (tv_dev T) (SB s) j = bm_key (tv_dev T) (SB s) b).
  { intros j Hj. unfold allocated. destruct (bm_key_block (tv_dev T) (SB s) b (j - b) Hm ltac:(lia)) as [E1 E2].
    replace (b + (j - b)) with j in * by lia. by rewrite E1, E2. }
  pose proof (bl_size _ _ Hl) as Hs. assert (HB : BPB = 4096) by done.
  assert (Hnext : 0 ≤ b + BPB < u32_max) by (change BPB with 4096; unfold i32_hi, u32_max in *; lia).
  assert (Hm' : (b + BPB) mod BPB = 0).
  { rewrite <- Hm. change BPB with (1 * 4096) at 1. apply Z_mod_plus_full. }
  assert (Hf' : (1 ≤ fuel)%nat) by (change BPB with 4096 in Hfuel; lia).
  assert (Hfuel' : sb_size (SB s) - (b + BPB) ≤ BPB * (Z.of_nat fuel - 1)) by lia.
  split.
  - intros r Hr Hfr Hbefore. unfold wp. apply (balloc_iter s T b l fuel); [done|done|done|lia|].
    intros i l1 H1 Hi. destruct (scan_bits _ _ _ _ _) as [bi|].
    + destruct Hscan as (Hbi & Hsz & Hclr & Hpre).
      destruct (Hal (b + bi) ltac:(lia)) as (Ha1 & Ha2 & Ha3).
      replace (b + bi - b) with bi in * by lia. rewrite Hclr in Ha1.
      assert (Hbr : b + bi = r).
      { destruct (Z.lt_trichotomy (b + bi) r) as [H|[H|H]]; [|done|].
        - rewrite Hbefore in Ha1 by lia. done.
        - destruct (Hal r ltac:(lia)) as (E & _ & _). rewrite Hpre, Hfr in E by lia. done. }
      rewrite Hbr in *. rewrite <- Ha2. rewrite <- Ha3 in H1. unfold balloc_body.
      eapply (balloc_take (set_fl l1 s) T i b r); try done; cbn [SB set_fl]; [lia..|].
      intros l2 H2. split; [done|]. by exists l2.
    + assert (Hge : b + BPB ≤ r).
      { destruct (Z.ltb_spec r (b + BPB)); [|lia].
        destruct (Hal r ltac:(lia)) as (E & _ & _). rewrite Hscan, Hfr in E by lia. done. }
      apply (balloc_next s T b l1 fuel i); [done..|]. intros l2 H2.
      destruct (IH (b + BPB) l2 H2 Hl Ho Hh Hleft (proj1 Hnext) Hm' Hf' Hfuel') as [HI _].
      apply HI; [lia|done|]. intros j Hj. apply Hbefore. lia.
  - intros Hall. apply (balloc_iter s T b l fuel); [done|done|done|lia|].
    intros i l1 H1 Hi. destruct (scan_bits _ _ _ _ _) as [bi|].
    + destruct Hscan as (Hbi & Hsz & Hclr & _). destruct (Hal (b + bi) ltac:(lia)) as (E & _ & _).
      replace (b + bi - b) with bi in E by lia. rewrite Hclr, Hall in E by lia. done.
    + apply (balloc_next s T b l1 fuel i); [done..|]. intros l2 H2.
      destruct (IH (b + BPB) l2 H2 Hl Ho Hh Hleft (proj1 Hnext) Hm' Hf' Hfuel') as [_ HI].
      apply HI. intros j Hj. apply Hall. lia.
Qed.

(** ** [balloc] *)

Lemma balloc_bits sb T r j :
  bm_layout sb T → 0 ≤ r < sb_size sb → allocated (tv_dev T) sb (tv_v T) r = false →
  length (tv_v T (bm_key (tv_dev T) sb r)) = Z.to_nat BSIZE → 0 ≤ j < sb_size sb →
  allocated (tv_dev T) sb (tv_v (t_balloc sb r T)) j =
  (r =? j) || allocated (tv_dev T) sb (tv_v T) j.
Proof.
  intros Hl Hr Hf Hlen Hj. destruct (bl_block _ _ Hl r Hr Hf) as [_ Hnb].
  unfold allocated, t_balloc. cbn [tv_v t_upd]. change (tv_dev (t_upd _ _ _)) with (tv_dev T).
  rewrite fn_lookup_insert_ne by (by apply not_eq_sym, Hnb).
  destruct (decide (bm_key (tv_dev T) sb r = bm_key (tv_dev T) sb j)) as [E|E].
  - rewrite <- E, fn_lookup_insert. rewrite mark_bit_spec.
    + destruct (Z.eqb_spec r j) as [->|Hne]; [by rewrite Z.eqb_refl|].
      rewrite (proj2 (Z.eqb_neq _ _)); [done|]. intros Em. apply Hne.
      unfold bm_key in E. injection E as E. change BPB with 4096 in *.
      Z.to_euclidean_division_equations. lia.
    + by apply Z.mod_pos_bound.
    + by apply Z.mod_pos_bound.
    + rewrite Hlen. apply byte_in_block.
  - rewrite fn_lookup_insert_ne by done. rewrite (proj2 (Z.eqb_neq _ _)); [done|]. by intros ->.
Qed.

(** C22: [balloc] returns the first block whose bitmap bit is clear. That
    block becomes the only newly allocated one and holds zeroes; both changes
    go through the log. With no clear bit below the file-system size it
    panics. *)
Theorem balloc_first_free (s : fstate (D := D)) (T : tview)
    (Habs : fs_abs s T) (Hlay : bm_layout (SB s) T) (Hopen : tv_open T = ∅)
    (Hheld : (size (tv_held T) ≤ 2)%nat) (Hleft : (2 ≤ tv_left T)%nat) :
  let al T' b := allocated (tv_dev T) (SB s) (tv_v T') b in
  (∀ r, 0 ≤ r < sb_size (SB s) → al T r = false → (∀ j, 0 ≤ j < r → al T j = true) →
     wp (balloc (tv_dev T)) s (λ r' s', r' = r ∧ ∃ l T',
       s' = set_fl l s ∧ fs_abs s' T' ∧ tv_left T' = (tv_left T - 2)%nat ∧
       tv_v T' (tv_dev T, r) = zeros ∧
       (∀ j, 0 ≤ j < sb_size (SB s) → al T' j = (r =? j) || al T j) ∧
       (∀ k, k ≠ (tv_dev T, r) → k ≠ bm_key (tv_dev T) (SB s) r → tv_v T' k = tv_v T k))) ∧
  ((∀ j, 0 ≤ j < sb_size (SB s) → al T j = true) →
   balloc (tv_dev T) s = Panic "balloc: out of blocks").
Proof.
  cbv zeta. pose proof (bl_size _ _ Hlay) as Hs.
  destruct (balloc_loop s T (S (S (Z.to_nat (sb_size (SB s) / BPB)))) 0 (fl s)) as [Hok Hno]; try done.
  { lia. }
  { change BPB with 4096. Z.to_euclidean_division_equations. lia. }
  rewrite set_fl_same in *. split; [|exact Hno].
  intros r Hr Hf Hpre. eapply wp_mono; [exact (Hok r Hr Hf Hpre)|].
  intros r' s' (-> & l & Hl & ->). split; [done|]. exists l, (t_balloc (SB s) r T).
  split_and!; [done|exact Hl|simpl; lia|apply fn_lookup_insert| |].
  - intros j Hj. apply balloc_bits; try done. eapply (txn_view_length (fl s)); [exact Habs|].
    by apply (bl_map _ _ Hlay).
  - intros k H1 H2. simpl. by rewrite !fn_lookup_insert_ne by done.
Qed.

(** ** [bfree] *)

Lemma on_b_bind {A B} (m : M bio A) (k : A → M bio B) s :
  on_b (bind m k) s = bind (on_b m) (λ a, on_b (k a)) s.
Proof.
  unfold on_b, on_l, on_bio, zoom, bind. by destruct (m (lb (fl s))) as [[a b]|e| |].
Qed.

Lemma wp_on_b_bind {A B} (m : M bio A) (k : A → M bio B) s (Q : B → fstate → Prop) :
  wp (on_b m) s (λ a s', wp (on_b (k a)) s' Q) → wp (on_b (bind m k)) s Q.
Proof. intros H. unfold wp. rewrite on_b_bind. by apply wp_bind in H. Qed.

Lemma wp_on_b_ret {A} (a : A) s (Q : A → fstate → Prop) : Q a s → wp (on_b (ret a)) s Q.
Proof. destruct s as [[]]. done. Qed.

(** The super block on the device. *)
Definition disk_sb (T : tview) : Superblock := dec_sb (take sizeof_sb (tv_v T (tv_dev T, 1))).

Lemma dev_range s T : fs_abs s T → 0 < tv_dev T < i32_hi.
Proof. intros (a & n & R). apply R. Qed.

Lemma fs_readsb s T (Q : Superblock → fstate → Prop) :
  fs_abs s T → t_free T (tv_dev T, 1) → tv_open T = ∅ → (size (tv_held T) ≤ 2)%nat →
  (∀ l, txn_abs l T → Q (disk_sb T) (set_fl l s)) →
  wp (on_b (readsb (as_i32 (tv_dev T)))) s Q.
Proof.
  intros Ha Hf Ho Hh HQ. pose proof (dev_range s T Ha) as Hd.
  assert (E : as_u32 (as_i32 (tv_dev T)) = tv_dev T).
  { unfold as_u32, as_i32, u32_max, i32_hi in *. rewrite (Z.mod_small (tv_dev T)) by lia.
    rewrite (proj2 (Z.ltb_lt _ _)) by lia. apply Z.mod_small. lia. }
  unfold readsb. rewrite E. apply wp_on_b_bind. eapply fs_read; [done..|]. intros i l H1 Hi.
  apply wp_on_b_bind. eapply (fs_data _ _ i (tv_dev T, 1)); [exact H1|apply lookup_insert_eq|].
  intros x _ Hx. apply wp_on_b_bind. eapply fs_release; [exact H1|done|done|]. intros l2 H2.
  apply wp_on_b_ret. rewrite Hx. by apply HQ.
Qed.

Lemma bfree_bits sb T b j :
  0 ≤ b → 0 ≤ j → length (tv_v T (bm_key (tv_dev T) sb b)) = Z.to_nat BSIZE →
  allocated (tv_dev T) sb (tv_v (t_bfree sb b T)) j =
  negb (b =? j) && allocated (tv_dev T) sb (tv_v T) j.
Proof.
  intros Hb Hj Hlen. unfold allocated, t_bfree. cbn [tv_v t_upd].
  destruct (decide (bm_key (tv_dev T) sb b = bm_key (tv_dev T) sb j)) as [E|E].
  - rewrite <- E, fn_lookup_insert. rewrite clear_bit_spec.
    + destruct (Z.eqb_spec b j) as [->|Hne]; [by rewrite Z.eqb_refl|].
      rewrite (proj2 (Z.eqb_neq _ _)); [done|]. intros Em. apply Hne.
      unfold bm_key in E. injection E as E. change BPB with 4096 in *.
      Z.to_euclidean_division_equations. lia.
    + by apply Z.mod_pos_bound.
    + by apply Z.mod_pos_bound.
    + rewrite Hlen. apply byte_in_block.
  - rewrite fn_lookup_insert_ne by done. rewrite (proj2 (Z.eqb_neq _ _)); [done|]. by intros ->.
Qed.

(** [bfree] up to the test of the block's bit. *)
Lemma bfree_iter s T b (P : outcome (unit * fstate) → Prop) :
  fs_abs s T → bm_layout (SB s) T → tv_open T = ∅ → (size (tv_held T) ≤ 2)%nat →
  t_free T (tv_dev T, 1) → disk_sb T = SB s → 0 ≤ b < sb_size (SB s) →
  (∀ i l, txn_abs l (t_hold i (bm_key (tv_dev T) (SB s) b) T) → tv_held T !! i = None →
     P ((if negb (allocated (tv_dev T) (SB s) (tv_v T) b) then panic "freeing free block"
         else
           on_b (on_buf i (λ y, set_data (clear_bit (b mod BPB) (b_data y)) y)) ;;;
           on_l (log_write i) ;;;
           on_b (release_buf i)) (set_fl l s))) →
  P (bfree (tv_dev T) b s).
Proof.
  intros Ha Hl Ho Hh Hsb Hd Hb HP. unfold bfree. apply (bind_via _ _ _ P).
  eapply fs_readsb; [done..|]. intros l0 H0. apply (bind_via _ _ _ P). apply wp_modify.
  rewrite Hd. apply (bind_via _ _ _ P). apply wp_get. cbn [SB set_SB].
  apply (bind_via _ _ _ P). eapply bblock_spec; [exact Hl|lia|].
  apply (bind_via _ _ _ P). eapply (fs_read _ T); [exact H0|by apply (bl_map _ _ Hl)|done|].
  intros i l1 H1 Hi. apply (bind_via _ _ _ P).
  eapply (fs_data _ _ i (bm_key (tv_dev T) (SB s) b)); [exact H1|apply lookup_insert_eq|].
  intros x _ Hx. rewrite Hx. by apply HP.
Qed.

(** C23: [bfree] of an allocated block clears its bitmap bit, changes no other
    bit and no block outside the bitmap; of a free block it panics. *)
Theorem bfree_clears_bit (s : fstate (D := D)) (T : tview) (b : Z)
    (Habs : fs_abs s T) (Hlay : bm_layout (SB s) T) (Hopen : tv_open T = ∅)
    (Hheld : (size (tv_held T) ≤ 2)%nat) (Hleft : (1 ≤ tv_left T)%nat)
    (Hone : t_free T (tv_dev T, 1)) (Hsb : disk_sb T = SB s) (Hb : 0 ≤ b < sb_size (SB s)) :
  let al T' j := allocated (tv_dev T) (SB s) (tv_v T') j in
  (al T b = true →
   wp (bfree (tv_dev T) b) s (λ _ s', ∃ l T',
     s' = set_fl l s ∧ fs_abs s' T' ∧ tv_left T' = (tv_left T - 1)%nat ∧
     (∀ j, 0 ≤ j < sb_size (SB s) → al T' j = negb (b =? j) && al T j) ∧
     (∀ k, k ≠ bm_key (tv_dev T) (SB s) b → tv_v T' k = tv_v T k))) ∧
  (al T b = false → bfree (tv_dev T) b s = Panic "freeing free block").
Proof.
  cbv zeta. split; intros Hal.
  - unfold wp. apply (bfree_iter s T b); [done..|]. intros i l H1 Hi. rewrite Hal. cbn [negb].
    assert (Hlen : length (tv_v T (bm_key (tv_dev T) (SB s) b)) = Z.to_nat BSIZE).
    { eapply (txn_view_length (fl s)); [exact Habs|]. by apply (bl_map _ _ Hlay). }
    apply (fs_update (set_fl l s) T i (b / BPB + sb_bmapstart (SB s)) (clear_bit (b mod BPB))); try done.
    + by eapply bm_block_range.
    + rewrite clear_length. exact Hlen.
    + intros l2 H2. exists l2, (t_bfree (SB s) b T).
      split_and!; [done|exact H2|simpl; lia| |].
      * intros j Hj. apply bfree_bits; (done || lia).
      * intros k Hk. simpl. by rewrite fn_lookup_insert_ne.
  - apply (bfree_iter s T b); [done..|]. intros i l H1 Hi. by rewrite Hal.
Qed.

End blocks.

(** ** Witnesses: mkfs's layout with blocks 0 to 63 in use *)

Definition disk2 : Memide.memdisk :=
  Memide.ideinit (Mem.store_bytes 512 (enc_sb sb0)
                    (Mem.store_bytes (58 * 512) (replicate 8 255) (λ _, 0))) (2000 * BSIZE).
Definition T2 : tview :=
  mkT 1 (c_ok (cache_empty disk2)) (c_view (cache_empty disk2)) ∅ ∅ 5.
Definition fs2 (b : bio (D := Memide.memdisk)) : fstate (D := Memide.memdisk) :=
  mkFs (mkL log0 b []) sb0 (mkSpin 0 EmptyString None) [] [] None.

Lemma fs2_abs : ∃ b, fs_abs (fs2 b) T2.
Proof.
  destruct (proj1 (wp_ok _ _ _) (binit_abs disk2 1)) as (u0 & b & _ & Ha & _).
  exists b, (cache_empty disk2), 0%nat. split; try done.
  - split; [done|done|intros; lia| |intros; lia]. intros k. split; [set_solver|]. intros (i & ? & _). lia.
  - vm_compute. lia.
Qed.

Lemma disk2_free_from_64 b :
  0 ≤ b < 2000 → allocated 1 sb0 (c_view (cache_empty disk2)) b = false → 64 ≤ b.
Proof.
  intros Hb Hf. destruct (Z.leb_spec 64 b) as [|Hlt]; [done|].
  assert (Hall : forallb (allocated 1 sb0 (c_view (cache_empty disk2))) (seqZ 0 64) = true)
    by (vm_compute; reflexivity).
  rewrite forallb_forall in Hall. rewrite Hall in Hf; [done|]. apply list_elem_of_In, elem_of_seqZ. lia.
Qed.

Lemma disk2_ok bn : 0 ≤ bn < 2000 → t_free T2 (1, bn).
Proof. intros H. split; [split; [done|exact H]|done]. Qed.

Lemma disk2_layout : bm_layout sb0 T2.
Proof.
  assert (Hk : ∀ b, 0 ≤ b < 2000 → bm_key 1 sb0 b = (1, 58)).
  { intros b Hb. unfold bm_key. change BPB with 4096. by rewrite Z.div_small by lia. }
  split.
  - vm_compute. split; congruence.
  - vm_compute. split; congruence.
  - intros b Hb. change (tv_dev T2) with 1. rewrite Hk by exact Hb. by apply disk2_ok.
  - intros b Hb Hf. apply disk2_free_from_64 in Hf; [|exact Hb]. split; [by apply disk2_ok|].
    intros b' Hb'. change (tv_dev T2) with 1. rewrite Hk by exact Hb'. intros [= E]. lia.
Qed.

Lemma balloc_first_free_witness :
  ∃ s : fstate (D := Memide.memdisk), fs_abs s T2 ∧
    wp (balloc 1) s (λ r s', r = 64 ∧ ∃ T', fs_abs s' T' ∧ tv_v T' (1, 64) = zeros).
Proof.
  destruct fs2_abs as [b Ha]. exists (fs2 b). split; [exact Ha|].
  destruct (balloc_first_free (fs2 b) T2 Ha disk2_layout eq_refl ltac:(vm_compute; lia)
    ltac:(vm_compute; lia)) as [Hok _].
  eapply wp_mono; [apply (Hok 64)|].
  - vm_compute. split; congruence.
  - vm_compute. reflexivity.
  - intros j Hj. cbn [SB fs2]. destruct (allocated _ _ _ j) eqn:E; [done|].
    apply disk2_free_from_64 in E; lia.
  - cbv beta. intros r s' (-> & l & T' & -> & H1 & _ & H2 & _). split; [done|]. by exists T'.
Defined.

Lemma bfree_clears_bit_witness :
  ∃ s : fstate (D := Memide.memdisk), fs_abs s T2 ∧
    wp (bfree 1 60) s (λ _ s', ∃ T', fs_abs s' T' ∧
      allocated 1 sb0 (tv_v T') 60 = false ∧ allocated 1 sb0 (tv_v T') 61 = true) ∧
    bfree 1 70 s = Panic "freeing free block".
Proof.
  destruct fs2_abs as [b Ha]. exists (fs2 b). split; [exact Ha|]. split.
  - destruct (bfree_clears_bit (fs2 b) T2 60 Ha disk2_layout eq_refl ltac:(vm_compute; lia)
      ltac:(vm_compute; lia) ltac:(by apply disk2_ok) ltac:(vm_compute; reflexivity)
      ltac:(vm_compute; split; congruence)) as [Hok _].
    eapply wp_mono; [apply Hok; vm_compute; reflexivity|]. cbv beta.
    intros _ s' (l & T' & -> & H1 & _ & H2 & _). exists T'. split; [exact H1|]. split.
    + etransitivity; [apply (H2 60); vm_compute; split; congruence|]. vm_compute. reflexivity.
    + etransitivity; [apply (H2 61); vm_compute; split; congruence|]. vm_compute. reflexivity.
  - destruct (bfree_clears_bit (fs2 b) T2 70 Ha disk2_layout eq_refl ltac:(vm_compute; lia)
      ltac:(vm_compute; lia) ltac:(by apply disk2_ok) ltac:(vm_compute; reflexivity)
      ltac:(vm_compute; split; congruence)) as [_ Hno].
    apply Hno. vm_compute. reflexivity.
Defined.

End FsBlocks.
