(* ===== verification/Pipe.v ===== *)
(** * Pipes

    crates/fs/src/pipe.rs: the bounded circular buffer between two file
    descriptors. [pipewrite] and [piperead] run under the pipe's lock until
    they return or sleep; a call that sleeps is resumed where it slept, with
    its loop condition evaluated again. [psystem] runs such calls by any
    number of readers and writers in any order. *)

From S2P Require Import Prelude Param Sync.
Import Sync.

Module Pipe.

Definition PIPESIZE : Z := 512.

Record Pipe := mkPipe {
  p_lock : spinlock;
  p_data : list Z;
  nread : Z;
  nwrite : Z;
  readopen : bool;
  writeopen : bool;
}.

Definition set_plock (v : Z) (p : Pipe) : Pipe :=
  mkPipe (set_locked v (p_lock p)) (p_data p) (nread p) (nwrite p) (readopen p) (writeopen p).
Definition set_pdata (i : nat) (v : Z) (p : Pipe) : Pipe :=
  mkPipe (p_lock p) (<[i := v]> (p_data p)) (nread p) (nwrite p) (readopen p) (writeopen p).
Definition set_nread (v : Z) (p : Pipe) : Pipe :=
  mkPipe (p_lock p) (p_data p) v (nwrite p) (readopen p) (writeopen p).
Definition set_nwrite (v : Z) (p : Pipe) : Pipe :=
  mkPipe (p_lock p) (p_data p) (nread p) v (readopen p) (writeopen p).
Definition set_readopen (v : bool) (p : Pipe) : Pipe :=
  mkPipe (p_lock p) (p_data p) (nread p) (nwrite p) v (writeopen p).
Definition set_writeopen (v : bool) (p : Pipe) : Pipe :=
  mkPipe (p_lock p) (p_data p) (nread p) (nwrite p) (readopen p) v.

(** A pipe with the wakeups issued by its functions. *)
Record pstate := mkP {
  pp : Pipe;
  pwakes : list chan;
}.
Definition on_pipe (f : Pipe → Pipe) : M pstate unit := modify (λ s, mkP (f (pp s)) (pwakes s)).
Definition p_wakeup (c : chan) : M pstate unit := modify (λ s, mkP (pp s) (pwakes s ++ [c])).

Definition is_full (p : Pipe) : M pstate bool :=
  let* lim := chk_u32 (nread p + PIPESIZE) in
  ret (nwrite p =? lim).
Definition is_empty (p : Pipe) : bool := nread p =? nwrite p.
Definition is_dead (p : Pipe) : bool := negb (readopen p) && negb (writeopen p).
Definition read_pos (p : Pipe) : nat := Z.to_nat (nread p mod PIPESIZE).
Definition write_pos (p : Pipe) : nat := Z.to_nat (nwrite p mod PIPESIZE).

(** How a call ends: it returns, or it sleeps having copied [i] bytes. *)
Inductive pres : Type :=
| PDone (r : Z)
| PSleep (i : Z).

Section pipe.
(** The pipe's address, which names its channels, and [my_proc_killed]. *)
Context (pa : Z) (killed : Z).

(** [pipeclose] up to the freeing of the page; returns [dead]. *)
Definition pipeclose (writable : Z) : M pstate bool :=
  on_pipe (set_plock 1) ;;;
  (if negb (writable =? 0) then
     on_pipe (set_writeopen false) ;;;
     p_wakeup (ChPipeRead pa)
   else
     on_pipe (set_readopen false) ;;;
     p_wakeup (ChPipeWrite pa)) ;;;
  let* s := get in
  let dead := is_dead (pp s) in
  on_pipe (set_plock 0) ;;;
  ret dead.

(** The loop of [pipewrite] from byte [i]; [addr k] is the byte at
    [addr.add(k)], and [stop] is [n as usize]. *)
Fixpoint write_loop (fuel : nat) (addr : Z → Z) (n stop i : Z) : M pstate pres :=
  match fuel with
  | O => nofuel
  | S fuel' =>
      if i <? stop then
        let* p := gets pp in
        let* full := is_full p in
        if (full : bool) then
          if negb (readopen p) || negb (killed =? 0) then
            on_pipe (set_plock 0) ;;;
            ret (PDone (-1))
          else
            p_wakeup (ChPipeRead pa) ;;;
            on_pipe (set_plock 0) ;;;
            ret (PSleep i)
        else
          on_pipe (λ p, set_pdata (write_pos p) (addr i) p) ;;;
          let* w := chk_u32 (nwrite p + 1) in
          on_pipe (set_nwrite w) ;;;
          write_loop fuel' addr n stop (i + 1)
      else
        p_wakeup (ChPipeRead pa) ;;;
        on_pipe (set_plock 0) ;;;
        ret (PDone n)
  end.

(** A buffer's worth of bytes fills the pipe, so this many iterations end. *)
Definition write_fuel : nat := S (S (Z.to_nat PIPESIZE)).

(** [pipewrite], first called ([i = 0]) or woken up in byte [i]. *)
Definition pipewrite (addr : Z → Z) (n i : Z) : M pstate pres :=
  on_pipe (set_plock 1) ;;;
  write_loop write_fuel addr n (as_u64 n) i.

Fixpoint read_loop (fuel : nat) (n count : Z) (acc : list Z) : M pstate (Z * list Z) :=
  match fuel with
  | O => nofuel
  | S fuel' =>
      let* p := gets pp in
      if (count <? n) && negb (is_empty p) then
        let* c := expect "index out of bounds" (p_data p !! read_pos p) in
        let* r := chk_u32 (nread p + 1) in
        on_pipe (set_nread r) ;;;
        read_loop fuel' n (count + 1) (acc ++ [c])
      else ret (count, acc)
  end.

(** [piperead], called or woken up; the bytes copied out come with the
    result. *)
Definition piperead (n : Z) : M pstate (pres * list Z) :=
  on_pipe (set_plock 1) ;;;
  let* p := gets pp in
  if is_empty p && writeopen p then
    if negb (killed =? 0) then
      on_pipe (set_plock 0) ;;;
      ret (PDone (-1), [])
    else
      on_pipe (set_plock 0) ;;;
      ret (PSleep 0, [])
  else
    let* ' (count, bs) := read_loop write_fuel n 0 [] in
    p_wakeup (ChPipeWrite pa) ;;;
    on_pipe (set_plock 0) ;;;
    ret (PDone count, bs).

End pipe.

(** ** The queue a pipe represents *)

Record pipe_inv (p : Pipe) : Prop := {
  pi_len : length (p_data p) = Z.to_nat PIPESIZE;
  pi_read : 0 ≤ nread p;
  pi_order : nread p ≤ nwrite p ≤ nread p + PIPESIZE;
}.

Definition queue (p : Pipe) : list Z :=
  (λ k, nth (Z.to_nat (k mod PIPESIZE)) (p_data p) 0) <$> seqZ (nread p) (nwrite p - nread p).

(** Changes to the lock word leave the queue. *)
Lemma queue_lock v p : queue (set_plock v p) = queue p.
Proof. done. Qed.

Lemma length_queue p : length (queue p) = Z.to_nat (nwrite p - nread p).
Proof. unfold queue. by rewrite length_fmap, length_seqZ. Qed.

Lemma queue_write p c :
  pipe_inv p → nwrite p < nread p + PIPESIZE →
  queue (set_nwrite (nwrite p + 1) (set_pdata (write_pos p) c p)) = queue p ++ [c] ∧
  pipe_inv (set_nwrite (nwrite p + 1) (set_pdata (write_pos p) c p)).
Proof.
  intros [Hl Hr Ho] Hf. assert (Hp : (write_pos p < length (p_data p))%nat).
  { unfold write_pos. rewrite Hl. pose proof (Z.mod_pos_bound (nwrite p) PIPESIZE ltac:(done)). lia. }
  split.
  - unfold queue. simpl nread. simpl nwrite.
    replace (nwrite p + 1 - nread p) with (nwrite p - nread p + 1) by lia.
    rewrite seqZ_app by lia. rewrite fmap_app. f_equal.
    + apply list_fmap_ext. intros i k [-> Hk]%lookup_seqZ. simpl p_data.
      rewrite !nth_lookup, list_lookup_insert_ne; [done|].
      unfold write_pos, PIPESIZE in *. Z.to_euclidean_division_equations. lia.
    + rewrite seqZ_cons by lia. replace (Z.pred 1) with 0 by lia. cbn [seqZ fmap list_fmap seq Z.to_nat].
      replace (nread p + (nwrite p - nread p)) with (nwrite p) by lia. simpl p_data.
      fold (write_pos p). rewrite nth_lookup, list_lookup_insert_eq by done. done.
  - split; simpl; rewrite ?length_insert; (done || lia).
Qed.

Lemma queue_read p :
  pipe_inv p → nread p ≠ nwrite p →
  ∃ c, p_data p !! read_pos p = Some c ∧ queue p = c :: queue (set_nread (nread p + 1) p) ∧
       pipe_inv (set_nread (nread p + 1) p).
Proof.
  intros [Hl Hr Ho] Hne.
  destruct (lookup_lt_is_Some_2 (p_data p) (read_pos p)) as [c Hc].
  { unfold read_pos. rewrite Hl. pose proof (Z.mod_pos_bound (nread p) PIPESIZE ltac:(done)). lia. }
  exists c. split; [done|]. split.
  - unfold queue. rewrite seqZ_cons by lia. cbn [fmap list_fmap]. f_equal.
    + fold (read_pos p). by apply nth_lookup_Some.
    + simpl. replace (Z.pred (nwrite p - nread p)) with (nwrite p - (nread p + 1)) by lia. done.
  - split; simpl; (done || lia).
Qed.

(** ** The calls *)

(** What a run of [pipewrite] from byte [i] does: it appends bytes to the
    queue, and ends by returning, failing or sleeping on a full pipe. *)
Record wrote (pa killed : Z) (addr : Z → Z) (n i : Z) (s s' : pstate) (r : pres) : Prop := {
  wr_inv : pipe_inv (pp s');
  wr_same : nread (pp s') = nread (pp s) ∧ readopen (pp s') = readopen (pp s) ∧
            writeopen (pp s') = writeopen (pp s) ∧ nwrite (pp s) ≤ nwrite (pp s');
  wr_queue : queue (pp s') = queue (pp s) ++ (addr <$> seqZ i (nwrite (pp s') - nwrite (pp s)));
  wr_end :
    (r = PDone n ∧ i + (nwrite (pp s') - nwrite (pp s)) = n ∧
       pwakes s' = pwakes s ++ [ChPipeRead pa]) ∨
    (r = PDone (-1) ∧ (readopen (pp s) = false ∨ killed ≠ 0) ∧
       nwrite (pp s') = nread (pp s) + PIPESIZE ∧ pwakes s' = pwakes s) ∨
    (r = PSleep (i + (nwrite (pp s') - nwrite (pp s))) ∧ readopen (pp s) = true ∧ killed = 0 ∧
       i + (nwrite (pp s') - nwrite (pp s)) < n ∧
       nwrite (pp s') = nread (pp s) + PIPESIZE ∧ pwakes s' = pwakes s ++ [ChPipeRead pa]);
}.

Lemma write_loop_spec pa killed addr n fuel : ∀ i s,
  pipe_inv (pp s) → nread (pp s) + PIPESIZE < u32_max → 0 ≤ i ≤ n →
  nread (pp s) + PIPESIZE - nwrite (pp s) + 1 < Z.of_nat fuel →
  wp (write_loop pa killed fuel addr n n i) s (λ r s', wrote pa killed addr n i s s' r).
Proof.
  induction fuel as [|fuel IH]; intros i s Hp Hov Hi Hf; [destruct Hp; lia|].
  cbn [write_loop]. pose proof Hp as [Hl Hr Ho].
  destruct (Z.ltb_spec i n) as [Hlt|Hge].
  2: { unfold p_wakeup, on_pipe. do 5 wp_step. split; simpl; try done.
       - by rewrite Z.sub_diag, app_nil_r.
       - left. split_and!; [done|lia|done]. }
  do 2 wp_step. unfold is_full. wp_step. wp_step.
  eapply wp_eq; [apply chk_u32_ok; lia|]. cbv beta. wp_step.
  destruct (Z.eqb_spec (nwrite (pp s)) (nread (pp s) + PIPESIZE)) as [E|E].
  - destruct (readopen (pp s)) eqn:Hro; cbn [negb orb].
    + destruct (Z.eqb_spec killed 0) as [Hk|Hk]; cbn [negb].
      * unfold p_wakeup, on_pipe. do 5 wp_step. split; simpl; try done.
        -- by rewrite Z.sub_diag, app_nil_r.
        -- right. right. rewrite Z.sub_diag, Z.add_0_r. by split_and!.
      * unfold on_pipe. do 3 wp_step. split; simpl; try done.
        -- by rewrite Z.sub_diag, app_nil_r.
        -- right. left. split_and!; auto.
    + unfold on_pipe. do 3 wp_step. split; simpl; try done.
      * by rewrite Z.sub_diag, app_nil_r.
      * right. left. split_and!; auto.
  - unfold on_pipe. do 3 wp_step. eapply wp_eq; [apply chk_u32_ok; lia|]. cbv beta. do 2 wp_step.
    destruct (queue_write (pp s) (addr i) Hp ltac:(lia)) as [Hq Hinv].
    set (s1 := mkP _ _). eapply wp_mono.
    { apply (IH (i + 1) s1); [exact Hinv|exact Hov|lia|simpl; lia]. }
    intros r s' [W1 W2 W3 W4]. simpl in W2, W3, W4.
    change (queue (pp s1)) with (queue (set_nwrite (nwrite (pp s) + 1) (set_pdata (write_pos (pp s)) (addr i) (pp s)))) in W3.
    split; [done|split_and!; try apply W2; lia| |].
    + rewrite W3, Hq, <- app_assoc. f_equal.
      rewrite (seqZ_cons i) by lia. simpl. do 2 f_equal. f_equal; lia.
    + destruct W4 as [(? & ? & ?)|[(? & ? & ? & ?)|(? & ? & ? & ? & ? & ?)]].
      * left. split_and!; [done|lia|done].
      * right. left. by split_and!.
      * right. right. split_and!; try done; [|lia].
        subst r. f_equal. lia.
Qed.

Lemma pipewrite_spec pa killed addr n i s :
  pipe_inv (pp s) → nread (pp s) + PIPESIZE < u32_max → 0 ≤ i ≤ n → n < i32_hi →
  wp (pipewrite pa killed addr n i) s (λ r s', wrote pa killed addr n i s s' r).
Proof.
  intros Hp Hov Hi Hn. unfold pipewrite, on_pipe. do 2 wp_step.
  assert (E : as_u64 n = n) by (apply Z.mod_small; unfold i32_hi, u64_max in *; lia). rewrite E.
  eapply wp_mono.
  - apply (write_loop_spec pa killed addr n write_fuel i); [by destruct Hp|exact Hov|done|].
    destruct Hp as [_ _ Ho]. cbn [pp set_plock nread nwrite]. unfold write_fuel, PIPESIZE in *. lia.
  - intros r s' [W1 W2 W3 W4]. by split.
Qed.

(** What a run of [piperead] does: it takes a prefix of the queue. *)
Record took (pa killed n : Z) (s s' : pstate) (r : pres) (bs : list Z) : Prop := {
  tk_inv : pipe_inv (pp s');
  tk_same : nwrite (pp s') = nwrite (pp s) ∧ readopen (pp s') = readopen (pp s) ∧
            writeopen (pp s') = writeopen (pp s);
  tk_queue : queue (pp s) = bs ++ queue (pp s');
  tk_end :
    (r = PDone (Z.of_nat (length bs)) ∧ (queue (pp s) ≠ [] ∨ writeopen (pp s) = false) ∧
       length bs = Nat.min (Z.to_nat n) (length (queue (pp s))) ∧
       pwakes s' = pwakes s ++ [ChPipeWrite pa]) ∨
    (queue (pp s) = [] ∧ writeopen (pp s) = true ∧ bs = [] ∧ pwakes s' = pwakes s ∧
       r = if killed =? 0 then PSleep 0 else PDone (-1));
}.

Lemma queue_empty p : pipe_inv p → queue p = [] ↔ is_empty p = true.
Proof.
  intros [_ _ Ho]. unfold is_empty. rewrite Z.eqb_eq. split.
  - intros E. apply (f_equal length) in E. rewrite length_queue in E. simpl in E. lia.
  - intros E. unfold queue. by rewrite E, Z.sub_diag.
Qed.

Lemma read_loop_spec n fuel : ∀ s count acc,
  pipe_inv (pp s) → nwrite (pp s) < u32_max → 0 ≤ count →
  nwrite (pp s) - nread (pp s) < Z.of_nat fuel →
  wp (read_loop fuel n count acc) s (λ r s', ∃ bs,
    r = (count + Z.of_nat (length bs), acc ++ bs) ∧ pipe_inv (pp s') ∧
    nwrite (pp s') = nwrite (pp s) ∧ readopen (pp s') = readopen (pp s) ∧
    writeopen (pp s') = writeopen (pp s) ∧ queue (pp s) = bs ++ queue (pp s') ∧
    length bs = Nat.min (Z.to_nat (n - count)) (length (queue (pp s))) ∧ pwakes s' = pwakes s).
Proof.
  induction fuel as [|fuel IH]; intros s count acc Hp Hov Hc Hf; [destruct Hp; lia|].
  cbn [read_loop]. do 2 wp_step. pose proof Hp as [Hl Hr Ho].
  destruct (Z.ltb_spec count n) as [Hlt|Hge]; cbn [andb].
  2: { wp_step. exists []. rewrite Z.add_0_r, app_nil_r. split_and!; try done.
       replace (Z.to_nat (n - count)) with O by lia. done. }
  destruct (is_empty (pp s)) eqn:He; cbn [negb].
  { wp_step. exists []. rewrite Z.add_0_r, app_nil_r. apply queue_empty in He; [|done].
    split_and!; try done. rewrite He. simpl. lia. }
  unfold is_empty in He. apply Z.eqb_neq in He.
  destruct (queue_read (pp s) Hp He) as (c & Hcr & Hq & Hinv).
  wp_step. rewrite Hcr. unfold expect. wp_step. wp_step.
  eapply wp_eq; [apply chk_u32_ok; lia|]. cbv beta. unfold on_pipe. do 2 wp_step.
  eapply wp_mono; [apply IH; [exact Hinv|exact Hov|lia|simpl; lia]|].
  intros r s' (bs & -> & H1 & H2 & H3 & H4 & H5 & H6 & H7). exists (c :: bs). simpl in *.
  split_and!; try done.
  - rewrite <- app_assoc. simpl. f_equal. lia.
  - by rewrite Hq, H5.
  - rewrite H6, Hq. simpl. lia.
Qed.

Lemma piperead_spec pa killed n s :
  pipe_inv (pp s) → nwrite (pp s) < u32_max →
  wp (piperead pa killed n) s (λ rb s', took pa killed n s s' (fst rb) (snd rb)).
Proof.
  intros Hp Hov. unfold piperead, on_pipe. wp_auto.
  change (is_empty (pp (mkP _ _)) && writeopen (pp (mkP _ _))) with (is_empty (pp s) && writeopen (pp s)).
  pose proof Hp as [Hl Hr Ho].
  destruct (is_empty (pp s) && writeopen (pp s)) eqn:E.
  - apply andb_prop in E as [He Hw]. apply queue_empty in He; [|done].
    destruct (killed =? 0) eqn:Hk; cbn [negb]; do 3 wp_step; (split; simpl; [by split|done|done|]);
      right; split_and!; try done; by rewrite Hk.
  - wp_step. eapply wp_mono.
    { apply read_loop_spec; [by split|exact Hov|lia|].
      cbn [pp set_plock nread nwrite]. unfold write_fuel, PIPESIZE in *. lia. }
    intros r s' (bs & -> & H1 & H2 & H3 & H4 & H5 & H6 & H7). cbv beta. unfold p_wakeup. do 5 wp_step.
    simpl in *. split; simpl; try done.
    + by destruct H1.
    + left. rewrite Z.sub_0_r in H6. split_and!; try done.
      * apply andb_false_iff in E as [E|E]; [left|by right]. intros Hq. apply queue_empty in Hq; congruence.
      * by rewrite H7.
Qed.

(** ** Readers and writers in any order *)

(** The pipe, the channels a process sleeps on, and the bytes that went in
    and came out so far. *)
Record psys := mkSys {
  sy_pipe : Pipe;
  sy_asleep : list chan;
  sy_in : list Z;
  sy_out : list Z;
}.

(** The sleepers after a call: those not woken up, and the caller if it
    sleeps. *)
Definition resched (sl wakes : list chan) (r : pres) (c : chan) : list chan :=
  filter (λ c', c' ∉ wakes) sl ++ (match r with PSleep _ => [c] | PDone _ => [] end).

(** One call, run until it returns or sleeps. [k] is the caller's killed
    flag; a writer resumes at the byte it stopped at. A caller has its end
    open, and an end is closed when no process sleeping in a call has it
    open. *)
Inductive pstep (pa : Z) : Z → psys → psys → Prop :=
| ps_write k addr n i r p p' w sl bin bout :
    0 ≤ i ≤ n → n < i32_hi → writeopen p = true →
    pipewrite pa k addr n i (mkP p []) = Ok (r, mkP p' w) →
    pstep pa k (mkSys p sl bin bout)
      (mkSys p' (resched sl w r (ChPipeWrite pa))
         (bin ++ (addr <$> seqZ i (nwrite p' - nwrite p))) bout)
| ps_read k n r bs p p' w sl bin bout :
    readopen p = true →
    piperead pa k n (mkP p []) = Ok ((r, bs), mkP p' w) →
    pstep pa k (mkSys p sl bin bout) (mkSys p' (resched sl w r (ChPipeRead pa)) bin (bout ++ bs))
| ps_close k writable d p p' w sl bin bout :
    (if writable =? 0 then ChPipeRead pa else ChPipeWrite pa) ∉ sl →
    pipeclose pa writable (mkP p []) = Ok (d, mkP p' w) →
    pstep pa k (mkSys p sl bin bout) (mkSys p' (resched sl w (PDone 0) ChLog) bin bout).

(** [nread + PIPESIZE] is a 32-bit addition that is checked. *)
Definition counters_fit (p : Pipe) : Prop := nread p + PIPESIZE < u32_max.

Definition psteps (pa : Z) (ks : Z → Prop) : psys → psys → Prop :=
  rtc (λ s s', ∃ k, ks k ∧ counters_fit (sy_pipe s) ∧ pstep pa k s s').

(** A pipe as [pipealloc] leaves it. *)
Definition fresh_pipe (data : list Z) : Pipe :=
  mkPipe (initlock "pipe" (mkSpin 0 EmptyString None)) data 0 0 true true.
Definition fresh_sys (data : list Z) : psys := mkSys (fresh_pipe data) [] [] [].

Lemma pipeclose_spec pa writable s :
  ∃ p', pipeclose pa writable s =
    Ok (is_dead p', mkP p' (pwakes s ++ [if writable =? 0 then ChPipeWrite pa else ChPipeRead pa])) ∧
    p_data p' = p_data (pp s) ∧ nread p' = nread (pp s) ∧ nwrite p' = nwrite (pp s) ∧
    readopen p' = negb (writable =? 0) && readopen (pp s) ∧
    writeopen p' = (writable =? 0) && writeopen (pp s).
Proof.
  unfold pipeclose, on_pipe, p_wakeup, bind, modify, get, ret.
  destruct (writable =? 0).
  - exists (set_plock 0 (set_readopen false (set_plock 1 (pp s)))). by split_and!.
  - exists (set_plock 0 (set_writeopen false (set_plock 1 (pp s)))). by split_and!.
Qed.

Record fifo (s : psys) : Prop := {
  fi_inv : pipe_inv (sy_pipe s);
  fi_order : sy_in s = sy_out s ++ queue (sy_pipe s);
}.

Lemma fifo_step pa k s s' : pstep pa k s s' → counters_fit (sy_pipe s) → fifo s → fifo s'.
Proof.
  intros Hs Hfit [Hi Ho]. unfold counters_fit in Hfit. destruct Hs as [k addr n i r p p' w sl bin bout Hin Hn _ E|
    k n r bs p p' w sl bin bout _ E|k wr d p p' w sl bin bout _ E]; simpl in *.
  - pose proof (wp_det _ _ _ _ _ (pipewrite_spec pa k addr n i (mkP p []) Hi Hfit Hin Hn) E) as [W1 _ W3 _].
    simpl in *. split; simpl; [done|]. by rewrite W3, Ho, app_assoc.
  - destruct Hi as [H1 H2 H3].
    pose proof (wp_det _ _ _ _ _ (piperead_spec pa k n (mkP p []) ltac:(by split) ltac:(simpl; lia)) E)
      as [W1 _ W3 _]. simpl in *. split; simpl; [done|]. by rewrite Ho, W3, app_assoc.
  - destruct (pipeclose_spec pa wr (mkP p [])) as (q & E' & Hd & Hr & Hw & _ & _).
    rewrite E' in E. injection E as <- <- <-. simpl in *. destruct Hi as [H1 H2 H3].
    split; simpl; [split; rewrite ?Hd, ?Hr, ?Hw; done|].
    rewrite Ho. unfold queue. by rewrite Hd, Hr, Hw.
Qed.

(** C20: Whatever reads, writes and closes run on a pipe, in whatever order
    and sleeping where they do, the bytes read are the bytes written, in
    order, and the ones still to come are in the buffer, at most [PIPESIZE]
    of them. *)
Theorem pipe_fifo (pa : Z) (data : list Z) (s : psys)
    (Hlen : length data = Z.to_nat PIPESIZE)
    (Hrun : psteps pa (λ _, True) (fresh_sys data) s) :
  sy_in s = sy_out s ++ queue (sy_pipe s) ∧
  (length (queue (sy_pipe s)) ≤ Z.to_nat PIPESIZE)%nat.
Proof.
  assert (H0 : fifo (fresh_sys data)) by (split; [split|]; (done || simpl; unfold PIPESIZE; lia)).
  assert (H : fifo s).
  { revert H0. induction Hrun as [|s1 s2 s3 (k & _ & Hfit & Hstep) _ IH]; [done|].
    intros H1. apply IH. by eapply fifo_step. }
  destruct H as [[H1 H2 H3] H4]. split; [done|]. rewrite length_queue. lia.
Qed.

(** ** Sleepers have a reason to sleep *)

(** A reader sleeps on an empty pipe that can still be written, a writer on a
    full pipe that can still be read. *)
Record awake_ok (pa : Z) (s : psys) : Prop := {
  aw_inv : pipe_inv (sy_pipe s);
  aw_read : ChPipeRead pa ∈ sy_asleep s →
    queue (sy_pipe s) = [] ∧ writeopen (sy_pipe s) = true ∧ readopen (sy_pipe s) = true;
  aw_write : ChPipeWrite pa ∈ sy_asleep s →
    length (queue (sy_pipe s)) = Z.to_nat PIPESIZE ∧
    writeopen (sy_pipe s) = true ∧ readopen (sy_pipe s) = true;
}.

Lemma resched_elem sl w r c x :
  x ∈ resched sl w r c → (x ∈ sl ∧ x ∉ w) ∨ (∃ i, r = PSleep i ∧ x = c).
Proof.
  unfold resched. rewrite elem_of_app, list_elem_of_filter. intros [[? ?]|H]; [by left|right].
  destruct r as [|i]; [by apply elem_of_nil in H|]. apply list_elem_of_singleton in H. eauto.
Qed.

Lemma awake_write pa addr n i r p p' w sl bin bout bin' :
  wrote pa 0 addr n i (mkP p []) (mkP p' w) r → writeopen p = true →
  awake_ok pa (mkSys p sl bin bout) →
  awake_ok pa (mkSys p' (resched sl w r (ChPipeWrite pa)) bin' bout).
Proof.
  intros [W1 (W2 & W3 & W4 & W5) W6 W7] Hwo [A1 A2 A3]. simpl in *. split; simpl; [done| |].
  - intros [[H1 H2]|(j & _ & ?)]%resched_elem; [|done]. destruct (A2 H1) as (_ & _ & Hro).
    destruct W7 as [(_ & _ & ->)|[(_ & [E|E] & _ & _)|(_ & _ & _ & _ & _ & ->)]];
      [set_solver|congruence|done|set_solver].
  - intros [[H1 H2]|(j & -> & _)]%resched_elem.
    + destruct (A3 H1) as (Hf & _ & Hr). rewrite length_queue in Hf. split_and!; [|congruence..].
      rewrite length_queue, W2. destruct W1 as [_ _ Ho], A1 as [_ _ Ho']. unfold PIPESIZE in *. lia.
    + destruct W7 as [(E & _)|[(E & _)|(_ & Hr & _ & _ & Hf & _)]]; [done|done|].
      split_and!; [|congruence..]. rewrite length_queue, W2, Hf. f_equal. lia.
Qed.

Lemma awake_read pa n r bs p p' w sl bin bout bout' :
  took pa 0 n (mkP p []) (mkP p' w) r bs → readopen p = true →
  awake_ok pa (mkSys p sl bin bout) →
  awake_ok pa (mkSys p' (resched sl w r (ChPipeRead pa)) bin bout').
Proof.
  intros [W1 (W2 & W3 & W4) W6 W7] Hro [A1 A2 A3]. simpl in *. split; simpl; [done| |].
  - intros [[H1 H2]|(j & -> & _)]%resched_elem.
    + destruct (A2 H1) as (Hq & Hw & Hr). rewrite Hq in W6. symmetry in W6. apply app_nil in W6 as [_ ->].
      split_and!; congruence.
    + destruct W7 as [(E & _)|(Hq & Hw & -> & _ & _)]; [done|]. rewrite Hq in W6. simpl in W6.
      split_and!; congruence.
  - intros [[H1 H2]|(j & _ & ?)]%resched_elem; [|done]. destruct (A3 H1) as (Hf & Hw & Hr).
    destruct W7 as [(_ & _ & _ & ->)|(Hq & _)]; [set_solver|]. rewrite Hq in Hf. done.
Qed.

Lemma awake_step pa s s' : pstep pa 0 s s' → counters_fit (sy_pipe s) → awake_ok pa s → awake_ok pa s'.
Proof.
  intros Hs Hfit Ha. pose proof (aw_inv _ _ Ha) as Hi. unfold counters_fit in Hfit.
  remember 0 as k eqn:Hk. destruct Hs as [k addr n i r p p' w sl bin bout Hin Hn Ho E|
    k n r bs p p' w sl bin bout Ho E|k wr d p p' w sl bin bout Ho E]; subst; simpl in *.
  - eapply awake_write; [|exact Ho|exact Ha].
    exact (wp_det _ _ _ _ _ (pipewrite_spec pa 0 addr n i (mkP p []) Hi Hfit Hin Hn) E).
  - eapply awake_read; [|exact Ho|exact Ha]. destruct (Hi) as [H1 H2 H3].
    exact (wp_det _ _ _ _ _ (piperead_spec pa 0 n (mkP p []) Hi ltac:(simpl; lia)) E).
  - destruct (pipeclose_spec pa wr (mkP p [])) as (q & E' & Hd & Hr & Hw & Hro & Hwo).
    rewrite E' in E. injection E as <- <- <-. destruct Hi as [H1 H2 H3], Ha as [_ A2 A3]. simpl in *.
    assert (Hq : queue q = queue p) by (unfold queue; by rewrite Hd, Hr, Hw).
    split; simpl; rewrite ?Hq.
    + split; rewrite ?Hd, ?Hr, ?Hw; done.
    + intros [[Hin Hnw]|(? & [=] & _)]%resched_elem. destruct (wr =? 0); [done|set_solver].
    + intros [[Hin Hnw]|(? & [=] & _)]%resched_elem. destruct (wr =? 0); [set_solver|done].
Qed.

(** C12: No wakeup is lost among processes that are not killed: a process that
    sleeps in [piperead] does so on an empty pipe whose write end is open, one
    that sleeps in [pipewrite] on a full pipe whose read end is open; so
    readers and writers never sleep at the same time. *)
Theorem pipe_no_lost_wakeup (pa : Z) (data : list Z) (s : psys)
    (Hlen : length data = Z.to_nat PIPESIZE)
    (Hrun : psteps pa (λ k, k = 0) (fresh_sys data) s) :
  (ChPipeRead pa ∈ sy_asleep s → queue (sy_pipe s) = [] ∧ writeopen (sy_pipe s) = true) ∧
  (ChPipeWrite pa ∈ sy_asleep s →
     length (queue (sy_pipe s)) = Z.to_nat PIPESIZE ∧ readopen (sy_pipe s) = true) ∧
  ¬ (ChPipeRead pa ∈ sy_asleep s ∧ ChPipeWrite pa ∈ sy_asleep s).
Proof.
  assert (H0 : awake_ok pa (fresh_sys data)).
  { split; simpl; [split; (done || simpl; unfold PIPESIZE; lia)|set_solver|set_solver]. }
  assert (H : awake_ok pa s).
  { revert H0. induction Hrun as [|s1 s2 s3 (k & -> & Hfit & Hstep) _ IH]; [done|].
    intros H1. apply IH. by eapply awake_step. }
  destruct H as [_ Hr Hw]. split_and!; [naive_solver|naive_solver|].
  intros [H1 H2]. destruct (Hr H1) as [E _], (Hw H2) as [E' _]. rewrite E in E'. done.
Qed.

(** ** What can go wrong *)

(** The page's bytes at [data] before anything is written. *)
Definition data0 : list Z := replicate (Z.to_nat PIPESIZE) 0.
Definition reader_asleep : psys := mkSys (fresh_pipe data0) [ChPipeRead 0] [] [].

(** A writer that is killed while it fills the pipe returns without the
    wakeup: a reader that slept on the empty pipe stays asleep although the
    buffer is full and the write end open. *)
Theorem pipe_killed_writer_loses_wakeup :
  ∃ s1 s2, pstep 0 0 (fresh_sys data0) s1 ∧ pstep 0 1 s1 s2 ∧
    ChPipeRead 0 ∈ sy_asleep s2 ∧ length (queue (sy_pipe s2)) = Z.to_nat PIPESIZE ∧
    writeopen (sy_pipe s2) = true.
Proof.
  set (p2 := match pipewrite 0 1 (λ _, 7) 600 0 (mkP (fresh_pipe data0) []) with
             | Ok (_, s) => pp s | _ => fresh_pipe [] end).
  exists reader_asleep, (mkSys p2 [ChPipeRead 0] (replicate 512 7) []).
  split_and!.
  - apply (ps_read 0 0 1 (PSleep 0) [] (fresh_pipe data0) (fresh_pipe data0) [] []); [done|vm_compute; reflexivity].
  - pose proof (ps_write 0 1 (λ _, 7) 600 0 (PDone (-1)) (fresh_pipe data0) p2 [] [ChPipeRead 0] [] []
      ltac:(lia) ltac:(unfold i32_hi; lia) eq_refl ltac:(vm_compute; reflexivity)) as H.
    exact H.
  - left.
  - vm_compute. reflexivity.
  - vm_compute. reflexivity.
Qed.

(** C21: The life of a pipe is bounded, exactly: as long as fewer than 2^32 minus
    [PIPESIZE] bytes have been read from it, a write of at least one byte
    returns, with what it has put into the pipe; from then on every such write
    panics, since the counters do not wrap. *)
Theorem pipe_write_bound (pa killed : Z) (addr : Z → Z) (n : Z) (s : pstate)
    (Hi : pipe_inv (pp s)) (Hn : 0 < n < i32_hi) :
  (nread (pp s) < u32_max - PIPESIZE → wp (pipewrite pa killed addr n 0) s (λ r s', wrote pa killed addr n 0 s s' r)) ∧
  (u32_max - PIPESIZE ≤ nread (pp s) → pipewrite pa killed addr n 0 s = Panic "arithmetic overflow").
Proof.
  split; intros Hr; [apply pipewrite_spec; (done || lia)|].
  unfold pipewrite, on_pipe, bind at 1, modify. unfold write_fuel. cbn [write_loop].
  assert (E : as_u64 n = n) by (apply Z.mod_small; unfold i32_hi, u64_max in *; lia). rewrite E.
  rewrite (proj2 (Z.ltb_lt _ _)) by lia. unfold bind, gets, is_full, chk_u32. cbn [pp set_plock nread].
  rewrite (proj2 (Z.ltb_ge (nread (pp s) + PIPESIZE) _)) by lia. by rewrite andb_false_r.
Qed.

(** ** Witnesses *)

Lemma fifo_run : ∃ p, psteps 0 (λ k, k = 0) (fresh_sys data0) (mkSys p [] [5; 6; 7] [5; 6]).
Proof.
  set (p1 := match pipewrite 0 0 (λ k, k + 5) 3 0 (mkP (fresh_pipe data0) []) with
             | Ok (_, s) => pp s | _ => fresh_pipe [] end).
  set (p2 := match piperead 0 0 2 (mkP p1 []) with
             | Ok (_, s) => pp s | _ => fresh_pipe [] end).
  exists p2. eapply rtc_l; [|eapply rtc_l; [|apply rtc_refl]].
  - exists 0. split; [done|]. split; [vm_compute; reflexivity|].
    apply (ps_write 0 0 (λ k, k + 5) 3 0 (PDone 3) (fresh_pipe data0) p1 [ChPipeRead 0] [] [] []);
      [lia|unfold i32_hi; lia|done|vm_compute; reflexivity].
  - exists 0. split; [done|]. split; [vm_compute; reflexivity|].
    apply (ps_read 0 0 2 (PDone 2) [5; 6] p1 p2 [ChPipeWrite 0] [] [5; 6; 7] []);
      [vm_compute; reflexivity|vm_compute; reflexivity].
Qed.

Lemma psteps_any pa (ks : Z → Prop) s s' : psteps pa ks s s' → psteps pa (λ _, True) s s'.
Proof. apply rtc_subrel. intros x y (k & _ & H1 & H2). by exists k. Qed.

Lemma pipe_fifo_witness :
  ∃ p, psteps 0 (λ _, True) (fresh_sys data0) (mkSys p [] [5; 6; 7] [5; 6]) ∧
    [5; 6; 7] = [5; 6] ++ queue p.
Proof.
  destruct fifo_run as [p Hp]. exists p. apply psteps_any in Hp. split; [exact Hp|].
  exact (proj1 (pipe_fifo 0 data0 (mkSys p [] [5; 6; 7] [5; 6]) ltac:(vm_compute; reflexivity) Hp)).
Defined.

Lemma pipe_no_lost_wakeup_witness :
  psteps 0 (λ k, k = 0) (fresh_sys data0) reader_asleep ∧
  ChPipeRead 0 ∈ sy_asleep reader_asleep ∧ queue (sy_pipe reader_asleep) = [].
Proof.
  assert (Hr : psteps 0 (λ k, k = 0) (fresh_sys data0) reader_asleep).
  { apply rtc_once. exists 0. split; [done|]. split; [vm_compute; reflexivity|].
    apply (ps_read 0 0 1 (PSleep 0) [] (fresh_pipe data0) (fresh_pipe data0) [] []); [done|vm_compute; reflexivity]. }
  destruct (pipe_no_lost_wakeup 0 data0 reader_asleep ltac:(vm_compute; reflexivity) Hr) as [H _].
  split; [exact Hr|]. split; [left|]. apply H. left.
Defined.

Definition old_pipe : pstate := mkP (set_nread 4294966784 (set_nwrite 4294966784 (fresh_pipe data0))) [].
Lemma pipe_write_bound_witness :
  wp (pipewrite 0 0 (λ _, 1) 1 0) (mkP (fresh_pipe data0) []) (λ r s', wrote 0 0 (λ _, 1) 1 0 (mkP (fresh_pipe data0) []) s' r) ∧
  pipewrite 0 0 (λ _, 1) 1 0 old_pipe = Panic "arithmetic overflow".
Proof.
  split.
  - apply (pipe_write_bound 0 0 (λ _, 1) 1); [split; cbn; (done || lia)|unfold i32_hi; lia|cbn; unfold u32_max, PIPESIZE; lia].
  - apply (pipe_write_bound 0 0 (λ _, 1) 1 old_pipe); [split; cbn; unfold PIPESIZE; (done || lia)|unfold i32_hi; lia|cbn; unfold u32_max, PIPESIZE; lia].
Defined.

End Pipe.
