(* ===== verification/File.v ===== *)
(** * Open files

    crates/fs/src/file.rs: the system-wide file table, reference counts, and
    the dispatch of reads and writes to pipes and inodes; with [pipealloc],
    [cleanup] and [pipeclose] of crates/fs/src/pipe.rs, which tie pipes to the
    table and to the page allocator.

    File pointers are indices into the table. A pipe lives in a page of its
    own and is named by the page's address; [pipes] has the live ones. *)

From S2P Require Import Prelude Param Mmu Mem Kalloc Sync Disk Ring Bio Fsh Log Fs Pipe.
Import Sync Bio Fsh Log Fs Pipe.

Module File.

Inductive FileType : Type :=
| FdNone
| FdPipe
| FdInode.

#[global] Instance FileType_eq_dec : EqDecision FileType.
Proof. solve_decision. Defined.

Record File := mkFile {
  ftype : FileType;
  ref_ : Z;
  readable : bool;
  writable : bool;
  f_pipe : Z;
  f_ip : option nat;
  f_off : Z;
}.

Definition EMPTY : File := mkFile FdNone 0 false false 0 None 0.
Definition is_free (f : File) : bool := ref_ f =? 0.
Definition can_read (f : File) : bool := readable f.
Definition can_write (f : File) : bool := writable f.

Definition set_fref (v : Z) (f : File) : File :=
  mkFile (ftype f) v (readable f) (writable f) (f_pipe f) (f_ip f) (f_off f).
Definition set_off (v : Z) (f : File) : File :=
  mkFile (ftype f) (ref_ f) (readable f) (writable f) (f_pipe f) (f_ip f) v.
(** [ftype = None; pipe = null; ip = null]. *)
Definition clear_slot (f : File) : File :=
  mkFile FdNone (ref_ f) (readable f) (writable f) 0 None (f_off f).
Definition wire_pipe (r w : bool) (p : Z) (f : File) : File :=
  mkFile FdPipe (ref_ f) r w p (f_ip f) (f_off f).

Section file.
Context {D : Type} `{!BlockDev D}.
(** First address past the kernel, and the device switch. *)
Context (kernel_end : Z)
        (devsw_read : Z → option (nat → Z → Z → M (fstate (D := D)) (Z * list Z)))
        (devsw_write : Z → option (nat → Z → list Z → Z → M (fstate (D := D)) Z)).

(** The file system, [Ftable], the pipes, the page allocator, the wakeups
    issued on pipes, and the running process's [killed]. *)
Record kst := mkK {
  k_fs : fstate (D := D);
  ft_lock : spinlock;
  files : list File;
  pipes : gmap Z Pipe;
  k_mem : Kalloc.kmem_t;
  k_wakes : list chan;
  k_killed : Z;
}.

Definition on_fs {A} (m : M fstate A) : M kst A :=
  zoom k_fs (λ f s, mkK f (ft_lock s) (files s) (pipes s) (k_mem s) (k_wakes s) (k_killed s)) m.
Definition on_mem {A} (m : M Kalloc.kmem_t A) : M kst A :=
  zoom k_mem (λ m s, mkK (k_fs s) (ft_lock s) (files s) (pipes s) m (k_wakes s) (k_killed s)) m.
Definition set_ft_lock (v : Z) (s : kst) : kst :=
  mkK (k_fs s) (set_locked v (ft_lock s)) (files s) (pipes s) (k_mem s) (k_wakes s) (k_killed s).
Definition set_files (v : list File) (s : kst) : kst :=
  mkK (k_fs s) (ft_lock s) v (pipes s) (k_mem s) (k_wakes s) (k_killed s).
Definition set_pipes (v : gmap Z Pipe) (s : kst) : kst :=
  mkK (k_fs s) (ft_lock s) (files s) v (k_mem s) (k_wakes s) (k_killed s).

Definition file_at (f : nat) : M kst File :=
  let* s := get in expect "wild file pointer" (files s !! f).
Definition on_file (f : nat) (g : File → File) : M kst unit :=
  modify (λ s, set_files (alter g f (files s)) s).

(** Run a pipe function on the pipe at [p]. *)
Definition on_pipe_at {A} (p : Z) (m : M pstate A) : M kst A := λ s,
  match pipes s !! p with
  | None => Panic "wild pipe pointer"
  | Some q =>
      match m (mkP q (k_wakes s)) with
      | Ok (a, ps) =>
          Ok (a, mkK (k_fs s) (ft_lock s) (files s) (<[p := pp ps]> (pipes s)) (k_mem s)
                     (pwakes ps) (k_killed s))
      | Panic e => Panic e
      | Blocked => Blocked
      | NoFuel => NoFuel
      end
  end.

(** ** The table *)

Definition fileinit : M kst unit :=
  modify (λ s, mkK (k_fs s) (initlock "ftable" (ft_lock s)) (files s) (pipes s) (k_mem s)
                   (k_wakes s) (k_killed s)).

Fixpoint find_free (i : nat) (l : list File) : option nat :=
  match l with
  | [] => None
  | f :: l' => if is_free f then Some i else find_free (S i) l'
  end.

Definition filealloc : M kst (option nat) :=
  modify (set_ft_lock 1) ;;;
  let* s := get in
  match find_free 0 (files s) with
  | Some i =>
      on_file i (set_fref 1) ;;;
      modify (set_ft_lock 0) ;;;
      ret (Some i)
  | None =>
      modify (set_ft_lock 0) ;;;
      ret None
  end.

Definition filedup (f : nat) : M kst nat :=
  modify (set_ft_lock 1) ;;;
  let* x := file_at f in
  if ref_ x <? 1 then panic "filedup"
  else
    let* r := chk_i32 (ref_ x + 1) in
    on_file f (set_fref r) ;;;
    modify (set_ft_lock 0) ;;;
    ret f.

(** [pipeclose] with the freeing of the page. *)
Definition pipeclose (p : Z) (writable : Z) : M kst unit :=
  let* dead := on_pipe_at p (Pipe.pipeclose p writable) in
  if (dead : bool) then
    modify (λ s, set_pipes (delete p (pipes s)) s) ;;;
    on_mem (Kalloc.kfree kernel_end p)
  else ret tt.

Definition fileclose (f : nat) : M kst unit :=
  modify (set_ft_lock 1) ;;;
  let* x := file_at f in
  if ref_ x <? 1 then panic "fileclose"
  else
    let* r := chk_i32 (ref_ x - 1) in
    on_file f (set_fref r) ;;;
    if 0 <? r then modify (set_ft_lock 0)
    else
      on_file f clear_slot ;;;
      modify (set_ft_lock 0) ;;;
      match ftype x with
      | FdPipe => pipeclose (f_pipe x) (if writable x then 1 else 0)
      | FdInode =>
          on_fs (on_l begin_op) ;;;
          let* ip := expect "null inode" (f_ip x) in
          on_fs (iput ip) ;;;
          on_fs (on_l end_op)
      | FdNone => ret tt
      end.

(** The result, and the metadata stored through [st]. *)
Definition filestat (f : nat) : M kst (Z * option stat) :=
  let* x := file_at f in
  match ftype x with
  | FdInode =>
      let* ip := expect "null inode" (f_ip x) in
      on_fs (ilock ip) ;;;
      let* st := on_fs (stati ip) in
      on_fs (iunlock ip) ;;;
      ret (0, Some st)
  | _ => ret (-1, None)
  end.

Definition fileread (f : nat) (n : Z) : M kst (pres * list Z) :=
  let* x := file_at f in
  if negb (can_read x) then ret (PDone (-1), [])
  else
    match ftype x with
    | FdPipe =>
        let* k := gets k_killed in
        on_pipe_at (f_pipe x) (piperead (f_pipe x) k n)
    | FdInode =>
        let* ip := expect "null inode" (f_ip x) in
        on_fs (ilock ip) ;;;
        let* ' (r, bs) := on_fs (readi devsw_read ip (f_off x) (as_u32 n)) in
        (if 0 <? r then
           let* off := chk_u32 (f_off x + r) in
           on_file f (set_off off)
         else ret tt) ;;;
        on_fs (iunlock ip) ;;;
        ret (PDone r, bs)
    | FdNone => panic "fileread"
    end.

(** [((LOGSIZE - 1 - 1 - 2) / 2) * 512]. *)
Definition write_max : Z := (LOGSIZE - 1 - 1 - 2) / 2 * 512.

(** The chunks of a write to an inode; returns [i]. *)
Fixpoint filewrite_loop (fuel : nat) (f ip : nat) (addr : Z → Z) (n i : Z) : M kst Z :=
  match fuel with
  | O => nofuel
  | S fuel' =>
      if i <? n then
        let n1 := Z.min (n - i) write_max in
        on_fs (on_l begin_op) ;;;
        on_fs (ilock ip) ;;;
        let* x := file_at f in
        let* r := on_fs (writei devsw_write ip (addr <$> seqZ i n1) (f_off x) n1) in
        (if 0 <? r then
           let* off := chk_u32 (f_off x + r) in
           on_file f (set_off off)
         else ret tt) ;;;
        on_fs (iunlock ip) ;;;
        on_fs (on_l end_op) ;;;
        if r <? 0 then ret i
        else if negb (r =? n1) then panic "short filewrite"
        else filewrite_loop fuel' f ip addr n (i + r)
      else ret i
  end.

(** [addr k] is the byte at [addr.add(k)]; [i] is where a write to a pipe
    resumes, 0 when it starts. *)
Definition filewrite (f : nat) (addr : Z → Z) (n i : Z) : M kst pres :=
  let* x := file_at f in
  if negb (can_write x) then ret (PDone (-1))
  else
    match ftype x with
    | FdPipe =>
        let* k := gets k_killed in
        on_pipe_at (f_pipe x) (pipewrite (f_pipe x) k addr n i)
    | FdInode =>
        let* ip := expect "null inode" (f_ip x) in
        let* i := filewrite_loop (S (Z.to_nat (n / write_max + 1))) f ip addr n 0 in
        ret (PDone (if i =? n then n else -1))
    | FdNone => panic "filewrite"
    end.

(** ** Pipe creation *)

(** [cleanup]; the pipe pointer it gets is null on every path. *)
Definition cleanup (p : Z) (f0 f1 : option nat) : M kst Z :=
  (if negb (p =? 0) then on_mem (Kalloc.kfree kernel_end p) else ret tt) ;;;
  (match f0 with Some f => fileclose f | None => ret tt end) ;;;
  (match f1 with Some f => fileclose f | None => ret tt end) ;;;
  ret (-1).

(** Where the [data] array starts in a [Pipe]. *)
Definition PIPE_DATA : Z := 24.

(** The result and the two file pointers. *)
Definition pipealloc : M kst (Z * option nat * option nat) :=
  let* f0 := filealloc in
  match f0 with
  | None => let* r := cleanup 0 None None in ret (r, None, None)
  | Some a =>
      let* f1 := filealloc in
      match f1 with
      | None => let* r := cleanup 0 (Some a) None in ret (r, Some a, None)
      | Some b =>
          let* p := on_mem Kalloc.kalloc in
          if p =? 0 then let* r := cleanup p (Some a) (Some b) in ret (r, Some a, Some b)
          else
            modify (λ s, set_pipes (<[p := fresh_pipe (Mem.load_bytes (Kalloc.kmem_mem (k_mem s))
                                             (p + PIPE_DATA) (Z.to_nat PIPESIZE))]> (pipes s)) s) ;;;
            on_file a (wire_pipe true false p) ;;;
            on_file b (wire_pipe false true p) ;;;
            ret (0, Some a, Some b)
      end
  end.

(** ** Reference counts *)

Lemma find_free_spec l : ∀ i,
  match find_free i l with
  | Some j => ∃ x, (i ≤ j)%nat ∧ l !! (j - i)%nat = Some x ∧ ref_ x = 0
  | None => ∀ j x, l !! j = Some x → ref_ x ≠ 0
  end.
Proof.
  induction l as [|f l IH]; intros i; simpl; [done|]. unfold is_free.
  destruct (Z.eqb_spec (ref_ f) 0) as [E|E].
  - exists f. rewrite Nat.sub_diag. by split_and!.
  - specialize (IH (S i)). destruct (find_free (S i) l) as [j|].
    + destruct IH as (x & Hj & Hx & H0). exists x. split_and!; [lia| |done].
      by replace (j - i)%nat with (S (j - S i)) by lia.
    + intros [|j] x Hx; [by injection Hx as <-|by eapply IH].
Qed.

(** How many of the handles [hs] name slot [i]. *)
Definition handles (hs : list nat) (i : nat) : Z := Z.of_nat (length (filter (λ j, j = i) hs)).

Lemma handles_cons j hs i : handles (j :: hs) i = (if decide (j = i) then 1 else 0) + handles hs i.
Proof. unfold handles. rewrite filter_cons. case_decide; cbn [length]; lia. Qed.

Lemma handles_app h1 h2 i : handles (h1 ++ h2) i = handles h1 i + handles h2 i.
Proof. unfold handles. rewrite filter_app, length_app. lia. Qed.

Lemma handles_nonneg hs i : 0 ≤ handles hs i.
Proof. unfold handles. lia. Qed.

(** The table counts the handles that processes hold. *)
Definition counted (l : list File) (hs : list nat) : Prop :=
  (∀ i x, l !! i = Some x → ref_ x = handles hs i) ∧ (∀ i, i ∈ hs → is_Some (l !! i)).

(** A step of the kernel that matters to the table: a handle is made, copied
    or closed, or the files are used. *)
Inductive fstep : kst * list nat → kst * list nat → Prop :=
| fst_alloc s s' hs i : filealloc s = Ok (Some i, s') → fstep (s, hs) (s', i :: hs)
| fst_full s s' hs : filealloc s = Ok (None, s') → fstep (s, hs) (s', hs)
| fst_dup s s' hs i j : i ∈ hs → filedup i s = Ok (j, s') → fstep (s, hs) (s', j :: hs)
| fst_close s s' h1 i h2 : fileclose i s = Ok (tt, s') → fstep (s, h1 ++ i :: h2) (s', h1 ++ h2)
| fst_read s s' hs i n r : fileread i n s = Ok (r, s') → fstep (s, hs) (s', hs)
| fst_write s s' hs i addr n k r : filewrite i addr n k s = Ok (r, s') → fstep (s, hs) (s', hs).

Lemma keeps_pipe_at {A X} (f : kst → X) p (m : M pstate A) :
  (∀ s q w, f (mkK (k_fs s) (ft_lock s) (files s) q (k_mem s) w (k_killed s)) = f s) →
  keeps f (on_pipe_at p m).
Proof.
  intros H s a s' E. unfold on_pipe_at in E. destruct (pipes s !! p) as [q|]; [|done].
  destruct (m _) as [[b ps]|e| |]; try done. injection E as _ <-. apply H.
Qed.

(** The counts of the table. *)
Definition counts (s : kst) : list Z := ref_ <$> files s.

Lemma counts_on_file i g : (∀ x, ref_ (g x) = ref_ x) → keeps counts (on_file i g).
Proof.
  intros Hg. apply keeps_modify. intros s. unfold counts. simpl. apply list_eq. intros j.
  rewrite !list_lookup_fmap. destruct (decide (i = j)) as [->|].
  - rewrite list_lookup_alter_eq. destruct (files s !! j); simpl; [by rewrite Hg|done].
  - by rewrite list_lookup_alter_ne.
Qed.

Hint Resolve counts_on_file : keeps.
Hint Extern 2 (keeps _ (on_pipe_at _ _)) => apply keeps_pipe_at; intros; reflexivity : keeps.
Hint Extern 2 (keeps _ (on_fs _)) => apply keeps_zoom; intros; reflexivity : keeps.
Hint Extern 2 (keeps _ (on_mem _)) => apply keeps_zoom; intros; reflexivity : keeps.
Hint Extern 3 (keeps _ (let '(_, _) := ?x in _)) => destruct x : keeps.

Lemma fileread_counts i n : keeps counts (fileread i n).
Proof.
  unfold fileread, file_at. apply keeps_bind; [auto with keeps|]. intros x.
  destruct (negb _); [auto with keeps|]. destruct (ftype x); eauto 10 with keeps.
Qed.

Lemma filewrite_counts i addr n k : keeps counts (filewrite i addr n k).
Proof.
  assert (Hloop : ∀ fuel ip j, keeps counts (filewrite_loop fuel i ip addr n j)).
  { induction fuel as [|fuel IH]; intros ip j; cbn [filewrite_loop]; [auto with keeps|].
    unfold file_at. destruct (j <? n); [|auto with keeps]. eauto 20 with keeps. }
  unfold filewrite, file_at. apply keeps_bind; [auto with keeps|]. intros x.
  destruct (negb _); [auto with keeps|]. destruct (ftype x); eauto 10 with keeps.
Qed.

Lemma counted_same l l' hs : ref_ <$> l' = ref_ <$> l → counted l hs → counted l' hs.
Proof.
  intros E [H1 H2]. assert (Hl : ∀ i, ref_ <$> l' !! i = ref_ <$> l !! i).
  { intros i. by rewrite <- !list_lookup_fmap, E. }
  split.
  - intros i x Hx. specialize (Hl i). rewrite Hx in Hl. destruct (l !! i) as [y|] eqn:Ey; [|done].
    injection Hl as ->. by apply H1.
  - intros i Hi. destruct (H2 i Hi) as [y Hy]. specialize (Hl i). rewrite Hy in Hl.
    by destruct (l' !! i).
Qed.

Lemma counted_set l hs hs' i x v :
  counted l hs → l !! i = Some x → v = handles hs' i →
  (∀ j, j ≠ i → handles hs' j = handles hs j) → (∀ j, j ∈ hs' → j ∈ hs ∨ j = i) →
  counted (alter (set_fref v) i l) hs'.
Proof.
  intros [H1 H2] Hx Hv Ho Hin. split.
  - intros j y. destruct (decide (i = j)) as [<-|Hne].
    + rewrite list_lookup_alter_eq, Hx. simpl. intros [= <-]. done.
    + rewrite list_lookup_alter_ne by done. rewrite Ho by done. apply H1.
  - intros j [Hj|Hj]%Hin.
    + destruct (decide (i = j)) as [<-|Hne].
      * rewrite list_lookup_alter_eq, Hx. by eexists.
      * rewrite list_lookup_alter_ne by done. by apply H2.
    + subst j. rewrite list_lookup_alter_eq, Hx. by eexists.
Qed.

Lemma wp_file_at i x s (Q : File → kst → Prop) :
  files s !! i = Some x → Q x s → wp (file_at i) s Q.
Proof. intros E HQ. unfold file_at. do 2 wp_step. rewrite E. by apply wp_ret. Qed.

Lemma filealloc_spec s :
  filealloc s = match find_free 0 (files s) with
    | Some i => Ok (Some i, set_files (alter (set_fref 1) i (files s)) (set_ft_lock 0 (set_ft_lock 1 s)))
    | None => Ok (None, set_ft_lock 0 (set_ft_lock 1 s))
    end.
Proof.
  unfold filealloc, bind, modify, get, on_file, ret. simpl. by destruct (find_free 0 (files s)).
Qed.

Lemma filedup_spec i x s :
  files s !! i = Some x → 1 ≤ ref_ x → ref_ x + 1 < i32_hi →
  filedup i s = Ok (i, set_files (alter (set_fref (ref_ x + 1)) i (files s)) (set_ft_lock 0 (set_ft_lock 1 s))).
Proof.
  intros Hx H1 H2. unfold filedup, file_at, bind at 1 2 3, modify at 1, get at 1. simpl files. rewrite Hx.
  unfold expect, ret at 1. rewrite (proj2 (Z.ltb_ge _ _)) by lia.
  rewrite (bind_ok _ _ _ _ _ (chk_i32_ok (ref_ x + 1) _ ltac:(unfold i32_lo; lia))). done.
Qed.

(** What is left of [fileclose] once the count has reached zero. *)
Definition last_close (i : nat) (x : File) : M kst unit :=
  on_file i clear_slot ;;;
  modify (set_ft_lock 0) ;;;
  match ftype x with
  | FdPipe => pipeclose (f_pipe x) (if writable x then 1 else 0)
  | FdInode =>
      on_fs (on_l begin_op) ;;;
      let* ip := expect "null inode" (f_ip x) in
      on_fs (iput ip) ;;;
      on_fs (on_l end_op)
  | FdNone => ret tt
  end.

Lemma last_close_counts i x : keeps counts (last_close i x).
Proof. unfold last_close, pipeclose. destruct (ftype x); eauto 20 with keeps. Qed.

Lemma fileclose_spec i x s :
  files s !! i = Some x → 1 ≤ ref_ x ≤ i32_hi →
  fileclose i s =
  (if 0 <? ref_ x - 1 then modify (set_ft_lock 0) else last_close i x)
    (set_files (alter (set_fref (ref_ x - 1)) i (files s)) (set_ft_lock 1 s)).
Proof.
  intros Hx Hr. unfold fileclose, file_at, bind at 1 2 3, modify at 1, get at 1. simpl files. rewrite Hx.
  unfold expect, ret at 1. rewrite (proj2 (Z.ltb_ge _ _)) by lia.
  rewrite (bind_ok _ _ _ _ _ (chk_i32_ok (ref_ x - 1) _ ltac:(unfold i32_lo; lia))).
  unfold on_file at 1. unfold bind at 1, modify at 1. simpl. by destruct (0 <? ref_ x - 1).
Qed.

Lemma fileclose_range i x s r :
  files s !! i = Some x → fileclose i s = Ok r → 1 ≤ ref_ x ≤ i32_hi.
Proof.
  intros Hx. unfold fileclose, file_at, bind at 1 2 3, modify at 1, get at 1. simpl files. rewrite Hx.
  unfold expect, ret at 1. destruct (Z.ltb_spec (ref_ x) 1); [done|].
  unfold bind at 1. unfold chk_i32. destruct (Z.leb_spec i32_lo (ref_ x - 1)); simpl; [|done].
  destruct (Z.ltb_spec (ref_ x - 1) i32_hi); [lia|done].
Qed.

Lemma fileclose_counts i x s s' :
  files s !! i = Some x → fileclose i s = Ok (tt, s') →
  counts s' = ref_ <$> alter (set_fref (ref_ x - 1)) i (files s).
Proof.
  intros Hx E. rewrite (fileclose_spec i x) in E; [|done|by eapply fileclose_range].
  destruct (0 <? ref_ x - 1); [by injection E as <-|]. by rewrite (last_close_counts i x _ _ _ E).
Qed.

Lemma counted_step c c' : fstep c c' → counted (files (fst c)) (snd c) → counted (files (fst c')) (snd c').
Proof.
  intros [s s' hs i E|s s' hs E|s s' hs i j Hi E|s s' h1 i h2 E|s s' hs i n r E|s s' hs i addr n k r E] Hc; simpl in *.
  - rewrite filealloc_spec in E. pose proof (find_free_spec (files s) 0) as Hf.
    destruct (find_free 0 (files s)) as [j|]; [|done]. injection E as <- <-. simpl.
    destruct Hf as (x & _ & Hx & H0). rewrite Nat.sub_0_r in Hx.
    apply (counted_set _ hs _ _ x); [done|done| | |].
    + rewrite handles_cons, decide_True by done. rewrite <- (proj1 Hc j x Hx). lia.
    + intros k Hk. rewrite handles_cons, decide_False by done. lia.
    + set_solver.
  - rewrite filealloc_spec in E. destruct (find_free 0 (files s)); [done|]. by injection E as <-.
  - destruct (proj2 Hc i Hi) as [x Hx]. unfold filedup, file_at, bind, modify, get in E. simpl in E.
    rewrite Hx in E. simpl in E. destruct (ref_ x <? 1); [done|]. unfold chk_i32 in E.
    destruct (_ && _); [|done]. injection E as <- <-. simpl.
    apply (counted_set _ hs _ _ x); [done|done| | |].
    + rewrite handles_cons, decide_True by done. rewrite <- (proj1 Hc i x Hx). lia.
    + intros k Hk. rewrite handles_cons, decide_False by done. lia.
    + set_solver.
  - destruct (proj2 Hc i ltac:(set_solver)) as [x Hx]. pose proof (proj1 Hc i x Hx) as Hr.
    assert (Hc' : counted (alter (set_fref (ref_ x - 1)) i (files s)) (h1 ++ h2)).
    { apply (counted_set _ (h1 ++ i :: h2) _ _ x); [done|done| | |set_solver].
      - rewrite Hr, !handles_app, handles_cons, decide_True by done. lia.
      - intros k Hk. rewrite !handles_app, handles_cons, decide_False by done. lia. }
    eapply counted_same; [|exact Hc']. by apply fileclose_counts.
  - eapply counted_same; [|exact Hc]. by apply (fileread_counts i n _ _ _ E).
  - eapply counted_same; [|exact Hc]. by apply (filewrite_counts i addr n k _ _ _ E).
Qed.

(** Along any run of the kernel the reference count of a file slot is the
    number of handles to it, so a slot is reused only when no handle is left:
    [filealloc] returns a slot nobody holds, and fails only when every slot is
    held. *)
Theorem file_refs_count_handles (s0 s : kst) (hs : list nat)
    (H0 : Forall (λ x, ref_ x = 0) (files s0)) (Hrun : rtc fstep (s0, []) (s, hs)) :
  (∀ i x, files s !! i = Some x → ref_ x = handles hs i) ∧
  match filealloc s with
  | Ok (Some i, _) => i ∉ hs ∧ is_Some (files s !! i)
  | Ok (None, _) => ∀ i, is_Some (files s !! i) → i ∈ hs
  | _ => False
  end.
Proof.
  assert (Hc : counted (files (fst (s, hs))) (snd (s, hs))).
  { assert (Hc0 : counted (files (fst (s0, ([] : list nat)))) (snd (s0, ([] : list nat)))).
    { split; [|set_solver]. intros i x Hx. eapply Forall_lookup_1 in H0; [|done]. done. }
    revert Hc0. induction Hrun as [|c1 c2 c3 Hstep _ IH]; [done|]. intros H1. apply IH. by eapply counted_step. }
  simpl in Hc. split; [apply Hc|]. rewrite filealloc_spec.
  assert (Hin : ∀ i, i ∈ hs ↔ handles hs i ≠ 0).
  { intros i. unfold handles. split.
    - intros Hi E. assert (Hf : i ∈ filter (λ j, j = i) hs) by (apply list_elem_of_filter; done).
      destruct (filter _ hs); [set_solver|simpl in E; lia].
    - intros Hn. destruct (filter (λ j, j = i) hs) as [|j l] eqn:E; [simpl in Hn; lia|].
      assert (Hj : j ∈ filter (λ j, j = i) hs) by (rewrite E; left).
      apply list_elem_of_filter in Hj as [-> ?]. done. }
  pose proof (find_free_spec (files s) 0) as Hf. destruct (find_free 0 (files s)) as [i|].
  - destruct Hf as (x & _ & Hx & Hr). rewrite Nat.sub_0_r in Hx. split; [|by eexists].
    rewrite Hin, <- (proj1 Hc i x Hx). lia.
  - intros i [x Hx]. rewrite Hin, <- (proj1 Hc i x Hx). by eapply Hf.
Qed.

(** ** Pipes and their pages *)

(** What the last close of one end of the pipe at [p] does. *)
Lemma close_pipe_end f x q p s l :
  files s !! f = Some x → ref_ x = 1 → ftype x = FdPipe → f_pipe x = p → pipes s !! p = Some q →
  Kalloc.kinv kernel_end (k_mem s) l → Kalloc.page_ok kernel_end p → p ∉ l →
  let ro := writable x && readopen q in
  let wo := negb (writable x) && writeopen q in
  wp (fileclose f) s (λ _ s',
    files s' = alter clear_slot f (alter (set_fref 0) f (files s)) ∧
    if ro || wo then
      ∃ q', pipes s' = <[p := q']> (pipes s) ∧ readopen q' = ro ∧ writeopen q' = wo ∧ k_mem s' = k_mem s
    else pipes s' = delete p (pipes s) ∧ Kalloc.kinv kernel_end (k_mem s') (p :: l)).
Proof.
  intros Hx Hr Ht Hp Hq Hk Hpg Hl ro wo. unfold wp.
  rewrite (fileclose_spec f x) by (done || rewrite Hr; unfold i32_hi; lia). rewrite Hr.
  change (0 <? 1 - 1) with false. cbv iota. change (1 - 1) with 0. unfold last_close. rewrite Ht, Hp.
  match goal with |- match ?m ?s1 with _ => _ end => change (wp m s1 (λ _ s', 
    files s' = alter clear_slot f (alter (set_fref 0) f (files s)) ∧
    if ro || wo then
      ∃ q', pipes s' = <[p := q']> (pipes s) ∧ readopen q' = ro ∧ writeopen q' = wo ∧ k_mem s' = k_mem s
    else pipes s' = delete p (pipes s) ∧ Kalloc.kinv kernel_end (k_mem s') (p :: l))) end.
  unfold on_file. do 4 wp_step. unfold pipeclose. wp_step.
  destruct (Pipe.pipeclose_spec p (if writable x then 1 else 0) (mkP q (k_wakes s)))
    as (q' & E & _ & _ & _ & Hro & Hwo).
  eapply wp_eq.
  { unfold on_pipe_at. cbn [pipes k_wakes set_ft_lock set_files]. rewrite Hq, E. reflexivity. }
  assert (Hro' : readopen q' = ro) by (rewrite Hro; unfold ro; by destruct (writable x)).
  assert (Hwo' : writeopen q' = wo) by (rewrite Hwo; unfold wo; by destruct (writable x)).
  unfold is_dead. rewrite Hro', Hwo', <- negb_orb. destruct (ro || wo) eqn:Eo; cbn [negb].
  - wp_step. split; [done|]. by exists q'.
  - do 2 wp_step. unfold on_mem. apply wp_zoom. cbn [k_mem set_pipes].
    eapply wp_mono; [by apply (Kalloc.kfree_inv kernel_end (k_mem s) p l Hk)|].
    intros _ k' (Hk' & _). split; [done|]. split; [|exact Hk'].
    cbn [pipes set_pipes set_ft_lock set_files]. by rewrite delete_insert_eq.
Qed.

Lemma find_free_0 l i : find_free 0 l = Some i → ∃ x, l !! i = Some x ∧ ref_ x = 0.
Proof.
  intros E. pose proof (find_free_spec l 0) as H. rewrite E in H.
  destruct H as (x & _ & Hx & H0). rewrite Nat.sub_0_r in Hx. eauto.
Qed.

(** What [pipealloc] does when two slots and a page are free. *)
Lemma pipealloc_spec s p l a b :
  Kalloc.kinv kernel_end (k_mem s) (p :: l) →
  find_free 0 (files s) = Some a → find_free 0 (alter (set_fref 1) a (files s)) = Some b →
  wp pipealloc s (λ r s', r = (0, Some a, Some b) ∧ a ≠ b ∧
    Kalloc.kinv kernel_end (k_mem s') l ∧
    (∃ data, pipes s' = <[p := fresh_pipe data]> (pipes s)) ∧
    (∃ x, files s' !! a = Some x ∧ ref_ x = 1 ∧ ftype x = FdPipe ∧ f_pipe x = p ∧ writable x = false) ∧
    (∃ x, files s' !! b = Some x ∧ ref_ x = 1 ∧ ftype x = FdPipe ∧ f_pipe x = p ∧ writable x = true)).
Proof.
  intros Hk Ha Hb. destruct (find_free_0 _ _ Ha) as (x & Hx & Hx0).
  destruct (find_free_0 _ _ Hb) as (y & Hy & Hy0).
  assert (Hne : a ≠ b).
  { intros <-. rewrite list_lookup_alter_eq, Hx in Hy. injection Hy as <-. done. }
  pose proof (Kalloc.kalloc_inv _ _ _ _ Hk) as [Hka Hkl].
  destruct Hk as (_ & _ & Hok). apply Forall_cons in Hok as [Hp _].
  apply Kalloc.page_ok_nonzero in Hp.
  unfold pipealloc. wp_step. eapply wp_eq; [rewrite filealloc_spec, Ha; reflexivity|]. cbv beta iota.
  wp_step. eapply wp_eq; [rewrite filealloc_spec; cbn [files set_files]; rewrite Hb; reflexivity|]. cbv beta iota.
  wp_step. unfold on_mem at 1. apply wp_zoom. eapply wp_eq; [exact Hka|]. cbv beta.
  rewrite (proj2 (Z.eqb_neq p 0)) by lia. unfold on_file. do 7 wp_step.
  split; [done|]. split; [done|]. split; [exact Hkl|]. split; [by eexists|]. cbn [files set_files set_pipes].
  split.
  - eexists. rewrite list_lookup_alter_ne, list_lookup_alter_eq, list_lookup_alter_ne, list_lookup_alter_eq, Hx by done.
    done.
  - eexists. rewrite list_lookup_alter_eq, list_lookup_alter_ne, list_lookup_alter_eq by done.
    cbn [files set_files set_ft_lock]. rewrite Hy. done.
Qed.

(** A pipe has its page exactly as long as one of its ends is open.
    [pipealloc] takes a page off the free list; after the last close of one
    end, whichever it is, the pipe is still there and the page is not free;
    after the last close of the other the page is free again and the pipe is
    gone. *)
Theorem pipe_page_lifetime (s : kst) (p : Z) (l : list Z) (a b : nat)
    (Hk : Kalloc.kinv kernel_end (k_mem s) (p :: l)) (Hp : pipes s !! p = None)
    (Ha : find_free 0 (files s) = Some a)
    (Hb : find_free 0 (alter (set_fref 1) a (files s)) = Some b) :
  wp pipealloc s (λ r s1, r = (0, Some a, Some b) ∧
    Kalloc.kinv kernel_end (k_mem s1) l ∧
    ∀ f g, (f = a ∧ g = b) ∨ (f = b ∧ g = a) →
      wp (fileclose f) s1 (λ _ s2,
        is_Some (pipes s2 !! p) ∧ Kalloc.kinv kernel_end (k_mem s2) l ∧
        wp (fileclose g) s2 (λ _ s3,
          pipes s3 = pipes s ∧ Kalloc.kinv kernel_end (k_mem s3) (p :: l)))).
Proof.
  assert (Hpg : Kalloc.page_ok kernel_end p ∧ p ∉ l).
  { destruct Hk as (_ & Hnd & Hok). apply Forall_cons in Hok as [? _]. by apply NoDup_cons in Hnd as [? _]. }
  eapply wp_mono; [by apply (pipealloc_spec s p l a b)|].
  intros r s1 (-> & Hne & Hkl & (data & Hps) & (x & Hx & Hx1 & Hx2 & Hx3 & Hx4) & (y & Hy & Hy1 & Hy2 & Hy3 & Hy4)).
  split; [done|]. split; [done|].
  assert (Hq : pipes s1 !! p = Some (fresh_pipe data)) by (rewrite Hps; apply lookup_insert_eq).
  (* closing [f] and then [g], whose files are [u] and [v] *)
  assert (Hclose : ∀ f g u v, f ≠ g → files s1 !! f = Some u → files s1 !! g = Some v →
    ref_ u = 1 → ftype u = FdPipe → f_pipe u = p → ref_ v = 1 → ftype v = FdPipe → f_pipe v = p →
    writable v = negb (writable u) →
    wp (fileclose f) s1 (λ _ s2, is_Some (pipes s2 !! p) ∧ Kalloc.kinv kernel_end (k_mem s2) l ∧
      wp (fileclose g) s2 (λ _ s3, pipes s3 = pipes s ∧ Kalloc.kinv kernel_end (k_mem s3) (p :: l)))).
  { intros f g u v Hfg Hu Hv U1 U2 U3 V1 V2 V3 Hw.
    destruct Hpg as [Hpg Hpl].
    eapply wp_mono; [apply (close_pipe_end f u (fresh_pipe data) p s1 l); assumption|].
    intros _ s2 [Hf2 H2]. cbv beta in H2. simpl in H2. rewrite !andb_true_r in H2.
    assert (E : writable u || negb (writable u) = true) by (by destruct (writable u)). rewrite E in H2.
    destruct H2 as (q' & Hp2 & Hro & Hwo & Hm2). rewrite Hm2, Hp2, lookup_insert_eq.
    split; [by eexists|]. split; [done|].
    eapply wp_mono; [apply (close_pipe_end g v q' p s2 l)|]; try done.
    - rewrite Hf2, !list_lookup_alter_ne by done. done.
    - rewrite Hp2. apply lookup_insert_eq.
    - by rewrite Hm2.
    - intros _ s3 [_ H3]. rewrite Hw, Hro, Hwo in H3. destruct (writable u); simpl in H3.
      all: destruct H3 as [Hp3 Hk3]; split; [|exact Hk3].
      all: rewrite Hp3, Hp2, Hps, delete_insert_eq, delete_insert_eq; by apply delete_id. }
  intros f g [[-> ->]|[-> ->]].
  - apply (Hclose a b x y); try done. by rewrite Hx4.
  - apply (Hclose b a y x); try done. by rewrite Hy4.
Qed.

End file.

(** ** Witnesses *)

Definition fs_none : fstate (D := Memide.memdisk) :=
  mkFs (boot disk1 1) sb_zero (mkSpin 0 EmptyString None) [] [] None.
Definition k0 : kst (D := Memide.memdisk) :=
  mkK fs_none (mkSpin 0 EmptyString None) (replicate (Z.to_nat NFILE) EMPTY) ∅
      Kalloc.boot3 [] 0.
Definition no_dev {A} (_ : Z) : option A := None.

Lemma file_refs_count_handles_witness :
  ∃ s, rtc (fstep 0 no_dev no_dev) (k0, []) (s, [0%nat; 0%nat]) ∧
    ∃ x, files s !! 0%nat = Some x ∧ ref_ x = handles [0%nat; 0%nat] 0 ∧ ref_ x = 2.
Proof.
  assert (Hf : find_free 0 (files k0) = Some 0%nat) by (vm_compute; reflexivity).
  pose proof (filealloc_spec k0) as Ha. rewrite Hf in Ha. set (k1 := set_files _ _) in Ha.
  assert (Hx : files k1 !! 0%nat = Some (set_fref 1 EMPTY)) by (vm_compute; reflexivity).
  pose proof (filedup_spec 0 _ k1 Hx ltac:(simpl; lia) ltac:(simpl; unfold i32_hi; lia)) as Hd.
  set (k2 := set_files _ _) in Hd. exists k2.
  assert (Hrun : rtc (fstep 0 no_dev no_dev) (k0, []) (k2, [0%nat; 0%nat])).
  { eapply rtc_l; [apply (fst_alloc _ _ _ k0 k1 [] 0 Ha)|].
    eapply rtc_l; [apply (fst_dup _ _ _ k1 k2 [0%nat] 0 0); [left|exact Hd]|]. apply rtc_refl. }
  destruct (file_refs_count_handles 0 no_dev no_dev k0 k2 [0%nat; 0%nat]
    ltac:(apply Forall_replicate; reflexivity) Hrun) as [H1 _].
  split; [exact Hrun|]. exists (set_fref 2 EMPTY).
  assert (Hy : files k2 !! 0%nat = Some (set_fref 2 EMPTY)) by (vm_compute; reflexivity).
  split; [exact Hy|]. split; [|reflexivity]. apply H1. exact Hy.
Defined.

Lemma pipe_page_lifetime_witness :
  ∃ p l, Kalloc.kinv Kalloc.end0 (k_mem k0) (p :: l) ∧
    wp (pipealloc Kalloc.end0) k0 (λ r s1, r = (0, Some 0%nat, Some 1%nat) ∧ Kalloc.kinv Kalloc.end0 (k_mem s1) l).
Proof.
  pose proof Kalloc.boot3_inv as Hk. change Kalloc.boot3 with (k_mem k0) in Hk.
  destruct (Kalloc.pages_rev Kalloc.end0 3) as [|p l] eqn:E; [vm_compute in E; congruence|].
  exists p, l. split; [exact Hk|].
  eapply wp_mono; [apply (pipe_page_lifetime Kalloc.end0 k0 p l 0 1 Hk);
    [apply lookup_empty|vm_compute; reflexivity|vm_compute; reflexivity]|].
  intros r s1 (H1 & H2 & _). split; [exact H1|exact H2].
Defined.

End File.
