(* ===== verification/Vm.v ===== *)
(** * Virtual memory

    crates/arch/src/vm.rs: page tables, the user part of an address space, and
    the segment and system-call setup. Page tables live in physical memory,
    reached through the direct map; the state is that of the page allocator,
    which has the memory. What the code does to processor registers is a list
    of hardware events.

    The abstraction is [pgtree]: the tables of a tree by their path of
    indices. It gives the entry of each user address, and [mappages] and the
    functions above it are specified by what they do to those entries. *)

From S2P Require Import Prelude Param Mmu Mem Kalloc.
Import Mmu Mem.

Module Vm.

(** Privileged instructions, in the order they are issued. *)
Inductive hwop : Type :=
| Wrmsr (msr v : Z)
| Lgdt (base size : Z)
| Lidt (base size : Z)
| Ltr (sel : Z)
| Lcr3 (a : Z).

Definition MSR_STAR : Z := 0xC0000081.
Definition MSR_LSTAR : Z := 0xC0000082.
Definition MSR_CSTAR : Z := 0xC0000083.
Definition MSR_SFMASK : Z := 0xC0000084.
Definition MSR_FS_BASE : Z := 0xC0000100.
Definition SEG_KCODE : Z := 1.
Definition SEG_KDATA : Z := 2.
Definition SEG_UCODE32 : Z := 3.
Definition SEG_UDATA : Z := 4.
Definition SEG_UCODE : Z := 5.
Definition SEG_KCPU : Z := 6.
Definition SEG_TSS : Z := 7.
Definition NSEGS : Z := 8.
Definition DPL_USER : Z := 3.
Definition APP_SEG : Z := 1.
Definition USER32_CS : Z := Z.lor (Z.shiftl SEG_UCODE32 3) DPL_USER.
Definition KERNEL_CS : Z := Z.shiftl SEG_KCODE 3.
Definition STA_X : Z := 0x8.
Definition STA_W : Z := 0x2.
Definition STA_R : Z := 0x2.
Definition STS_T64A : Z := 0x9.
(** [FL_TF | FL_DF | FL_IF | FL_IOPL_3 | FL_AC | FL_NT]. *)
Definition SFMASK : Z :=
  Z.lor (Z.lor (Z.lor (Z.lor (Z.lor 0x100 0x400) FL_IF) 0x3000) 0x40000) 0x4000.

Definition vm := M Kalloc.kmem_t.
Definition rd (a : Z) : vm Z := gets (λ k, load64 (Kalloc.kmem_mem k) a).
Definition wr (a v : Z) : vm unit :=
  modify (λ k, Kalloc.set_mem (store64 a v (Kalloc.kmem_mem k)) k).
Definition on_bytes (f : mem → mem) : vm unit :=
  modify (λ k, Kalloc.set_mem (f (Kalloc.kmem_mem k)) k).

(** [P2V] of vm.rs, whose addition is checked. *)
Definition p2v (a : Z) : vm Z := chk_u64 (a + KERNBASE).

Definition present (e : Z) : bool := negb (Z.land e PTE_P =? 0).

Section vm.
Context (kernel_end : Z).

(** ** System calls and segments *)

(** The addresses of [syscall_entry] and [ignore_sysret]. *)
Definition syscallinit (syscall_entry ignore_sysret : Z) : list hwop :=
  [Wrmsr MSR_STAR (Z.lor (Z.shiftl USER32_CS 48) (Z.shiftl KERNEL_CS 32));
   Wrmsr MSR_LSTAR syscall_entry;
   Wrmsr MSR_CSTAR ignore_sysret;
   Wrmsr MSR_SFMASK SFMASK].

(** The eight bytes of a descriptor. *)
Definition seg_bytes (d : segdesc) : list Z :=
  le_bytes 2 (lim_15_0 d) ++ le_bytes 2 (base_15_0 d) ++
  [base_23_16 d; access d; sflags d; base_31_24 d].
Definition seg_default : segdesc := mkSeg 0 0 0 0 0 0.
Definition put_seg (gdt i : Z) (d : segdesc) : vm unit :=
  on_bytes (store_bytes (gdt + 8 * i) (seg_bytes d)).

(** The per-CPU page, which the caller stores in [cpus[cpunum].local], and
    the instructions issued. *)
Definition seginit : vm (Z * list hwop) :=
  let* local := Kalloc.kalloc in
  if local =? 0 then panic "seginit: kalloc failed"
  else
    on_bytes (memset local 0 PGSIZE) ;;;
    let gdt := local in
    let tss := local + 1024 in
    on_bytes (store_bytes (tss + 4 * 16) (le_bytes 4 0x00680000)) ;;;
    let* fsbase := chk_u64 (local + 2048) in
    let addr := tss in
    put_seg gdt 0 seg_default ;;;
    put_seg gdt SEG_KCODE (seg_new (Z.lor STA_X STA_R) 0 0 APP_SEG 0 1) ;;;
    put_seg gdt SEG_KDATA (seg_new STA_W 0 0 APP_SEG 0 0) ;;;
    put_seg gdt SEG_UCODE32 seg_default ;;;
    put_seg gdt SEG_UDATA (seg_new STA_W 0 0 APP_SEG DPL_USER 0) ;;;
    put_seg gdt SEG_UCODE (seg_new (Z.lor STA_X STA_R) 0 0 APP_SEG DPL_USER 1) ;;;
    put_seg gdt SEG_KCPU seg_default ;;;
    put_seg gdt SEG_TSS (seg_new STS_T64A 0xB (as_u32 addr) 0 DPL_USER 0) ;;;
    put_seg gdt (SEG_TSS + 1)
      (seg_new 0 (as_u32 (Z.shiftr addr 32)) (as_u32 (Z.shiftr addr 48)) 0 0 0) ;;;
    ret (local, [Wrmsr MSR_FS_BASE fsbase; Lgdt gdt ((NSEGS + 1) * 8); Ltr (Z.shiftl SEG_TSS 3)]).

(** ** Kernel page tables *)

(** [kpdpt] is the kernel's page-directory-pointer table. *)
Definition setupkvm (kpdpt : Z) : vm Z :=
  let* pml4 := Kalloc.kalloc in
  if pml4 =? 0 then ret 0
  else
    on_bytes (memset pml4 0 PGSIZE) ;;;
    wr (pml4 + 8 * 256) (Z.lor (Z.lor (V2P kpdpt) PTE_P) PTE_W) ;;;
    ret pml4.

Definition switchkvm (kpml4 : Z) : list hwop := [Lcr3 (V2P kpml4)].

(** [kpml4], [kpdpt] and the switch to the new tables. *)
Definition kvmalloc : vm (Z * Z * list hwop) :=
  let* kpml4 := Kalloc.kalloc in
  on_bytes (memset kpml4 0 PGSIZE) ;;;
  let* kpdpt := Kalloc.kalloc in
  on_bytes (memset kpdpt 0 PGSIZE) ;;;
  wr (kpml4 + 8 * PMX KERNBASE) (Z.lor (Z.lor (V2P kpdpt) PTE_P) PTE_W) ;;;
  wr (kpdpt + 8 * 0) (Z.lor (Z.lor (Z.lor 0 PTE_PS) PTE_P) PTE_W) ;;;
  wr (kpdpt + 8 * 3)
     (Z.lor (Z.lor (Z.lor (Z.lor (Z.lor 0xC0000000 PTE_PS) PTE_P) PTE_W) PTE_PWT) PTE_PCD) ;;;
  ret (kpml4, kpdpt, switchkvm kpml4).

(** ** Walking *)

(** One level of [walkpgdir]: the table an entry points to; 0 is the null
    pointer. *)
Definition walk_level (entry : Z) (alloc : bool) : vm Z :=
  let* e := rd entry in
  if present e then p2v (PTE_ADDR e)
  else if negb alloc then ret 0
  else
    let* p := Kalloc.kalloc in
    if p =? 0 then ret 0
    else
      on_bytes (memset p 0 PGSIZE) ;;;
      wr entry (Z.lor (Z.lor (Z.lor (V2P p) PTE_P) PTE_W) PTE_U) ;;;
      ret p.

Definition walkpgdir (pml4 va : Z) (alloc : bool) : vm Z :=
  let* pdp := walk_level (pml4 + 8 * PMX va) alloc in
  if pdp =? 0 then ret 0
  else
    let* pd := walk_level (pdp + 8 * PDPX va) alloc in
    if pd =? 0 then ret 0
    else
      let* pgtab := walk_level (pd + 8 * PDX va) alloc in
      if pgtab =? 0 then ret 0
      else ret (pgtab + 8 * PTX va).

Fixpoint mappages_loop (fuel : nat) (pgdir a last pa perm : Z) : vm Z :=
  match fuel with
  | O => nofuel
  | S fuel' =>
      let* pte := walkpgdir pgdir a true in
      if pte =? 0 then ret (-1)
      else
        let* e := rd pte in
        if present e then panic "remap"
        else
          wr pte (Z.lor (Z.lor pa perm) PTE_P) ;;;
          if a =? last then ret 0
          else
            let* a := chk_u64 (a + PGSIZE) in
            let* pa := chk_u64 (pa + PGSIZE) in
            mappages_loop fuel' pgdir a last pa perm
  end.

Definition mappages (pgdir va size pa perm : Z) : vm Z :=
  let a := PGROUNDDOWN va in
  let* e := chk_u64 (va + size) in
  let* e := chk_u64 (e - 1) in
  let last := PGROUNDDOWN e in
  mappages_loop (S (Z.to_nat (size / PGSIZE + 1))) pgdir a last pa perm.

(** [init] is the bytes of the program image. *)
Definition inituvm (pgdir : Z) (init : list Z) (sz : Z) : vm unit :=
  if PGSIZE <=? sz then panic "inituvm: more than a page"
  else
    let* m := Kalloc.kalloc in
    on_bytes (memset m 0 PGSIZE) ;;;
    let* _ := mappages pgdir PGSIZE PGSIZE (V2P m) (Z.lor PTE_W PTE_U) in
    on_bytes (store_bytes m (take (Z.to_nat sz) init)).

(** ** Growing and shrinking *)

Fixpoint dealloc_loop (fuel : nat) (pgdir a oldsz : Z) : vm unit :=
  match fuel with
  | O => nofuel
  | S fuel' =>
      if a <? oldsz then
        let* pte := walkpgdir pgdir a false in
        (if negb (pte =? 0) then
           let* e := rd pte in
           if present e then
             let pa := PTE_ADDR e in
             if pa =? 0 then panic "kfree"
             else
               let* v := p2v pa in
               Kalloc.kfree kernel_end v ;;;
               wr pte 0
           else ret tt
         else ret tt) ;;;
        let* a := chk_u64 (a + PGSIZE) in
        dealloc_loop fuel' pgdir a oldsz
      else ret tt
  end.

Definition deallocuvm (pgdir oldsz newsz : Z) : vm Z :=
  if oldsz <=? newsz then ret oldsz
  else
    let* a := PGROUNDUP newsz in
    dealloc_loop (S (Z.to_nat ((oldsz - newsz) / PGSIZE + 1))) pgdir a oldsz ;;;
    ret newsz.

Fixpoint alloc_loop (fuel : nat) (pgdir a oldsz newsz : Z) : vm Z :=
  match fuel with
  | O => nofuel
  | S fuel' =>
      if a <? newsz then
        let* m := Kalloc.kalloc in
        if m =? 0 then
          let* _ := deallocuvm pgdir newsz oldsz in
          ret 0
        else
          on_bytes (memset m 0 PGSIZE) ;;;
          let* r := mappages pgdir a PGSIZE (V2P m) (Z.lor PTE_W PTE_U) in
          if r <? 0 then
            let* _ := deallocuvm pgdir newsz oldsz in
            Kalloc.kfree kernel_end m ;;;
            ret 0
          else
            let* a := chk_u64 (a + PGSIZE) in
            alloc_loop fuel' pgdir a oldsz newsz
      else ret newsz
  end.

Definition allocuvm (pgdir oldsz newsz : Z) : vm Z :=
  if KERNBASE <=? newsz then ret 0
  else if newsz <? oldsz then ret oldsz
  else
    let* a := PGROUNDUP oldsz in
    alloc_loop (S (Z.to_nat ((newsz - oldsz) / PGSIZE + 1))) pgdir a oldsz newsz.

(** ** Tearing down and copying *)

(** The loop over the entries of a table: [body] gets the table an entry
    points to, when it is present. *)
Definition for_entries (n tab : Z) (body : Z → vm unit) : vm unit :=
  forM (seqZ 0 n) (λ i,
    let* e := rd (tab + 8 * i) in
    if negb (present e) then ret tt
    else
      let* p := p2v (PTE_ADDR e) in
      body p).

Definition freevm (pml4 : Z) : vm unit :=
  if pml4 =? 0 then panic "freevm: no pgdir"
  else
    for_entries (NPDENTRIES / 2) pml4 (λ pdp,
      for_entries NPDENTRIES pdp (λ pd,
        for_entries NPDENTRIES pd (λ pt,
          for_entries NPDENTRIES pt (λ v, Kalloc.kfree kernel_end v) ;;;
          Kalloc.kfree kernel_end pt) ;;;
        Kalloc.kfree kernel_end pd) ;;;
      Kalloc.kfree kernel_end pdp) ;;;
    Kalloc.kfree kernel_end pml4.

Definition clearpteu (pgdir uva : Z) : vm unit :=
  let* pte := walkpgdir pgdir uva false in
  if pte =? 0 then panic "clearpteu"
  else
    let* e := rd pte in
    wr pte (Z.land e (not_u64 PTE_U)).

Fixpoint copy_loop (fuel : nat) (d pgdir sz i : Z) : vm Z :=
  match fuel with
  | O => nofuel
  | S fuel' =>
      if i <? sz then
        let* pte := walkpgdir pgdir i false in
        if pte =? 0 then panic "copyuvm: pte should exist"
        else
          let* e := rd pte in
          if negb (present e) then panic "copyuvm: page not present"
          else
            let pa := PTE_ADDR e in
            let flags := PTE_FLAGS e in
            let* m := Kalloc.kalloc in
            if m =? 0 then freevm d ;;; ret 0
            else
              let* src := p2v pa in
              on_bytes (memcpy m src PGSIZE) ;;;
              let* r := mappages d i PGSIZE (V2P m) flags in
              if r <? 0 then freevm d ;;; ret 0
              else
                let* i := chk_u64 (i + PGSIZE) in
                copy_loop fuel' d pgdir sz i
      else ret d
  end.

(** [sz] is a 32-bit parameter. *)
Definition copyuvm (kpdpt pgdir sz : Z) : vm Z :=
  let* d := setupkvm kpdpt in
  if d =? 0 then ret 0
  else copy_loop (S (Z.to_nat (sz / PGSIZE + 1))) d pgdir sz PGSIZE.

Definition uva2ka (pgdir uva : Z) : vm Z :=
  let* pte := walkpgdir pgdir uva false in
  if pte =? 0 then ret 0
  else
    let* e := rd pte in
    if negb (present e) || (Z.land e PTE_U =? 0) then ret 0
    else p2v (PTE_ADDR e).

(** [p] is the bytes at the source pointer. *)
Fixpoint copyout_loop (fuel : nat) (pgdir va : Z) (p : list Z) (len : Z) : vm Z :=
  match fuel with
  | O => nofuel
  | S fuel' =>
      if 0 <? len then
        let va0 := PGROUNDDOWN va in
        let* pa0 := uva2ka pgdir va0 in
        if pa0 =? 0 then ret (-1)
        else
          let n := Z.min (PGSIZE - (va - va0)) len in
          on_bytes (store_bytes (pa0 + (va - va0)) (take (Z.to_nat n) p)) ;;;
          let* va := chk_u64 (va0 + PGSIZE) in
          copyout_loop fuel' pgdir va (drop (Z.to_nat n) p) (len - n)
      else ret 0
  end.
Definition copyout (pgdir va : Z) (p : list Z) (len : Z) : vm Z :=
  copyout_loop (S (Z.to_nat (len / PGSIZE + 2))) pgdir va p len.

End vm.
End Vm.
