(* ===== verification/VmTree.v ===== *)
(** * Page tables as trees

    The tables reached from a root by their paths of indices, and what
    [walkpgdir] and [mappages] of crates/arch/src/vm.rs do to the entries of
    user addresses. *)

From S2P Require Import Prelude Param Mmu Mem Kalloc Vm.
Import Mmu Mem Vm.

Module VmTree.

Section tree.
Context (kernel_end : Z).

Abbreviation page_ok := (Kalloc.page_ok kernel_end).
Abbreviation kinv := (Kalloc.kinv kernel_end).

(** Index [i] of the table at path [p]; the upper half of the root belongs to
    the kernel. *)
Definition index_ok (p : list Z) (i : Z) : Prop := 0 ≤ i < 512 ∧ (p = [] → i < 256).

(** [T] has the tables of the user half of the tree at [root] in [m]; [fl] are
    the free pages. *)
Record pgtree (m : mem) (root : Z) (T : gmap (list Z) Z) (fl : list Z) : Prop := {
  pt_root : T !! [] = Some root;
  pt_page p pg : T !! p = Some pg → page_ok pg ∧ pg ∉ fl ∧ (length p ≤ 3)%nat;
  pt_inj p q pg : T !! p = Some pg → T !! q = Some pg → p = q;
  pt_entry p pg i : T !! p = Some pg → (length p < 3)%nat → index_ok p i →
    T !! (p ++ [i]) = (if present (load64 m (pg + 8 * i))
                       then Some (PTE_ADDR (load64 m (pg + 8 * i)) + KERNBASE) else None);
  pt_dom p i pg : T !! (p ++ [i]) = Some pg → index_ok p i ∧ is_Some (T !! p);
}.

(** User addresses, and the path of the table with their entry. *)
Definition user_va (va : Z) : Prop := 0 ≤ va < 2 ^ 47.
Definition vpath (va : Z) : list Z := [PMX va; PDPX va; PDX va].

(** The entry of an address; no table is no entry. *)
Definition pte_of (m : mem) (T : gmap (list Z) Z) (va : Z) : Z :=
  match T !! vpath va with
  | Some pg => load64 m (pg + 8 * PTX va)
  | None => 0
  end.

Lemma user_index va : user_va va → index_ok [] (PMX va).
Proof.
  intros H. split; [apply (index_bound va)|]. intros _. unfold user_va in H.
  unfold PMX, PML4XSHIFT. rewrite index_mod by lia. change (2 ^ 47) with 140737488355328 in H.
  change (2 ^ 39) with 549755813888. Z.to_euclidean_division_equations. lia.
Qed.

Lemma deep_index i p : 0 ≤ i < 512 → p ≠ [] → index_ok p i.
Proof. intros Hi Hp. split; [done|]. intros ->. done. Qed.

(** The indices depend on the page only. *)
Lemma index_page va vb :
  va - va mod PGSIZE = vb - vb mod PGSIZE → vpath va = vpath vb ∧ PTX va = PTX vb.
Proof.
  intros E. assert (Hq : va / 4096 = vb / 4096).
  { unfold PGSIZE in E. Z.to_euclidean_division_equations. lia. }
  assert (Hi : ∀ x k, 0 ≤ k → Z.land (Z.shiftr x (12 + k)) PXMASK = x / 4096 / 2 ^ k mod 512).
  { intros x k Hk. rewrite index_mod by lia. rewrite Z.pow_add_r, <- Z.div_div by lia. done. }
  unfold vpath, PMX, PDPX, PDX, PTX, PML4XSHIFT, PDPXSHIFT, PDXSHIFT, PTXSHIFT.
  change 39 with (12 + 27). change 30 with (12 + 18). change 21 with (12 + 9). change 12 with (12 + 0) at 7 8.
  rewrite !Hi by lia. by rewrite Hq.
Qed.

(** Two user addresses with the same entry are on the same page. *)
Lemma same_entry va vb :
  user_va va → user_va vb → vpath va = vpath vb → PTX va = PTX vb →
  va - va mod PGSIZE = vb - vb mod PGSIZE.
Proof.
  intros Ha Hb [= E1 E2 E3] E4. unfold user_va in *. change (2 ^ 47) with 140737488355328 in *.
  pose proof (va_split va) as Hva. pose proof (va_split vb) as Hvb.
  rewrite E1, E2, E3, E4 in Hva. change (2 ^ 48) with 281474976710656 in *.
  specialize (Hva ltac:(lia)). specialize (Hvb ltac:(lia)). lia.
Qed.

(** ** Frames *)

Lemma store_in_page_kinv k fl pg a v :
  kinv k fl → page_ok pg → pg ∉ fl → pg ≤ a → a + 8 ≤ pg + PGSIZE →
  kinv (Kalloc.set_mem (store64 a v (Kalloc.kmem_mem k)) k) fl.
Proof.
  intros Hk Hp Hn H1 H2. apply (Kalloc.kinv_page _ _ _ _ pg); [done..|]. intros x Hx. apply store64_out. lia.
Qed.

Lemma memset_page_kinv k fl pg v :
  kinv k fl → page_ok pg → pg ∉ fl →
  kinv (Kalloc.set_mem (memset pg v PGSIZE (Kalloc.kmem_mem k)) k) fl.
Proof. intros Hk Hp Hn. apply (Kalloc.kinv_page _ _ _ _ pg); [done..|]. intros x Hx. by apply memset_out. Qed.

(** The entries of a table are disjoint words of its page. *)
Lemma entry_apart pg qg i j :
  page_ok pg → page_ok qg → 0 ≤ i < 512 → 0 ≤ j < 512 → (pg, i) ≠ (qg, j) →
  pg + 8 * i + 8 ≤ qg + 8 * j ∨ qg + 8 * j + 8 ≤ pg + 8 * i.
Proof.
  intros Hp Hq Hi Hj Hne. destruct (decide (pg = qg)) as [->|Hpq].
  - assert (i ≠ j) by (intros ->; done). lia.
  - destruct (Kalloc.pages_apart pg qg (proj1 Hp) (proj1 Hq) Hpq); unfold PGSIZE in *; lia.
Qed.

(** Storing a leaf entry leaves the tree. *)
Lemma pgtree_store_leaf m root T fl p pg i v :
  pgtree m root T fl → T !! p = Some pg → length p = 3%nat → 0 ≤ i < 512 →
  pgtree (store64 (pg + 8 * i) v m) root T fl.
Proof.
  intros Ht Hp Hlen Hi. destruct Ht as [H1 H2 H3 H4 H5]. split; try done.
  intros q qg j Hq Hl Hj. rewrite load64_store64_other; [by apply H4|].
  apply entry_apart; [by eapply H2|by eapply H2|done|apply Hj|].
  intros [= -> ->]. assert (p = q) as -> by (by eapply H3). lia.
Qed.

(** A leaf entry is changed, the others are not. *)
Lemma pte_of_store m root T fl va pg v vb :
  pgtree m root T fl → user_va va → T !! vpath va = Some pg → 0 ≤ v < u64_max → user_va vb →
  pte_of (store64 (pg + 8 * PTX va) v m) T vb =
  if decide (vb - vb mod PGSIZE = va - va mod PGSIZE) then v else pte_of m T vb.
Proof.
  intros Ht Hva Hp Hv Hvb. unfold pte_of.
  destruct (decide (vpath vb = vpath va ∧ PTX vb = PTX va)) as [[E1 E2]|Hne].
  - rewrite decide_True by (by apply same_entry). rewrite E1, Hp, E2. by apply load64_store64.
  - rewrite decide_False.
    + destruct (T !! vpath vb) as [qg|] eqn:Eq; [|done]. apply load64_store64_other.
      apply entry_apart; [by eapply Ht|by eapply Ht|apply (index_bound va)|apply (index_bound vb)|].
      intros [= -> Ex]. apply Hne. split; [|done]. by eapply (pt_inj _ _ _ _ Ht).
    + intros E. by apply Hne, index_page.
Qed.

(** ** Entries *)

Lemma lor_flags x f : x mod PGSIZE = 0 → 0 ≤ f < PGSIZE → Z.lor x f = x + f.
Proof.
  intros Hx Hf. unfold PGSIZE in *.
  assert (Hd : Z.land x f = 0).
  { replace f with (Z.land f (2 ^ 12 - 1)) by (rewrite land_mask by lia; apply Z.mod_small; lia).
    rewrite (Z.land_comm f), Z.land_assoc, land_mask by lia.
    change (2 ^ 12) with 4096. by rewrite Hx, Z.land_0_l. }
  by rewrite <- Z.lxor_lor, <- Z.add_nocarry_lxor by done.
Qed.

Lemma entry_fields x f :
  x mod PGSIZE = 0 → 0 ≤ x → x + f < u64_max → 0 ≤ f < PGSIZE → f mod 2 = 1 →
  present (x + f) = true ∧ PTE_ADDR (x + f) = x.
Proof.
  intros Hx H0 Hlt Hf Hodd. split.
  - unfold present, PTE_P. change 0x001 with (2 ^ 1 - 1). rewrite land_mask by lia.
    apply negb_true_iff, Z.eqb_neq. unfold PGSIZE in *. change (2 ^ 1) with 2.
    Z.to_euclidean_division_equations. lia.
  - rewrite PTE_ADDR_eq by lia. unfold PGSIZE in *. Z.to_euclidean_division_equations. lia.
Qed.

Lemma page_phys f : page_ok f → V2P f = f - KERNBASE ∧ V2P f mod PGSIZE = 0 ∧ 0 ≤ V2P f < PHYSTOP.
Proof.
  intros (Hm & _ & Hr). assert (E : V2P f = f - KERNBASE).
  { apply Z.mod_small. unfold KERNBASE, PHYSTOP, u64_max in *. lia. }
  rewrite E. split; [done|]. split; [|lia].
  unfold KERNBASE, PGSIZE in *. Z.to_euclidean_division_equations. lia.
Qed.

(** The entry [walkpgdir] stores for a new table. *)
Definition table_entry (f : Z) : Z := Z.lor (Z.lor (Z.lor (V2P f) PTE_P) PTE_W) PTE_U.

Lemma table_entry_spec f :
  page_ok f → 0 ≤ table_entry f < u64_max ∧ present (table_entry f) = true ∧
              PTE_ADDR (table_entry f) + KERNBASE = f.
Proof.
  intros Hf. destruct (page_phys f Hf) as (E & Hm & Hr). unfold table_entry.
  rewrite <- !Z.lor_assoc. change (Z.lor PTE_P (Z.lor PTE_W PTE_U)) with 7.
  rewrite lor_flags by (done || unfold PGSIZE; lia). unfold PHYSTOP, u64_max in *.
  destruct (entry_fields (V2P f) 7) as [H1 H2]; try done; unfold PGSIZE, u64_max; try lia.
  rewrite H2. split_and!; [lia|lia|done|lia].
Qed.

(** ** A new table *)

Lemma pgtree_new m root T f fl p pg i :
  pgtree m root T (f :: fl) → NoDup (f :: fl) → page_ok f →
  T !! p = Some pg → (length p < 3)%nat → index_ok p i → T !! (p ++ [i]) = None →
  pgtree (store64 (pg + 8 * i) (table_entry f) (memset f 0 PGSIZE m)) root (<[p ++ [i] := f]> T) fl.
Proof.
  intros Ht Hnd Hf Hp Hlen Hi Hnone. pose proof Ht as [H1 H2 H3 H4 H5].
  apply NoDup_cons in Hnd as [Hffl _].
  destruct (table_entry_spec f Hf) as (He1 & He2 & He3).
  assert (Hfree : ∀ q, T !! q ≠ Some f) by (intros q Hq; apply H2 in Hq as (_ & Hn & _); set_solver).
  assert (Hpg : page_ok pg) by (by eapply H2).
  assert (Hpf : pg ≠ f) by (intros ->; by apply (Hfree p)).
  split.
  - rewrite lookup_insert_ne; [done|]. intros E. by apply app_nil in E as [_ E].
  - intros q qg [[<- <-]|[_ Hq]]%lookup_insert_Some.
    + split_and!; [done|done|]. rewrite length_app. simpl. lia.
    + apply H2 in Hq as (? & ? & ?). split_and!; [done|set_solver|done].
  - intros q q' qg [[<- <-]|[_ Hq]]%lookup_insert_Some [[<- E]|[_ Hq']]%lookup_insert_Some; try done.
    + by apply Hfree in Hq'.
    + subst. by apply Hfree in Hq.
    + by eapply H3.
  - intros q qg j [[<- <-]|[Hne Hq]]%lookup_insert_Some Hl Hj.
    + rewrite lookup_insert_ne by (intros E; apply (f_equal length) in E; rewrite !length_app in E; simpl in E; lia).
      rewrite load64_store64_other.
      2: { destruct Hi as [Hi _], Hj as [Hj _]. apply entry_apart; try done. congruence. }
      rewrite load64_memset_zero by (destruct Hj as [Hj _]; unfold PGSIZE; lia).
      destruct (T !! ((p ++ [i]) ++ [j])) eqn:E; [|done]. apply H5 in E as [_ [x Hx]]. congruence.
    + assert (Hqg : page_ok qg ∧ qg ≠ f).
      { split; [by eapply H2|]. intros ->. by apply (Hfree q). }
      destruct Hqg as [Hqg Hqf]. assert (Hmem : load64 (memset f 0 PGSIZE m) (qg + 8 * j) = load64 m (qg + 8 * j)).
      { apply load64_memset_other. destruct Hj as [Hj _].
        destruct (Kalloc.pages_apart qg f (proj1 Hqg) (proj1 Hf) Hqf); unfold PGSIZE in *; lia. }
      destruct (decide ((q, j) = (p, i))) as [[= -> ->]|Hqj].
      * rewrite lookup_insert_eq. assert (qg = pg) as -> by congruence.
        rewrite load64_store64, He2, He3 by done. done.
      * rewrite lookup_insert_ne by (intros [-> E]%app_inj_tail; congruence).
        rewrite load64_store64_other, Hmem; [by apply H4|].
        destruct Hi as [Hi _], Hj as [Hj _]. apply entry_apart; try done. intros [= -> ->].
        apply Hqj. f_equal. by eapply H3.
  - intros q j qg [[E _]|[_ Hq]]%lookup_insert_Some.
    + apply app_inj_tail in E as [-> ->]. split; [done|]. rewrite lookup_insert_ne; [by eexists|].
      intros E. apply (f_equal length) in E. rewrite length_app in E. simpl in E. lia.
    + apply H5 in Hq as [Hij [x Hx]]. split; [done|]. apply lookup_insert_is_Some'. by right.
Qed.

(** No user entry changes when a table is added. *)
Lemma pte_of_new m root T f fl p pg i va :
  pgtree m root T (f :: fl) → page_ok f → T !! p = Some pg → (length p < 3)%nat → index_ok p i →
  T !! (p ++ [i]) = None → user_va va →
  pte_of (store64 (pg + 8 * i) (table_entry f) (memset f 0 PGSIZE m)) (<[p ++ [i] := f]> T) va =
  pte_of m T va.
Proof.
  intros Ht Hf Hp Hlen Hi Hnone Hva. pose proof Ht as [H1 H2 H3 H4 H5]. unfold pte_of.
  assert (Hfree : ∀ q, T !! q ≠ Some f) by (intros q Hq; apply H2 in Hq as (_ & Hn & _); set_solver).
  pose proof (index_bound va) as (_ & _ & _ & Hx).
  assert (Hpg : page_ok pg ∧ pg ≠ f) by (split; [by eapply H2|intros ->; by apply (Hfree p)]).
  destruct Hpg as [Hpg Hpf], Hi as [Hi _]. destruct (decide (p ++ [i] = vpath va)) as [E|E].
  - rewrite <- E, lookup_insert_eq, Hnone. rewrite load64_store64_other by (apply entry_apart; congruence).
    apply load64_memset_zero; unfold PGSIZE; lia.
  - rewrite lookup_insert_ne by done. destruct (T !! vpath va) as [qg|] eqn:Eq; [|done].
    assert (Hqg : page_ok qg) by (by eapply H2). rewrite load64_store64_other.
    + apply load64_memset_other. assert (Hqf : qg ≠ f) by (intros ->; by apply (Hfree (vpath va))).
      destruct (Kalloc.pages_apart qg f (proj1 Hqg) (proj1 Hf) Hqf); unfold PGSIZE in *; lia.
    + apply entry_apart; try done. intros [= -> ->].
      assert (p = vpath va) as -> by (by eapply H3). unfold vpath in Hlen. simpl in Hlen. lia.
Qed.

(** ** Walking the tree *)

Record vst (k : Kalloc.kmem_t) (root : Z) (T : gmap (list Z) Z) (fl : list Z) : Prop := {
  vs_free : kinv k fl;
  vs_tree : pgtree (Kalloc.kmem_mem k) root T fl;
}.

Definition in_tables (T : gmap (list Z) Z) (x : Z) : Prop :=
  ∃ p pg, T !! p = Some pg ∧ pg ≤ x < pg + PGSIZE.

(** Tables were added, from at most [n] free pages; no user entry changed,
    nor any byte outside the tables. *)
Record grown (n : nat) (k : Kalloc.kmem_t) (T : gmap (list Z) Z) (fl : list Z)
    (k' : Kalloc.kmem_t) (T' : gmap (list Z) Z) (fl' : list Z) : Prop := {
  gr_tables : T ⊆ T';
  gr_new p pg : T' !! p = Some pg → T !! p = Some pg ∨ pg ∈ fl;
  gr_free : ∃ new, fl = new ++ fl' ∧ (length new ≤ n)%nat;
  gr_pte va : user_va va → pte_of (Kalloc.kmem_mem k') T' va = pte_of (Kalloc.kmem_mem k) T va;
  gr_frame x : ¬ in_tables T' x → Kalloc.kmem_mem k' x = Kalloc.kmem_mem k x;
}.

Lemma grown_refl n k T fl : grown n k T fl k T fl.
Proof. split; try done; [auto|]. exists []. split; [done|simpl; lia]. Qed.

Lemma in_tables_mono T T' x : T ⊆ T' → in_tables T x → in_tables T' x.
Proof. intros H (p & pg & Hp & Hx). exists p, pg. split; [by eapply lookup_weaken|done]. Qed.

Lemma grown_trans n1 n2 k1 T1 f1 k2 T2 f2 k3 T3 f3 :
  grown n1 k1 T1 f1 k2 T2 f2 → grown n2 k2 T2 f2 k3 T3 f3 → grown (n1 + n2) k1 T1 f1 k3 T3 f3.
Proof.
  intros [A1 A2 (w1 & A3 & A3') A4 A5] [B1 B2 (w2 & B3 & B3') B4 B5]. split.
  - by etrans.
  - intros p pg Hp. destruct (B2 p pg Hp) as [H|H]; [auto|]. right. set_solver.
  - exists (w1 ++ w2). split; [by rewrite A3, B3, app_assoc|rewrite length_app; lia].
  - intros va Hva. by rewrite B4, A4.
  - intros x Hx. rewrite B5 by done. apply A5. intros H. apply Hx. by eapply in_tables_mono.
Qed.

Lemma grown_le n n' k T fl k' T' fl' :
  (n ≤ n')%nat → grown n k T fl k' T' fl' → grown n' k T fl k' T' fl'.
Proof. intros Hn [A1 A2 (w & A3 & A3') A4 A5]. split; try done. exists w. split; [done|lia]. Qed.

Lemma p2v_spec f (k : Kalloc.kmem_t) (Q : Z → Kalloc.kmem_t → Prop) a :
  page_ok f → a + KERNBASE = f → Q f k → wp (p2v a) k Q.
Proof.
  intros (_ & _ & Hr) E HQ. unfold p2v. rewrite E. eapply wp_eq; [|exact HQ]. apply chk_u64_ok.
  unfold KERNBASE, PHYSTOP, u64_max in *. lia.
Qed.

Lemma walk_level_found k root T fl p pg i q b (Q : Z → Kalloc.kmem_t → Prop) :
  vst k root T fl → T !! p = Some pg → (length p < 3)%nat → index_ok p i →
  T !! (p ++ [i]) = Some q → Q q k → wp (walk_level (pg + 8 * i) b) k Q.
Proof.
  intros [Hk Ht] Hp Hl Hi Hq HQ. unfold walk_level, rd. do 2 wp_step.
  pose proof (pt_entry _ _ _ _ Ht p pg i Hp Hl Hi) as He. rewrite Hq in He.
  destruct (present _); [|done]. injection He as He.
  apply (p2v_spec q); [by eapply Ht|done|exact HQ].
Qed.

Lemma walk_level_missing k root T fl p pg i (Q : Z → Kalloc.kmem_t → Prop) :
  vst k root T fl → T !! p = Some pg → (length p < 3)%nat → index_ok p i →
  T !! (p ++ [i]) = None → Q 0 k → wp (walk_level (pg + 8 * i) false) k Q.
Proof.
  intros [Hk Ht] Hp Hl Hi Hq HQ. unfold walk_level, rd. do 2 wp_step.
  pose proof (pt_entry _ _ _ _ Ht p pg i Hp Hl Hi) as He. rewrite Hq in He.
  destruct (present _); [done|]. cbn [negb]. by apply wp_ret.
Qed.

Lemma walk_level_alloc k root T fl p pg i :
  vst k root T fl → T !! p = Some pg → (length p < 3)%nat → index_ok p i → fl ≠ [] →
  wp (walk_level (pg + 8 * i) true) k (λ q k', ∃ T' fl',
    vst k' root T' fl' ∧ grown 1 k T fl k' T' fl' ∧ T' !! (p ++ [i]) = Some q).
Proof.
  intros Hv Hp Hl Hi Hfl. destruct (T !! (p ++ [i])) as [q|] eqn:Hq.
  { eapply walk_level_found; try done. exists T, fl. split; [done|]. split; [apply grown_refl|done]. }
  pose proof Hv as [Hk Ht]. unfold walk_level, rd. do 2 wp_step.
  pose proof (pt_entry _ _ _ _ Ht p pg i Hp Hl Hi) as He. rewrite Hq in He.
  destruct (present _) eqn:Epr; [done|]. cbn [negb]. destruct fl as [|f fl]; [done|].
  destruct (Kalloc.kalloc_inv _ _ _ _ Hk) as [Ea Hk1]. wp_step. eapply wp_eq; [exact Ea|]. cbv beta.
  pose proof Hk as (_ & Hnd & Hok). pose proof Hok as Hok'. apply Forall_cons in Hok' as [Hf _].
  rewrite (proj2 (Z.eqb_neq f 0)) by (apply Kalloc.page_ok_nonzero in Hf; lia).
  unfold on_bytes, wr. do 5 wp_step. fold (table_entry f).
  pose proof Hnd as Hnd'. apply NoDup_cons in Hnd' as [Hffl _].
  assert (Hpg : page_ok pg ∧ pg ∉ fl) by (apply Ht in Hp as (? & ? & _); split; [done|set_solver]).
  exists (<[p ++ [i] := f]> T), fl. split; [split|split].
  - destruct Hi as [Hi _]. apply (store_in_page_kinv (Kalloc.set_mem _ _) fl pg); try (unfold PGSIZE; lia); try apply Hpg.
    by apply (memset_page_kinv (Kalloc.set_freelist _ k)).
  - by apply pgtree_new.
  - split.
    + by apply insert_subseteq.
    + intros q qg [[_ <-]|[_ H]]%lookup_insert_Some; [right; left|by left].
    + exists [f]. split; [done|simpl; lia].
    + intros va Hva. by eapply pte_of_new.
    + intros x Hx. simpl. destruct Hi as [Hi _]. rewrite store64_out, memset_out; [done| |].
      * destruct (decide (f ≤ x < f + PGSIZE)); [|lia]. exfalso. apply Hx. exists (p ++ [i]), f.
        split; [apply lookup_insert_eq|done].
      * destruct (decide (pg ≤ x < pg + PGSIZE)); [|unfold PGSIZE in *; lia]. exfalso. apply Hx.
        exists p, pg. split; [|done]. rewrite lookup_insert_ne; [done|]. intros E.
        apply (f_equal length) in E. rewrite length_app in E. simpl in E. lia.
  - apply lookup_insert_eq.
Qed.

(** Without allocation: the address of the entry, or null. *)
Lemma walkpgdir_lookup k root T fl va :
  vst k root T fl → user_va va →
  walkpgdir root va false k =
  Ok (match T !! vpath va with Some pg => pg + 8 * PTX va | None => 0 end, k).
Proof.
  intros Hv Hva. pose proof Hv as [Hk Ht]. pose proof Ht as [H1 H2 _ _ H5].
  pose proof (index_bound va) as (_ & I2 & I3 & _).
  assert (Hnz : ∀ q pg, T !! q = Some pg → (pg =? 0) = false).
  { intros q pg Hq. apply Z.eqb_neq. apply H2 in Hq as (Hq & _). apply Kalloc.page_ok_nonzero in Hq. lia. }
  cut (wp (walkpgdir root va false) k (λ r k', k' = k ∧
         r = match T !! vpath va with Some pg => pg + 8 * PTX va | None => 0 end)).
  { intros (r & k' & -> & -> & ->)%wp_ok. done. }
  unfold walkpgdir. wp_step. destruct (T !! [PMX va]) as [pdp|] eqn:E1.
  2: { eapply (walk_level_missing _ _ _ _ [] root); [done|done|simpl; lia|by apply user_index|done|]. cbv beta; cbn [Z.eqb]. wp_step. split; [done|].
       destruct (T !! vpath va) eqn:E; [|done]. apply (H5 [PMX va; PDPX va]) in E as [_ [x Hx]].
       apply (H5 [PMX va]) in Hx as [_ [y Hy]]. congruence. }
  eapply (walk_level_found _ _ _ _ [] root); [done|done|simpl; lia|by apply user_index|done|]. cbv beta. rewrite (Hnz _ _ E1).
  wp_step. destruct (T !! [PMX va; PDPX va]) as [pd|] eqn:E2.
  2: { eapply (walk_level_missing _ _ _ _ [PMX va] pdp); [done|done|simpl; lia|by apply deep_index|done|]. cbv beta; cbn [Z.eqb]. wp_step. split; [done|].
       destruct (T !! vpath va) eqn:E; [|done]. apply (H5 [PMX va; PDPX va]) in E as [_ [x Hx]]. congruence. }
  eapply (walk_level_found _ _ _ _ [PMX va] pdp); [done|done|simpl; lia|by apply deep_index|done|]. cbv beta. rewrite (Hnz _ _ E2).
  wp_step. unfold vpath. destruct (T !! [PMX va; PDPX va; PDX va]) as [pt|] eqn:E3.
  - eapply (walk_level_found _ _ _ _ [PMX va; PDPX va] pd); [done|done|simpl; lia|by apply deep_index|done|].
    cbv beta. rewrite (Hnz _ _ E3). by wp_step.
  - eapply (walk_level_missing _ _ _ _ [PMX va; PDPX va] pd); [done|done|simpl; lia|by apply deep_index|done|].
    cbv beta; cbn [Z.eqb]. by wp_step.
Qed.

Lemma walkpgdir_alloc k root T fl va :
  vst k root T fl → user_va va → (3 ≤ length fl)%nat →
  wp (walkpgdir root va true) k (λ r k', ∃ T' fl' pg,
    vst k' root T' fl' ∧ grown 3 k T fl k' T' fl' ∧
    T' !! vpath va = Some pg ∧ r = pg + 8 * PTX va).
Proof.
  intros Hv Hva Hfl. pose proof (index_bound va) as (_ & I2 & I3 & _).
  assert (Hnz : ∀ k' T' fl' q pg, vst k' root T' fl' → T' !! q = Some pg → (pg =? 0) = false).
  { intros k' T' fl' q pg [_ Ht] Hq. apply Z.eqb_neq. apply Ht in Hq as (Hq & _). apply Kalloc.page_ok_nonzero in Hq. lia. }
  unfold walkpgdir. wp_step. eapply wp_mono.
  { apply (walk_level_alloc k root T fl [] root); [done|apply Hv|simpl; lia|by apply user_index|intros ->; simpl in Hfl; lia]. }
  intros pdp k1 (T1 & f1 & Hv1 & G1 & E1). cbv beta. rewrite (Hnz _ _ _ _ _ Hv1 E1).
  pose proof (gr_free _ _ _ _ _ _ _ G1) as (w1 & L1 & L1'). apply (f_equal length) in L1. rewrite length_app in L1.
  wp_step. eapply wp_mono.
  { apply (walk_level_alloc k1 root T1 f1 [PMX va] pdp); [done|done|simpl; lia|by apply deep_index|].
    intros ->. simpl in L1. lia. }
  intros pd k2 (T2 & f2 & Hv2 & G2 & E2). cbv beta. rewrite (Hnz _ _ _ _ _ Hv2 E2).
  pose proof (gr_free _ _ _ _ _ _ _ G2) as (w2 & L2 & L2'). apply (f_equal length) in L2. rewrite length_app in L2.
  wp_step. eapply wp_mono.
  { apply (walk_level_alloc k2 root T2 f2 [PMX va; PDPX va] pd); [done|done|simpl; lia|by apply deep_index|].
    intros ->. simpl in L2. lia. }
  intros pt k3 (T3 & f3 & Hv3 & G3 & E3). cbv beta. rewrite (Hnz _ _ _ _ _ Hv3 E3). wp_step.
  exists T3, f3, pt. split; [done|]. split; [|done].
  exact (grown_trans 1 2 _ _ _ _ _ _ _ _ _ G1 (grown_trans 1 1 _ _ _ _ _ _ _ _ _ G2 G3)).
Qed.

(** ** Mapping *)

Definition page_of (va : Z) : Z := va - va mod PGSIZE.
Definition leaf_entry (pa perm : Z) : Z := Z.lor (Z.lor pa perm) PTE_P.

(** The [n] pages from [a] are mapped to those from [pa]; the entries of
    other user pages, and all memory outside the tables, are as before. *)
Record mapped (a : Z) (n : nat) (pa perm : Z) (k : Kalloc.kmem_t) (T : gmap (list Z) Z) (fl : list Z)
    (k' : Kalloc.kmem_t) (T' : gmap (list Z) Z) (fl' : list Z) : Prop := {
  mp_tables : T ⊆ T';
  mp_new p pg : T' !! p = Some pg → T !! p = Some pg ∨ pg ∈ fl;
  mp_free : ∃ new, fl = new ++ fl' ∧ (length new ≤ 3 * n)%nat;
  mp_pte va : user_va va →
    pte_of (Kalloc.kmem_mem k') T' va =
    if decide (a ≤ page_of va < a + Z.of_nat n * PGSIZE)
    then leaf_entry (pa + (page_of va - a)) perm else pte_of (Kalloc.kmem_mem k) T va;
  mp_frame x : ¬ in_tables T' x → Kalloc.kmem_mem k' x = Kalloc.kmem_mem k x;
}.

Lemma leaf_entry_range pa perm :
  0 ≤ pa → pa mod PGSIZE = 0 → pa + PGSIZE ≤ u64_max → 0 ≤ perm < PGSIZE →
  0 ≤ leaf_entry pa perm < u64_max.
Proof.
  intros H0 Hm Hp Hr. unfold leaf_entry. rewrite <- Z.lor_assoc.
  assert (Hl : 0 ≤ Z.lor perm PTE_P < PGSIZE).
  { unfold PGSIZE in *. change 4096 with (2 ^ 12) in *. split; [apply Z.lor_nonneg; split; [lia|done]|].
    destruct (decide (Z.lor perm PTE_P = 0)) as [->|]; [lia|].
    assert (0 ≤ Z.lor perm PTE_P) by (apply Z.lor_nonneg; split; [lia|done]).
    apply Z.log2_lt_pow2; [lia|]. rewrite Z.log2_lor by (done || lia).
    apply Z.max_lub_lt; [|done]. destruct (decide (perm = 0)) as [->|]; [done|]. apply Z.log2_lt_pow2; lia. }
  rewrite lor_flags by done. lia.
Qed.

Lemma page_of_aligned a : a mod PGSIZE = 0 → page_of a = a.
Proof. unfold page_of. lia. Qed.

(** The entry [mappages] is about to write. *)
Lemma map_lookup k root T fl a (P : outcome (Z * Kalloc.kmem_t) → Prop) rest :
  vst k root T fl → user_va a → (3 ≤ length fl)%nat →
  (∀ T' fl' pg k', vst k' root T' fl' → grown 3 k T fl k' T' fl' → T' !! vpath a = Some pg →
     P ((let* e := rd (pg + 8 * PTX a) in rest (pg + 8 * PTX a) e) k')) →
  P ((let* pte := walkpgdir root a true in
      if pte =? 0 then ret (-1) else let* e := rd pte in rest pte e) k).
Proof.
  intros Hv Ha Hfl HP. apply (bind_via _ _ _ P). eapply wp_mono; [by apply (walkpgdir_alloc k root T fl a)|].
  intros r k' (T' & fl' & pg & Hv' & G & Hpg & ->). cbv beta.
  rewrite (proj2 (Z.eqb_neq _ 0)); [by eapply HP|].
  pose proof Hv' as [_ Ht']. apply Ht' in Hpg as (Hok & _). apply Kalloc.page_ok_nonzero in Hok.
  pose proof (index_bound a) as (_ & _ & _ & ?). lia.
Qed.

Lemma pte_read k T va pg : T !! vpath va = Some pg →
  load64 (Kalloc.kmem_mem k) (pg + 8 * PTX va) = pte_of (Kalloc.kmem_mem k) T va.
Proof. intros H. unfold pte_of. by rewrite H. Qed.

(** Writing the entry maps one page. *)
Lemma map_store k root T fl a pg pa perm k0 T0 f0 :
  vst k root T fl → grown 3 k0 T0 f0 k T fl → user_va a → a mod PGSIZE = 0 → T !! vpath a = Some pg →
  0 ≤ leaf_entry pa perm < u64_max →
  let k' := Kalloc.set_mem (store64 (pg + 8 * PTX a) (leaf_entry pa perm) (Kalloc.kmem_mem k)) k in
  vst k' root T fl ∧ mapped a 1 pa perm k0 T0 f0 k' T fl.
Proof.
  intros [Hk Ht] G Ha Hal Hpg Hv k'. pose proof (index_bound a) as (_ & _ & _ & Hx).
  assert (Hpo : page_ok pg ∧ pg ∉ fl) by (by apply Ht in Hpg as (? & ? & _)).
  destruct G as [G1 G2 G3 G4 G5]. split; [split|split].
  - apply (store_in_page_kinv k fl pg); try apply Hpo; (done || unfold PGSIZE; lia).
  - by apply (pgtree_store_leaf _ _ _ _ (vpath a)).
  - done.
  - done.
  - destruct G3 as (w & ? & ?). exists w. split; [done|lia].
  - intros vb Hvb. unfold k'. simpl. rewrite (pte_of_store _ root T fl) by done. rewrite G4 by done.
    fold (page_of vb) (page_of a). rewrite (page_of_aligned a Hal).
    destruct (decide (page_of vb = a)) as [E|E].
    + rewrite decide_True by (unfold PGSIZE; lia). by rewrite E, Z.sub_diag, Z.add_0_r.
    + rewrite decide_False; [done|]. unfold page_of, PGSIZE in *. Z.to_euclidean_division_equations. lia.
  - intros x Hx'. unfold k'. simpl. rewrite store64_out; [by apply G5|].
    destruct (decide (pg ≤ x < pg + PGSIZE)); [|unfold PGSIZE in *; lia].
    exfalso. apply Hx'. by exists (vpath a), pg.
Qed.

Lemma mapped_trans a n pa perm k T fl k1 T1 f1 k2 T2 f2 :
  mapped a 1 pa perm k T fl k1 T1 f1 → mapped (a + PGSIZE) n (pa + PGSIZE) perm k1 T1 f1 k2 T2 f2 →
  a mod PGSIZE = 0 → mapped a (S n) pa perm k T fl k2 T2 f2.
Proof.
  intros [A1 A2 (w1 & A3 & A3') A4 A5] [B1 B2 (w2 & B3 & B3') B4 B5] Ha. split.
  - by etrans.
  - intros p pg Hp. destruct (B2 p pg Hp) as [H|H]; [auto|]. right. set_solver.
  - exists (w1 ++ w2). split; [by rewrite A3, B3, app_assoc|rewrite length_app; lia].
  - intros va Hva. rewrite B4, A4 by done.
    assert (Hal : page_of va mod PGSIZE = 0).
    { unfold page_of, PGSIZE. Z.to_euclidean_division_equations. lia. }
    assert (Hne : page_of va = a ∨ page_of va < a ∨ a + PGSIZE ≤ page_of va).
    { unfold PGSIZE in *. Z.to_euclidean_division_equations. lia. }
    unfold PGSIZE in *. repeat case_decide; try lia; try done. f_equal. lia.
  - intros x Hx. rewrite B5 by done. apply A5. intros H. apply Hx. by eapply in_tables_mono.
Qed.

(** One round of [mappages]. *)
Lemma mappages_iter k root T fl a last pa perm fuel (P : outcome (Z * Kalloc.kmem_t) → Prop) :
  vst k root T fl → user_va a → a mod PGSIZE = 0 → (3 ≤ length fl)%nat →
  0 ≤ leaf_entry pa perm < u64_max → present (pte_of (Kalloc.kmem_mem k) T a) = false →
  (∀ k' T' fl', vst k' root T' fl' → mapped a 1 pa perm k T fl k' T' fl' →
     P ((if a =? last then ret 0
         else
           let* a := chk_u64 (a + PGSIZE) in
           let* pa := chk_u64 (pa + PGSIZE) in
           mappages_loop fuel root a last pa perm) k')) →
  P (mappages_loop (S fuel) root a last pa perm k).
Proof.
  intros Hv Hua Ha Hfl Hr Hfree HP. cbn [mappages_loop].
  apply (map_lookup k root T fl a); [done|done|done|]. intros T1 f1 pg k1 Hv1 G Hpg.
  apply (bind_via _ _ _ P). apply wp_gets.
  rewrite (pte_read k1 T1 a pg Hpg), (gr_pte _ _ _ _ _ _ _ G a Hua), Hfree.
  apply (bind_via _ _ _ P). apply wp_modify.
  destruct (map_store k1 root T1 f1 a pg pa perm k T fl Hv1 G Hua Ha Hpg Hr) as [Hv2 Hm].
  by apply (HP _ T1 f1).
Qed.

Lemma mappages_loop_spec root perm : ∀ n fuel k T fl a pa,
  vst k root T fl → a mod PGSIZE = 0 → pa mod PGSIZE = 0 → 0 ≤ a → 0 ≤ pa →
  a + Z.of_nat (S n) * PGSIZE ≤ 2 ^ 47 → pa + Z.of_nat (S n) * PGSIZE ≤ 2 ^ 52 → 0 ≤ perm < PGSIZE →
  (3 * S n ≤ length fl)%nat → (n < fuel)%nat →
  (∀ va, user_va va → a ≤ page_of va < a + Z.of_nat (S n) * PGSIZE →
     present (pte_of (Kalloc.kmem_mem k) T va) = false) →
  wp (mappages_loop fuel root a (a + Z.of_nat n * PGSIZE) pa perm) k (λ r k', r = 0 ∧ ∃ T' fl',
    vst k' root T' fl' ∧ mapped a (S n) pa perm k T fl k' T' fl').
Proof.
  change (2 ^ 47) with 140737488355328. change (2 ^ 52) with 4503599627370496.
  induction n as [|n IH]; intros fuel k T fl a pa Hv Ha Hpa H0 Hp0 Hlim Hplim Hperm Hfl Hfuel Hfree;
    (destruct fuel as [|fuel]; [lia|]).
  all: assert (Hua : user_va a) by (unfold user_va, PGSIZE in *; change (2 ^ 47) with 140737488355328; lia).
  all: assert (Hr : 0 ≤ leaf_entry pa perm < u64_max)
    by (apply leaf_entry_range; try done; unfold PGSIZE, u64_max in *; lia).
  all: assert (Hpr : present (pte_of (Kalloc.kmem_mem k) T a) = false)
    by (apply Hfree; [done|rewrite page_of_aligned by done; unfold PGSIZE; lia]).
  all: unfold wp; apply (mappages_iter k root T fl); [done|done|done|lia|done|done|]; intros k1 T1 f1 Hv1 Hm1.
  - rewrite Z.add_0_r, Z.eqb_refl. split; [done|]. by exists T1, f1.
  - rewrite (proj2 (Z.eqb_neq a _)) by (unfold PGSIZE; lia).
    rewrite (bind_ok _ _ _ _ _ (chk_u64_ok (a + PGSIZE) k1 ltac:(unfold PGSIZE, u64_max in *; lia))).
    rewrite (bind_ok _ _ _ _ _ (chk_u64_ok (pa + PGSIZE) k1 ltac:(unfold PGSIZE, u64_max in *; lia))).
    replace (a + Z.of_nat (S n) * PGSIZE) with (a + PGSIZE + Z.of_nat n * PGSIZE) by (unfold PGSIZE; lia).
    pose proof (mp_free _ _ _ _ _ _ _ _ _ _ Hm1) as (w & Hw & Hwl).
    apply (f_equal length) in Hw. rewrite length_app in Hw.
    assert (Ha' : (a + PGSIZE) mod PGSIZE = 0) by (unfold PGSIZE in *; Z.to_euclidean_division_equations; lia).
    assert (Hpa' : (pa + PGSIZE) mod PGSIZE = 0) by (unfold PGSIZE in *; Z.to_euclidean_division_equations; lia).
    specialize (IH fuel k1 T1 f1 (a + PGSIZE) (pa + PGSIZE) Hv1 Ha' Hpa').
    eapply (wp_mono _ k1); [apply IH; try done; try (unfold PGSIZE in *; lia)|].
    + intros va Hva Hrange. rewrite (mp_pte _ _ _ _ _ _ _ _ _ _ Hm1 va Hva), decide_False by (unfold PGSIZE in *; lia).
      apply Hfree; [done|unfold PGSIZE in *; lia].
    + intros r k2 (-> & T2 & f2 & Hv2 & Hm2). split; [done|]. exists T2, f2. split; [done|].
      by eapply mapped_trans.
Qed.

(** [setupkvm] makes an empty tree. *)
Lemma setupkvm_tree (kpdpt : Z) (k : Kalloc.kmem_t) (r : Z) (fl : list Z) : kinv k (r :: fl) →
  wp (setupkvm kpdpt) k (λ root k', root = r ∧ vst k' r {[ [] := r ]} fl ∧
    ∀ va, pte_of (Kalloc.kmem_mem k') {[ [] := r ]} va = 0).
Proof.
  intros Hk. pose proof Hk as (_ & Hnd & Hok). apply Forall_cons in Hok as [Hr _].
  apply NoDup_cons in Hnd as [Hrf _]. pose proof (Kalloc.page_ok_nonzero _ r Hr).
  destruct (Kalloc.kalloc_inv _ k r fl Hk) as [E Hk1]. unfold setupkvm. wp_step.
  eapply wp_eq; [exact E|]. destruct (Z.eqb_spec r 0); [lia|]. unfold on_bytes, wr. do 4 wp_step. wp_step.
  set (e := Z.lor _ PTE_W). split; [done|]. split.
  - split.
    + apply (store_in_page_kinv _ fl r); [|done|done|lia|unfold PGSIZE; lia].
      by apply (memset_page_kinv _ fl r).
    + split.
      * apply lookup_singleton_eq.
      * intros p pg [<- <-]%lookup_singleton_Some. split_and!; simpl; (done || lia).
      * intros p q pg [<- _]%lookup_singleton_Some [<- _]%lookup_singleton_Some. done.
      * intros p pg i [<- <-]%lookup_singleton_Some _ [Hi Hi']. specialize (Hi' eq_refl). simpl.
        rewrite lookup_singleton_ne by done. rewrite load64_store64_other by lia.
        by rewrite load64_memset_zero by (unfold PGSIZE; lia).
      * intros p i pg [Hp _]%lookup_singleton_Some. by destruct p.
  - intros va. unfold pte_of. by rewrite lookup_singleton_ne.
Qed.

(** [mappages] on whole pages is its loop. *)
Lemma mappages_loop_eq (k : Kalloc.kmem_t) (root a : Z) (n : nat) (pa perm : Z) :
  a mod PGSIZE = 0 → 0 ≤ a → a + Z.of_nat (S n) * PGSIZE ≤ 2 ^ 47 →
  mappages root a (Z.of_nat (S n) * PGSIZE) pa perm k =
  mappages_loop (S (Z.to_nat (Z.of_nat (S n) + 1))) root a (a + Z.of_nat n * PGSIZE) pa perm k.
Proof.
  intros Ha H0 Hlim. change (2 ^ 47) with 140737488355328 in Hlim.
  rewrite <- (Z.div_mul (Z.of_nat (S n)) PGSIZE) at 2 by done. unfold mappages.
  rewrite (bind_ok _ _ _ _ _ (chk_u64_ok (a + Z.of_nat (S n) * PGSIZE) k ltac:(unfold PGSIZE, u64_max in *; lia))).
  rewrite (bind_ok _ _ _ _ _ (chk_u64_ok (a + Z.of_nat (S n) * PGSIZE - 1) k ltac:(unfold PGSIZE, u64_max in *; lia))).
  f_equal; rewrite PGROUNDDOWN_eq by (unfold PGSIZE, u64_max in *; lia); unfold PGSIZE in *;
    Z.to_euclidean_division_equations; lia.
Qed.


(** ** At boot *)

(** Writes inside a page that is neither free nor a table. *)
Lemma vst_write (k : Kalloc.kmem_t) (root : Z) (T : gmap (list Z) Z) (fl : list Z) (pg : Z) (m' : mem) :
  vst k root T fl → page_ok pg → pg ∉ fl → (∀ p, T !! p ≠ Some pg) →
  (∀ x, x < pg ∨ pg + PGSIZE ≤ x → m' x = Kalloc.kmem_mem k x) →
  vst (Kalloc.set_mem m' k) root T fl ∧ ∀ va, pte_of m' T va = pte_of (Kalloc.kmem_mem k) T va.
Proof.
  intros [Hk [H1 H2 H3 H4 H5]] Hp Hn HT Hm.
  assert (Hl : ∀ p q i, T !! p = Some q → 0 ≤ i < 512 → load64 m' (q + 8 * i) = load64 (Kalloc.kmem_mem k) (q + 8 * i)).
  { intros p q i Hq Hi. apply load64_agree. intros x Hx. apply Hm. destruct (H2 p q Hq) as (Hqp & _).
    assert (q ≠ pg) by (intros ->; by apply (HT p)). destruct (Kalloc.pages_apart q pg (proj1 Hqp) (proj1 Hp)); unfold PGSIZE in *; (done || lia). }
  split.
  - split; [by apply (Kalloc.kinv_page _ _ _ _ pg)|]. split; try done. cbn [Kalloc.kmem_mem Kalloc.set_mem].
    intros p q i Hq Hlen Hi. rewrite (Hl p q i Hq) by apply Hi. by apply H4.
  - intros va. unfold pte_of. destruct (T !! vpath va) as [q|] eqn:Eq; [|done]. apply (Hl _ q _ Eq). apply index_bound.
Qed.

(** [inituvm] maps one page at the second page of the address space, with the
    program at its start and zeros behind, and nothing else. *)
Lemma inituvm_spec (k : Kalloc.kmem_t) (root : Z) (T : gmap (list Z) Z) (pg : Z) (fl : list Z) (init : list Z) :
  vst k root T (pg :: fl) → (3 ≤ length fl)%nat → Z.of_nat (length init) < PGSIZE →
  (∀ va, pte_of (Kalloc.kmem_mem k) T va = 0) →
  wp (inituvm root init (Z.of_nat (length init))) k (λ _ k', ∃ T' fl', vst k' root T' fl' ∧
    (∃ new, fl = new ++ fl' ∧ (length new ≤ 3)%nat) ∧
    (∀ va, user_va va → pte_of (Kalloc.kmem_mem k') T' va = if decide (page_of va = PGSIZE) then leaf_entry (V2P pg) 6 else 0) ∧
    ∀ i, 0 ≤ i < PGSIZE → Kalloc.kmem_mem k' (pg + i) = nth (Z.to_nat i) init 0).
Proof.
  intros Hv Hfl Hlen Hz. destruct Hv as [Hk Ht]. pose proof Hk as (_ & Hnd & Hok). apply NoDup_cons in Hnd as [Hpf _]. apply Forall_cons in Hok as [Hpg _].
  destruct (Kalloc.kalloc_inv _ k pg fl Hk) as [E Hk1]. unfold inituvm. rewrite (proj2 (Z.leb_gt _ _)) by done.
  wp_step. eapply wp_eq; [exact E|]. cbv beta. unfold on_bytes. do 2 wp_step. set (k1 := Kalloc.set_freelist _ k) in *.
  assert (Ht1 : pgtree (Kalloc.kmem_mem k1) root T fl).
  { destruct Ht as [A1 A2 A3 A4 A5]. split; try done. intros p q Hq. destruct (A2 p q Hq) as (? & ? & ?). set_solver. }
  assert (HT : ∀ p, T !! p ≠ Some pg) by (intros p Hp; apply (pt_page _ _ _ _ Ht) in Hp as (_ & Hn & _); set_solver).
  destruct (vst_write k1 root T fl pg (memset pg 0 PGSIZE (Kalloc.kmem_mem k1)) (Build_vst _ _ _ _ Hk1 Ht1) Hpg Hpf HT) as [Hv2 Hp2];
    [intros x Hx; by apply memset_out|].
  set (k2 := Kalloc.set_mem _ k1) in *. destruct (page_phys pg Hpg) as (Ev & Hm & Hb).
  change (Z.lor PTE_W PTE_U) with 6. wp_step. eapply wp_mono.
  { unfold wp. change PGSIZE with (Z.of_nat 1 * PGSIZE) at 2. rewrite mappages_loop_eq by (unfold PGSIZE; lia || done).
    apply (mappages_loop_spec root 6 0 _ k2 T fl PGSIZE (V2P pg)); unfold PGSIZE, PHYSTOP in *; try done; try lia.
    intros va Hva _. rewrite Hp2. change (Kalloc.kmem_mem k1) with (Kalloc.kmem_mem k). by rewrite Hz. }
  intros r k3 (-> & T3 & f3 & Hv3 & Hm3). wp_step. rewrite Nat2Z.id, firstn_all.
  destruct Hm3 as [_ Hnew (new & Hf & Hln) Hpte Hfr].
  assert (HT3 : ∀ p, T3 !! p ≠ Some pg) by (intros p Hp; destruct (Hnew p pg Hp) as [H|H]; [by apply (HT p)|done]).
  assert (Hpf3 : pg ∉ f3) by set_solver.
  destruct (vst_write k3 root T3 f3 pg (store_bytes pg init (Kalloc.kmem_mem k3)) Hv3 Hpg Hpf3 HT3) as [Hv4 Hp4];
    [intros x Hx; apply store_bytes_out; lia|].
  exists T3, f3. split_and!; [exact Hv4|by exists new| |].
  - intros va Hva. cbn [Kalloc.kmem_mem Kalloc.set_mem]. rewrite Hp4, Hpte, Hp2 by done. change (Kalloc.kmem_mem k1) with (Kalloc.kmem_mem k). rewrite Hz.
    assert (Hpo : page_of va mod PGSIZE = 0) by (unfold page_of, PGSIZE; Z.to_euclidean_division_equations; lia).
    destruct (decide (page_of va = PGSIZE)) as [Ep|Ep].
    + rewrite decide_True by (unfold PGSIZE in *; lia). f_equal. lia.
    + apply decide_False. unfold PGSIZE in *. Z.to_euclidean_division_equations. lia.
  - intros i Hi. cbn [Kalloc.kmem_mem Kalloc.set_mem]. destruct (decide (i < Z.of_nat (length init))) as [Hl|Hl].
    + replace i with (Z.of_nat (Z.to_nat i)) at 1 by lia. apply store_bytes_in. apply nth_lookup_lt. lia.
    + rewrite store_bytes_out by lia. rewrite nth_overflow by lia. rewrite Hfr.
      * apply memset_in. unfold PGSIZE in *. lia.
      * intros (p & q & Hq & Hx). destruct (pt_page _ _ _ _ (vs_tree _ _ _ _ Hv3) p q Hq) as (Hqp & _).
        assert (q ≠ pg) by (intros ->; by apply (HT3 p)).
        destruct (Kalloc.pages_apart q pg (proj1 Hqp) (proj1 Hpg)); (done || lia).
Qed.

(** [kvmalloc] takes two pages and makes the tables that map the first
    gigabyte of physical memory and, uncached, the fourth at [KERNBASE]. *)
Lemma kvmalloc_spec (k : Kalloc.kmem_t) (r d : Z) (fl : list Z) : kinv k (r :: d :: fl) →
  wp kvmalloc k (λ res k', res = (r, d, [Lcr3 (V2P r)]) ∧ kinv k' fl ∧
    load64 (Kalloc.kmem_mem k') (r + 8 * 256) = V2P d + 3 ∧
    load64 (Kalloc.kmem_mem k') d = 0x83 ∧ load64 (Kalloc.kmem_mem k') (d + 24) = 0xC000009B ∧
    (∀ x, (x < r ∨ r + PGSIZE ≤ x) → (x < d ∨ d + PGSIZE ≤ x) → Kalloc.kmem_mem k' x = Kalloc.kmem_mem k x) ∧
    ((∀ x, is_byte (Kalloc.kmem_mem k x)) → ∀ x, is_byte (Kalloc.kmem_mem k' x))).
Proof.
  intros Hk. pose proof Hk as (_ & Hnd & Hok). apply NoDup_cons in Hnd as [Hr Hnd]. apply NoDup_cons in Hnd as [Hd _].
  apply not_elem_of_cons in Hr as [Hrd Hr]. apply Forall_cons in Hok as [Pr Hok]. apply Forall_cons in Hok as [Pd _].
  destruct (Kalloc.kalloc_inv _ k r _ Hk) as [E1 Hk1]. unfold kvmalloc. wp_step. eapply wp_eq; [exact E1|]. cbv beta.
  unfold on_bytes, wr. do 2 wp_step.
  assert (Hk2 := memset_page_kinv _ _ r 0 Hk1 Pr ltac:(set_solver)).
  destruct (Kalloc.kalloc_inv _ _ d _ Hk2) as [E2 Hk3]. wp_step. eapply wp_eq; [exact E2|]. cbv beta.
  destruct (Kalloc.pages_apart r d (proj1 Pr) (proj1 Pd) Hrd) as [A|A]; unfold PGSIZE in A.
  all: change (PMX KERNBASE) with 256; destruct (page_phys d Pd) as (Ev & Hm & Hb).
  all: assert (Hw : Z.lor (Z.lor (V2P d) PTE_P) PTE_W = V2P d + 3) by
    (rewrite <- Z.lor_assoc; change (Z.lor PTE_P PTE_W) with 3; by rewrite lor_flags by (done || unfold PGSIZE; lia)); rewrite Hw.
  all: change (Z.lor (Z.lor (Z.lor 0 PTE_PS) PTE_P) PTE_W) with 0x83.
  all: change (Z.lor (Z.lor (Z.lor (Z.lor (Z.lor 0xC0000000 PTE_PS) PTE_P) PTE_W) PTE_PWT) PTE_PCD) with 0xC000009B.
  all: do 9 wp_step; cbn [Kalloc.kmem_mem Kalloc.set_mem Kalloc.set_freelist]; rewrite ?Z.mul_0_r, ?Z.add_0_r; change (8 * 3) with 24.
  all: split; [done|]; split; [|split_and!].
  all: try (intros; by rewrite !store64_out, !memset_out by (unfold PGSIZE in *; lia)).
  all: try (intros Hbytes x; apply store64_byte, store64_byte, store64_byte, memset_byte; [done|]; apply memset_byte; done).
  all: try (rewrite ?load64_store64_other by lia; apply load64_store64; unfold u64_max, PHYSTOP in *; lia).
  all: do 2 (eapply store_in_page_kinv; [|exact Pd|done|unfold PGSIZE; lia..]).
  all: eapply store_in_page_kinv; [|exact Pr|done|unfold PGSIZE; lia..].
  all: by apply memset_page_kinv.
Qed.

(** [seginit] takes a page for the processor. The words below the base it
    gives to [fs] are zero. *)
Lemma seginit_spec (k : Kalloc.kmem_t) (p : Z) (fl : list Z) : kinv k (p :: fl) →
  wp seginit k (λ res k', res = (p, [Wrmsr MSR_FS_BASE (p + 2048); Lgdt p 72; Ltr 56]) ∧ kinv k' fl ∧
    (∀ x, p + 1092 ≤ x < p + 4096 → Kalloc.kmem_mem k' x = 0) ∧
    ∀ x, x < p ∨ p + PGSIZE ≤ x → Kalloc.kmem_mem k' x = Kalloc.kmem_mem k x).
Proof.
  intros Hk. pose proof Hk as (_ & Hnd & Hok). apply NoDup_cons in Hnd as [Hp _]. apply Forall_cons in Hok as [Pp _].
  pose proof (Kalloc.page_ok_nonzero _ p Pp) as Hnz. destruct (Kalloc.kalloc_inv _ k p _ Hk) as [E1 Hk1].
  unfold seginit. wp_step. eapply wp_eq; [exact E1|]. cbv beta. rewrite (proj2 (Z.eqb_neq p 0)) by lia.
  unfold put_seg, on_bytes. do 4 wp_step. wp_step.
  eapply wp_eq; [apply chk_u64_ok; destruct Pp as (_ & _ & ?); unfold KERNBASE, PHYSTOP, u64_max in *; lia|]. cbv beta zeta.
  assert (Hl : ∀ d, Z.of_nat (length (seg_bytes d)) = 8) by done.
  assert (Hl4 : ∀ v, Z.of_nat (length (le_bytes 4 v)) = 4) by done.
  do 19 wp_step. split; [done|]. cbn [Kalloc.kmem_mem Kalloc.set_mem Kalloc.set_freelist].
  match goal with |- context [Kalloc.kinv _ (Kalloc.set_mem ?m _) _] => set (m' := m) end.
  assert (Hout : ∀ x, x < p ∨ p + 1092 ≤ x → m' x = memset p 0 PGSIZE (Kalloc.kmem_mem k) x).
  { intros x Hx. unfold m', SEG_KCODE, SEG_KDATA, SEG_UCODE32, SEG_UDATA, SEG_UCODE, SEG_KCPU, SEG_TSS.
    by rewrite !store_bytes_out by (rewrite ?Hl, ?Hl4; lia). }
  assert (Hfr : ∀ x, x < p ∨ p + PGSIZE ≤ x → m' x = Kalloc.kmem_mem k x).
  { intros x Hx. rewrite Hout by (unfold PGSIZE in Hx; lia). by apply memset_out. }
  split_and!; [exact (Kalloc.kinv_page _ _ m' _ p Hk1 Pp Hp Hfr)| |exact Hfr].
  intros x Hx. rewrite Hout by lia. apply memset_in. unfold PGSIZE. lia.
Qed.

End tree.


End VmTree.
