(* ===== verification/Proc.v ===== *)
(** * Processes

    crates/proc/src/proc.rs and proch.rs: the process table, creation and
    exit, [wait], sleep and wakeup, and the scheduler, over the file table,
    the file system and the page tables of the components below.

    Process pointers are indices into the table. The trap frame and the saved
    context, which the code keeps at the top of the kernel stack page, are
    fields of the process. Where the code switches to the scheduler
    ([sched]), the function ends; the process comes back when the scheduler
    picks it again. *)

From S2P Require Import Prelude Param Mmu Mem Kalloc Sync Disk Ring Bio Fsh Log Fs Pipe File Vm.
Import Sync Bio Fsh Log Fs Pipe File.

Module Proc.

(** [arch::registers::trapframe]. *)
Record trapframe := mkTf {
  rax : Z; rbx : Z; rcx : Z; rdx : Z; rbp : Z; rsi : Z; rdi : Z;
  r8 : Z; r9 : Z; r10 : Z; r11 : Z; r12 : Z; r13 : Z; r14 : Z; r15 : Z;
  trapno : Z; err : Z; rip : Z; cs : Z; rflags : Z; rsp : Z; ss : Z;
}.
Definition tf_zero : trapframe := mkTf 0 0 0 0 0 0 0 0 0 0 0 0 0 0 0 0 0 0 0 0 0 0.
Definition sizeof_trapframe : Z := 22 * 8.

Definition set_rax (v : Z) (t : trapframe) : trapframe :=
  mkTf v (rbx t) (rcx t) (rdx t) (rbp t) (rsi t) (rdi t) (r8 t) (r9 t) (r10 t) (r11 t) (r12 t)
       (r13 t) (r14 t) (r15 t) (trapno t) (err t) (rip t) (cs t) (rflags t) (rsp t) (ss t).
Definition set_args (di si : Z) (t : trapframe) : trapframe :=
  mkTf (rax t) (rbx t) (rcx t) (rdx t) (rbp t) si di (r8 t) (r9 t) (r10 t) (r11 t) (r12 t)
       (r13 t) (r14 t) (r15 t) (trapno t) (err t) (rip t) (cs t) (rflags t) (rsp t) (ss t).
Definition set_entry (ip cx sp : Z) (t : trapframe) : trapframe :=
  mkTf (rax t) (rbx t) cx (rdx t) (rbp t) (rsi t) (rdi t) (r8 t) (r9 t) (r10 t) (r11 t) (r12 t)
       (r13 t) (r14 t) (r15 t) (trapno t) (err t) ip (cs t) (rflags t) sp (ss t).
Definition set_r11 (v : Z) (t : trapframe) : trapframe :=
  mkTf (rax t) (rbx t) (rcx t) (rdx t) (rbp t) (rsi t) (rdi t) (r8 t) (r9 t) (r10 t) v (r12 t)
       (r13 t) (r14 t) (r15 t) (trapno t) (err t) (rip t) (cs t) (rflags t) (rsp t) (ss t).

Inductive Procstate : Type := UNUSED | EMBRYO | SLEEPING | RUNNABLE | RUNNING | ZOMBIE.

#[global] Instance Procstate_eq_dec : EqDecision Procstate.
Proof. solve_decision. Defined.

(** Where a context resumes: in [forkret], or after its last switch. *)
Inductive resume : Type := AtForkret | AfterSwitch.

(** [proc]; [chan] is a null pointer when it is [None]. *)
Record proc := mkProc {
  p_sz : Z;
  p_pgdir : Z;
  p_kstack : Z;
  p_state : Procstate;
  p_pid : Z;
  p_parent : option nat;
  p_tf : trapframe;
  p_context : resume;
  p_chan : option chan;
  p_killed : Z;
  p_ofile : list (option nat);
  p_cwd : option nat;
  p_name : list Z;
}.

Definition set_state (v : Procstate) (p : proc) : proc :=
  mkProc (p_sz p) (p_pgdir p) (p_kstack p) v (p_pid p) (p_parent p) (p_tf p) (p_context p)
         (p_chan p) (p_killed p) (p_ofile p) (p_cwd p) (p_name p).
Definition set_pid (v : Z) (p : proc) : proc :=
  mkProc (p_sz p) (p_pgdir p) (p_kstack p) (p_state p) v (p_parent p) (p_tf p) (p_context p)
         (p_chan p) (p_killed p) (p_ofile p) (p_cwd p) (p_name p).
Definition set_parent (v : option nat) (p : proc) : proc :=
  mkProc (p_sz p) (p_pgdir p) (p_kstack p) (p_state p) (p_pid p) v (p_tf p) (p_context p)
         (p_chan p) (p_killed p) (p_ofile p) (p_cwd p) (p_name p).
Definition set_chan (v : option chan) (p : proc) : proc :=
  mkProc (p_sz p) (p_pgdir p) (p_kstack p) (p_state p) (p_pid p) (p_parent p) (p_tf p)
         (p_context p) v (p_killed p) (p_ofile p) (p_cwd p) (p_name p).
Definition set_killed (v : Z) (p : proc) : proc :=
  mkProc (p_sz p) (p_pgdir p) (p_kstack p) (p_state p) (p_pid p) (p_parent p) (p_tf p)
         (p_context p) (p_chan p) v (p_ofile p) (p_cwd p) (p_name p).
Definition set_ofile (i : nat) (v : option nat) (p : proc) : proc :=
  mkProc (p_sz p) (p_pgdir p) (p_kstack p) (p_state p) (p_pid p) (p_parent p) (p_tf p)
         (p_context p) (p_chan p) (p_killed p) (<[i := v]> (p_ofile p)) (p_cwd p) (p_name p).
Definition set_pcwd (v : option nat) (p : proc) : proc :=
  mkProc (p_sz p) (p_pgdir p) (p_kstack p) (p_state p) (p_pid p) (p_parent p) (p_tf p)
         (p_context p) (p_chan p) (p_killed p) (p_ofile p) v (p_name p).
Definition set_pname (v : list Z) (p : proc) : proc :=
  mkProc (p_sz p) (p_pgdir p) (p_kstack p) (p_state p) (p_pid p) (p_parent p) (p_tf p)
         (p_context p) (p_chan p) (p_killed p) (p_ofile p) (p_cwd p) v.
Definition set_image (sz pgdir : Z) (p : proc) : proc :=
  mkProc sz pgdir (p_kstack p) (p_state p) (p_pid p) (p_parent p) (p_tf p) (p_context p)
         (p_chan p) (p_killed p) (p_ofile p) (p_cwd p) (p_name p).
Definition set_kstack (v : Z) (p : proc) : proc :=
  mkProc (p_sz p) (p_pgdir p) v (p_state p) (p_pid p) (p_parent p) (p_tf p) (p_context p)
         (p_chan p) (p_killed p) (p_ofile p) (p_cwd p) (p_name p).
Definition set_ptf (v : trapframe) (p : proc) : proc :=
  mkProc (p_sz p) (p_pgdir p) (p_kstack p) (p_state p) (p_pid p) (p_parent p) v (p_context p)
         (p_chan p) (p_killed p) (p_ofile p) (p_cwd p) (p_name p).
Definition set_context (v : resume) (p : proc) : proc :=
  mkProc (p_sz p) (p_pgdir p) (p_kstack p) (p_state p) (p_pid p) (p_parent p) (p_tf p) v
         (p_chan p) (p_killed p) (p_ofile p) (p_cwd p) (p_name p).

(** [safestrcpy]: the bytes of [src] up to its end, at most [n - 1] of them,
    and a zero; the rest of [dst] stays. *)
Fixpoint copy_str (n : nat) (src : list Z) : list Z :=
  match n with
  | O => [0]
  | S n' =>
      let c := nth 0 src 0 in
      if c =? 0 then [0] else c :: copy_str n' (tail src)
  end.
Definition safestrcpy (dst src : list Z) (n : nat) : list Z :=
  match n with
  | O => dst
  | S n' => splice 0 (copy_str n' src) dst
  end.

Section proc.
Context {D : Type} `{!BlockDev D}.
Context (kernel_end : Z) (kpdpt : Z).
Context (devsw_read : Z → option (nat → Z → Z → M (fstate (D := D)) (Z * list Z)))
        (devsw_write : Z → option (nat → Z → list Z → Z → M (fstate (D := D)) Z)).

(** The components below, the process table and its lock, [INITPROC],
    [NEXTPID], [FORKRET_FIRST], the running process, and [my_cpu().ncli] with
    the interrupt flag. *)
Record pst := mkPst {
  pk : kst (D := D);
  ptable : list proc;
  pt_lock : spinlock;
  INITPROC : option nat;
  NEXTPID : Z;
  FORKRET_FIRST : bool;
  cur : nat;
  ncli : Z;
  eflags_if : bool;
}.

Definition with_k {A} (m : M kst A) : M pst A :=
  zoom pk (λ k s, mkPst k (ptable s) (pt_lock s) (INITPROC s) (NEXTPID s) (FORKRET_FIRST s) (cur s)
                        (ncli s) (eflags_if s)) m.
Definition on_vm {A} (m : M Kalloc.kmem_t A) : M pst A := with_k (on_mem m).
Definition set_ptable (v : list proc) (s : pst) : pst :=
  mkPst (pk s) v (pt_lock s) (INITPROC s) (NEXTPID s) (FORKRET_FIRST s) (cur s) (ncli s) (eflags_if s).
Definition set_pt_lock (v : Z) (s : pst) : pst :=
  mkPst (pk s) (ptable s) (set_locked v (pt_lock s)) (INITPROC s) (NEXTPID s) (FORKRET_FIRST s) (cur s)
        (ncli s) (eflags_if s).
Definition set_initproc (v : option nat) (s : pst) : pst :=
  mkPst (pk s) (ptable s) (pt_lock s) v (NEXTPID s) (FORKRET_FIRST s) (cur s) (ncli s) (eflags_if s).
Definition set_nextpid (v : Z) (s : pst) : pst :=
  mkPst (pk s) (ptable s) (pt_lock s) (INITPROC s) v (FORKRET_FIRST s) (cur s) (ncli s) (eflags_if s).
Definition set_cur (v : nat) (s : pst) : pst :=
  mkPst (pk s) (ptable s) (pt_lock s) (INITPROC s) (NEXTPID s) (FORKRET_FIRST s) v (ncli s) (eflags_if s).
Definition set_first (v : bool) (s : pst) : pst :=
  mkPst (pk s) (ptable s) (pt_lock s) (INITPROC s) (NEXTPID s) v (cur s) (ncli s) (eflags_if s).

Definition proc_at (i : nat) : M pst proc :=
  let* s := get in expect "wild process pointer" (ptable s !! i).
Definition on_proc (i : nat) (f : proc → proc) : M pst unit :=
  modify (λ s, set_ptable (alter f i (ptable s)) s).
Definition my_proc : M pst proc := let* s := get in proc_at (cur s).

(** [wakeup1] on the whole table. *)
Definition wake (c : option chan) (p : proc) : proc :=
  if decide (p_state p = SLEEPING ∧ p_chan p = c) then set_state RUNNABLE p else p.
Definition wakeup1 (c : option chan) : M pst unit :=
  modify (λ s, set_ptable (wake c <$> ptable s) s).

(** The components below see the running process through [my_proc] (its pid,
    its current directory, whether it is killed) and record the channels they
    call [wakeup] on. [on_k] runs one of their functions for the running
    process and then delivers these calls to the table, in their order within
    each component; nothing else runs before that. *)
Definition enter (p : proc) (k : kst (D := D)) : kst (D := D) :=
  let f := k_fs k in
  let b := lb (fl f) in
  mkK (mkFs (mkL (lg (fl f))
                 (mkBio (bc_lock b) (bufs b) (disk b) (p_pid p) [] (dhist b)) [])
            (SB f) (ic_lock f) (inodes f) [] (p_cwd p))
      (ft_lock k) (files k) (pipes k) (k_mem k) [] (p_killed p).
Definition wakeups (k : kst (D := D)) : list chan :=
  bwakes (lb (fl (k_fs k))) ++ lwakes (fl (k_fs k)) ++ iwakes (k_fs k) ++ k_wakes k.
Definition on_k {A} (m : M kst A) : M pst A :=
  let* p := my_proc in
  with_k (modify (enter p)) ;;;
  let* a := with_k m in
  let* k := gets pk in
  forM (wakeups k) (λ c, wakeup1 (Some c)) ;;;
  ret a.

(** [pinit]. *)
Definition pinit : M pst unit :=
  modify (λ s, mkPst (pk s) (ptable s) (initlock "ptable" (pt_lock s)) (INITPROC s) (NEXTPID s)
                     (FORKRET_FIRST s) (cur s) (ncli s) (eflags_if s)).

(** ** Creation *)

Fixpoint find_unused (i : nat) (l : list proc) : option nat :=
  match l with
  | [] => None
  | p :: l' => if decide (p_state p = UNUSED) then Some i else find_unused (S i) l'
  end.

Definition allocproc : M pst (option nat) :=
  modify (set_pt_lock 1) ;;;
  let* s := get in
  match find_unused 0 (ptable s) with
  | None =>
      modify (set_pt_lock 0) ;;;
      ret None
  | Some i =>
      on_proc i (set_state EMBRYO) ;;;
      on_proc i (set_pid (NEXTPID s)) ;;;
      let* np := chk_i32 (NEXTPID s + 1) in
      modify (set_nextpid np) ;;;
      modify (set_pt_lock 0) ;;;
      let* kstack := on_vm Kalloc.kalloc in
      if kstack =? 0 then
        on_proc i (set_state UNUSED) ;;;
        ret None
      else
        on_proc i (set_kstack kstack) ;;;
        on_proc i (set_context AtForkret) ;;;
        ret (Some i)
  end.

(** [initcode] is the program image linked into the kernel. *)
Definition userinit (initcode : list Z) : M pst unit :=
  let* a := allocproc in
  modify (set_initproc a) ;;;
  let* pgdir := on_vm (Vm.setupkvm kpdpt) in
  if pgdir =? 0 then panic "userinit: out of memory?"
  else
    let* p := expect "null process" a in
    on_vm (Vm.inituvm pgdir initcode (Z.of_nat (length initcode))) ;;;
    on_proc p (set_image (Mmu.PGSIZE * 2) pgdir) ;;;
    on_proc p (set_ptf (set_entry 0 Mmu.PGSIZE (Mmu.PGSIZE * 2) (set_r11 Mmu.FL_IF tf_zero))) ;;;
    on_proc p (λ x, set_pname (safestrcpy (p_name x) [105; 110; 105; 116; 99; 111; 100; 101] 16) x) ;;;
    let* ip := on_k (on_fs (namei devsw_read [47])) in
    on_proc p (set_pcwd ip) ;;;
    on_proc p (set_state RUNNABLE).

(** [n] is the 64-bit parameter. *)
Definition growproc (n : Z) : M pst Z :=
  let* s := get in
  let* p := my_proc in
  let* sz :=
    (if 0 <? n then
       let* newsz := chk_u64 (p_sz p + n) in
       on_vm (Vm.allocuvm kernel_end (p_pgdir p) (p_sz p) newsz)
     else if n <? 0 then
       on_vm (Vm.deallocuvm kernel_end (p_pgdir p) (p_sz p) (as_u64 (p_sz p + as_u64 n)))
     else ret (p_sz p)) in
  if negb (n =? 0) && (sz =? 0) then ret (-1)
  else
    on_proc (cur s) (λ x, set_image sz (p_pgdir x) x) ;;;
    ret 0.

Definition fork : M pst Z :=
  let* s := get in
  let* p := my_proc in
  let* a := allocproc in
  match a with
  | None => ret (-1)
  | Some np =>
      let* pgdir := on_vm (Vm.copyuvm kernel_end kpdpt (p_pgdir p) (as_u32 (p_sz p))) in
      if pgdir =? 0 then
        let* c := proc_at np in
        on_vm (Kalloc.kfree kernel_end (p_kstack c)) ;;;
        on_proc np (set_kstack 0) ;;;
        on_proc np (set_state UNUSED) ;;;
        ret (-1)
      else
        on_proc np (set_image (p_sz p) pgdir) ;;;
        on_proc np (set_parent (Some (cur s))) ;;;
        on_proc np (set_ptf (set_rax 0 (p_tf p))) ;;;
        forM (seq 0 (Z.to_nat NOFILE)) (λ i,
          match nth i (p_ofile p) None with
          | Some f =>
              let* f := on_k (filedup f) in
              on_proc np (set_ofile i (Some f))
          | None => ret tt
          end) ;;;
        let* c := expect "null inode" (p_cwd p) in
        let* c := on_k (on_fs (idup c)) in
        on_proc np (set_pcwd (Some c)) ;;;
        on_proc np (λ x, set_pname (safestrcpy (p_name x) (p_name p) 16) x) ;;;
        let* x := proc_at np in
        on_proc np (set_state RUNNABLE) ;;;
        ret (p_pid x)
  end.

(** ** Sleeping and waking *)

Definition wakeup (c : chan) : M pst unit :=
  modify (set_pt_lock 1) ;;;
  wakeup1 (Some c) ;;;
  modify (set_pt_lock 0).

(** [sched] up to the switch; the interrupt nesting it saves and restores
    belongs to the processor. *)
Definition sched : M pst unit :=
  let* s := get in
  let* p := my_proc in
  if locked (pt_lock s) =? 0 then panic "sched ptable.lock"
  else if negb (ncli s =? 1) then panic "sched locks"
  else if decide (p_state p = RUNNING) then panic "sched running"
  else if eflags_if s then panic "sched interruptible"
  else on_proc (cur s) (set_context AfterSwitch).

Definition yield_proc : M pst unit :=
  modify (set_pt_lock 1) ;;;
  let* s := get in
  on_proc (cur s) (set_state RUNNABLE) ;;;
  sched.

(** [sleep_proc] until the switch. [lk] is the caller's lock: null, the
    table's own, or another one, which [release_lk] releases. *)
Inductive lock_arg : Type := LkNull | LkPtable | LkOther (release_lk : M pst unit).

Definition sleep_proc (c : chan) (lk : lock_arg) : M pst unit :=
  let* s := get in
  match lk with
  | LkNull => panic "sleep without lk"
  | LkPtable => ret tt
  | LkOther release_lk =>
      modify (set_pt_lock 1) ;;;
      release_lk
  end ;;;
  on_proc (cur s) (set_chan (Some c)) ;;;
  on_proc (cur s) (set_state SLEEPING) ;;;
  sched.

(** The rest of [sleep_proc], when the process runs again. *)
Definition sleep_resume (lk_other : bool) : M pst unit :=
  let* s := get in
  on_proc (cur s) (set_chan None) ;;;
  if lk_other then modify (set_pt_lock 0) else ret tt.

(** ** Exit and wait *)

Fixpoint reparent (n : nat) (i p : nat) : M pst unit :=
  match n with
  | O => ret tt
  | S n' =>
      let* s := get in
      let* c := proc_at i in
      (if decide (p_parent c = Some p) then
         on_proc i (set_parent (INITPROC s)) ;;;
         if decide (p_state c = ZOMBIE)
         then wakeup1 (match INITPROC s with Some j => Some (ChProc j) | None => None end)
         else ret tt
       else ret tt) ;;;
      reparent n' (S i) p
  end.

(** [exit] up to the switch, from which it does not come back. *)
Definition exit : M pst unit :=
  let* s := get in
  let p := cur s in
  if decide (INITPROC s = Some p) then panic "init exiting"
  else
    forM (seq 0 (Z.to_nat NOFILE)) (λ fd,
      let* x := my_proc in
      match nth fd (p_ofile x) None with
      | Some f =>
          on_k (fileclose kernel_end f) ;;;
          on_proc p (set_ofile fd None)
      | None => ret tt
      end) ;;;
    on_k (on_fs (on_l begin_op)) ;;;
    let* x := my_proc in
    let* c := expect "null inode" (p_cwd x) in
    on_k (on_fs (iput c)) ;;;
    on_k (on_fs (on_l end_op)) ;;;
    on_proc p (set_pcwd None) ;;;
    modify (set_pt_lock 1) ;;;
    let* x := my_proc in
    wakeup1 (match p_parent x with Some j => Some (ChProc j) | None => None end) ;;;
    reparent (Z.to_nat NPROC) 0 p ;;;
    on_proc p (set_state ZOMBIE) ;;;
    sched.

(** How [wait] ends: with a result, or asleep until a child exits. *)
Inductive wres : Type := WDone (r : Z) | WSleep.

(** The scan of [wait]: the first zombie child, and whether there is any
    child before it. *)
Fixpoint scan_children (p : nat) (i : nat) (l : list proc) (havekids : bool) : option nat * bool :=
  match l with
  | [] => (None, havekids)
  | c :: l' =>
      if decide (p_parent c = Some p) then
        if decide (p_state c = ZOMBIE) then (Some i, true)
        else scan_children p (S i) l' true
      else scan_children p (S i) l' havekids
  end.

(** Clears the slot of a reaped child. *)
Definition reap (c : proc) : proc :=
  set_state UNUSED (set_killed 0 (set_pname (<[0%nat := 0]> (p_name c)) (set_parent None (set_pid 0 c)))).

(** [wait] called, or woken up inside its loop. *)
Definition wait : M pst wres :=
  modify (set_pt_lock 1) ;;;
  let* s := get in
  match scan_children (cur s) 0 (ptable s) false with
  | (Some i, _) =>
      let* c := proc_at i in
      on_vm (Kalloc.kfree kernel_end (p_kstack c)) ;;;
      on_proc i (set_kstack 0) ;;;
      on_vm (Vm.freevm kernel_end (p_pgdir c)) ;;;
      on_proc i reap ;;;
      modify (set_pt_lock 0) ;;;
      ret (WDone (p_pid c))
  | (None, havekids) =>
      let* p := my_proc in
      if negb havekids || negb (p_killed p =? 0) then
        modify (set_pt_lock 0) ;;;
        ret (WDone (-1))
      else
        sleep_proc (ChProc (cur s)) LkPtable ;;;
        ret WSleep
  end.

(** ** Kill and the scheduler *)

Fixpoint kill_scan (pid : Z) (i : nat) (l : list proc) : option nat :=
  match l with
  | [] => None
  | p :: l' => if p_pid p =? pid then Some i else kill_scan pid (S i) l'
  end.

Definition kill (pid : Z) : M pst Z :=
  modify (set_pt_lock 1) ;;;
  let* s := get in
  match kill_scan pid 0 (ptable s) with
  | Some i =>
      on_proc i (set_killed 1) ;;;
      on_proc i (λ p, if decide (p_state p = SLEEPING) then set_state RUNNABLE p else p) ;;;
      modify (set_pt_lock 0) ;;;
      ret 0
  | None =>
      modify (set_pt_lock 0) ;;;
      ret (-1)
  end.

(** The scheduler's loop over the table from slot [i]: the next process it
    switches to, with the count of slots it skipped since the last one. *)
Fixpoint sched_scan (l : list proc) (i : nat) (skipped : Z) : option nat * Z :=
  match l with
  | [] => (None, skipped)
  | p :: l' =>
      if decide (p_state p = RUNNABLE) then (Some i, 0) else sched_scan l' (S i) (skipped + 1)
  end.

(** What the scheduler does next, at slot [i] of its loop: it switches to a
    process, or ends its pass, after which it may halt. *)
Inductive sres : Type :=
| SRun (i : nat)
| SPass (halt : bool).

Definition scheduler_step (i : nat) (skipped : Z) : M pst (sres * Z) :=
  modify (set_pt_lock 1) ;;;
  let* s := get in
  match sched_scan (drop i (ptable s)) i skipped with
  | (Some j, k) =>
      modify (set_cur j) ;;;
      on_proc j (set_state RUNNING) ;;;
      ret (SRun j, k)
  | (None, k) =>
      modify (set_pt_lock 0) ;;;
      if NPROC <? k then ret (SPass true, 0) else ret (SPass false, k)
  end.

Definition forkret : M pst unit :=
  modify (set_pt_lock 0) ;;;
  let* s := get in
  if FORKRET_FIRST s then
    modify (set_first false) ;;;
    on_k (on_fs (iinit (as_i32 ROOTDEV))) ;;;
    on_k (on_fs (on_l (initlog (as_i32 ROOTDEV))))
  else ret tt.

End proc.
End Proc.
