(* ===== verification/ProcTable.v ===== *)
(** * The process table

    What the functions of crates/proc/src/proc.rs keep true of the process
    table: distinct process ids, a family tree under [init], and no parent
    asleep in [wait] while a child of it is a zombie. *)

From S2P Require Import Prelude Param Mmu Mem Kalloc Sync Disk Ring Bio Fsh Log Fs Pipe File Vm Proc.
Import Sync Bio Fsh Log Fs Pipe File Proc.

Module ProcTable.

Create HintDb quiet.
Create HintDb still.

Section table.
Context {D : Type} `{!BlockDev D}.
Context (kernel_end kpdpt : Z).
Context (devsw_read : Z → option (nat → Z → Z → M (fstate (D := D)) (Z * list Z))).
Implicit Types s : pst (D := D).

Definition alive (p : proc) : Prop := p_state p ≠ UNUSED ∧ p_state p ≠ ZOMBIE.
Definition childless (i : nat) (s : pst (D := D)) : Prop :=
  ∀ k q, ptable s !! k = Some q → p_parent q ≠ Some i.

Definition alive_at (i : nat) (s : pst (D := D)) : Prop :=
  ∃ p, ptable s !! i = Some p ∧ alive p.

Record table_ok (s : pst (D := D)) : Prop := {
  to_pid i p : ptable s !! i = Some p → p_state p ≠ UNUSED → 0 < p_pid p < NEXTPID s;
  to_uniq i j p q : ptable s !! i = Some p → ptable s !! j = Some q →
    p_state p ≠ UNUSED → p_state q ≠ UNUSED → p_pid p = p_pid q → i = j;
  to_parent i p : ptable s !! i = Some p → p_parent p ≠ Some i;
  to_init j : INITPROC s = Some j → ∃ p, ptable s !! j = Some p ∧ p_parent p = None ∧ alive p;
  to_family i j p : ptable s !! i = Some p → p_parent p = Some j →
    alive_at j s;
  to_free i p : ptable s !! i = Some p → p_state p = UNUSED → p_parent p = None;
  to_len : length (ptable s) = Z.to_nat NPROC;
  to_wait i p c q : ptable s !! i = Some p → p_state p = SLEEPING → p_chan p = Some (ChProc i) →
    ptable s !! c = Some q → p_parent q = Some i → p_state q ≠ ZOMBIE;
  to_next : 0 < NEXTPID s;
  to_run i p : ptable s !! i = Some p → p_state p = RUNNING → i = cur s;
}.

(** ** Steps that at most wake processes

    What a process's relatives depend on does not change, but a sleeping
    process may become runnable. *)
Definition woken1 (p q : proc) : Prop :=
  p_pid q = p_pid p ∧ p_parent q = p_parent p ∧ p_chan q = p_chan p ∧
  (p_state q = p_state p ∨ p_state p = SLEEPING ∧ p_state q = RUNNABLE).
Definition woken (s s' : pst (D := D)) : Prop :=
  Forall2 woken1 (ptable s) (ptable s') ∧
  INITPROC s' = INITPROC s ∧ NEXTPID s' = NEXTPID s ∧ cur s' = cur s ∧ ncli s' = ncli s.

#[global] Instance woken1_preorder : PreOrder woken1.
Proof.
  split; [intros p; split_and!; auto|].
  intros p q r (A1 & A2 & A3 & A4) (B1 & B2 & B3 & B4). split_and!; try congruence.
  destruct A4 as [?|[? ?]], B4 as [?|[? ?]]; (left; congruence) || (right; split; congruence).
Qed.

#[global] Instance woken_preorder : PreOrder woken.
Proof.
  split.
  - intros s. split_and!; done.
  - intros s t u (A & ? & ? & ? & ?) (B & ? & ? & ? & ?). split_and!; try congruence. by etrans.
Qed.

Lemma woken_lookup s s' i p : woken s s' → ptable s !! i = Some p →
  ∃ q, ptable s' !! i = Some q ∧ woken1 p q.
Proof. intros [H _] Hp. by eapply Forall2_lookup_l. Qed.
Lemma woken_lookup_inv s s' i q : woken s s' → ptable s' !! i = Some q →
  ∃ p, ptable s !! i = Some p ∧ woken1 p q.
Proof. intros [H _] Hq. by eapply Forall2_lookup_r. Qed.

Lemma alive_woken p q : woken1 p q → alive p → alive q.
Proof. intros (_ & _ & _ & E) [Hu Hz]. split; destruct E as [?|[? ?]]; congruence. Qed.
Lemma alive_at_woken i s s' : woken s s' → alive_at i s → alive_at i s'.
Proof.
  intros Hw (p & Hp & Ha). destruct (woken_lookup s s' i p Hw Hp) as (q & Hq & E).
  exists q. split; [done|by eapply alive_woken].
Qed.
Lemma childless_woken i s s' : woken s s' → childless i s → childless i s'.
Proof.
  intros Hw Hc k q Hq. destruct (woken_lookup_inv s s' k q Hw Hq) as (p & Hp & _ & -> & _).
  by eapply Hc.
Qed.

Lemma table_ok_woken s s' : woken s s' → table_ok s → table_ok s'.
Proof.
  intros Hw [H1 H2 H3 H4 HF HU HL H5 HN H6]. pose proof (λ i q, woken_lookup_inv s s' i q Hw) as Hl.
  pose proof Hw as (_ & Ei & En & Ec & _). split.
  - intros i q (p & Hp & E1 & _ & _ & E4)%Hl Hu. rewrite En, E1. apply (H1 i p Hp). destruct E4 as [?|[? ?]]; congruence.
  - intros i j q r (p & Hp & E1 & _ & _ & E4)%Hl (p' & Hp' & F1 & _ & _ & F4)%Hl Hu Hu' E.
    apply (H2 i j p p' Hp Hp'); destruct E4 as [?|[? ?]], F4 as [?|[? ?]]; congruence.
  - intros i q (p & Hp & _ & E2 & _)%Hl. rewrite E2. by apply H3.
  - intros j Hj. rewrite Ei in Hj. destruct (H4 j Hj) as (p & Hp & Hpar & Ha).
    destruct (woken_lookup s s' j p Hw Hp) as (q & Hq & E).
    exists q. split_and!; [done| |by eapply alive_woken]. destruct E as (_ & -> & _). done.
  - intros i j q (p & Hp & _ & E2 & _)%Hl Hj. rewrite E2 in Hj.
    eapply alive_at_woken; [done|by eapply HF].
  - intros i q (p & Hp & _ & E2 & _ & E4)%Hl Hu. rewrite E2. apply (HU i p Hp).
    destruct E4 as [?|[? ?]]; congruence.
  - by rewrite <- HL, <- (Forall2_length _ _ _ (proj1 Hw)).
  - intros i q c r (p & Hp & _ & _ & E3 & E4)%Hl Hs Hc (p' & Hp' & _ & F2 & _ & F4)%Hl Hpar.
    assert (Hz : p_state p' ≠ ZOMBIE) by (apply (H5 i p c p'); destruct E4 as [?|[? ?]]; congruence).
    destruct F4 as [?|[? ?]]; congruence.
  - lia.
  - intros i q (p & Hp & _ & _ & _ & E4)%Hl Hr. rewrite Ec. apply (H6 i p Hp). destruct E4 as [?|[? ?]]; congruence.
Qed.

Definition quiet {A} : M (pst (D := D)) A → Prop := resp woken.

Lemma quiet_ret {A} (a : A) : quiet (ret a).
Proof. exact (resp_ret woken a). Qed.
Lemma quiet_bind {A B} (m : M pst A) (k : A → M pst B) : quiet m → (∀ a, quiet (k a)) → quiet (bind m k).
Proof. exact (resp_bind woken m k). Qed.
Lemma quiet_keeps {A} (m : M pst A) :
  keeps (λ s, (ptable s, INITPROC s, NEXTPID s, cur s, ncli s)) m → quiet m.
Proof.
  intros Hk. eapply resp_keeps; [exact Hk|]. intros s s' [= E1 E2 E3 E4 E5].
  split_and!; try done. by rewrite E1.
Qed.
Lemma quiet_forM {A} (l : list A) body : (∀ x, quiet (body x)) → quiet (forM l body).
Proof. exact (resp_forM woken l body). Qed.
Lemma quiet_on_proc i f : (∀ p, woken1 p (f p)) → quiet (on_proc i f).
Proof.
  intros Hf s. apply wlp_modify. split_and!; try done. simpl. apply Forall2_same_length_lookup_2.
  - by rewrite length_alter.
  - intros j p q Hp. destruct (decide (i = j)) as [->|].
    + rewrite list_lookup_alter_eq, Hp. intros [= <-]. apply Hf.
    + rewrite list_lookup_alter_ne, Hp by done. by intros [= <-].
Qed.
Lemma wake_woken c p : woken1 p (wake c p).
Proof.
  unfold wake. destruct (decide _) as [[Hs _]|]; [|done]. split_and!; simpl; auto.
Qed.
Lemma quiet_wakeup1 c : quiet (wakeup1 c).
Proof.
  intros s. apply wlp_modify. split_and!; try done. simpl. apply Forall2_fmap_r, Forall_Forall2_diag.
  apply Forall_forall. intros p _. apply wake_woken.
Qed.

Hint Resolve quiet_ret quiet_bind quiet_forM quiet_wakeup1 : quiet.
Hint Extern 2 (quiet (on_proc _ _)) =>
  apply quiet_on_proc; intros; split_and!; (left; reflexivity) || reflexivity : quiet.
Hint Extern 5 (quiet _) => apply quiet_keeps; solve [auto 12 with keeps] : quiet.

Lemma woken_lock v s : woken s (set_pt_lock v s).
Proof. by split_and!. Qed.

Lemma quiet_proc_at i : quiet (proc_at i).
Proof. apply quiet_keeps. unfold proc_at. auto with keeps. Qed.
Lemma quiet_my_proc : quiet my_proc.
Proof. apply quiet_keeps. unfold my_proc, proc_at. auto 8 with keeps. Qed.
Lemma quiet_with_k {A} (m : M kst A) : quiet (with_k m).
Proof. apply quiet_keeps. unfold with_k. auto with keeps. Qed.
Hint Resolve quiet_proc_at quiet_my_proc quiet_with_k : quiet.
Lemma quiet_on_vm {A} (m : M Kalloc.kmem_t A) : quiet (on_vm m).
Proof. apply quiet_with_k. Qed.
Lemma quiet_on_k {A} (m : M kst A) : quiet (on_k m).
Proof. unfold on_k. auto 12 with quiet. Qed.
Hint Resolve quiet_on_vm quiet_on_k : quiet.

(** Changes to one process. *)
Lemma table_ok_insert s s' i p q :
  table_ok s → ptable s !! i = Some p → ptable s' = <[i := q]> (ptable s) →
  INITPROC s' = INITPROC s → NEXTPID s ≤ NEXTPID s' →
  (p_state q ≠ UNUSED → 0 < p_pid q < NEXTPID s' ∧
     ∀ j r, j ≠ i → ptable s !! j = Some r → p_state r ≠ UNUSED → p_pid r ≠ p_pid q) →
  p_parent q ≠ Some i →
  (INITPROC s = Some i → p_parent q = None ∧ alive q) →
  (∀ j, p_parent q = Some j → alive_at j s) →
  alive q ∨ (∀ k r, k ≠ i → ptable s !! k = Some r → p_parent r ≠ Some i) →
  (p_state q = UNUSED → p_parent q = None) →
  (p_state q = SLEEPING → p_chan q = Some (ChProc i) →
     ∀ c r, c ≠ i → ptable s !! c = Some r → p_parent r = Some i → p_state r ≠ ZOMBIE) →
  (p_state q = ZOMBIE → ∀ j r, j ≠ i → p_parent q = Some j → ptable s !! j = Some r →
     p_state r = SLEEPING → p_chan r ≠ Some (ChProc j)) →
  (p_state q = RUNNING → i = cur s') →
  (∀ j r, j ≠ i → ptable s !! j = Some r → p_state r = RUNNING → j = cur s') →
  table_ok s'.
Proof.
  intros [H1 H2 H3 H4 HF HU HL H5 HN H6] Hp Et Ei En Hpid Hpar Hinit Hfam Hdead Hfree Hwait Hz Hrun Hrun'.
  assert (Hl : ∀ j r, ptable s' !! j = Some r → (j = i ∧ r = q) ∨ (j ≠ i ∧ ptable s !! j = Some r)).
  { intros j r. rewrite Et. destruct (decide (j = i)) as [->|].
    - rewrite list_lookup_insert_eq by (by eapply lookup_lt_Some). intros [= <-]. by left.
    - rewrite list_lookup_insert_ne by done. by right. }
  split.
  - intros j r [[-> ->]|[Hj Hr]]%Hl Hu; [by apply Hpid|]. specialize (H1 j r Hr Hu). lia.
  - intros j1 j2 r1 r2 [[-> ->]|[Hj1 Hr1]]%Hl [[-> ->]|[Hj2 Hr2]]%Hl U1 U2 E; [done| | |by eapply H2].
    + exfalso. by apply (proj2 (Hpid U1) j2 r2).
    + exfalso. by apply (proj2 (Hpid U2) j1 r1).
  - intros j r [[-> ->]|[Hj Hr]]%Hl; [done|by apply H3].
  - intros j Hj. rewrite Ei in Hj. rewrite Et. destruct (decide (j = i)) as [->|Hne].
    + exists q. rewrite list_lookup_insert_eq by (by eapply lookup_lt_Some).
      destruct (Hinit Hj) as (? & ?). by split_and!.
    + rewrite list_lookup_insert_ne by done. by apply H4.
  - assert (Ha : ∀ j, alive_at j s → j ≠ i ∨ alive q → alive_at j s').
    { intros j (r & Hr & Ha) Hor. unfold alive_at. rewrite Et. destruct (decide (j = i)) as [->|].
      - exists q. rewrite list_lookup_insert_eq by (by eapply lookup_lt_Some). by destruct Hor.
      - exists r. by rewrite list_lookup_insert_ne. }
    intros k j r [[-> ->]|[Hk Hr]]%Hl Hj.
    + apply Ha; [by apply Hfam|left; congruence].
    + apply Ha; [by eapply HF|]. destruct Hdead as [?|Hd]; [by right|left].
      intros ->. by apply (Hd k r).
  - intros j r [[-> ->]|[Hj Hr]]%Hl; [done|by apply (HU j r)].
  - by rewrite Et, length_insert.
  - intros j r c r' [[-> ->]|[Hj Hr]]%Hl Hs Hc [[-> ->]|[Hc' Hr']]%Hl Hpr.
    + done.
    + by eapply Hwait.
    + intros Hzb. eapply (Hz Hzb j r); eauto.
    + by eapply (H5 j r c r').
  - lia.
  - intros j r [[-> ->]|[Hj Hr]]%Hl Hru; [by apply Hrun|by eapply Hrun'].
Qed.

Lemma wp_proc_at i p s (Q : proc → pst → Prop) : ptable s !! i = Some p → Q p s → wp (proc_at i) s Q.
Proof. intros E HQ. unfold proc_at. do 2 wp_step. rewrite E. by apply wp_ret. Qed.

Lemma wlp_proc_at i s (Q : proc → pst → Prop) :
  (∀ p, ptable s !! i = Some p → Q p s) → wlp (proc_at i) s Q.
Proof. intros HQ. unfold proc_at. do 2 wlp_step. by apply wlp_expect. Qed.
Lemma wlp_my_proc s (Q : proc → pst → Prop) :
  (∀ p, ptable s !! cur s = Some p → Q p s) → wlp my_proc s Q.
Proof. intros HQ. unfold my_proc. do 2 wlp_step. by apply wlp_proc_at. Qed.
Lemma wlp_on_proc i f p s (Q : unit → pst → Prop) : ptable s !! i = Some p →
  Q tt (set_ptable (<[i := f p]> (ptable s)) s) → wlp (on_proc i f) s Q.
Proof.
  intros Hp HQ. apply wlp_modify.
  replace (alter f i (ptable s)) with (<[i := f p]> (ptable s)); [done|].
  apply list_eq. intros j. destruct (decide (i = j)) as [->|].
  - rewrite list_lookup_alter_eq, Hp. by rewrite list_lookup_insert_eq by (by eapply lookup_lt_Some).
  - by rewrite list_lookup_alter_ne, list_lookup_insert_ne.
Qed.
Lemma wlp_quiet {A} (m : M pst A) s (Q : A → pst → Prop) :
  quiet m → (∀ a s', woken s s' → Q a s') → wlp m s Q.
Proof. apply wlp_resp. Qed.

Definition running (s : pst (D := D)) : Prop :=
  ∃ p, ptable s !! cur s = Some p ∧ p_state p = RUNNING.

(** ** Creation *)

Lemma find_unused_Some k l i : find_unused k l = Some i →
  ∃ x, l !! (i - k)%nat = Some x ∧ p_state x = UNUSED ∧ (k ≤ i)%nat.
Proof.
  revert k. induction l as [|p l IH]; intros k; simpl; [done|].
  destruct (decide _) as [Hu|]; [intros [= <-]; exists p; by rewrite Nat.sub_diag|].
  intros (x & Hx & Hu & Hle)%IH. exists x. replace (i - k)%nat with (S (i - S k)) by lia.
  split_and!; [done|done|lia].
Qed.

(** The slot [allocproc] prepared: an embryo that is neither [init] nor the
    running process, without children, whose parent is [par]. *)
Definition embryo (i : nat) (par : option nat) (s : pst (D := D)) : Prop :=
  INITPROC s ≠ Some i ∧ childless i s ∧
  ∃ x, ptable s !! i = Some x ∧ p_state x = EMBRYO ∧ p_parent x = par.

Lemma embryo_woken i par s s' : woken s s' → embryo i par s → embryo i par s'.
Proof.
  intros Hw (Hi & Hc & x & Hx & He & Hp).
  destruct (woken_lookup s s' i x Hw Hx) as (y & Hy & _ & E2 & _ & E4).
  split; [by rewrite (proj1 (proj2 Hw))|]. split; [by eapply childless_woken|]. exists y.
  split_and!; [done|destruct E4 as [?|[? ?]]; congruence|congruence].
Qed.

(** Nobody is the child of a slot that is free or of a zombie. *)
Lemma dead_childless s i x : table_ok s → ptable s !! i = Some x → ¬ alive x → childless i s.
Proof.
  intros Hok Hx Ha k q Hq Hp. destruct (to_family s Hok k i q Hq Hp) as (r & Hr & Hr').
  congruence.
Qed.

(** A fresh pid for a free slot. *)
Lemma table_ok_embryo s i x : table_ok s → ptable s !! i = Some x → p_state x = UNUSED →
  let s1 := set_nextpid (NEXTPID s + 1)
              (set_ptable (<[i := set_pid (NEXTPID s) (set_state EMBRYO x)]> (ptable s)) s) in
  table_ok s1 ∧ embryo i None s1 ∧ ∀ j, alive_at j s → alive_at j s1.
Proof.
  intros Hok Hx Hu s1. pose proof (to_next s Hok) as Hn. pose proof (to_free s Hok i x Hx Hu) as Hpar.
  assert (Hd : ¬ alive x) by (intros [? ?]; congruence). assert (Hi : INITPROC s ≠ Some i).
  { intros (p & Hp & _ & Ha)%(to_init s Hok). congruence. }
  split_and!.
  - eapply (table_ok_insert s s1 i x (set_pid (NEXTPID s) (set_state EMBRYO x))); simpl; try done;
      [lia| |congruence|congruence|by left|].
    + intros _. split; [lia|]. intros j r _ Hr Hru E. pose proof (to_pid s Hok j r Hr Hru). lia.
    + intros j r _. by apply (to_run s Hok j r).
  - split; [done|]. split; [|exists (set_pid (NEXTPID s) (set_state EMBRYO x)); simpl;
      by rewrite list_lookup_insert_eq by (by eapply lookup_lt_Some)].
    intros k q. simpl. destruct (decide (k = i)) as [->|].
    + rewrite list_lookup_insert_eq by (by eapply lookup_lt_Some). intros [= <-]. simpl. congruence.
    + rewrite list_lookup_insert_ne by done. by apply (dead_childless s i x).
  - intros j (r & Hr & Ha). exists r. simpl. rewrite list_lookup_insert_ne; [done|]. congruence.
Qed.

(** Giving a slot up. *)
Lemma table_ok_unused s i x y : table_ok s → ptable s !! i = Some x → INITPROC s ≠ Some i →
  childless i s → p_state y = UNUSED → p_parent y = None →
  table_ok (set_ptable (<[i := y]> (ptable s)) s).
Proof.
  intros Hok Hx Hi Hc Hy Hpar. eapply (table_ok_insert s _ i x y); simpl; try done; try congruence.
  - right. intros k r _. apply Hc.
  - intros j r _. by apply (to_run s Hok j r).
Qed.

Lemma allocproc_ok s : table_ok s →
  wlp allocproc s (λ a s', table_ok s' ∧ cur s' = cur s ∧ INITPROC s' = INITPROC s ∧
    match a with
    | Some i => ∃ x, ptable s !! i = Some x ∧ p_state x = UNUSED ∧ embryo i None s' ∧
        ∀ j, alive_at j s → alive_at j s'
    | None => True
    end).
Proof.
  intros Hok. unfold allocproc. do 4 wlp_step. cbn [ptable set_pt_lock].
  pose proof (table_ok_woken _ _ (woken_lock 1 s) Hok) as Hok'.
  destruct (find_unused 0 (ptable s)) as [i|] eqn:Ef.
  2: { do 3 wlp_step. split_and!; try done. by apply (table_ok_woken _ _ (woken_lock 0 _)). }
  apply find_unused_Some in Ef as (x & Hx & Hu & _). rewrite Nat.sub_0_r in Hx.
  assert (Hl : (i < length (ptable s))%nat) by (by eapply lookup_lt_Some).
  wlp_step. apply (wlp_on_proc i _ x); [done|]. wlp_step.
  apply (wlp_on_proc i _ (set_state EMBRYO x)); [by apply list_lookup_insert_eq|]. simpl.
  rewrite list_insert_insert_eq. wlp_step. apply wlp_chk_i32. intros _. do 4 wlp_step.
  destruct (table_ok_embryo _ i x Hok' Hx Hu) as (Hok1 & Hem & Hal).
  match goal with |- wlp _ (set_pt_lock 0 ?s1) _ => pose proof (woken_lock 0 s1) as Hw end.
  wlp_step. apply wlp_quiet; [auto with quiet|]. intros kstack s2 Hw2.
  pose proof (transitivity Hw Hw2) as Hw3. clear Hw Hw2.
  pose proof (table_ok_woken _ _ Hw3 Hok1) as Hok2. apply (embryo_woken _ _ _ _ Hw3) in Hem.
  assert (Hal2 : ∀ j, alive_at j s → alive_at j s2).
  { intros j Hj. eapply alive_at_woken; [exact Hw3|]. by apply Hal. }
  destruct Hw3 as (_ & Ei & _ & Ec & _). simpl in Ei, Ec. destruct (kstack =? 0).
  - destruct Hem as (Hi & Hc & y & Hy & _ & Hpy). wlp_step. apply (wlp_on_proc i _ y); [done|]. wlp_step.
    split_and!; try done. by apply (table_ok_unused s2 i y).
  - wlp_step. apply wlp_quiet; [auto with quiet|]. intros _ s3 Hw3.
    wlp_step. apply wlp_quiet; [auto with quiet|]. intros _ s4 Hw4. wlp_step.
    pose proof (transitivity Hw3 Hw4) as Hw5. destruct (Hw5) as (_ & Ei' & _ & Ec' & _). split_and!.
    + by apply (table_ok_woken s2).
    + congruence.
    + congruence.
    + exists x. split_and!; [done|done|by apply (embryo_woken _ _ s2)|].
      intros j Hj. apply (alive_at_woken j _ _ Hw5). auto.
Qed.

(** A child under construction, for process [c]. *)
Definition making (i : nat) (par : option nat) (c : nat) (s : pst (D := D)) : Prop :=
  table_ok s ∧ embryo i par s ∧ alive_at c s.

Lemma wlp_making {A} i par c (m : M pst A) s (Q : A → pst → Prop) :
  making i par c s → quiet m → (∀ a s', making i par c s' → Q a s') → wlp m s Q.
Proof.
  intros (Hok & Hem & Hal) Hm HQ. apply (wlp_quiet m s Q Hm). intros a s' Hw. apply HQ. split_and!.
  - by apply (table_ok_woken s).
  - by apply (embryo_woken i par s).
  - by apply (alive_at_woken c s).
Qed.

Lemma making_change i par c s x y : making i par c s → ptable s !! i = Some x →
  p_pid y = p_pid x → p_state y = EMBRYO ∨ p_state y = RUNNABLE → p_parent y ≠ Some i →
  (∀ j, p_parent y = Some j → alive_at j s) →
  table_ok (set_ptable (<[i := y]> (ptable s)) s).
Proof.
  intros (Hok & (Hi & Hc & x' & Hx' & He & _) & _) Hx Epid Hs Hpar Hfam. assert (x' = x) as -> by congruence.
  eapply (table_ok_insert s _ i x y); simpl; try done; try (destruct Hs; congruence).
  - intros _. rewrite Epid. split; [apply (to_pid s Hok i x Hx); congruence|].
    intros j r Hj Hr Hru E. apply Hj, (to_uniq s Hok j i r x); congruence.
  - left. split; destruct Hs; congruence.
  - intros j r _. by apply (to_run s Hok j r).
Qed.

Ltac making_step H := wlp_step; eapply (wlp_making _ _ _ _ _ _ H); [solve [auto 12 with quiet]|];
  clear H; intros ? ? H; cbv beta.

Lemma quiet_dup_files (np : nat) (fs : list (option nat)) (n : nat) :
  quiet (forM (seq 0 n) (λ i,
    match nth i fs None with
    | Some f =>
        let* f := on_k (filedup f) in
        on_proc np (set_ofile i (Some f))
    | None => ret tt
    end)).
Proof. apply quiet_forM. intros i. destruct (nth i fs None); auto with quiet. Qed.
Hint Resolve quiet_dup_files : quiet.

(** The child gets its parent. *)
Lemma making_parent i c s x : making i None c s → ptable s !! i = Some x → i ≠ c →
  making i (Some c) c (set_ptable (<[i := set_parent (Some c) x]> (ptable s)) s).
Proof.
  intros Hm Hx Hne. pose proof Hm as (Hok & (Hi & Hch & y & Hy & He & _) & Hal).
  assert (y = x) as -> by congruence. assert (Hlt : (i < length (ptable s))%nat) by (by eapply lookup_lt_Some).
  split_and!; simpl.
  - eapply (making_change i None c _ x); simpl; [done|done|done|by left|congruence|]. by intros j [= <-].
  - split; [done|]. split.
    + intros k q. simpl. destruct (decide (k = i)) as [->|].
      * rewrite list_lookup_insert_eq by done. intros [= <-]. simpl. congruence.
      * rewrite list_lookup_insert_ne by done. apply Hch.
    + exists (set_parent (Some c) x). simpl. by rewrite list_lookup_insert_eq by done.
  - destruct Hal as (r & Hr & Ha). exists r. simpl. by rewrite list_lookup_insert_ne.
Qed.

Lemma fork_ok s : table_ok s → running s →
  wlp (fork kernel_end kpdpt) s (λ _ s', table_ok s').
Proof.
  intros Hok (p & Hp & Hrun). unfold fork. do 3 wlp_step. apply wlp_my_proc. intros p' Hp'.
  assert (p' = p) as -> by congruence. clear Hp'.
  wlp_step. eapply wlp_mono; [by apply allocproc_ok|]. intros a s1 (Hok1 & Ec & _ & Ha).
  destruct a as [np|]; [|by apply wlp_ret]. destruct Ha as (x & Hx & Hu & Hem & Hal).
  assert (Hne : np ≠ cur s) by congruence.
  assert (Hm : making np None (cur s) s1).
  { split_and!; try apply Hem; try done. apply Hal. exists p. split; [done|split; congruence]. }
  clear Hok1 Hem Ec Hok. making_step Hm. destruct (_ =? 0).
  - wlp_step. apply wlp_proc_at. intros c Hc. do 2 making_step Hm.
    destruct Hm as (Hok & (Hi & Hch & y & Hy & _ & Hpy) & _). wlp_step.
    apply (wlp_on_proc np _ y); [done|]. wlp_step. by apply (table_ok_unused _ np y).
  - making_step Hm. pose proof Hm as (_ & (_ & _ & y & Hy & _) & _).
    wlp_step. apply (wlp_on_proc np _ y); [done|]. apply (making_parent _ _ _ y) in Hm; [|done..].
    do 2 making_step Hm. wlp_step. apply wlp_expect. intros c _. do 3 making_step Hm.
    wlp_step. apply wlp_proc_at. intros z Hz. wlp_step. apply (wlp_on_proc np _ z); [done|]. wlp_step.
    pose proof Hm as (Hok & _). eapply (making_change np _ _ _ z); simpl; try done; [by right| |].
    + apply (to_parent _ Hok np z Hz).
    + intros j. apply (to_family _ Hok np j z Hz).
Qed.

(** ** Changes of the state of a live process *)

Definition awake (j : nat) (s : pst (D := D)) : Prop :=
  ∀ r, ptable s !! j = Some r → p_state r = SLEEPING → p_chan r ≠ Some (ChProc j).
Definition nozombie (i : nat) (s : pst (D := D)) : Prop :=
  ∀ k q, ptable s !! k = Some q → p_parent q = Some i → p_state q ≠ ZOMBIE.

Lemma awake_woken j s s' : woken s s' → awake j s → awake j s'.
Proof.
  intros Hw Ha q Hq Hs. destruct (woken_lookup_inv s s' j q Hw Hq) as (p & Hp & _ & _ & -> & E4).
  apply Ha; [done|destruct E4 as [?|[? ?]]; congruence].
Qed.
Lemma nozombie_woken j s s' : woken s s' → nozombie j s → nozombie j s'.
Proof.
  intros Hw Ha k q Hq. destruct (woken_lookup_inv s s' k q Hw Hq) as (p & Hp & _ & -> & _ & E4).
  intros Hpar. specialize (Ha k p Hp Hpar). destruct E4 as [?|[? ?]]; congruence.
Qed.
Lemma running_woken s s' : woken s s' → running s → running s'.
Proof.
  intros Hw (p & Hp & Hr). pose proof Hw as (_ & _ & _ & Ec & _). unfold running. rewrite Ec.
  destruct (woken_lookup s s' _ p Hw Hp) as (q & Hq & _ & _ & _ & E4).
  exists q. split; [done|destruct E4 as [?|[? ?]]; congruence].
Qed.

Lemma change_state s i x y : table_ok s → ptable s !! i = Some x → alive x →
  p_pid y = p_pid x → p_parent y = p_parent x → p_state y ≠ UNUSED →
  (p_state y = SLEEPING → p_chan y = Some (ChProc i) → nozombie i s) →
  (p_state y = ZOMBIE → INITPROC s ≠ Some i ∧ childless i s ∧
     ∀ j, p_parent x = Some j → awake j s) →
  (p_state y = RUNNING → i = cur s) →
  table_ok (set_ptable (<[i := y]> (ptable s)) s).
Proof.
  intros Hok Hx Ha Epid Epar Hu Hsl Hz Hrun.
  assert (Hz' : p_state y = ZOMBIE ∨ alive y) by (destruct (decide (p_state y = ZOMBIE)); [by left|by right]).
  eapply (table_ok_insert s _ i x y); simpl; try done; try rewrite Epar.
  - intros _. rewrite Epid. split; [by apply (to_pid s Hok i x Hx), Ha|].
    intros j r Hj Hr Hru E. apply Hj, (to_uniq s Hok j i r x); try done. apply Ha.
  - by apply (to_parent s Hok i x).
  - intros Hi. destruct Hz' as [Hz'|Hz']; [by destruct (Hz Hz')|]. split; [|done].
    destruct (to_init s Hok i Hi) as (p & Hp & Hpar & _). congruence.
  - intros j Hj. by apply (to_family s Hok i j x).
  - destruct Hz' as [Hz'|Hz']; [right|by left]. intros k r _. apply (proj1 (proj2 (Hz Hz'))).
  - intros Hs Hc c r _. apply (Hsl Hs Hc).
  - intros Hzz j r _ Hpar Hr Hs. by apply (proj2 (proj2 (Hz Hzz)) j Hpar).
  - intros j r _. by apply (to_run s Hok j r).
Qed.

Lemma quiet_sched : quiet sched.
Proof.
  unfold sched. apply quiet_bind; [auto with quiet|]. intros s. apply quiet_bind; [auto with quiet|].
  intros p. repeat case_match; auto with quiet.
Qed.
Hint Resolve quiet_sched : quiet.

Lemma wlp_ok {A} (m : M pst A) s : quiet m → table_ok s → wlp m s (λ _ s', table_ok s').
Proof. intros Hm Hok. apply wlp_quiet; [done|]. intros _ s' Hw. by eapply table_ok_woken. Qed.

Lemma yield_ok s : table_ok s → running s → wlp yield_proc s (λ _ s', table_ok s').
Proof.
  intros Hok (p & Hp & Hr). unfold yield_proc. do 5 wlp_step. apply (wlp_on_proc _ _ p); [done|].
  apply wlp_ok; [auto with quiet|].
  apply (change_state (set_pt_lock 1 s) (cur s) p); simpl; try done.
  - by apply (table_ok_woken _ _ (woken_lock 1 s)).
  - split; congruence.
Qed.

(** The end of [sleep_proc]. *)
Lemma sleep_switch_ok s c : table_ok s → running s → (c = ChProc (cur s) → nozombie (cur s) s) →
  wlp (on_proc (cur s) (set_chan (Some c)) ;;; on_proc (cur s) (set_state SLEEPING) ;;; sched) s
    (λ _ s', table_ok s').
Proof.
  intros Hok (p & Hp & Hr) Hz. wlp_step. apply (wlp_on_proc _ _ p); [done|]. wlp_step.
  apply (wlp_on_proc _ _ (set_chan (Some c) p)); [apply list_lookup_insert_eq; by eapply lookup_lt_Some|].
  simpl. rewrite list_insert_insert_eq. apply wlp_ok; [auto with quiet|].
  apply (change_state s (cur s) p); simpl; try done; [split; congruence|]. intros _ [= ->]. auto.
Qed.

Definition lock_quiet (lk : lock_arg (D := D)) : Prop :=
  match lk with LkOther r => quiet r | _ => True end.

Lemma sleep_ok s c lk : table_ok s → running s → lock_quiet lk →
  (c = ChProc (cur s) → nozombie (cur s) s) → wlp (sleep_proc c lk) s (λ _ s', table_ok s').
Proof.
  intros Hok Hr Hl Hz. unfold sleep_proc. do 3 wlp_step.
  apply wlp_quiet; [destruct lk; simpl in *; auto with quiet|].
  intros _ s1 Hw. pose proof Hw as (_ & _ & _ & Ec & _). rewrite <- Ec.
  apply sleep_switch_ok; [by eapply table_ok_woken|by eapply running_woken|].
  rewrite Ec. intros E. eapply nozombie_woken; eauto.
Qed.

Lemma sleep_resume_ok s b : table_ok s → running s → wlp (sleep_resume b) s (λ _ s', table_ok s').
Proof.
  intros Hok (p & Hp & Hr). unfold sleep_resume. do 3 wlp_step. apply (wlp_on_proc _ _ p); [done|].
  apply wlp_ok; [destruct b; auto with quiet|].
  apply (change_state s (cur s) p); simpl; try done; [split; congruence|congruence..].
Qed.

(** ** Wait *)

Lemma scan_children_Some p k l h i b : scan_children p k l h = (Some i, b) →
  ∃ c, l !! (i - k)%nat = Some c ∧ p_parent c = Some p ∧ p_state c = ZOMBIE ∧ (k ≤ i)%nat.
Proof.
  revert k h. induction l as [|c l IH]; intros k h; simpl; [done|].
  destruct (decide (p_parent c = Some p)) as [Hp|_]; [destruct (decide (p_state c = ZOMBIE)) as [Hz|_]|].
  { intros [= <- <-]. exists c. by rewrite Nat.sub_diag. }
  all: intros (c' & Hc & Hp' & Hz' & Hle)%IH; exists c'; replace (i - k)%nat with (S (i - S k)) by lia;
    split_and!; [done|done|done|lia].
Qed.
Lemma scan_children_None p k l h b : scan_children p k l h = (None, b) →
  (∀ j c, l !! j = Some c → p_parent c = Some p → p_state c ≠ ZOMBIE) ∧
  (b = true ↔ h = true ∨ ∃ j c, l !! j = Some c ∧ p_parent c = Some p).
Proof.
  revert k h. induction l as [|c l IH]; intros k h; simpl.
  { intros [= <-]. split; [done|]. split; [auto|]. intros [?|(j & c & ? & _)]; done. }
  destruct (decide (p_parent c = Some p)) as [Hp|Hp]; [destruct (decide (p_state c = ZOMBIE)) as [Hz|Hz]; [done|]|];
    intros [H1 H2]%IH; (split; [intros [|j] c' Hc Hpar; [simplify_eq/=; congruence|by eapply H1]|]).
  - rewrite H2. split; [intros _; right; by exists 0%nat, c|auto].
  - rewrite H2. split; (intros [?|(j & c' & Hc & Hpar)]; [by left|right]).
    + by exists (S j), c'.
    + destruct j as [|j]; [simplify_eq/=|by exists j, c'].
Qed.

Lemma wait_ok s : table_ok s → running s → wlp (wait kernel_end) s (λ _ s', table_ok s').
Proof.
  intros Hok Hr. unfold wait. do 4 wlp_step. cbn [cur ptable set_pt_lock].
  apply (table_ok_woken _ _ (woken_lock 1 s)) in Hok. apply (running_woken _ _ (woken_lock 1 s)) in Hr.
  destruct (scan_children _ _ _ _) as [[i|] h] eqn:E.
  - apply scan_children_Some in E as (c & Hc & Hpar & Hz & _). rewrite Nat.sub_0_r in Hc.
    wlp_step. apply wlp_proc_at. intros c' Hc'. assert (c' = c) as -> by (simpl in Hc'; congruence).
    assert (Hch : childless i (set_pt_lock 1 s)) by (apply (dead_childless _ i c); [done|done|by intros [??]]).
    assert (Hi : INITPROC (set_pt_lock 1 s) ≠ Some i).
    { intros (x & Hx & _ & Ha)%(to_init _ Hok). destruct Ha. simpl in *. congruence. }
    do 3 (wlp_step; apply wlp_quiet; [auto with quiet|]; intros ? ? ?).
    match goal with H1 : woken ?a ?b, H2 : woken ?b ?c, H3 : woken ?c ?d |- _ =>
      pose proof (transitivity H1 (transitivity H2 H3)) as Hw; clear H1 H2 H3 end.
    destruct (woken_lookup _ _ i c Hw Hc) as (x & Hx & _). wlp_step.
    apply (wlp_on_proc i _ x); [done|]. apply wlp_ok; [auto with quiet|].
    apply (table_ok_unused _ i x); [by eapply table_ok_woken|done| |by eapply childless_woken|done|done].
    pose proof Hw as (_ & -> & _). done.
  - apply scan_children_None in E as [Hnz _]. wlp_step. apply wlp_my_proc. intros p Hp.
    destruct (_ || _); [apply wlp_ok; auto with quiet|]. wlp_step.
    eapply wlp_mono; [apply (sleep_ok _ (ChProc (cur s)) LkPtable); try done; intros _; exact Hnz|].
    intros ? s' Hok'. by apply wlp_ret.
Qed.

(** ** Exit *)

Lemma wakeup1_awake j s : wlp (wakeup1 (Some (ChProc j))) s (λ _ s', woken s s' ∧ awake j s').
Proof.
  intros [] s' E. split; [by eapply quiet_wakeup1|]. injection E as <-. intros r. simpl.
  rewrite list_lookup_fmap. destruct (ptable s !! j) as [p|]; [|done]. intros [= <-]. unfold wake.
  destruct (decide _) as [|Hn]; [done|]. intros Hs Hc. by apply Hn.
Qed.

(** The exiting process, in the loop over its children: it runs, it is not
    [init], its parent is awake, and slots below [i] have another parent. *)
Record exiting (p i : nat) (s : pst (D := D)) : Prop := {
  ex_ok : table_ok s;
  ex_init : INITPROC s ≠ Some p;
  ex_cur : cur s = p;
  ex_run : running s;
  ex_awake j x : ptable s !! p = Some x → p_parent x = Some j → awake j s;
  ex_done k x : (k < i)%nat → ptable s !! k = Some x → p_parent x ≠ Some p;
}.

Lemma exiting_woken p i s s' : woken s s' → exiting p i s → exiting p i s'.
Proof.
  intros Hw [H1 H2 H3 H4 H5 H6]. pose proof Hw as (_ & Ei & _ & Ec & _). split.
  - by eapply table_ok_woken.
  - congruence.
  - congruence.
  - by eapply running_woken.
  - intros j x Hx. destruct (woken_lookup_inv _ _ _ _ Hw Hx) as (y & Hy & _ & -> & _).
    intros Hj. eapply awake_woken; eauto.
  - intros k x Hk Hx. destruct (woken_lookup_inv _ _ _ _ Hw Hx) as (y & Hy & _ & -> & _). eauto.
Qed.

Lemma awake_set_parent j i v s x : awake j s → ptable s !! i = Some x →
  awake j (set_ptable (<[i := set_parent v x]> (ptable s)) s).
Proof.
  intros Ha Hx r. simpl. destruct (decide (j = i)) as [->|].
  - rewrite list_lookup_insert_eq by (by eapply lookup_lt_Some). intros [= <-]. simpl. by apply Ha.
  - rewrite list_lookup_insert_ne by done. apply Ha.
Qed.

(** One child passed to [init], which is awake if the child is a zombie. *)
Lemma exiting_adopt p i s x : exiting p i s → ptable s !! i = Some x → p_parent x = Some p →
  (p_state x = ZOMBIE → ∀ j, INITPROC s = Some j → awake j s) →
  exiting p (S i) (set_ptable (<[i := set_parent (INITPROC s) x]> (ptable s)) s).
Proof.
  intros [H1 H2 H3 H4 H5 H6] Hx Hpar Hz. assert (Hlt : (i < length (ptable s))%nat) by (by eapply lookup_lt_Some).
  assert (Hne : i ≠ p) by (intros ->; by apply (to_parent s H1 p x Hx)).
  assert (Hii : INITPROC s ≠ Some i). { intros (q & Hq & Hp & _)%(to_init s H1). congruence. }
  split; try done.
  - eapply (table_ok_insert s _ i x (set_parent (INITPROC s) x)); simpl; try done.
    + intros Hu. split; [by apply (to_pid s H1 i x)|]. intros j r Hj Hr Hru E.
      apply Hj. by apply (to_uniq s H1 j i r x).
    + intros j Hj. destruct (to_init s H1 j Hj) as (q & Hq & _ & Ha). by exists q.
    + destruct (decide (p_state x = ZOMBIE)) as [E|E].
      * right. intros k r _. refine (dead_childless s i x H1 Hx _ k r). by intros [_ ?].
      * left. split; [|done]. intros Hu. simpl in Hu. rewrite (to_free s H1 i x Hx Hu) in Hpar. done.
    + intros Hu. rewrite (to_free s H1 i x Hx Hu) in Hpar. done.
    + intros Hs Hc c r _ Hr. by apply (to_wait s H1 i x c r).
    + intros Hzz j r _ Hj Hr Hs. by eapply Hz.
    + by apply (to_run s H1 i x).
    + intros j r _. by apply (to_run s H1 j r).
  - destruct H4 as (q & Hq & Hr). exists q. simpl. rewrite list_lookup_insert_ne by congruence. done.
  - intros j q. simpl. rewrite list_lookup_insert_ne by done. intros Hq Hj.
    apply awake_set_parent; [by eapply H5|done].
  - intros k q Hk. simpl. destruct (decide (k = i)) as [->|].
    + rewrite list_lookup_insert_eq by done. intros [= <-]. done.
    + rewrite list_lookup_insert_ne by done. apply H6. lia.
Qed.

Lemma exiting_skip p i s x : exiting p i s → ptable s !! i = Some x → p_parent x ≠ Some p →
  exiting p (S i) s.
Proof.
  intros [H1 H2 H3 H4 H5 H6] Hx Hn. split; try done. intros k y Hk Hy.
  destruct (decide (k = i)) as [->|]; [congruence|]. apply (H6 k y); [lia|done].
Qed.

Lemma wake_zombie c x : p_state x = ZOMBIE → wake c x = x.
Proof. intros Hz. unfold wake. by rewrite decide_False by (intros [? _]; congruence). Qed.

(** A zombie child, adopted before [init] is woken. *)
Lemma exiting_adopt_zombie p i s x c : exiting p i s → ptable s !! i = Some x → p_parent x = Some p →
  p_state x = ZOMBIE → c = match INITPROC s with Some j => Some (ChProc j) | None => None end →
  exiting p (S i) (set_ptable (wake c <$> <[i := set_parent (INITPROC s) x]> (ptable s)) s).
Proof.
  intros Hex Hx Hpar Hz ->. rewrite list_fmap_insert, wake_zombie by done.
  set (c := match INITPROC s with Some j => _ | None => _ end).
  set (s0 := set_ptable (wake c <$> ptable s) s).
  assert (E : wakeup1 c s = Ok (tt, s0)) by done.
  assert (Hex0 : exiting p i s0) by (apply (exiting_woken p i s); [by eapply quiet_wakeup1|done]).
  apply (exiting_adopt p i s0 x Hex0).
  - simpl. rewrite list_lookup_fmap, Hx. simpl. by rewrite wake_zombie.
  - done.
  - intros _ j Hj. subst c. simpl in Hj. rewrite Hj in E. exact (proj2 (wakeup1_awake _ _ _ _ E)).
Qed.

Lemma reparent_ok n i p s : exiting p i s →
  wlp (reparent n i p) s (λ _ s', exiting p (i + n) s').
Proof.
  revert i s. induction n as [|n IH]; intros i s Hex; simpl.
  { apply wlp_ret. by rewrite Nat.add_0_r. }
  rewrite <- Nat.add_succ_comm. do 3 wlp_step. apply wlp_proc_at. intros x Hx. wlp_step.
  destruct (decide (p_parent x = Some p)) as [Hp|Hp].
  - wlp_step. apply (wlp_on_proc _ _ x); [done|]. destruct (decide (p_state x = ZOMBIE)) as [Hz|Hz].
    + apply wlp_modify. apply IH. exact (exiting_adopt_zombie p i s x _ Hex Hx Hp Hz eq_refl).
    + wlp_step. by apply IH, exiting_adopt.
  - wlp_step. eapply IH, exiting_skip; eauto.
Qed.

Lemma quiet_close_files p n :
  quiet (forM (seq 0 n) (λ fd,
    let* x := my_proc in
    match nth fd (p_ofile x) None with
    | Some f =>
        on_k (fileclose kernel_end f) ;;;
        on_proc p (set_ofile fd None)
    | None => ret tt
    end)).
Proof.
  apply quiet_forM. intros fd. apply quiet_bind; [auto with quiet|]. intros x.
  destruct (nth fd _ None); auto with quiet.
Qed.
Hint Resolve quiet_close_files : quiet.

(** The exiting process once its parent is awake. *)
Lemma exiting_start s x : table_ok s → running s → INITPROC s ≠ Some (cur s) →
  ptable s !! cur s = Some x →
  wlp (wakeup1 (match p_parent x with Some j => Some (ChProc j) | None => None end)) s
    (λ _ s', exiting (cur s) 0 s').
Proof.
  intros Hok Hr Hi Hx u s' E. assert (Hw : woken s s') by (exact (quiet_wakeup1 _ _ _ _ E)).
  pose proof Hw as (_ & Ei & _ & Ec & _). split.
  - by eapply table_ok_woken.
  - congruence.
  - done.
  - by eapply running_woken.
  - intros j y Hy Hj. destruct (woken_lookup_inv _ _ _ _ Hw Hy) as (y0 & Hy0 & _ & Ep & _).
    assert (y0 = x) as -> by congruence. rewrite Ep in Hj. rewrite Hj in E. exact (proj2 (wakeup1_awake _ _ _ _ E)).
  - lia.
Qed.

Lemma exit_ok s : table_ok s → running s → wlp (exit kernel_end) s (λ _ s', table_ok s').
Proof.
  intros Hok Hr. unfold exit. do 2 wlp_step. destruct (decide _) as [|Hi]; [by apply wlp_panic|].
  wlp_step. apply wlp_quiet; [auto with quiet|]. intros ? ? W1.
  wlp_step. apply wlp_quiet; [auto with quiet|]. intros ? ? W2. pose proof (transitivity W1 W2) as W. clear W1 W2.
  wlp_step. apply wlp_my_proc. intros x0 _. wlp_step. apply wlp_expect. intros c _.
  wlp_step. apply wlp_quiet; [auto with quiet|]. intros ? ? W1. pose proof (transitivity W W1) as W2. clear W W1.
  wlp_step. apply wlp_quiet; [auto with quiet|]. intros ? ? W1. pose proof (transitivity W2 W1) as W. clear W2 W1.
  wlp_step. apply wlp_quiet; [auto with quiet|]. intros ? s1 W1. pose proof (transitivity W W1) as W2. clear W W1.
  do 2 wlp_step. pose proof (transitivity W2 (woken_lock 1 s1)) as W. clear W2.
  pose proof W as (_ & Ei & _ & Ec & _). wlp_step. apply wlp_my_proc. intros x Hx. rewrite <- Ec.
  wlp_step. eapply wlp_mono; [apply exiting_start; [by eapply table_ok_woken|by eapply running_woken|congruence|done]|].
  intros ? s2 Hex. wlp_step. eapply wlp_mono; [by apply reparent_ok|]. intros ? s3 [H1 H2 H3 H4 H5 H6].
  rewrite <- H3 in *. destruct H4 as (y & Hy & Hrun). wlp_step. apply (wlp_on_proc _ _ y); [done|].
  apply wlp_ok; [auto with quiet|]. apply (change_state s3 _ y); simpl; try done; [split; congruence|].
  intros _. split_and!; [done| |by eauto]. intros k q Hq. apply (H6 k q); [|done].
  rewrite Nat.add_0_l, <- (to_len s3 H1). by eapply lookup_lt_Some.
Qed.

(** ** Kill and the scheduler *)

Lemma quiet_kill pid : quiet (kill pid).
Proof.
  unfold kill. apply quiet_bind; [auto with quiet|]. intros _. apply quiet_bind; [auto with quiet|].
  intros s. destruct (kill_scan _ _ _) as [i|]; [|auto with quiet].
  apply quiet_bind; [auto with quiet|]. intros _. apply quiet_bind; [|auto with quiet].
  apply quiet_on_proc. intros p. destruct (decide _); [|done]. split_and!; simpl; auto.
Qed.

Lemma quiet_growproc n : quiet (growproc kernel_end n).
Proof.
  unfold growproc. apply quiet_bind; [auto with quiet|]. intros s. apply quiet_bind; [auto with quiet|].
  intros p. apply quiet_bind.
  - repeat case_match; auto with quiet.
  - intros sz. case_match; auto with quiet.
Qed.

Lemma quiet_forkret : quiet forkret.
Proof.
  unfold forkret. apply quiet_bind; [auto with quiet|]. intros _. apply quiet_bind; [auto with quiet|].
  intros s. case_match; auto with quiet.
Qed.

Lemma sched_scan_Some l i k j k' : sched_scan l i k = (Some j, k') →
  k' = 0 ∧ (i ≤ j)%nat ∧ (∃ p, l !! (j - i)%nat = Some p ∧ p_state p = RUNNABLE) ∧
  ∀ m p, (m < j - i)%nat → l !! m = Some p → p_state p ≠ RUNNABLE.
Proof.
  revert i k. induction l as [|p l IH]; intros i k; simpl; [done|].
  destruct (decide (p_state p = RUNNABLE)) as [Hr|Hr].
  { intros [= <- <-]. rewrite Nat.sub_diag. split_and!; [done|done|by exists p|lia]. }
  intros (-> & Hle & (q & Hq & Hqr) & Hb)%IH. split_and!; [done|lia| |].
  - exists q. by replace (j - i)%nat with (S (j - S i)) by lia.
  - intros [|m] r Hm; simpl; [by intros [= <-]|]. apply Hb. lia.
Qed.

Lemma scheduler_ok s i k : table_ok s → ¬ running s →
  wlp (scheduler_step i k) s (λ _ s', table_ok s').
Proof.
  intros Hok Hnr. unfold scheduler_step. do 4 wlp_step. cbn [ptable set_pt_lock].
  destruct (sched_scan _ _ _) as [[j|] k'] eqn:E.
  - apply sched_scan_Some in E as (-> & Hle & (p & Hp & Hr) & _). rewrite lookup_drop in Hp.
    replace (i + (j - i))%nat with j in Hp by lia. do 2 wlp_step. wlp_step.
    apply (wlp_on_proc j _ p); [done|]. wlp_step. simpl.
    assert (Hno : ∀ q m, ptable s !! m = Some q → p_state q ≠ RUNNING).
    { intros q m Hq Hqr. apply Hnr. exists q. by rewrite <- (to_run s Hok m q). }
    eapply (table_ok_insert s _ j p (set_state RUNNING p)); simpl; try done.
    + intros _. split; [apply (to_pid s Hok j p Hp); congruence|].
      intros m r Hm Hmr Hu Epid. apply Hm, (to_uniq s Hok m j r p); congruence.
    + by apply (to_parent s Hok j p).
    + intros Hi. destruct (to_init s Hok j Hi) as (q & Hq & Hpar & _). split; [congruence|done].
    + intros m. by apply (to_family s Hok j m p).
    + by left.
    + intros m r _ Hmr Hrr. by destruct (Hno r m).
  - destruct (_ <? _); (apply wlp_ok; [auto with quiet|by apply (table_ok_woken _ _ (woken_lock 1 s))]).
Qed.

(** ** Boot *)

Definition boot_table (s : pst (D := D)) : Prop :=
  length (ptable s) = Z.to_nat NPROC ∧ INITPROC s = None ∧ NEXTPID s = 1 ∧
  Forall (λ p, p_state p = UNUSED ∧ p_parent p = None) (ptable s).

Lemma boot_ok s : boot_table s → table_ok s.
Proof.
  intros (Hl & Hi & Hn & Hf). rewrite Forall_lookup in Hf.
  split; try (intros; match goal with H : ptable s !! _ = Some _ |- _ => apply Hf in H as [? ?] end; congruence).
  - intros j. by rewrite Hi.
  - done.
  - lia.
Qed.

Lemma set_initproc_ok s a : table_ok s →
  match a with Some i => embryo i None s | None => True end → table_ok (set_initproc a s).
Proof.
  intros [] Ha. split; simpl; try done. intros j ->. destruct Ha as (_ & _ & x & Hx & He & Hp).
  exists x. split_and!; [done|done|split; congruence].
Qed.

Lemma userinit_ok s initcode : boot_table s →
  wlp (userinit kpdpt devsw_read initcode) s (λ _ s', table_ok s').
Proof.
  intros Hok%boot_ok. unfold userinit. wlp_step. eapply wlp_mono; [by apply allocproc_ok|].
  intros a s1 (Hok1 & Ec & _ & Ha). do 2 wlp_step.
  assert (Hok2 : table_ok (set_initproc a s1)). { apply set_initproc_ok; [done|]. destruct a; naive_solver. }
  wlp_step. apply wlp_quiet; [auto with quiet|]. intros pgdir s2 W1. destruct (pgdir =? 0); [by apply wlp_panic|].
  wlp_step. apply wlp_expect. intros i ->. destruct Ha as (x & Hx & Hu & (_ & _ & y & Hy & He & _) & _).
  assert (Hal : alive_at i (set_initproc (Some i) s1)) by (exists y; split; [done|split; congruence]).
  do 6 (wlp_step; apply wlp_quiet; [auto with quiet|]; intros ? ? ?).
  repeat match goal with H1 : woken ?a ?b, H2 : woken ?b ?c |- _ =>
    pose proof (transitivity H1 H2); clear H1 H2 end.
  match goal with H : woken _ _ |- _ => rename H into Hw end.
  apply (alive_at_woken _ _ _ Hw) in Hal as (z & Hz & Ha). apply (table_ok_woken _ _ Hw) in Hok2.
  apply (wlp_on_proc i _ z); [done|]. by apply (change_state _ i z).
Qed.

(** ** The system

    One step of the kernel: a call made by the running process, or, when no
    process runs, a step of the scheduler; on the zeroed table of the boot,
    [userinit]. [st_call] is any function of the
    file, pipe and file-system components, [st_forkret] the first run of a new
    process. [wait] is also what a process does when it is woken up in
    [wait], after [sleep_resume]. *)
Inductive pstep : pst (D := D) → pst (D := D) → Prop :=
| st_userinit s initcode r s' : boot_table s →
    userinit kpdpt devsw_read initcode s = Ok (r, s') → pstep s s'
| st_fork s r s' : running s → fork kernel_end kpdpt s = Ok (r, s') → pstep s s'
| st_exit s r s' : running s → exit kernel_end s = Ok (r, s') → pstep s s'
| st_wait s r s' : running s → wait kernel_end s = Ok (r, s') → pstep s s'
| st_sleep s c lk r s' : running s → lock_quiet lk → (∀ i, c ≠ ChProc i) →
    sleep_proc c lk s = Ok (r, s') → pstep s s'
| st_resume s b r s' : running s → sleep_resume b s = Ok (r, s') → pstep s s'
| st_wakeup s c r s' : wakeup c s = Ok (r, s') → pstep s s'
| st_kill s pid r s' : running s → kill pid s = Ok (r, s') → pstep s s'
| st_yield s r s' : running s → yield_proc s = Ok (r, s') → pstep s s'
| st_grow s n r s' : running s → growproc kernel_end n s = Ok (r, s') → pstep s s'
| st_call {A} s (m : M kst A) r s' : running s → on_k m s = Ok (r, s') → pstep s s'
| st_forkret s r s' : running s → forkret s = Ok (r, s') → pstep s s'
| st_sched s i k r s' : ¬ running s → scheduler_step i k s = Ok (r, s') → pstep s s'.

Lemma quiet_wakeup c : quiet (wakeup c).
Proof. unfold wakeup. auto with quiet. Qed.

Lemma pstep_ok s s' : pstep s s' → table_ok s → table_ok s'.
Proof.
  intros Hst Hok. destruct Hst as
    [s ic r s' Hb E|s r s' Hr E|s r s' Hr E|s r s' Hr E|s c lk r s' Hr Hl Hc E|s b r s' Hr E|s c r s' E|s pid r s' Hr E
    |s r s' Hr E|s n r s' Hr E|A s m r s' Hr E|s r s' Hr E|s i k r s' Hr E].
  - exact (userinit_ok s ic Hb _ _ E).
  - exact (fork_ok s Hok Hr _ _ E).
  - exact (exit_ok s Hok Hr _ _ E).
  - exact (wait_ok s Hok Hr _ _ E).
  - refine (sleep_ok s c lk Hok Hr Hl _ _ _ E). intros ->. by destruct (Hc (cur s)).
  - exact (sleep_resume_ok s b Hok Hr _ _ E).
  - exact (wlp_ok _ s (quiet_wakeup c) Hok _ _ E).
  - exact (wlp_ok _ s (quiet_kill pid) Hok _ _ E).
  - exact (yield_ok s Hok Hr _ _ E).
  - exact (wlp_ok _ s (quiet_growproc n) Hok _ _ E).
  - exact (wlp_ok _ s (quiet_on_k m) Hok _ _ E).
  - exact (wlp_ok _ s quiet_forkret Hok _ _ E).
  - exact (scheduler_ok s i k Hok Hr _ _ E).
Qed.

(** C3: From the zeroed table of the boot on, [userinit] and every sequence of
    kernel steps keep the process table well formed: the ids of the processes
    in use are positive, distinct and below [NEXTPID]; a parent is a live
    process, [init] has none and is never a zombie; free slots have no parent;
    at most the current process is running; and no process sleeps in [wait]
    while a child of it is a zombie. *)
Theorem process_table_invariant (s0 s s' : pst (D := D)) :
  boot_table s0 → (s = s0 ∨ table_ok s) → rtc pstep s s' → table_ok s'.
Proof.
  intros Hb Hs Hrun. assert (Hok : table_ok s) by (destruct Hs as [->|]; [by apply boot_ok|done]).
  clear Hs. induction Hrun as [|? ? ? Hst _ IH]; [done|]. by apply IH, (pstep_ok _ _ Hst).
Qed.

(** ** The scheduler's order *)

Definition runnable (j : nat) (s : pst (D := D)) : Prop :=
  ∃ p, ptable s !! j = Some p ∧ p_state p = RUNNABLE.

(** The slots the scheduler picks from slot [i] on in one pass, at most [n] of
    them; [env] is what happens between a switch to a process and its switch
    back. *)
Fixpoint picks (env : nat → pst (D := D) → pst (D := D)) (n i : nat) (s : pst (D := D)) : list nat :=
  match n with
  | O => []
  | S n' =>
      match scheduler_step i 0 s with
      | Ok (SRun m, _, s') => m :: picks env n' (S m) (env m s')
      | _ => []
      end
  end.

Lemma sched_scan_found l i k m p : l !! m = Some p → p_state p = RUNNABLE →
  ∃ j, sched_scan l i k = (Some j, 0) ∧ (i ≤ j ≤ i + m)%nat.
Proof.
  revert i k m. induction l as [|q l IH]; intros i k m Hm Hr; [done|]. simpl.
  destruct (decide (p_state q = RUNNABLE)); [exists i; split; [done|lia]|].
  destruct m as [|m]; [simplify_eq/=; congruence|].
  destruct (IH (S i) (k + 1) m Hm Hr) as (j & E & Hj). exists j. split; [done|lia].
Qed.

(** C25: The scheduler passes no one over: if process [j] is runnable and stays so
    while others run, then one pass that is at a slot up to [j] switches to [j]
    after at most [j - i] other processes. *)
Theorem scheduler_reaches_runnable env (i j : nat) (s : pst (D := D)) :
  (∀ m s, m ≠ j → runnable j s → runnable j (env m s)) →
  runnable j s → (i ≤ j)%nat → j ∈ picks env (S (j - i)) i s.
Proof.
  intros Henv. remember (S (j - i)) as n eqn:Hn. assert (Hle : (S (j - i) ≤ n)%nat) by lia. clear Hn.
  revert i s Hle. induction n as [|n IH]; intros i s Hle (p & Hp & Hr) Hij; [lia|].
  cbn [picks]. destruct (sched_scan_found (drop i (ptable s)) i 0 (j - i) p) as (m & E & Hm).
  { rewrite lookup_drop. by replace (i + (j - i))%nat with j by lia. } { done. }
  assert (Es : scheduler_step i 0 s = Ok (SRun m, 0,
    set_ptable (alter (set_state RUNNING) m (ptable s)) (set_cur m (set_pt_lock 1 s)))).
  { unfold scheduler_step, bind, modify, get. cbn [ptable set_pt_lock]. rewrite E. done. }
  rewrite Es. apply elem_of_cons. destruct (decide (j = m)) as [->|Hne]; [by left|right].
  apply IH; [lia| |lia]. apply Henv; [done|]. exists p. simpl. by rewrite list_lookup_alter_ne.
Qed.

(** ** The lock-depth check of [sched] *)

Lemma quiet_ncli {A} (m : M pst A) : quiet m → keeps (ncli (D := D)) m.
Proof. intros Hm s a s' E. by destruct (Hm s a s' E) as (_ & _ & _ & _ & ?). Qed.

Ltac keeps_ncli :=
  repeat first
    [ apply keeps_ret | apply keeps_panic | apply quiet_ncli; solve [auto 8 with quiet]
    | apply keeps_modify; intros; reflexivity
    | apply keeps_get | apply keeps_gets | apply keeps_expect | apply keeps_chk_i32
    | apply keeps_bind; [|intros ?]
    | case_match ].

Lemma ncli_on_proc i f : keeps (ncli (D := D)) (on_proc (D := D) i f).
Proof. by apply keeps_modify. Qed.
Lemma ncli_allocproc : keeps (ncli (D := D)) allocproc.
Proof. unfold allocproc, on_proc. keeps_ncli. Qed.
Lemma ncli_fork : keeps (ncli (D := D)) (fork kernel_end kpdpt).
Proof.
  unfold fork. apply keeps_bind; [keeps_ncli|]. intros s. apply keeps_bind; [keeps_ncli|].
  intros p. apply keeps_bind; [apply ncli_allocproc|]. intros a.
  repeat first [apply ncli_on_proc|progress keeps_ncli].
Qed.
Lemma ncli_reparent n i p : keeps (ncli (D := D)) (reparent n i p).
Proof.
  revert i. induction n as [|n IH]; intros i; simpl; [apply keeps_ret|].
  apply keeps_bind; [keeps_ncli|]. intros s. apply keeps_bind; [keeps_ncli|]. intros c.
  apply keeps_bind; [|intros; apply IH]. unfold on_proc. keeps_ncli.
Qed.

Lemma sched_ncli s r s' : sched s = Ok (r, s') → ncli s = 1 ∧ ncli s' = 1.
Proof.
  intros E. pose proof (quiet_ncli _ quiet_sched _ _ _ E) as Ek. rewrite Ek. revert E.
  unfold sched. intros (s0 & s1 & [= <- <-] & E)%bind_Ok_inv.
  apply bind_Ok_inv in E as (p & s2 & _ & E). destruct (_ =? 0); [done|].
  destruct (Z.eqb_spec (ncli s) 1); [done|]. by simpl in E.
Qed.

(** A function that ends in [sched] returns only with [ncli] at one. *)
Definition via_sched {A} (m : M (pst (D := D)) A) : Prop :=
  ∀ s, wlp m s (λ _ s', ncli s = 1 ∧ ncli s' = ncli s).

Lemma via_sched_sched : via_sched sched.
Proof. intros s [] s' E. apply sched_ncli in E as [-> ->]. done. Qed.
Lemma via_sched_bind {A B} (m : M pst A) (k : A → M pst B) :
  keeps (ncli (D := D)) m → (∀ a, via_sched (k a)) → via_sched (bind m k).
Proof.
  intros Hm Hk s. apply wlp_bind. eapply wlp_keeps; [exact Hm|]. intros a s1 <-. apply Hk.
Qed.
Lemma via_sched_panic {A} e : via_sched (panic (A := A) e).
Proof. by intros s. Qed.

Ltac via_sched :=
  repeat first [apply via_sched_sched | apply via_sched_panic
    | apply via_sched_bind; [first [apply ncli_on_proc|apply ncli_reparent|solve [keeps_ncli]]|intros ?]
    | case_match ].

Lemma yield_via_sched : via_sched yield_proc.
Proof. unfold yield_proc. via_sched. Qed.
Lemma exit_via_sched : via_sched (exit kernel_end).
Proof. unfold exit. via_sched. Qed.
Lemma sleep_via_sched c lk : lock_quiet lk → via_sched (sleep_proc c lk).
Proof.
  intros Hl. unfold sleep_proc. apply via_sched_bind; [keeps_ncli|]. intros s.
  apply via_sched_bind; [|intros; via_sched]. destruct lk; simpl in Hl; keeps_ncli.
Qed.

Lemma via_sched_keeps {A} (m : M pst A) : via_sched m → keeps (ncli (D := D)) m.
Proof. intros Hm s a s' E. by destruct (Hm s a s' E). Qed.

Lemma ncli_wait : keeps (ncli (D := D)) (wait kernel_end).
Proof.
  unfold wait. apply keeps_bind; [keeps_ncli|]. intros _. apply keeps_bind; [keeps_ncli|]. intros s.
  destruct (scan_children _ _ _ _) as [[i|] h].
  - repeat first [apply ncli_on_proc|progress keeps_ncli].
  - apply keeps_bind; [keeps_ncli|]. intros p. destruct (_ || _); [keeps_ncli|].
    apply keeps_bind; [by apply via_sched_keeps, sleep_via_sched|]. intros. keeps_ncli.
Qed.
Lemma ncli_userinit initcode : keeps (ncli (D := D)) (userinit kpdpt devsw_read initcode).
Proof.
  unfold userinit. apply keeps_bind; [apply ncli_allocproc|]. intros a.
  repeat first [apply ncli_on_proc|progress keeps_ncli].
Qed.
Lemma ncli_scheduler i k : keeps (ncli (D := D)) (scheduler_step i k).
Proof. unfold scheduler_step, on_proc. keeps_ncli. Qed.
Lemma ncli_sleep_resume b : keeps (ncli (D := D)) (sleep_resume b).
Proof. unfold sleep_resume, on_proc. keeps_ncli. Qed.

Lemma pstep_ncli s s' : pstep s s' → ncli s' = ncli s.
Proof.
  intros Hst. destruct Hst as
    [s ic r s' _ E|s r s' _ E|s r s' _ E|s r s' _ E|s c lk r s' _ Hl _ E|s b r s' _ E|s c r s' E
    |s pid r s' _ E|s r s' _ E|s n r s' _ E|A s m r s' _ E|s r s' _ E|s i k r s' _ E].
  - exact (ncli_userinit ic _ _ _ E).
  - exact (ncli_fork _ _ _ E).
  - exact (via_sched_keeps _ exit_via_sched _ _ _ E).
  - exact (ncli_wait _ _ _ E).
  - exact (via_sched_keeps _ (sleep_via_sched c lk Hl) _ _ _ E).
  - exact (ncli_sleep_resume b _ _ _ E).
  - exact (quiet_ncli _ (quiet_wakeup c) _ _ _ E).
  - exact (quiet_ncli _ (quiet_kill pid) _ _ _ E).
  - exact (via_sched_keeps _ yield_via_sched _ _ _ E).
  - exact (quiet_ncli _ (quiet_growproc n) _ _ _ E).
  - exact (quiet_ncli _ (quiet_on_k m) _ _ _ E).
  - exact (quiet_ncli _ quiet_forkret _ _ _ E).
  - exact (ncli_scheduler i k _ _ _ E).
Qed.

(** C36: [sched] requires [my_cpu().ncli == 1], and nothing ever writes that
    field (the lock shims count in [CLI_DEPTH] instead). So, from its initial
    zero, no sequence of kernel steps lets a process give up the processor:
    [yield_proc] panics, and [exit] and [sleep_proc] never reach the
    scheduler. *)
Theorem sched_always_panics (s s' : pst (D := D)) (c : chan) (lk : lock_arg (D := D)) :
  ncli s = 0 → rtc pstep s s' → running s' → lock_quiet lk →
  yield_proc s' = Panic "sched locks" ∧
  (∀ r s'', exit kernel_end s' ≠ Ok (r, s'')) ∧
  (∀ r s'', sleep_proc c lk s' ≠ Ok (r, s'')).
Proof.
  intros Hn Hrun (p & Hp & Hr) Hl.
  assert (Hn' : ncli s' = 0). { induction Hrun as [|? ? ? Hst _ IH]; [done|]. apply IH; [|done..]. by rewrite (pstep_ncli _ _ Hst). }
  split_and!.
  - unfold yield_proc, sched, my_proc, proc_at, on_proc, bind, modify, get, expect. simpl.
    rewrite list_lookup_alter_eq, Hp. simpl. by rewrite Hn'.
  - intros r s'' E. apply exit_via_sched in E as [E _]. lia.
  - intros r s'' E. apply (sleep_via_sched c lk Hl) in E as [E _]. lia.
Qed.

Lemma find_unused_states k l l' : p_state <$> l = p_state <$> l' → find_unused k l = find_unused k l'.
Proof.
  revert k l'. induction l as [|p l IH]; intros k [|q l'] E; simplify_eq/=; [done|].
  rewrite (IH (S k) l') by done. repeat case_decide; congruence.
Qed.

Lemma kill_found pid s i x : kill_scan pid 0 (ptable s) = Some i → ptable s !! i = Some x →
  kill pid s = Ok (0, set_pt_lock 0 (set_ptable
    (<[i := (if decide (p_state x = SLEEPING) then set_state RUNNABLE else id) (set_killed 1 x)]> (ptable s))
    (set_pt_lock 1 s))).
Proof.
  intros Hk Hx. set (g := if decide _ then _ else _).
  assert (El : alter (λ p, if decide (p_state p = SLEEPING) then set_state RUNNABLE p else p) i
                 (alter (set_killed 1) i (ptable s)) = <[i := g (set_killed 1 x)]> (ptable s)).
  { apply list_eq. intros j. destruct (decide (i = j)) as [->|].
    - rewrite !list_lookup_alter_eq, Hx, list_lookup_insert_eq by (by eapply lookup_lt_Some). simpl.
      subst g. by destruct (decide _).
    - by rewrite !list_lookup_alter_ne, list_lookup_insert_ne. }
  rewrite <- El. unfold kill, bind, modify, get. cbn [ptable set_pt_lock]. by rewrite Hk.
Qed.

(** The slot [allocproc] takes keeps its [killed]. *)
Lemma allocproc_killed s i x : find_unused 0 (ptable s) = Some i → ptable s !! i = Some x →
  wlp allocproc s (λ a s', a = None ∨ a = Some i ∧
    ∃ p, ptable s' !! i = Some p ∧ p_state p = EMBRYO ∧ p_killed p = p_killed x).
Proof.
  intros Hf Hx. assert (Hlt : (i < length (ptable s))%nat) by (by eapply lookup_lt_Some).
  unfold allocproc. do 4 wlp_step. cbn [ptable set_pt_lock]. rewrite Hf.
  wlp_step. apply (wlp_on_proc i _ x); [done|]. wlp_step.
  apply (wlp_on_proc i _ (set_state EMBRYO x)); [by apply list_lookup_insert_eq|]. simpl.
  rewrite list_insert_insert_eq. wlp_step. apply wlp_chk_i32. intros _. do 4 wlp_step.
  wlp_step. apply (wlp_keeps ptable); [unfold on_vm, with_k; auto with keeps|]. intros kst s1 Et. simpl in Et.
  destruct (kst =? 0).
  - wlp_step. apply wlp_modify. wlp_step. by left.
  - wlp_step. apply (wlp_on_proc i _ (set_pid (NEXTPID s) (set_state EMBRYO x)));
      [rewrite Et; by apply list_lookup_insert_eq|].
    wlp_step. eapply (wlp_on_proc i); [simpl; apply list_lookup_insert_eq; by rewrite Et, length_insert|].
    wlp_step. right. split; [done|]. eexists. split; [apply list_lookup_insert_eq|done].
    simpl. by rewrite Et, !length_insert.
Qed.

(** [kill(0)] succeeds: it finds the first slot of pid zero, a free one, and
    marks it killed. [allocproc] does not clear the mark, so if the slot is
    the first free one, the next process is born killed. *)
Theorem kill_zero_marks_next_process (s s1 s2 : pst (D := D)) (i j : nat) r :
  kill_scan 0 0 (ptable s) = Some i → find_unused 0 (ptable s) = Some i →
  kill 0 s = Ok (r, s1) → allocproc s1 = Ok (Some j, s2) →
  r = 0 ∧ j = i ∧ ∃ p, ptable s2 !! i = Some p ∧ p_state p = EMBRYO ∧ p_killed p = 1.
Proof.
  intros Hk Hf Ek Ea. apply find_unused_Some in Hf as Hx. destruct Hx as (x & Hx & Hu & _).
  rewrite Nat.sub_0_r in Hx. rewrite (kill_found 0 s i x Hk Hx), decide_False in Ek by congruence.
  injection Ek as <- <-. assert (Hlt : (i < length (ptable s))%nat) by (by eapply lookup_lt_Some).
  eapply (allocproc_killed _ i (set_killed 1 x)) in Ea.
  - destruct Ea as [|([= ->] & p & Hp & Hs & Hkd)]; [done|]. split; [done|]. split; [done|]. by exists p.
  - rewrite <- Hf. simpl. apply find_unused_states. rewrite list_fmap_insert.
    apply list_insert_id. by rewrite list_lookup_fmap, Hx.
  - by apply list_lookup_insert_eq.
Qed.

End table.

(** ** Steps that change a process at most by waking it *)

Section still.
Context {D : Type} `{!BlockDev D}.

Definition kept1 (p q : proc) : Prop :=
  q = set_state (p_state q) p ∧ (p_state q = p_state p ∨ p_state p = SLEEPING ∧ p_state q = RUNNABLE).
Definition kept (s s' : pst (D := D)) : Prop :=
  Forall2 kept1 (ptable s) (ptable s') ∧ cur s' = cur s.

#[global] Instance kept1_preorder : PreOrder kept1.
Proof.
  split; [by intros []; split; auto|]. intros p q r [Eq Hq] [Er Hr]. split.
  - rewrite Er, Eq. by destruct p, r.
  - destruct Hq as [?|[? ?]], Hr as [?|[? ?]]; (left; congruence) || (right; split; congruence).
Qed.
#[global] Instance kept_preorder : PreOrder kept.
Proof.
  split; [by intros s; split|]. intros s t u [A ?] [B ?]. split; [by etrans|congruence].
Qed.

Lemma kept_lookup s s' i p : kept s s' → ptable s !! i = Some p →
  ∃ q, ptable s' !! i = Some q ∧ kept1 p q.
Proof. intros [H _] Hp. by eapply Forall2_lookup_l. Qed.

Definition still {A} : M (pst (D := D)) A → Prop := resp kept.

Lemma still_keeps {A} (m : M pst A) : keeps (λ s, (ptable s, cur s)) m → still m.
Proof. intros Hk. eapply resp_keeps; [exact Hk|]. intros s s' [= E1 E2]. split; [by rewrite E1|done]. Qed.
Lemma still_ret {A} (a : A) : still (ret a).
Proof. exact (resp_ret kept a). Qed.
Lemma still_bind {A B} (m : M pst A) (k : A → M pst B) : still m → (∀ a, still (k a)) → still (bind m k).
Proof. exact (resp_bind kept m k). Qed.
Lemma still_forM {A} (l : list A) body : (∀ x, still (body x)) → still (forM l body).
Proof. exact (resp_forM kept l body). Qed.
Lemma wake_kept c p : kept1 p (wake c p).
Proof. unfold wake. destruct (decide _) as [[Hs _]|]; [|done]. split; [done|]. right. by split. Qed.
Lemma still_wakeup1 c : still (wakeup1 c).
Proof.
  apply resp_modify. intros s. split; [|done]. simpl. apply Forall2_fmap_r, Forall_Forall2_diag.
  apply Forall_forall. intros p _. apply wake_kept.
Qed.
Lemma still_with_k {A} (m : M kst A) : still (with_k m).
Proof. apply still_keeps. unfold with_k. auto with keeps. Qed.
Lemma still_my_proc : still my_proc.
Proof. apply still_keeps. unfold my_proc, proc_at. auto 8 with keeps. Qed.
Hint Resolve still_ret still_bind still_forM still_wakeup1 still_with_k still_my_proc : still.
Hint Extern 5 (still _) => apply still_keeps; solve [auto 12 with keeps] : still.

Lemma still_on_vm {A} (m : M Kalloc.kmem_t A) : still (on_vm m).
Proof. apply still_with_k. Qed.
Lemma still_on_k {A} (m : M kst A) : still (on_k m).
Proof. unfold on_k. auto 12 with still. Qed.

End still.

#[export] Hint Resolve still_ret still_bind still_forM still_wakeup1 still_with_k still_my_proc
  still_on_vm still_on_k : still.
#[export] Hint Extern 5 (still _) => apply still_keeps; solve [auto 12 with keeps] : still.

(** ** Witnesses *)

Definition zero_proc : proc :=
  mkProc 0 0 0 UNUSED 0 None tf_zero AtForkret None 0 (replicate (Z.to_nat NOFILE) None) None
         (replicate 16 0).
Definition zero_table (k : kst (D := Memide.memdisk)) : pst :=
  mkPst k (replicate (Z.to_nat NPROC) zero_proc) (mkSpin 0 EmptyString None) None 1 true 0 0 false.

(** [init] runs and has a runnable child. *)
Definition init_proc : proc := set_state RUNNING (set_pid 1 zero_proc).
Definition child_proc : proc := set_state RUNNABLE (set_pid 2 (set_parent (Some 0%nat) zero_proc)).
Definition demo (n : Z) (k : kst (D := Memide.memdisk)) : pst :=
  mkPst k (init_proc :: child_proc :: replicate 62 zero_proc) (mkSpin 0 EmptyString None)
        (Some 0%nat) 3 false 0 n false.

Lemma demo_lookup n k i p : ptable (demo n k) !! i = Some p →
  (i = 0%nat ∧ p = init_proc) ∨ (i = 1%nat ∧ p = child_proc) ∨ p = zero_proc.
Proof.
  destruct i as [|[|i]]; cbn [ptable demo lookup list_lookup].
  - intros [= <-]. auto.
  - intros [= <-]. auto.
  - intros [-> _]%lookup_replicate. auto.
Qed.

Lemma demo_ok n k : table_ok (demo n k).
Proof.
  split.
  - intros i p [[-> ->]|[[-> ->]| ->]]%demo_lookup; simpl; (done || lia).
  - intros i j p q [[-> ->]|[[-> ->]| ->]]%demo_lookup [[-> ->]|[[-> ->]| ->]]%demo_lookup; done.
  - intros i p [[-> ->]|[[-> ->]| ->]]%demo_lookup; done.
  - intros j [= <-]. by exists init_proc.
  - intros i j p [[-> ->]|[[-> ->]| ->]]%demo_lookup; simpl; try done. intros [= <-]. by exists init_proc.
  - intros i p [[-> ->]|[[-> ->]| ->]]%demo_lookup; done.
  - reflexivity.
  - intros i p c q [[-> ->]|[[-> ->]| ->]]%demo_lookup; done.
  - done.
  - intros i p [[-> ->]|[[-> ->]| ->]]%demo_lookup; done.
Qed.

Lemma zero_table_boot k : boot_table (zero_table k).
Proof.
  split; [reflexivity|]. split; [done|]. split; [done|]. by apply Forall_replicate.
Qed.

(** [init] sleeps in [wait], and the scheduler picks its child. *)
Lemma demo_run k : ∃ s1 s2 r, wait 0 (demo 1 k) = Ok (WSleep, s1) ∧
  scheduler_step 0 0 s1 = Ok (r, s2) ∧ ¬ running s1 ∧ running s2 ∧ cur s2 = 1%nat.
Proof.
  eexists _, _, _. split; [vm_compute; reflexivity|]. split; [vm_compute; reflexivity|].
  split; [intros (p & [= <-] & Hr); discriminate|]. split; [eexists; by split|done].
Qed.

Lemma process_table_invariant_witness :
  ∃ s', rtc (pstep 0 0 no_dev) (demo 1 k0) s' ∧ cur s' = 1%nat ∧ table_ok s'.
Proof.
  destruct (demo_run k0) as (s1 & s2 & r & E1 & E2 & Hn & Hr & Hc). exists s2.
  assert (Hrun : rtc (pstep 0 0 no_dev) (demo 1 k0) s2).
  { eapply rtc_l; [apply (st_wait 0 0 no_dev _ WSleep s1); [exists init_proc; by split|exact E1]|].
    eapply rtc_l; [apply (st_sched 0 0 no_dev s1 0 0 r s2 Hn E2)|]. apply rtc_refl. }
  split; [exact Hrun|]. split; [exact Hc|].
  apply (process_table_invariant 0 0 no_dev (zero_table k0) (demo 1 k0) s2); [apply zero_table_boot| |exact Hrun].
  right. apply demo_ok.
Defined.

Lemma scheduler_reaches_runnable_witness :
  1%nat ∈ picks (λ _ s, s) 2 0 (demo 0 k0).
Proof.
  apply (scheduler_reaches_runnable (λ _ s, s) 0 1 (demo 0 k0)).
  - intros m s _ H. exact H.
  - exists child_proc. split; reflexivity.
  - lia.
Defined.

Lemma sched_always_panics_witness : yield_proc (demo 0 k0) = Panic "sched locks".
Proof.
  apply (sched_always_panics 0 0 no_dev (demo 0 k0) (demo 0 k0) ChTicks LkPtable).
  - reflexivity.
  - apply rtc_refl.
  - exists init_proc. split; reflexivity.
  - exact I.
Defined.

Lemma allocproc_succeeds {D} `{!BlockDev D} (s : pst (D := D)) i p m :
  find_unused 0 (ptable s) = Some i → i32_lo ≤ NEXTPID s + 1 < i32_hi →
  Kalloc.kalloc (k_mem (pk s)) = Ok (p, m) → p ≠ 0 → wp allocproc s (λ a _, a = Some i).
Proof.
  intros Hf Hn Ek Hp. unfold allocproc. do 4 wp_step. cbn [ptable set_pt_lock]. rewrite Hf.
  unfold on_proc. do 5 wp_step. eapply wp_eq; [by apply chk_i32_ok|]. do 4 wp_step.
  wp_step. apply wp_zoom, wp_zoom. simpl. unfold wp at 1. rewrite Ek.
  destruct (Z.eqb_spec p 0); [done|]. by wp_auto.
Qed.

Lemma demo_kill k : ∃ s1, kill 0 (demo 0 k) = Ok (0, s1) ∧ pk s1 = k ∧ NEXTPID s1 = 3 ∧
  find_unused 0 (ptable s1) = Some 2%nat.
Proof. eexists. split; [vm_compute; reflexivity|]. by split_and!. Qed.

Lemma kill_zero_marks_next_process_witness :
  ∃ s1 s2, kill 0 (demo 0 k0) = Ok (0, s1) ∧ allocproc s1 = Ok (Some 2%nat, s2) ∧
    ∃ p, ptable s2 !! 2%nat = Some p ∧ p_killed p = 1.
Proof.
  destruct (demo_kill k0) as (s1 & E1 & Hpk & Hn & Hf).
  assert (Ha : wp allocproc s1 (λ a _, a = Some 2%nat)).
  { destruct (Kalloc.kalloc_inv Kalloc.end0 Kalloc.boot3 _ _ Kalloc.boot3_inv) as [Ek _].
    eapply (allocproc_succeeds s1 2 _ _ Hf);
      [rewrite Hn; unfold i32_lo, i32_hi; lia|rewrite Hpk; exact Ek|vm_compute; discriminate]. }
  apply wp_ok in Ha as (a & s2 & E2 & ->).
  exists s1, s2. split; [exact E1|]. split; [exact E2|].
  destruct (kill_zero_marks_next_process (demo 0 k0) s1 s2 2 2 0) as (_ & _ & x & Hx & _ & Hkd).
  - reflexivity.
  - reflexivity.
  - exact E1.
  - exact E2.
  - exists x. split; [exact Hx|exact Hkd].
Defined.

End ProcTable.
