(* ===== verification/Ulib.v ===== *)
(** * The user library

    crates/ulib/src/lib.rs: the system-call wrappers, the string and memory
    functions, [atoi] and [gets]. The heap allocator is in Umalloc.v. The
    programs and the library are built in the release profile, where integer
    arithmetic wraps.

    A pointer to a zero-terminated string is the list of bytes from there on;
    reading at the end of the list gives the terminating zero. *)

From S2P Require Import Prelude Mem.
Import Mem.

Module Ulib.

(** ** System calls

    A wrapper puts the call's number in rax and up to three arguments in rdi,
    rsi and rdx, and returns rax, for most of them as an i32. *)
Record sysreq := mkReq { num : Z; a1 : option Z; a2 : option Z; a3 : option Z }.

Definition syscall0 (n : Z) : sysreq := mkReq n None None None.
Definition syscall1 (n a : Z) : sysreq := mkReq n (Some a) None None.
Definition syscall2 (n a b : Z) : sysreq := mkReq n (Some a) (Some b) None.
Definition syscall3 (n a b c : Z) : sysreq := mkReq n (Some a) (Some b) (Some c).

Abbreviation SYS_FORK := 1 (only parsing).
Abbreviation SYS_EXIT := 2 (only parsing).
Abbreviation SYS_WAIT := 3 (only parsing).
Abbreviation SYS_PIPE := 4 (only parsing).
Abbreviation SYS_READ := 5 (only parsing).
Abbreviation SYS_KILL := 6 (only parsing).
Abbreviation SYS_EXEC := 7 (only parsing).
Abbreviation SYS_FSTAT := 8 (only parsing).
Abbreviation SYS_CHDIR := 9 (only parsing).
Abbreviation SYS_DUP := 10 (only parsing).
Abbreviation SYS_GETPID := 11 (only parsing).
Abbreviation SYS_SBRK := 12 (only parsing).
Abbreviation SYS_SLEEP := 13 (only parsing).
Abbreviation SYS_UPTIME := 14 (only parsing).
Abbreviation SYS_OPEN := 15 (only parsing).
Abbreviation SYS_WRITE := 16 (only parsing).
Abbreviation SYS_MKNOD := 17 (only parsing).
Abbreviation SYS_UNLINK := 18 (only parsing).
Abbreviation SYS_LINK := 19 (only parsing).
Abbreviation SYS_MKDIR := 20 (only parsing).
Abbreviation SYS_CLOSE := 21 (only parsing).

Definition fork : sysreq := syscall0 SYS_FORK.
Definition exit : sysreq := syscall0 SYS_EXIT.
Definition wait : sysreq := syscall0 SYS_WAIT.
Definition pipe (fd : Z) : sysreq := syscall1 SYS_PIPE fd.
Definition read (fd buf n : Z) : sysreq := syscall3 SYS_READ fd buf n.
Definition write (fd buf n : Z) : sysreq := syscall3 SYS_WRITE fd buf n.
Definition close (fd : Z) : sysreq := syscall1 SYS_CLOSE fd.
Definition kill (pid : Z) : sysreq := syscall1 SYS_KILL pid.
Definition exec (path argv : Z) : sysreq := syscall2 SYS_EXEC path argv.
Definition open (path omode : Z) : sysreq := syscall2 SYS_OPEN path omode.
Definition fstat (fd st : Z) : sysreq := syscall2 SYS_FSTAT fd st.
Definition dup (fd : Z) : sysreq := syscall1 SYS_DUP fd.
Definition getpid : sysreq := syscall0 SYS_GETPID.
Definition sbrk (n : Z) : sysreq := syscall1 SYS_SBRK n.
Definition sleep (n : Z) : sysreq := syscall1 SYS_SLEEP n.
Definition uptime : sysreq := syscall0 SYS_UPTIME.
Definition chdir (path : Z) : sysreq := syscall1 SYS_CHDIR path.
Definition mknod (path major minor : Z) : sysreq := syscall3 SYS_MKNOD path major minor.
Definition unlink (path : Z) : sysreq := syscall1 SYS_UNLINK path.
Definition link (old new : Z) : sysreq := syscall2 SYS_LINK old new.
Definition mkdir (path : Z) : sysreq := syscall1 SYS_MKDIR path.

(** ** Strings *)

Definition byte_at (s : list Z) : Z := nth 0 s 0.

Fixpoint strlen (s : list Z) : nat :=
  match s with
  | [] => 0
  | x :: s' => if x =? 0 then 0 else S (strlen s')
  end.

Fixpoint strcmp (s1 s2 : list Z) : Z :=
  match s1 with
  | [] => 0 - byte_at s2
  | a :: s1' =>
      if negb (a =? byte_at s2) then a - byte_at s2
      else if a =? 0 then 0
      else strcmp s1' (tail s2)
  end.

(** The rest of the string from the first [c] on; [None] is null. *)
Fixpoint strchr (s : list Z) (c : Z) : option (list Z) :=
  if byte_at s =? c then Some s
  else
    match s with
    | [] => None
    | x :: s' => if x =? 0 then None else strchr s' c
    end.

(** ** Memory *)

Definition poke (a v : Z) (m : mem) : mem := λ x, if x =? a then v else m x.

Fixpoint memset (dst c : Z) (i n : nat) (m : mem) : mem :=
  match n with
  | O => m
  | S n' => memset dst c (S i) n' (poke (dst + Z.of_nat i) c m)
  end.

(** The two loops of [memmove], which copy byte by byte. *)
Fixpoint copy_up (dst src : Z) (i n : nat) (m : mem) : mem :=
  match n with
  | O => m
  | S n' => copy_up dst src (S i) n' (poke (dst + Z.of_nat i) (m (src + Z.of_nat i)) m)
  end.
Fixpoint copy_down (dst src : Z) (n : nat) (m : mem) : mem :=
  match n with
  | O => m
  | S n' => copy_down dst src n' (poke (dst + Z.of_nat n') (m (src + Z.of_nat n')) m)
  end.
Definition memmove (dst src : Z) (n : nat) (m : mem) : mem :=
  if dst <? src then copy_up dst src 0 n m else copy_down dst src n m.

Fixpoint memcmp (s1 s2 : Z) (i n : nat) (m : mem) : Z :=
  match n with
  | O => 0
  | S n' =>
      let a := m (s1 + Z.of_nat i) in
      let b := m (s2 + Z.of_nat i) in
      if negb (a =? b) then a - b else memcmp s1 s2 (S i) n' m
  end.

(** ** Numbers and lines *)

Definition is_digit (c : Z) : bool := (48 <=? c) && (c <=? 57).

Fixpoint atoi_loop (s : list Z) (n : Z) : Z :=
  match s with
  | [] => n
  | c :: s' => if is_digit c then atoi_loop s' (as_i32 (as_i32 (n * 10) + (c - 48))) else n
  end.
Definition atoi (s : list Z) : Z :=
  match s with
  | c :: s' => if c =? 45 then as_i32 (- atoi_loop s' 0) else atoi_loop s 0
  | [] => atoi_loop s 0
  end.
Definition atoi_cstr (s : list Z) : Z := atoi (take (strlen s) s).

(** [gets] into a buffer of [n] bytes: the line with its newline, without the
    terminating zero, and the input left. *)
Fixpoint gets_loop (room : nat) (input : list Z) : list Z * list Z :=
  match room with
  | O => ([], input)
  | S room' =>
      match input with
      | [] => ([], [])
      | c :: input' =>
          if c =? 10 then ([c], input')
          else let (l, rest) := gets_loop room' input' in (c :: l, rest)
      end
  end.
Definition gets (n : nat) (input : list Z) : list Z * list Z := gets_loop (n - 1) input.

(** ** Memory moves *)

Lemma poke_eq a v m : poke a v m a = v.
Proof. unfold poke. by rewrite Z.eqb_refl. Qed.
Lemma poke_ne a v m x : x ≠ a → poke a v m x = m x.
Proof. intros. unfold poke. by destruct (Z.eqb_spec x a). Qed.

(** Copying up or down is right when no byte is overwritten before it is
    read. *)
Lemma copy_up_spec dst src n : dst < src → ∀ i m x,
  (dst + Z.of_nat i ≤ x < dst + Z.of_nat i + Z.of_nat n → copy_up dst src i n m x = m (src + (x - dst))) ∧
  (x < dst + Z.of_nat i ∨ dst + Z.of_nat i + Z.of_nat n ≤ x → copy_up dst src i n m x = m x).
Proof.
  intros Hlt. induction n as [|n IH]; intros i m x; [split; [lia|done]|]. cbn [copy_up].
  destruct (IH (S i) (poke (dst + Z.of_nat i) (m (src + Z.of_nat i)) m) x) as [H1 H2]. split; intros Hx.
  - destruct (decide (x = dst + Z.of_nat i)) as [->|].
    + rewrite H2, poke_eq by lia. f_equal. lia.
    + rewrite H1, poke_ne by lia. done.
  - rewrite H2, poke_ne by lia. done.
Qed.
Lemma copy_down_spec dst src n : src ≤ dst → ∀ m x,
  (dst ≤ x < dst + Z.of_nat n → copy_down dst src n m x = m (src + (x - dst))) ∧
  (x < dst ∨ dst + Z.of_nat n ≤ x → copy_down dst src n m x = m x).
Proof.
  intros Hle. induction n as [|n IH]; intros m x; [split; [lia|done]|]. cbn [copy_down].
  destruct (IH (poke (dst + Z.of_nat n) (m (src + Z.of_nat n)) m) x) as [H1 H2]. split; intros Hx.
  - destruct (decide (x = dst + Z.of_nat n)) as [->|].
    + rewrite H2, poke_eq by lia. f_equal. lia.
    + rewrite H1, poke_ne by lia. done.
  - rewrite H2, poke_ne by lia. done.
Qed.

(** [memmove] copies the bytes the source had before the call, also when
    source and destination overlap, and changes nothing else. *)
Theorem memmove_copies (dst src : Z) (n : nat) (m : mem) (x : Z) :
  memmove dst src n m x = memcpy dst src (Z.of_nat n) m x.
Proof.
  unfold memmove, memcpy. destruct (Z.ltb_spec dst src) as [Hlt|Hle].
  - destruct (copy_up_spec dst src n Hlt 0 m x) as [H1 H2]. bcase; (rewrite H1 by lia; done) || (apply H2; lia).
  - destruct (copy_down_spec dst src n Hle m x) as [H1 H2]. bcase; (rewrite H1 by lia; done) || (apply H2; lia).
Qed.

(** ** Strings and numbers *)

Lemma strcmp_refl s : strcmp s s = 0.
Proof. induction s as [|x s IH]; [done|]. simpl. rewrite Z.eqb_refl. simpl. by destruct (x =? 0). Qed.
Lemma strcmp_eq s1 s2 : Forall (λ x, x ≠ 0) s1 → Forall (λ x, x ≠ 0) s2 → strcmp s1 s2 = 0 ↔ s1 = s2.
Proof.
  intros H1 H2. split; [|intros ->; apply strcmp_refl]. revert s2 H2.
  induction H1 as [|x s1 Hx _ IH]; intros [|y s2] H2; cbn [strcmp]; unfold byte_at; simpl; try done.
  - apply Forall_cons in H2 as [? _]. lia.
  - destruct (Z.eqb_spec x 0); [done|]. simpl. lia.
  - apply Forall_cons in H2 as [Hy H2]. destruct (Z.eqb_spec x y) as [->|]; simpl; [|lia].
    destruct (Z.eqb_spec y 0); [done|]. intros E. f_equal. by apply IH.
Qed.

(** The value of a decimal numeral. *)
Definition dec (l : list Z) : Z := fold_left (λ n c, n * 10 + (c - 48)) l 0.

Definition wraps_to (x y : Z) : Prop := x mod u32_max = y mod u32_max.

Lemma as_i32_wraps x : wraps_to (as_i32 x) x.
Proof.
  unfold wraps_to, as_i32. destruct (_ <? _); [apply Z.mod_mod; done|].
  rewrite Zminus_mod, Z.mod_same, Z.sub_0_r by done. by rewrite !Z.mod_mod by done.
Qed.
Lemma as_i32_congr x y : wraps_to x y → as_i32 x = as_i32 y.
Proof. unfold wraps_to, as_i32. by intros ->. Qed.
Lemma as_i32_small x : i32_lo ≤ x < i32_hi → as_i32 x = x.
Proof.
  unfold as_i32, i32_lo, i32_hi, u32_max. intros Hx. destruct (decide (0 ≤ x)).
  - rewrite Z.mod_small by lia. destruct (Z.ltb_spec x 2147483648); lia.
  - rewrite <- (Z.mod_add x 1), Z.mod_small by lia. destruct (Z.ltb_spec (x + 1 * 4294967296) 2147483648); lia.
Qed.
Lemma as_i32_range x : i32_lo ≤ as_i32 x < i32_hi.
Proof.
  unfold as_i32, i32_lo, i32_hi, u32_max. pose proof (Z.mod_pos_bound x 4294967296 ltac:(lia)).
  destruct (Z.ltb_spec (x mod 4294967296) 2147483648); lia.
Qed.

Lemma dec_wraps l : ∀ n n', wraps_to n n' →
  wraps_to (fold_left (λ n c, n * 10 + (c - 48)) l n) (fold_left (λ n c, n * 10 + (c - 48)) l n').
Proof.
  induction l as [|c l IH]; intros n n' E; [done|]. simpl. apply IH. unfold wraps_to in *.
  rewrite (Z.add_mod (n * 10)), (Z.mul_mod n 10), E, <- Z.mul_mod, <- Z.add_mod; done.
Qed.

Definition ends_numeral (rest : list Z) : Prop :=
  match rest with [] => True | c :: _ => is_digit c = false end.

Lemma atoi_loop_dec l rest : Forall (λ c, is_digit c = true) l → ends_numeral rest → ∀ n,
  i32_lo ≤ n < i32_hi →
  atoi_loop (l ++ rest) n = as_i32 (fold_left (λ n c, n * 10 + (c - 48)) l n).
Proof.
  intros Hl Hr. induction Hl as [|c l Hc _ IH]; intros n Hn; simpl.
  - rewrite as_i32_small by done. destruct rest as [|c rest]; simpl in *; [done|by rewrite Hr].
  - rewrite Hc, IH by apply as_i32_range. apply as_i32_congr, dec_wraps. unfold wraps_to.
    rewrite as_i32_wraps, Z.add_mod, as_i32_wraps, <- Z.add_mod; done.
Qed.

(** [atoi] reads a decimal numeral up to the first other byte, with an
    optional minus sign; a value outside i32 wraps. *)
Theorem atoi_decimal (l rest : list Z) :
  l ≠ [] → Forall (λ c, is_digit c = true) l → ends_numeral rest →
  atoi (l ++ rest) = as_i32 (dec l) ∧ atoi (45 :: l ++ rest) = as_i32 (- dec l) ∧
  (i32_lo ≤ - dec l → dec l < i32_hi → atoi (l ++ rest) = dec l ∧ atoi (45 :: l ++ rest) = - dec l).
Proof.
  intros Hne Hl Hr. assert (H0 : i32_lo ≤ 0 < i32_hi) by (unfold i32_lo, i32_hi; lia).
  assert (E1 : atoi (l ++ rest) = as_i32 (dec l)).
  { unfold dec. rewrite <- (atoi_loop_dec l rest Hl Hr 0 H0). destruct Hl as [|c l Hc _]; [done|].
    unfold atoi. cbn [app]. cbv beta iota. destruct (Z.eqb_spec c 45) as [->|]; [discriminate Hc|reflexivity]. }
  assert (E2 : atoi (45 :: l ++ rest) = as_i32 (- dec l)).
  { unfold atoi. simpl (45 =? 45). cbv iota. rewrite (atoi_loop_dec l rest Hl Hr 0 H0). apply as_i32_congr. unfold wraps_to.
    pose proof (as_i32_wraps (dec l)) as Hw. unfold wraps_to, dec in Hw.
    rewrite <- !Z.sub_0_l, Zminus_mod, Hw, <- Zminus_mod. done. }
  split; [done|]. split; [done|]. intros Hlo Hhi.
  assert (0 ≤ dec l).
  { unfold dec. assert (Hp : ∀ n, 0 ≤ n → 0 ≤ fold_left (λ n c, n * 10 + (c - 48)) l n); [|apply Hp; lia].
    clear -Hl. induction Hl as [|c l Hc _ IH]; intros n Hn; simpl; [done|]. apply IH.
    unfold is_digit in Hc. apply andb_true_iff in Hc as [?%Z.leb_le _]. lia. }
  rewrite E1, E2, !as_i32_small by (unfold i32_lo, i32_hi in *; lia). done.
Qed.

Lemma atoi_decimal_witness : atoi [49; 50; 32] = 12 ∧ atoi [45; 49; 50; 32] = -12.
Proof.
  destruct (atoi_decimal [49; 50] [32]) as (_ & _ & H); [done|by repeat constructor|done|].
  apply H; unfold i32_lo, i32_hi, dec; simpl; lia.
Defined.

End Ulib.
