(* ===== verification/Umalloc.v ===== *)
(** * The user heap allocator

    [malloc], [morecore] and [free] of crates/ulib/src/lib.rs: a circular free
    list of blocks in address order, with a 16-byte header before each block.

    The state has the header fields as functions of the header's address, the
    pointer [FREEP] and the end of the heap. The two calls are shown to
    implement a set of disjoint blocks: see [malloc_blocks_disjoint]. *)

From S2P Require Import Prelude.

Module Umalloc.

Definition HEADER_SIZE : Z := 16.

(** [p.add(n)] on a header pointer. *)
Definition add (p n : Z) : Z := p + HEADER_SIZE * n.

Record ust := mkU {
  nxt : Z → Z;
  siz : Z → Z;
  FREEP : Z;
  brk : Z;
}.

Definition upd (f : Z → Z) (a v : Z) : Z → Z := λ x, if x =? a then v else f x.
Definition set_nxt (a v : Z) (s : ust) : ust := mkU (upd (nxt s) a v) (siz s) (FREEP s) (brk s).
Definition set_siz (a v : Z) (s : ust) : ust := mkU (nxt s) (upd (siz s) a v) (FREEP s) (brk s).
Definition set_freep (v : Z) (s : ust) : ust := mkU (nxt s) (siz s) v (brk s).
Definition set_brk (v : Z) (s : ust) : ust := mkU (nxt s) (siz s) (FREEP s) v.

Section umalloc.
(** The address of [BASE], and whether the kernel grants a growth of the heap
    from a break by a number of bytes. *)
Context (BASE : Z) (grants : Z → Z → bool).
Hypothesis BASE_nonnull : 0 < BASE.

(** The system call: the old break, or -1. *)
Definition sbrk (n : Z) (s : ust) : Z * ust :=
  if grants (brk s) n then (brk s, set_brk (brk s + n) s) else (-1, s).

(** ** free *)

(** The place in the list for [bp], from [p] on; [None] is out of fuel. *)
Fixpoint seek (fuel : nat) (s : ust) (bp p : Z) : option Z :=
  match fuel with
  | O => None
  | S fuel' =>
      if (p <? bp) && (bp <? nxt s p) then Some p
      else if (nxt s p <=? p) && ((p <? bp) || (bp <? nxt s p)) then Some p
      else seek fuel' s bp (nxt s p)
  end.

(** The block with header [bp], put in the list after [p]: joined with the
    next block if they are adjacent, then with [p]. *)
Definition join_upper (p bp : Z) (s : ust) : ust :=
  let q := nxt s p in
  if add bp (siz s bp) =? q
  then set_nxt bp (nxt s q) (set_siz bp (siz s bp + siz s q) s)
  else set_nxt bp q s.
Definition join_lower (p bp : Z) (s : ust) : ust :=
  if add p (siz s p) =? bp
  then set_nxt p (nxt s bp) (set_siz p (siz s p + siz s bp) s)
  else set_nxt p bp s.
Definition link (p bp : Z) (s : ust) : ust := set_freep p (join_lower p bp (join_upper p bp s)).

Definition free (fuel : nat) (ptr : Z) (s : ust) : option ust :=
  if ptr =? 0 then Some s
  else
    let bp := ptr - HEADER_SIZE in
    match seek fuel s bp (FREEP s) with
    | Some p => Some (link p bp s)
    | None => None
    end.

(** ** malloc *)

(** Zero is the null pointer. *)
Definition morecore (fuel : nat) (nu : Z) (s : ust) : option (Z * ust) :=
  let units := if nu <? 4096 then 4096 else nu in
  let bytes := units * HEADER_SIZE in
  let (p, s) := sbrk (as_i32 bytes) s in
  if p =? -1 then Some (0, s)
  else
    let hp := p in
    match free fuel (add hp 1) (set_siz hp units s) with
    | Some s => Some (FREEP s, s)
    | None => None
    end.

Fixpoint malloc_loop (fuel : nat) (nunits prevp p : Z) (s : ust) : option (Z * ust) :=
  match fuel with
  | O => None
  | S fuel' =>
      if nunits <=? siz s p then
        if siz s p =? nunits then
          Some (add p 1, set_freep prevp (set_nxt prevp (nxt s p) s))
        else
          let s := set_siz p (siz s p - nunits) s in
          let q := add p (siz s p) in
          Some (add q 1, set_freep prevp (set_siz q nunits s))
      else if p =? FREEP s then
        match morecore fuel' nunits s with
        | None => None
        | Some (p, s) =>
            if p =? 0 then Some (0, s) else malloc_loop fuel' nunits p (nxt s p) s
        end
      else malloc_loop fuel' nunits p (nxt s p) s
  end.

Definition nunits_of (nbytes : Z) : Z := as_u64 (nbytes + HEADER_SIZE - 1) / HEADER_SIZE + 1.

Definition malloc (fuel : nat) (nbytes : Z) (s : ust) : option (Z * ust) :=
  let nunits := nunits_of nbytes in
  let s := if FREEP s =? 0 then set_freep BASE (set_siz BASE 0 (set_nxt BASE BASE s)) else s in
  malloc_loop fuel nunits (FREEP s) (nxt s (FREEP s)) s.

(** ** The free list *)

(** The list from header [a] to [z] has the blocks [l]. *)
Fixpoint chain (s : ust) (a : Z) (l : list (Z * Z)) (z : Z) : Prop :=
  match l with
  | [] => nxt s a = z
  | (b, n) :: l' => nxt s a = b ∧ siz s b = n ∧ chain s b l' z
  end.

(** The blocks are in order between [lo] and [hi], and not adjacent. *)
Fixpoint spaced (lo : Z) (l : list (Z * Z)) (hi : Z) : Prop :=
  match l with
  | [] => lo ≤ hi
  | (a, n) :: l' => lo < a ∧ 0 < n ∧ spaced (add a n) l' hi
  end.

Definition nodes (l : list (Z * Z)) : list Z := BASE :: l.*1.

Record heap (s : ust) (l : list (Z * Z)) : Prop := {
  h_chain : chain s BASE l BASE;
  h_base : siz s BASE = 0;
  h_spaced : spaced BASE l (brk s);
  h_freep : FREEP s ∈ nodes l;
  h_brk : BASE < brk s;
}.

(** The addresses in the blocks of [l]. *)
Definition covered (l : list (Z * Z)) (x : Z) : Prop := ∃ a n, (a, n) ∈ l ∧ a ≤ x < add a n.

Lemma covered_nil x : covered [] x ↔ False.
Proof. split; [|done]. intros (a & n & H & _). by apply elem_of_nil in H. Qed.
Lemma covered_cons a n l x : covered ((a, n) :: l) x ↔ a ≤ x < add a n ∨ covered l x.
Proof.
  split.
  - intros (b & m & [[= -> ->]|H]%elem_of_cons & Hx); [by left|right; by exists b, m].
  - intros [Hx|(b & m & H & Hx)]; [exists a, n|exists b, m]; (split; [apply elem_of_cons; by auto|done]).
Qed.
Lemma covered_app l1 l2 x : covered (l1 ++ l2) x ↔ covered l1 x ∨ covered l2 x.
Proof.
  induction l1 as [|[a n] l1 IH]; simpl; [rewrite covered_nil; tauto|]. rewrite !covered_cons, IH. tauto.
Qed.

Lemma free_chain_app s a l1 p m l2 z :
  chain s a (l1 ++ (p, m) :: l2) z ↔ chain s a l1 p ∧ siz s p = m ∧ chain s p l2 z.
Proof. revert a. induction l1 as [|[b n] l1 IH]; intros a; simpl; [tauto|]. rewrite IH. tauto. Qed.

Lemma chain_frame s s' a l z :
  (∀ x, x ∈ a :: l.*1 → nxt s' x = nxt s x) → (∀ x, x ∈ l.*1 → siz s' x = siz s x) →
  chain s a l z → chain s' a l z.
Proof.
  revert a. induction l as [|[b n] l IH]; intros a Hn Hs; simpl.
  - intros <-. apply Hn. by left.
  - intros (H1 & H2 & H3). split; [rewrite Hn; [done|by left]|].
    split; [rewrite Hs; [done|by left]|]. apply IH; [|intros x Hx|done].
    + intros x Hx. apply Hn. by right.
    + apply Hs. by right.
Qed.

(** The last header of the list from [a]. *)
Definition lastn (a : Z) (l : list (Z * Z)) : Z := default a (last (l.*1)).

Lemma lastn_snoc a l p m : lastn a (l ++ [(p, m)]) = p.
Proof. unfold lastn. rewrite fmap_app. simpl. by rewrite last_snoc. Qed.
Lemma lastn_cons a b n l : lastn a ((b, n) :: l) = lastn b l.
Proof. unfold lastn. cbn [fmap list_fmap]. rewrite last_cons. simpl. by destruct (last (l.*1)). Qed.
Lemma lastn_in a l : lastn a l ∈ a :: l.*1.
Proof.
  unfold lastn. destruct (last (l.*1)) eqn:E; [|by left]. right.
  by eapply last_Some_elem_of.
Qed.

Lemma chain_last s a l z : chain s a l z → nxt s (lastn a l) = z.
Proof.
  revert a. induction l as [|[b n] l IH]; intros a; simpl; [done|]. intros (_ & _ & H).
  rewrite lastn_cons. by apply IH.
Qed.
Lemma chain_relink s a l z z' : NoDup (a :: l.*1) → chain s a l z →
  chain (set_nxt (lastn a l) z' s) a l z'.
Proof.
  revert a. induction l as [|[b n] l IH]; intros a Hnd; simpl.
  - intros _. unfold upd. simpl. by rewrite Z.eqb_refl.
  - intros (H1 & H2 & H3). apply NoDup_cons in Hnd as [Ha Hnd]. rewrite lastn_cons. split_and!; [|done|by apply IH].
    unfold upd. destruct (Z.eqb_spec a (lastn b l)) as [->|]; [|done]. exfalso. apply Ha, lastn_in.
Qed.

Lemma spaced_mono lo lo' l hi : lo' ≤ lo → spaced lo l hi → spaced lo' l hi.
Proof. destruct l as [|[a n] l]; simpl; [lia|]. intros ? (? & ? & ?). split_and!; [lia|done|done]. Qed.
Lemma spaced_le lo l hi : spaced lo l hi → lo ≤ hi.
Proof.
  revert lo. induction l as [|[a n] l IH]; intros lo; simpl; [done|]. unfold add, HEADER_SIZE in *.
  intros (? & ? & ?%IH). lia.
Qed.
Lemma spaced_app lo l1 p m l2 hi :
  spaced lo (l1 ++ (p, m) :: l2) hi ↔ spaced lo l1 (p - 1) ∧ 0 < m ∧ spaced (add p m) l2 hi.
Proof.
  revert lo. induction l1 as [|[a n] l1 IH]; intros lo; simpl.
  - split; intros (? & ? & ?); split_and!; (lia || done).
  - rewrite IH. tauto.
Qed.
Lemma spaced_elem lo l hi a n : spaced lo l hi → (a, n) ∈ l → lo < a ∧ 0 < n ∧ add a n ≤ hi.
Proof.
  intros Hs (l1 & l2 & ->)%list_elem_of_split. apply spaced_app in Hs as (H1 & H2 & H3).
  apply spaced_le in H1, H3. split_and!; [lia|done|done].
Qed.
Lemma spaced_nodup lo l hi : spaced lo l hi → NoDup (lo :: l.*1).
Proof.
  revert lo. induction l as [|[a n] l IH]; intros lo; simpl; [intros; apply NoDup_singleton|].
  intros (H1 & H2 & H3). apply NoDup_cons. split.
  - intros [E|Hin]%elem_of_cons; [lia|]. apply list_elem_of_fmap in Hin as ([b m] & -> & Hin).
    apply (spaced_elem _ _ _ _ _ H3) in Hin. simpl in H1. unfold add, HEADER_SIZE in *. lia.
  - apply NoDup_cons. split.
    + intros Hin. apply list_elem_of_fmap in Hin as ([b m] & E & Hin). simpl in E. subst b.
      apply (spaced_elem _ _ _ _ _ H3) in Hin. unfold add, HEADER_SIZE in *. lia.
    + by apply IH, NoDup_cons in H3 as [_ ?].
Qed.

(** ** Seeking *)

Lemma chain_index s a l z i b : chain s a l z → (a :: l.*1) !! i = Some b →
  nxt s b = default z ((a :: l.*1) !! S i).
Proof.
  revert a i. induction l as [|[c n] l IH]; intros a [|i] Hc Hb; simpl in *.
  - congruence.
  - done.
  - destruct Hc as (? & _ & _). congruence.
  - destruct Hc as (_ & _ & Hc). by apply (IH c i Hc).
Qed.
Lemma spaced_index lo l hi i b c : spaced lo l hi →
  (lo :: l.*1) !! i = Some b → (lo :: l.*1) !! S i = Some c → b < c.
Proof.
  revert lo i. induction l as [|[a n] l IH]; intros lo i Hs Hb Hc; [by destruct i|].
  destruct Hs as (H1 & H2 & H3). destruct i as [|i]; simpl in *; [by simplify_eq|].
  apply (IH a i); [|done|done]. eapply spaced_mono; [|done]. unfold add, HEADER_SIZE. lia.
Qed.
Lemma spaced_split lo l hi bp n : spaced lo l hi → lo ≤ bp → 0 < n → add bp n ≤ hi →
  (∀ a m, (a, m) ∈ l → add bp n ≤ a ∨ add a m ≤ bp) →
  ∃ l1 l2, l = l1 ++ l2 ∧ spaced lo l1 bp ∧ spaced (add bp n - 1) l2 hi.
Proof.
  revert lo. induction l as [|[a m] l IH]; intros lo Hs Hlo Hn Hhi Hd.
  { exists [], []. split_and!; simpl; (done || lia). }
  destruct Hs as (H1 & H2 & H3). destruct (Hd a m) as [Ha|Ha]; [by left| |].
  - exists [], ((a, m) :: l). split_and!; simpl; try done. split_and!; [lia|done|done].
  - destruct (IH (add a m)) as (l1 & l2 & -> & E1 & E2); try done.
    { intros b k Hb. apply Hd. by right. }
    exists ((a, m) :: l1), l2. by split_and!.
Qed.

Lemma spaced_below lo l hi i b : lo ≤ hi → spaced lo l hi → (lo :: l.*1) !! i = Some b → i = 0%nat ∨ b < hi.
Proof.
  intros Hle Hs Hb. destruct i as [|i]; [by left|right]. simpl in Hb.
  rewrite list_lookup_fmap in Hb. apply fmap_Some in Hb as ([a m] & Hb & ->).
  apply list_elem_of_lookup_2, (spaced_elem _ _ _ _ _ Hs) in Hb. unfold add, HEADER_SIZE in *. simpl. lia.
Qed.

(** Steps from header [i] to header [j] of a list of [n] blocks. *)
Definition dist (n i j : nat) : nat := if decide (i ≤ j)%nat then j - i else S n - i + j.

Lemma nodes_last a l1 l2 : (a :: (l1 ++ l2).*1) !! length l1 = Some (lastn a l1).
Proof.
  revert a. induction l1 as [|[b n] l1 IH]; intros a; [done|]. rewrite lastn_cons. apply IH.
Qed.
Lemma nodes_lo l1 l2 bp i b : BASE < bp → spaced BASE l1 bp → nodes (l1 ++ l2) !! i = Some b →
  (i ≤ length l1)%nat → b < bp.
Proof.
  intros Hb Hs Hi Hij. destruct (spaced_below BASE l1 bp i b) as [->|]; try (done || lia).
  - unfold nodes in Hi. rewrite fmap_app in Hi. destruct i as [|i]; [done|]. simpl in *.
    rewrite lookup_app_l in Hi; [done|]. rewrite length_fmap. lia.
  - simpl in Hi. congruence.
Qed.
Lemma nodes_hi l1 l2 bp hi i b : spaced bp l2 hi → nodes (l1 ++ l2) !! i = Some b →
  (length l1 < i)%nat → bp < b.
Proof.
  intros Hs Hi Hij. destruct i as [|i]; [lia|]. unfold nodes in Hi. rewrite fmap_app in Hi. simpl in Hi.
  rewrite lookup_app_r in Hi by (rewrite length_fmap; lia).
  rewrite list_lookup_fmap in Hi. apply fmap_Some in Hi as ([a m] & Ha & ->).
  apply list_elem_of_lookup_2, (spaced_elem _ _ _ _ _ Hs) in Ha. simpl. lia.
Qed.
Lemma nodes_length l : length (nodes l) = S (length l).
Proof. unfold nodes. simpl. by rewrite length_fmap. Qed.
Lemma nodes_ge l hi i p : spaced BASE l hi → nodes l !! i = Some p → BASE ≤ p.
Proof.
  intros Hs Hp. destruct i as [|i]; [simpl in Hp; simplify_eq; lia|]. simpl in Hp. rewrite list_lookup_fmap in Hp.
  apply fmap_Some in Hp as ([a m] & Ha & ->). apply list_elem_of_lookup_2, (spaced_elem _ _ _ _ _ Hs) in Ha. simpl. lia.
Qed.

Lemma seek_spec s l1 l2 bp hi : BASE < bp → chain s BASE (l1 ++ l2) BASE →
  spaced BASE (l1 ++ l2) hi → spaced BASE l1 bp → spaced bp l2 hi → ∀ fuel i p,
  nodes (l1 ++ l2) !! i = Some p → (dist (length (l1 ++ l2)) i (length l1) < fuel)%nat →
  seek fuel s bp p = Some (lastn BASE l1).
Proof.
  intros Hb Hc Hs H1 H2. pose proof (nodes_last BASE l1 l2) as Hlast.
  pose proof (λ i b, nodes_lo l1 l2 bp i b Hb H1) as Hlo. pose proof (λ i b, nodes_hi l1 l2 bp hi i b H2) as Hhi.
  induction fuel as [|fuel IH]; intros i p Hp Hd; [lia|]. cbn [seek].
  pose proof (chain_index s BASE _ BASE i p Hc Hp) as Hnx. fold (nodes (l1 ++ l2)) in Hnx, Hlast.
  apply lookup_lt_Some in Hp as Hlen. rewrite nodes_length in Hlen.
  destruct (nodes (l1 ++ l2) !! S i) as [q|] eqn:Eq; simpl in Hnx; rewrite Hnx.
  - pose proof (spaced_index BASE _ hi i p q Hs Hp Eq) as Hpq. apply lookup_lt_Some in Eq as Hlen'.
    rewrite nodes_length in Hlen'. destruct (decide (i = length l1)) as [->|Hij].
    + pose proof (Hlo _ p Hp ltac:(lia)). pose proof (Hhi _ q Eq ltac:(lia)).
      rewrite (proj2 (Z.ltb_lt p bp)), (proj2 (Z.ltb_lt bp q)) by done. simpl. congruence.
    + rewrite (proj2 (Z.leb_gt q p)) by done. simpl.
      assert (Hf : (p <? bp) && (bp <? q) = false).
      { destruct (decide (i < length l1)%nat).
        - pose proof (Hlo (S i) q Eq ltac:(lia)). destruct (Z.ltb_spec bp q); [lia|]. by rewrite andb_false_r.
        - pose proof (Hhi i p Hp ltac:(lia)). by destruct (Z.ltb_spec p bp); [lia|]. }
      rewrite Hf. apply (IH (S i)); [done|]. revert Hd. unfold dist. repeat case_decide; lia.
  - apply lookup_ge_None in Eq. rewrite nodes_length, length_app in Eq.
    rewrite (proj2 (Z.ltb_ge bp BASE)) by lia. rewrite andb_false_r, orb_false_r.
    rewrite (proj2 (Z.leb_le BASE p)) by (exact (nodes_ge _ hi i p Hs Hp)). simpl.
    destruct (decide (i = length l1)) as [->|Hij].
    + rewrite (proj2 (Z.ltb_lt p bp)) by (apply (Hlo (length l1)); [done|lia]). congruence.
    + pose proof (Hhi i p Hp ltac:(lia)). destruct (Z.ltb_spec p bp); [lia|].
      apply (IH 0%nat); [done|]. revert Hd. unfold dist. repeat case_decide; lia.
Qed.

(** ** Linking *)

Lemma upd_eq f a v : upd f a v a = v.
Proof. unfold upd. by rewrite Z.eqb_refl. Qed.
Lemma upd_ne f a v x : x ≠ a → upd f a v x = f x.
Proof. intros. unfold upd. by destruct (Z.eqb_spec x a). Qed.

(** [s'] has other header fields than [s] only at the addresses of [l]. *)
Definition same_but (l : list Z) (s s' : ust) : Prop :=
  brk s' = brk s ∧ ∀ x, x ∉ l → nxt s' x = nxt s x ∧ siz s' x = siz s x.

Lemma same_but_nxt l a v s : a ∈ l → same_but l s (set_nxt a v s).
Proof. intros Ha. split; [done|]. intros x Hx. simpl. rewrite upd_ne; [done|]. by intros ->. Qed.
Lemma same_but_siz l a v s : a ∈ l → same_but l s (set_siz a v s).
Proof. intros Ha. split; [done|]. intros x Hx. simpl. rewrite upd_ne; [done|]. by intros ->. Qed.
Lemma same_but_trans l s1 s2 s3 : same_but l s1 s2 → same_but l s2 s3 → same_but l s1 s3.
Proof.
  intros [E1 H1] [E2 H2]. split; [congruence|]. intros x Hx.
  destruct (H1 x Hx), (H2 x Hx). split; congruence.
Qed.
Lemma same_but_mono l l' s s' : l ⊆ l' → same_but l s s' → same_but l' s s'.
Proof. intros Hl [E H]. split; [done|]. intros x Hx. apply H. set_solver. Qed.
(** A list away from the changes. *)
Lemma chain_same l0 s s' a l z : same_but l0 s s' → (∀ x, x ∈ a :: l.*1 → x ∉ l0) →
  chain s a l z → chain s' a l z.
Proof.
  intros [_ H] Hd. apply chain_frame; intros x Hx; apply H, Hd; [done|by right].
Qed.

Lemma spaced_fresh lo l hi x : spaced lo l hi → x ≤ lo → x ∉ l.*1.
Proof.
  intros Hs Hx ([a m] & -> & Ha)%list_elem_of_fmap. apply (spaced_elem _ _ _ _ _ Hs) in Ha. simpl in Hx. lia.
Qed.

Lemma join_upper_spec s p bp n l2 hi : siz s bp = n → 0 < n → BASE < bp → p ≠ bp →
  chain s p l2 BASE → spaced (add bp n - 1) l2 hi → add bp n ≤ hi →
  let s1 := join_upper p bp s in
  ∃ n' l', siz s1 bp = n' ∧ 0 < n' ∧ chain s1 bp l' BASE ∧ spaced (add bp n') l' hi ∧
    same_but [bp] s s1 ∧ (length l' ≤ length l2)%nat ∧
    (∀ x, covered ((bp, n') :: l') x ↔ bp ≤ x < add bp n ∨ covered l2 x).
Proof.
  intros Hsz Hn Hb Hp Hc Hs Hhi s1. subst s1. unfold join_upper. rewrite Hsz.
  assert (Hfr : bp ∉ l2.*1) by (apply (spaced_fresh _ _ _ _ Hs); unfold add, HEADER_SIZE; lia).
  destruct l2 as [|[a m] l2].
  - simpl in Hc. rewrite Hc. destruct (Z.eqb_spec (add bp n) BASE); [unfold add, HEADER_SIZE in *; lia|].
    exists n, []. split_and!; try done.
    + simpl. by rewrite upd_eq.
    + apply same_but_nxt. by left.
    + intros x. rewrite covered_cons, covered_nil. tauto.
  - destruct Hc as (-> & Hm & Hc). destruct Hs as (Ha & Hm0 & Hs). simpl in Hfr. apply not_elem_of_cons in Hfr as [Hba Hfr].
    destruct (Z.eqb_spec (add bp n) a) as [E|E].
    + exists (n + m), l2. split_and!; try done.
      * simpl. by rewrite upd_eq, Hm.
      * lia.
      * destruct l2 as [|[c k] l2]; simpl in *; [by rewrite upd_eq|].
        destruct Hc as (-> & Hk & Hc). rewrite upd_eq, upd_ne by set_solver. split_and!; [done|done|].
        apply (chain_same [bp] s); [|set_solver|done].
        eapply same_but_trans; [apply same_but_siz|apply same_but_nxt]; by left.
      * eapply spaced_mono; [|exact Hs]. unfold add, HEADER_SIZE in *. lia.
      * eapply same_but_trans; [apply same_but_siz|apply same_but_nxt]; by left.
      * simpl. lia.
      * intros x. rewrite !covered_cons. unfold add, HEADER_SIZE in *.
        assert (bp ≤ x < bp + 16 * (n + m) ↔ bp ≤ x < bp + 16 * n ∨ a ≤ x < a + 16 * m) by lia. tauto.
    + exists n, ((a, m) :: l2). split_and!; try done.
      * simpl. rewrite upd_eq. split_and!; [done|done|].
        apply (chain_same [bp] s); [apply same_but_nxt; by left|set_solver|done].
      * simpl. split_and!; [lia|done|done].
      * apply same_but_nxt. by left.
      * intros x. rewrite !covered_cons. tauto.
Qed.

(** Joining the new block with [p], or putting it after the last header of
    [l1]. *)
Lemma join_lower_joins s k p m bp n l' hi z : siz s bp = n → 0 < n → add p m = bp →
  chain s BASE (k ++ [(p, m)]) z → spaced BASE (k ++ [(p, m)]) bp → chain s bp l' BASE →
  spaced (add bp n) l' hi →
  let s1 := join_lower p bp s in let l := k ++ (p, m + n) :: l' in
  chain s1 BASE l BASE ∧ spaced BASE l hi ∧ same_but [p] s s1 ∧
  (∀ x, covered l x ↔ covered (k ++ [(p, m)]) x ∨ covered ((bp, n) :: l') x).
Proof.
  intros Hsz Hn E Hc1 Hs1 Hc2 Hs2 s1 l. subst s1 l.
  apply free_chain_app in Hc1 as (Hk & Hm & _). pose proof (spaced_nodup _ _ _ Hs1) as Hnd.
  apply spaced_app in Hs1 as (Hsk & Hm0 & _). rewrite fmap_app in Hnd. simpl in Hnd.
  apply NoDup_cons in Hnd as [HB Hnd]. apply NoDup_app in Hnd as (_ & Hkp & _).
  assert (Hpl : p ∉ l'.*1) by (apply (spaced_fresh _ _ _ _ Hs2); unfold add, HEADER_SIZE in *; lia).
  unfold join_lower. rewrite Hm, Hsz, E, Z.eqb_refl.
  assert (Hsb : same_but [p] s (set_nxt p (nxt s bp) (set_siz p (m + n) s)))
    by (eapply same_but_trans; [apply same_but_siz|apply same_but_nxt]; by left).
  split_and!; [|apply spaced_app; split_and!|done|].
  - apply free_chain_app. split_and!; [|simpl; by rewrite upd_eq|].
    + apply (chain_same [p] s); [done| |done]. intros x [->|Hx]%elem_of_cons; set_solver.
    + destruct l' as [|[c j] l']; cbn [chain] in *; cbn [nxt siz set_nxt set_siz]; [by rewrite upd_eq|].
      destruct Hc2 as (Hx & Hj & Hc). rewrite upd_eq, upd_ne by set_solver. split_and!; [done|done|].
      apply (chain_same [p] s); [done|set_solver|done].
  - done.
  - lia.
  - replace (add p (m + n)) with (add bp n) by (unfold add, HEADER_SIZE in *; lia). done.
  - intros x. rewrite !covered_app, !covered_cons, covered_nil. unfold add, HEADER_SIZE in *.
    assert (p ≤ x < p + 16 * (m + n) ↔ p ≤ x < p + 16 * m ∨ bp ≤ x < bp + 16 * n) by lia. tauto.
Qed.

Lemma join_lower_puts s l1 bp n l' hi z : siz s bp = n → 0 < n → BASE < bp →
  let p := lastn BASE l1 in add p (siz s p) ≠ bp →
  chain s BASE l1 z → spaced BASE l1 (bp - 1) → chain s bp l' BASE → spaced (add bp n) l' hi →
  let s1 := join_lower p bp s in let l := l1 ++ (bp, n) :: l' in
  chain s1 BASE l BASE ∧ spaced BASE l hi ∧ same_but [p] s s1.
Proof.
  intros Hsz Hn Hb p E Hc1 Hs1 Hc2 Hs2 s1 l. subst s1 l. unfold join_lower.
  destruct (Z.eqb_spec (add p (siz s p)) bp); [done|].
  assert (Hp : p < bp).
  { pose proof (lastn_in BASE l1) as Hin. fold p in Hin. apply elem_of_cons in Hin as [->|Hin]; [done|].
    apply list_elem_of_fmap in Hin as ([a m] & -> & Ha). apply (spaced_elem _ _ _ _ _ Hs1) in Ha.
    unfold add, HEADER_SIZE in *. simpl. lia. }
  split_and!.
  - apply free_chain_app. split_and!; [by eapply chain_relink; [by eapply spaced_nodup|]|done|].
    apply (chain_same [p] s); [apply same_but_nxt; by left| |done].
    assert (Hpl : p ∉ l'.*1) by (apply (spaced_fresh _ _ _ _ Hs2); unfold add, HEADER_SIZE in *; lia).
    intros x [->|Hx]%elem_of_cons; [|set_solver]. intros ->%list_elem_of_singleton. lia.
  - by apply spaced_app.
  - apply same_but_nxt. by left.
Qed.

Lemma chain_split s a l1 l2 z : chain s a (l1 ++ l2) z →
  chain s a l1 (nxt s (lastn a l1)) ∧ chain s (lastn a l1) l2 z.
Proof.
  revert a. induction l1 as [|[b n] l1 IH]; intros a; [done|]. rewrite lastn_cons.
  intros (H1 & H2 & H3). destruct (IH b H3). by split_and!.
Qed.

(** The last header is in the list before the new block or joined with it. *)
Lemma join_lower_spec s l1 bp n l' hi z : siz s bp = n → 0 < n → BASE < bp → siz s BASE = 0 →
  chain s BASE l1 z → spaced BASE l1 bp → chain s bp l' BASE → spaced (add bp n) l' hi →
  let p := lastn BASE l1 in let s1 := join_lower p bp s in
  ∃ l, chain s1 BASE l BASE ∧ spaced BASE l hi ∧ same_but [p] s s1 ∧ p ∈ nodes l ∧ siz s1 BASE = 0 ∧
    (length l ≤ length l1 + S (length l'))%nat ∧
    (∀ x, covered l x ↔ covered l1 x ∨ covered ((bp, n) :: l') x).
Proof.
  intros Hsz Hn Hb HB Hc1 Hs1 Hc2 Hs2 p s1. subst s1.
  destruct (decide (add p (siz s p) = bp)) as [E|E].
  - destruct l1 as [|[q m] k _] using rev_ind.
    { unfold p, lastn in E. simpl in E. rewrite HB in E. unfold add, HEADER_SIZE in E. lia. }
    assert (p = q) as Hpq by apply lastn_snoc. clearbody p. subst q.
    pose proof Hc1 as (_ & Hm & _)%free_chain_app. rewrite Hm in E.
    pose proof Hs1 as (Hk & Hm0 & _)%spaced_app. apply spaced_le in Hk.
    destruct (join_lower_joins s k p m bp n l' hi z Hsz Hn E Hc1 Hs1 Hc2 Hs2) as (R1 & R2 & R3 & R4).
    exists (k ++ (p, m + n) :: l'). split_and!; try done.
    + unfold nodes. rewrite fmap_app. simpl. set_solver.
    + destruct R3 as [_ R3]. rewrite (proj2 (R3 BASE ltac:(intros ?%list_elem_of_singleton; lia))). done.
    + rewrite !length_app. simpl. lia.
  - assert (Hs1' : spaced BASE l1 (bp - 1)).
    { destruct l1 as [|[q m] k _] using rev_ind; [simpl; lia|]. unfold p in E. rewrite lastn_snoc in E.
      apply free_chain_app in Hc1 as (_ & Hm & _). rewrite Hm in E. apply spaced_app in Hs1 as (? & ? & ?).
      apply spaced_app. split_and!; simpl in *; (done || lia). }
    destruct (join_lower_puts s l1 bp n l' hi z Hsz Hn Hb E Hc1 Hs1' Hc2 Hs2) as (R1 & R2 & R3).
    exists (l1 ++ (bp, n) :: l'). split_and!; try done.
    + pose proof (lastn_in BASE l1). unfold nodes. rewrite fmap_app. simpl. set_solver.
    + unfold join_lower. by destruct (Z.eqb_spec (add p (siz s p)) bp).
    + by rewrite length_app.
    + intros x. apply covered_app.
Qed.

Lemma link_spec s l1 l2 bp n : heap s (l1 ++ l2) → BASE < bp → siz s bp = n → 0 < n →
  spaced BASE l1 bp → spaced (add bp n - 1) l2 (brk s) → add bp n ≤ brk s →
  let s' := link (lastn BASE l1) bp s in
  ∃ l, heap s' l ∧ same_but (bp :: nodes (l1 ++ l2)) s s' ∧ (length l ≤ S (length (l1 ++ l2)))%nat ∧
    (∀ x, covered l x ↔ covered (l1 ++ l2) x ∨ bp ≤ x < add bp n).
Proof.
  intros [Hc HB Hs _ Hbk] Hb Hsz Hn Hs1 Hs2 Hhi s'. subst s'. set (p := lastn BASE l1).
  apply chain_split in Hc as [Hc1 Hc2]. fold p in Hc1, Hc2.
  assert (Hp : p ∈ nodes (l1 ++ l2)).
  { pose proof (lastn_in BASE l1). unfold nodes. rewrite fmap_app. set_solver. }
  assert (Hbp : bp ∉ BASE :: l1.*1).
  { intros [->|([a m] & -> & Ha)%list_elem_of_fmap]%elem_of_cons; [lia|].
    apply (spaced_elem _ _ _ _ _ Hs1) in Ha. unfold add, HEADER_SIZE in *. simpl in *. lia. }
  assert (Hne : p ≠ bp) by (intros E; apply Hbp; rewrite <- E; apply lastn_in).
  destruct (join_upper_spec s p bp n l2 (brk s) Hsz Hn Hb Hne Hc2 Hs2 Hhi)
    as (n' & l' & Hsz' & Hn' & Hc' & Hs' & Hsb & Hlen & Hcov).
  destruct (join_lower_spec (join_upper p bp s) l1 bp n' l' (brk s) (nxt s p)) as (l & R1 & R2 & R3 & R4 & R5 & R7 & R6); try done.
  { destruct Hsb as [_ Hsb]. rewrite (proj2 (Hsb BASE ltac:(intros ?%list_elem_of_singleton; lia))). done. }
  { apply (chain_same [bp] s); [done|set_solver|done]. }
  exists l. unfold link. fold p in R1, R2, R3, R4, R5, R6 |- *. split_and!.
  - assert (Eb : brk (join_lower p bp (join_upper p bp s)) = brk s)
      by (destruct Hsb as [E1 _], R3 as [E2 _]; congruence).
    split; simpl; [eapply chain_frame; [..|exact R1]; done|done|by rewrite Eb|done|by rewrite Eb].
  - assert (Hsb' : same_but (bp :: nodes (l1 ++ l2)) s (join_lower p bp (join_upper p bp s))).
    { eapply same_but_trans; [eapply same_but_mono; [|exact Hsb]|eapply same_but_mono; [|exact R3]]; set_solver. }
    exact Hsb'.
  - rewrite length_app. lia.
  - intros x. rewrite R6, Hcov, covered_app. tauto.
Qed.

(** ** free *)

Lemma free_spec fuel s l bp n : heap s l → BASE < bp → 0 < bp → siz s bp = n → 0 < n → add bp n ≤ brk s →
  (∀ a m, (a, m) ∈ l → add bp n ≤ a ∨ add a m ≤ bp) → (length l + 1 < fuel)%nat →
  ∃ s' l', free fuel (add bp 1) s = Some s' ∧ heap s' l' ∧ same_but (bp :: nodes l) s s' ∧ (length l' ≤ S (length l))%nat ∧
    (∀ x, covered l' x ↔ covered l x ∨ bp ≤ x < add bp n).
Proof.
  intros Hh Hb H0 Hsz Hn Hhi Hd Hf. pose proof Hh as [Hc HB Hs Hfp _].
  destruct (spaced_split BASE l (brk s) bp n) as (l1 & l2 & -> & Hs1 & Hs2); try (done || lia).
  apply list_elem_of_lookup in Hfp as [i Hi]. apply lookup_lt_Some in Hi as Hlt. rewrite nodes_length in Hlt.
  assert (Hsk : seek fuel s bp (FREEP s) = Some (lastn BASE l1)).
  { apply (seek_spec s l1 l2 bp (brk s)) with (i := i); try done.
    - eapply spaced_mono; [|exact Hs2]. unfold add, HEADER_SIZE. lia.
    - unfold dist. rewrite length_app in *. case_decide; lia. }
  destruct (link_spec s l1 l2 bp n) as (l & R1 & R2 & R3 & R4); try done.
  exists (link (lastn BASE l1) bp s), l. unfold free.
  replace (add bp 1 - HEADER_SIZE) with bp by (unfold add, HEADER_SIZE; lia). rewrite Hsk.
  destruct (Z.eqb_spec (add bp 1) 0); [unfold add, HEADER_SIZE in *; lia|]. done.
Qed.

(** ** malloc *)

Lemma spaced_glue lo l1 mid mid' l2 hi :
  spaced lo l1 mid → mid ≤ mid' → spaced mid' l2 hi → spaced lo (l1 ++ l2) hi.
Proof.
  revert lo. induction l1 as [|[a n] l1 IH]; intros lo; simpl.
  - intros ? ? Hs. eapply spaced_mono; [|exact Hs]. lia.
  - intros (? & ? & ?) ? ?. split_and!; auto.
Qed.
Lemma spaced_covered lo l hi x : spaced lo l hi → covered l x → lo < x < hi.
Proof. intros Hs (a & n & Ha & Hx). apply (spaced_elem _ _ _ _ _ Hs) in Ha. lia. Qed.
Lemma spaced_maximal lo l hi a n : spaced lo l hi → (a, n) ∈ l → ¬ covered l (add a n).
Proof.
  intros Hs (l1 & l2 & ->)%list_elem_of_split. apply spaced_app in Hs as (H1 & H2 & H3).
  rewrite covered_app, covered_cons. intros [H|[H|H]]; [|lia|].
  - apply (spaced_covered _ _ _ _ H1) in H. unfold add, HEADER_SIZE in *. lia.
  - apply (spaced_covered _ _ _ _ H3) in H. lia.
Qed.

Lemma spaced_above lo l hi x : spaced lo l hi → hi < x → x ∉ lo :: l.*1.
Proof.
  intros Hs Hx [->|([a m] & -> & Ha)%list_elem_of_fmap]%elem_of_cons.
  - apply spaced_le in Hs. lia.
  - apply (spaced_elem _ _ _ _ _ Hs) in Ha. unfold add, HEADER_SIZE in *. simpl in *. lia.
Qed.

(** A block [(q, n)] taken out of the free list. *)
Record taken (s : ust) (l : list (Z * Z)) (q n : Z) (s' : ust) (l' : list (Z * Z)) : Prop := {
  tk_heap : heap s' l';
  tk_size : siz s' q = n;
  tk_lo : BASE < q;
  tk_hi : add q n ≤ brk s';
  tk_same : same_but (q :: nodes l) s s';
  tk_cov x : covered l x ↔ covered l' x ∨ q ≤ x < add q n;
  tk_disj x : covered l' x → ¬ q ≤ x < add q n;
}.

Lemma take_exact s l1 p m l2 : heap s (l1 ++ (p, m) :: l2) →
  let prevp := lastn BASE l1 in
  taken s (l1 ++ (p, m) :: l2) p m (set_freep prevp (set_nxt prevp (nxt s p) s)) (l1 ++ l2).
Proof.
  intros [Hc HB Hs Hf Hbk] prevp. pose proof (spaced_nodup _ _ _ Hs) as Hnd.
  pose proof Hc as (Hc1 & Hm & Hc2)%free_chain_app. pose proof Hs as (Hs1 & Hm0 & Hs2)%spaced_app.
  pose proof (lastn_in BASE l1) as Hin. fold prevp in Hin. rewrite fmap_app in Hnd. simpl in Hnd.
  assert (Hp2 : prevp ∉ l2.*1).
  { apply NoDup_cons in Hnd as [HnB Hnd]. apply NoDup_app in Hnd as (_ & Hd & _).
    apply elem_of_cons in Hin as [->|Hin]; set_solver. }
  assert (Hnd1 : NoDup (BASE :: l1.*1)) by (by eapply spaced_nodup).
  set (s1 := set_nxt prevp (nxt s p) s).
  assert (Hr : chain s1 BASE (l1 ++ l2) BASE).
  { pose proof (chain_relink s BASE l1 p (nxt s p) Hnd1 Hc1) as Hr. fold prevp s1 in Hr.
    destruct l2 as [|[c k] l2]; simpl in Hc2; [by rewrite Hc2, app_nil_r in *|].
    destruct Hc2 as (Ec & Hk & Hc2). apply free_chain_app. rewrite <- Ec. split_and!; [done|simpl; congruence|].
    rewrite Ec. apply (chain_same [prevp] s); [apply same_but_nxt; by left|set_solver|done]. }
  assert (Hsp : spaced BASE (l1 ++ l2) (brk s)) by (eapply spaced_glue; [done| |done]; unfold add, HEADER_SIZE; lia).
  split; simpl; try done.
  - split; simpl; [eapply chain_frame; [..|exact Hr]; done|done|done| |done]. unfold nodes. rewrite fmap_app. set_solver.
  - apply (spaced_elem _ _ _ p m Hs). set_solver.
  - apply (spaced_elem _ _ _ p m Hs). set_solver.
  - apply (same_but_mono [prevp]); [|by apply same_but_nxt; left]. unfold nodes. rewrite fmap_app. set_solver.
  - intros x. rewrite !covered_app, covered_cons. tauto.
  - intros x. rewrite covered_app. intros [H|H]; [apply (spaced_covered _ _ _ _ Hs1) in H|apply (spaced_covered _ _ _ _ Hs2) in H]; lia.
Qed.

Lemma take_tail s l1 p m l2 n : heap s (l1 ++ (p, m) :: l2) → 0 < n < m →
  let prevp := lastn BASE l1 in let q := add p (m - n) in
  taken s (l1 ++ (p, m) :: l2) q n (set_freep prevp (set_siz q n (set_siz p (m - n) s))) (l1 ++ (p, m - n) :: l2).
Proof.
  intros [Hc HB Hs Hf Hbk] Hn prevp q. pose proof (spaced_nodup _ _ _ Hs) as Hnd.
  pose proof Hc as (Hc1 & Hm & Hc2)%free_chain_app. pose proof Hs as (Hs1 & Hm0 & Hs2)%spaced_app.
  pose proof (lastn_in BASE l1) as Hin. fold prevp in Hin. rewrite fmap_app in Hnd. simpl in Hnd.
  assert (HpB : BASE < p) by (apply spaced_le in Hs1; lia).
  assert (Hq1 : q ∉ BASE :: l1.*1 ∧ p ∉ BASE :: l1.*1).
  { split; apply (spaced_above _ _ _ _ Hs1); unfold q, add, HEADER_SIZE; lia. }
  assert (Hq2 : q ∉ l2.*1 ∧ p ∉ l2.*1).
  { split; apply (spaced_fresh _ _ _ _ Hs2); unfold q, add, HEADER_SIZE; lia. }
  assert (Hqp : q ≠ p) by (unfold q, add, HEADER_SIZE; lia).
  set (s1 := set_siz q n (set_siz p (m - n) s)).
  assert (Hsb : same_but [q; p] s s1).
  { eapply same_but_trans; [apply (same_but_siz _ p)|apply same_but_siz]; set_solver. }
  assert (Hr : chain s1 BASE (l1 ++ (p, m - n) :: l2) BASE).
  { apply free_chain_app. split_and!.
    - apply (chain_same [q; p] s); [done|set_solver|done].
    - simpl. by rewrite upd_ne, upd_eq.
    - eapply chain_frame; [..|exact Hc2]; [done|]. intros x Hx. apply Hsb. set_solver. }
  split; simpl; try done.
  - split; simpl; [eapply chain_frame; [..|exact Hr]; done| | | |done].
    + by rewrite !upd_ne by set_solver.
    + apply spaced_app. split_and!; [done|lia|]. eapply spaced_mono; [|exact Hs2]. unfold add, HEADER_SIZE. lia.
    + unfold nodes. rewrite fmap_app. set_solver.
  - apply upd_eq.
  - unfold q, add, HEADER_SIZE. lia.
  - apply spaced_le in Hs2. unfold q, add, HEADER_SIZE in *. lia.
  - apply (same_but_mono [q; p]); [|exact Hsb]. unfold nodes. rewrite fmap_app. set_solver.
  - intros x. rewrite !covered_app, !covered_cons. unfold q, add, HEADER_SIZE.
    assert (p ≤ x < p + 16 * m ↔ p ≤ x < p + 16 * (m - n) ∨ p + 16 * (m - n) ≤ x < p + 16 * (m - n) + 16 * n) by lia. tauto.
  - intros x. rewrite covered_app, covered_cons.
    intros [H|[H|H]]; [apply (spaced_covered _ _ _ _ Hs1) in H| |apply (spaced_covered _ _ _ _ Hs2) in H];
      unfold q, add, HEADER_SIZE in *; lia.
Qed.

Definition nexti (n i : nat) : nat := if decide (i < n)%nat then S i else 0.

Lemma dist_next n i j : (i ≤ n)%nat → (j ≤ n)%nat → i ≠ j →
  (dist n i j = S (dist n (nexti n i) j))%nat ∧ (nexti n i ≤ n)%nat.
Proof. unfold dist, nexti. repeat case_decide; lia. Qed.

Lemma heap_next s l i a : heap s l → nodes l !! i = Some a →
  nodes l !! nexti (length l) i = Some (nxt s a).
Proof.
  intros Hh Hi. rewrite (chain_index s BASE l BASE i a (h_chain _ _ Hh) Hi). fold (nodes l).
  apply lookup_lt_Some in Hi. rewrite nodes_length in Hi. unfold nexti. case_decide as Hd.
  - destruct (nodes l !! S i) eqn:E; [done|]. apply lookup_ge_None in E. rewrite nodes_length in E. lia.
  - rewrite (lookup_ge_None_2 (nodes l) (S i)) by (rewrite nodes_length; lia). done.
Qed.

(** The size in the header of a node: zero for [BASE]. *)
Definition sizes (l : list (Z * Z)) : list Z := 0 :: l.*2.
Lemma heap_size s l i a : heap s l → nodes l !! i = Some a → sizes l !! i = Some (siz s a).
Proof.
  intros [Hc HB _ _ _] Hi. destruct i as [|i]; [simpl in *; congruence|]. simpl in Hi |- *.
  rewrite list_lookup_fmap in Hi |- *. apply fmap_Some in Hi as ([b m] & Hb & ->). rewrite Hb. simpl. f_equal.
  apply list_elem_of_split_length in Hb as (l1 & l2 & -> & _). by apply free_chain_app in Hc as (_ & -> & _).
Qed.
Lemma heap_nodup s l : heap s l → NoDup (nodes l).
Proof. intros Hh. apply (spaced_nodup _ _ _ (h_spaced _ _ Hh)). Qed.

Lemma malloc_fit fuel s l i prevp p m n : heap s l → 0 < n ≤ m → nodes l !! i = Some prevp → l !! i = Some (p, m) →
  ∃ q s' l', malloc_loop (S fuel) n prevp p s = Some (add q 1, s') ∧ taken s l q n s' l'.
Proof.
  intros Hh Hn Hi (l1 & l2 & -> & Hlen)%list_elem_of_split_length. subst i.
  unfold nodes in Hi. rewrite (nodes_last BASE l1) in Hi. injection Hi as <-.
  assert (Hsz : siz s p = m) by (by destruct Hh as [(_ & ? & _)%free_chain_app _ _ _ _]).
  cbn [malloc_loop]. rewrite Hsz, (proj2 (Z.leb_le n m)) by lia. destruct (Z.eqb_spec m n) as [->|Hne].
  - exists p. do 2 eexists. split; [reflexivity|]. by apply take_exact.
  - exists (add p (m - n)). do 2 eexists. split; [simpl; by rewrite upd_eq|]. apply take_tail; [done|lia].
Qed.

(** With a block that fits before the search is back at [FREEP]. *)
Lemma malloc_hit n s l f : heap s l → 0 < n → nodes l !! f = Some (FREEP s) → ∀ fuel i prevp j m,
  nodes l !! i = Some prevp → sizes l !! j = Some m → n ≤ m →
  (dist (length l) (nexti (length l) i) j ≤ dist (length l) (nexti (length l) i) f)%nat →
  (dist (length l) (nexti (length l) i) j < fuel)%nat →
  ∃ q s' l', malloc_loop fuel n prevp (nxt s prevp) s = Some (add q 1, s') ∧ taken s l q n s' l'.
Proof.
  intros Hh Hn Hf. induction fuel as [|fuel IH]; intros i prevp j m Hi Hj Hm Hd Hfu; [lia|].
  set (p := nxt s prevp). pose proof (heap_next s l i prevp Hh Hi) as Hp. fold p in Hp.
  set (ip := nexti (length l) i) in *. pose proof (heap_size s l ip p Hh Hp) as Hsz.
  apply lookup_lt_Some in Hp as Hip. apply lookup_lt_Some in Hf as Hfl. rewrite nodes_length in Hip, Hfl.
  apply lookup_lt_Some in Hj as Hjl. unfold sizes in Hjl. simpl in Hjl. rewrite length_fmap in Hjl.
  destruct (decide (n ≤ siz s p)) as [Hfit|Hfit].
  - apply (malloc_fit fuel s l i prevp p (siz s p) n Hh (conj Hn Hfit) Hi). unfold ip, nexti in Hsz, Hp.
    case_decide; [|simpl in Hsz; injection Hsz as Hsz; lia]. simpl in Hsz, Hp. rewrite list_lookup_fmap in Hsz, Hp.
    destruct (l !! i) as [[a k]|]; simpl in *; simplify_eq. done.
  - cbn [malloc_loop]. rewrite (proj2 (Z.leb_gt n (siz s p))) by lia.
    assert (Hij : ip ≠ j) by (intros E; rewrite E in Hsz; simplify_eq; lia).
    assert (Hif : ip ≠ f).
    { intros E. rewrite E in Hd. assert (E0 : dist (length l) f f = 0%nat) by (unfold dist; case_decide; lia).
      rewrite E0 in Hd. apply Hij. unfold dist in Hd. rewrite E. case_decide; lia. }
    destruct (Z.eqb_spec p (FREEP s)) as [E|_].
    { exfalso. apply Hif. rewrite <- E in Hf. by apply (NoDup_lookup _ _ _ _ (heap_nodup s l Hh) Hp Hf). }
    destruct (dist_next (length l) ip j) as [E1 _]; [lia|lia|done|].
    destruct (dist_next (length l) ip f) as [E2 _]; [lia|lia|done|].
    apply (IH ip p j m); try done; lia.
Qed.

(** Without one the search ends at [FREEP] and asks for more memory. *)
Lemma malloc_miss n s l f : heap s l → 0 < n → nodes l !! f = Some (FREEP s) →
  (∀ j m, sizes l !! j = Some m → m < n) → ∀ fuel i prevp,
  nodes l !! i = Some prevp → (dist (length l) (nexti (length l) i) f < fuel)%nat →
  ∃ fuel', (fuel ≤ fuel' + S (length l))%nat ∧ malloc_loop fuel n prevp (nxt s prevp) s =
    match morecore fuel' n s with
    | None => None
    | Some (p, s) => if p =? 0 then Some (0, s) else malloc_loop fuel' n p (nxt s p) s
    end.
Proof.
  intros Hh Hn Hf Hno fuel i prevp Hi Hd.
  assert (Hdl : (dist (length l) (nexti (length l) i) f ≤ length l)%nat).
  { apply lookup_lt_Some in Hf. rewrite nodes_length in Hf. unfold dist, nexti. repeat case_decide; lia. }
  cut (∃ fuel', (fuel = fuel' + S (dist (length l) (nexti (length l) i) f))%nat ∧
    malloc_loop fuel n prevp (nxt s prevp) s =
    match morecore fuel' n s with
    | None => None
    | Some (p, s) => if p =? 0 then Some (0, s) else malloc_loop fuel' n p (nxt s p) s
    end). { intros (fuel' & E & Em). exists fuel'. split; [lia|done]. }
  clear Hdl. revert i prevp Hi Hd. induction fuel as [|fuel IH]; intros i prevp Hi Hd; [lia|].
  set (p := nxt s prevp). pose proof (heap_next s l i prevp Hh Hi) as Hp. fold p in Hp.
  set (ip := nexti (length l) i) in *. pose proof (Hno _ _ (heap_size s l ip p Hh Hp)) as Hsz.
  apply lookup_lt_Some in Hp as Hip. apply lookup_lt_Some in Hf as Hfl. rewrite nodes_length in Hip, Hfl.
  cbn [malloc_loop]. rewrite (proj2 (Z.leb_gt n (siz s p))) by lia.
  destruct (Z.eqb_spec p (FREEP s)) as [E|E].
  - exists fuel. split; [|done]. rewrite <- E in Hf.
    rewrite (NoDup_lookup _ _ _ _ (heap_nodup s l Hh) Hp Hf). unfold dist. case_decide; lia.
  - assert (Hif : ip ≠ f) by (intros E'; rewrite E' in Hp; congruence).
    destruct (dist_next (length l) ip f) as [E2 _]; [lia|lia|done|].
    destruct (IH ip p Hp ltac:(lia)) as (fuel' & Ef & Em). exists fuel'. split; [lia|done].
Qed.

(** ** More memory *)

Lemma spaced_hi lo l hi hi' : spaced lo l hi → hi ≤ hi' → spaced lo l hi'.
Proof.
  revert lo. induction l as [|[a n] l IH]; intros lo; simpl; [lia|]. intros (? & ? & ?) ?. auto.
Qed.

(** A block of the list holds every run of addresses that the list covers. *)
Lemma covered_block lo l hi a n : spaced lo l hi → 0 < n → (∀ x, a ≤ x < add a n → covered l x) →
  ∃ b m, (b, m) ∈ l ∧ n ≤ m.
Proof.
  intros Hs Hn Hc. destruct (Hc a) as (b & m & Hb & Hx); [unfold add, HEADER_SIZE; lia|].
  exists b, m. split; [done|]. destruct (decide (n ≤ m)) as [|Hm]; [done|]. exfalso.
  apply (spaced_maximal _ _ _ b m Hs Hb), Hc. unfold add, HEADER_SIZE in *. lia.
Qed.

Lemma morecore_spec fuel s l nu : heap s l → 0 < nu → nu * HEADER_SIZE < i32_hi → (length l + 1 < fuel)%nat →
  (morecore fuel nu s = Some (0, s) ∧ ∃ n, grants (brk s) n = false) ∨
  ∃ s' l', morecore fuel nu s = Some (FREEP s', s') ∧ FREEP s' ≠ 0 ∧ heap s' l' ∧
    (length l' ≤ S (length l))%nat ∧ (∃ j m, sizes l' !! j = Some m ∧ nu ≤ m) ∧ brk s ≤ brk s' ∧
    (∀ x, x ∉ brk s :: nodes l → siz s' x = siz s x) ∧
    (∀ x, covered l' x ↔ covered l x ∨ brk s ≤ x < brk s').
Proof.
  intros Hh Hnu Hsm Hf. pose proof Hh as [Hc HB Hs Hfp Hbk]. unfold morecore.
  set (units := if nu <? 4096 then 4096 else nu).
  assert (Hu : nu ≤ units ∧ 0 < units ∧ units * HEADER_SIZE < i32_hi).
  { unfold units, HEADER_SIZE, i32_hi in *. destruct (Z.ltb_spec nu 4096); lia. }
  assert (Ei : as_i32 (units * HEADER_SIZE) = units * HEADER_SIZE).
  { unfold as_i32, u32_max, i32_hi, HEADER_SIZE in *. rewrite Z.mod_small by lia.
    destruct (Z.ltb_spec (units * 16) 2147483648); lia. }
  rewrite Ei. unfold sbrk. destruct (grants (brk s) (units * HEADER_SIZE)) eqn:Eg; [right|left].
  2: { split; [done|]. by eexists. }
  destruct (Z.eqb_spec (brk s) (-1)); [lia|].
  set (s1 := set_siz (brk s) units (set_brk (brk s + units * HEADER_SIZE) s)).
  assert (Hbn : brk s ∉ nodes l).
  { intros [E|([a m] & E & Ha)%list_elem_of_fmap]%elem_of_cons; [lia|].
    apply (spaced_elem _ _ _ _ _ Hs) in Ha. unfold add, HEADER_SIZE in *. simpl in *. lia. }
  assert (Hh1 : heap s1 l).
  { split; simpl; [|rewrite upd_ne by set_solver; done|eapply spaced_hi; [done|unfold HEADER_SIZE; lia]|done|unfold HEADER_SIZE; lia].
    eapply chain_frame; [..|exact Hc]; [done|]. intros x Hx. simpl. apply upd_ne. intros ->. apply Hbn. by right. }
  destruct (free_spec fuel s1 l (brk s) units) as (s' & l' & E & Hh' & [Eb Hsb] & Hlen & Hcov); try (done || lia).
  { simpl. apply upd_eq. } { simpl. unfold add. lia. }
  { intros a m Ha. right. apply (spaced_elem _ _ _ _ _ Hs) in Ha. lia. }
  rewrite E. exists s', l'.
  assert (Hcov' : ∀ x, covered l' x ↔ covered l x ∨ brk s ≤ x < brk s').
  { intros x. rewrite Hcov, Eb. simpl. unfold add. by rewrite (Z.mul_comm HEADER_SIZE). }
  split_and!; try done.
  - destruct Hh' as [_ _ Hs' Hfp' _]. apply list_elem_of_lookup in Hfp' as [i Hi].
    pose proof (nodes_ge _ _ _ _ Hs' Hi). lia.
  - destruct (covered_block BASE l' (brk s') (brk s) units) as (b & m & Hbm & Hm); [apply Hh'|lia| |].
    + intros x Hx. apply Hcov. by right.
    + apply list_elem_of_lookup in Hbm as [k Hk]. exists (S k), m. split; [simpl; by rewrite list_lookup_fmap, Hk|lia].
  - rewrite Eb. simpl. unfold HEADER_SIZE. lia.
  - intros x Hx. destruct (Hsb x Hx) as [_ ->]. simpl. apply upd_ne. set_solver.
Qed.

(** ** The whole of malloc *)

Lemma dist_from_next n f j : (f ≤ n)%nat → (j ≤ n)%nat → (dist n (nexti n f) j ≤ dist n (nexti n f) f)%nat ∧
  (dist n (nexti n f) j ≤ n)%nat.
Proof. unfold dist, nexti. repeat case_decide; lia. Qed.

Lemma malloc_search n s l fuel : heap s l → 0 < n → (∃ j m, sizes l !! j = Some m ∧ n ≤ m) →
  (length l < fuel)%nat →
  ∃ q s' l', malloc_loop fuel n (FREEP s) (nxt s (FREEP s)) s = Some (add q 1, s') ∧ taken s l q n s' l'.
Proof.
  intros Hh Hn (j & m & Hj & Hm) Hf. pose proof (h_freep _ _ Hh) as [f Hfp]%list_elem_of_lookup.
  apply lookup_lt_Some in Hfp as Hfl. rewrite nodes_length in Hfl.
  apply lookup_lt_Some in Hj as Hjl. unfold sizes in Hjl. simpl in Hjl. rewrite length_fmap in Hjl.
  destruct (dist_from_next (length l) f j) as [H1 H2]; [lia|lia|].
  eapply (malloc_hit n s l f Hh Hn Hfp fuel f (FREEP s) j m); try done. lia.
Qed.

Lemma malloc_spec fuel n s l : heap s l → 0 < n → n * HEADER_SIZE < i32_hi → (3 * length l + 9 < fuel)%nat →
  (malloc_loop fuel n (FREEP s) (nxt s (FREEP s)) s = Some (0, s) ∧ ∃ n', grants (brk s) n' = false) ∨
  ∃ q s1 l1 s' l', malloc_loop fuel n (FREEP s) (nxt s (FREEP s)) s = Some (add q 1, s') ∧
    heap s1 l1 ∧ taken s1 l1 q n s' l' ∧ brk s ≤ brk s1 ∧
    (∀ x, x ∉ brk s :: nodes l → siz s1 x = siz s x) ∧
    (∀ x, covered l1 x ↔ covered l x ∨ brk s ≤ x < brk s1).
Proof.
  intros Hh Hn Hsm Hf.
  destruct (decide (Exists (λ m, n ≤ m) (sizes l))) as [(m & Hin & Hm)%Exists_exists|Hno].
  - apply list_elem_of_lookup in Hin as [j Hj].
    destruct (malloc_search n s l fuel Hh Hn) as (q & s' & l' & E & Ht); [by eauto|lia|].
    right. exists q, s, l, s', l'. split_and!; try done. intros x. split; [auto|]. intros [?|?]; [done|lia].
  - pose proof (h_freep _ _ Hh) as [f Hfp]%list_elem_of_lookup. apply lookup_lt_Some in Hfp as Hfl.
    rewrite nodes_length in Hfl. destruct (dist_from_next (length l) f f) as [_ Hd]; [lia|lia|].
    assert (Hno' : ∀ j m, sizes l !! j = Some m → m < n).
    { intros j m Hj. apply Z.nle_gt. intros Hle. apply Hno, Exists_exists. eauto using list_elem_of_lookup_2. }
    destruct (malloc_miss n s l f Hh Hn Hfp Hno' fuel f (FREEP s) Hfp ltac:(lia)) as (fuel' & Hf' & ->).
    destruct (morecore_spec fuel' s l n Hh Hn Hsm ltac:(lia))
      as [[-> Hg]|(s1 & l1 & -> & Hnz & Hh1 & Hlen & Hfit & Hbk & Hsz & Hcov)]; [by left|right].
    destruct (Z.eqb_spec (FREEP s1) 0); [done|].
    destruct (malloc_search n s1 l1 fuel' Hh1 Hn Hfit) as (q & s' & l' & E & Ht); [lia|].
    by exists q, s1, l1, s', l'.
Qed.

(** ** More fuel gives the same result *)

Lemma seek_mono fuel fuel' s bp p r : seek fuel s bp p = Some r → (fuel ≤ fuel')%nat → seek fuel' s bp p = Some r.
Proof.
  revert fuel' p. induction fuel as [|fuel IH]; intros [|fuel'] p; try (done || lia). cbn [seek].
  repeat case_match; try done. intros. apply IH; [done|lia].
Qed.
Lemma free_mono fuel fuel' ptr s s' : free fuel ptr s = Some s' → (fuel ≤ fuel')%nat → free fuel' ptr s = Some s'.
Proof.
  unfold free. destruct (_ =? _); [done|]. destruct (seek fuel _ _ _) eqn:E; [|done].
  intros H Hle. by rewrite (seek_mono _ _ _ _ _ _ E Hle).
Qed.
Lemma morecore_mono fuel fuel' nu s r : morecore fuel nu s = Some r → (fuel ≤ fuel')%nat → morecore fuel' nu s = Some r.
Proof.
  unfold morecore. destruct (sbrk _ _) as [p s1]. destruct (p =? -1); [done|].
  destruct (free fuel _ _) eqn:E; [|done]. intros H Hle. by rewrite (free_mono _ _ _ _ _ E Hle).
Qed.
Lemma malloc_loop_mono fuel fuel' n prevp p s r :
  malloc_loop fuel n prevp p s = Some r → (fuel ≤ fuel')%nat → malloc_loop fuel' n prevp p s = Some r.
Proof.
  revert fuel' prevp p s. induction fuel as [|fuel IH]; intros [|fuel'] prevp p s; try (done || lia). cbn [malloc_loop].
  destruct (n <=? siz s p); [done|]. destruct (p =? FREEP s); [|intros; apply IH; [done|lia]].
  destruct (morecore fuel n s) as [[p' s']|] eqn:E; [|done]. intros H Hle.
  rewrite (morecore_mono _ fuel' _ _ _ E) by lia. destruct (p' =? 0); [done|]. apply IH; [done|lia].
Qed.

(** ** Runs of a program *)

Fixpoint disjoint_blocks (A : list (Z * Z)) : Prop :=
  match A with
  | [] => True
  | (a, n) :: A' => (∀ x, a ≤ x < add a n → ¬ covered A' x) ∧ disjoint_blocks A'
  end.

Lemma disjoint_blocks_remove A1 a n A2 : disjoint_blocks (A1 ++ (a, n) :: A2) →
  disjoint_blocks (A1 ++ A2) ∧ ∀ x, a ≤ x < add a n → ¬ covered (A1 ++ A2) x.
Proof.
  induction A1 as [|[b m] A1 IH]; simpl; [tauto|]. intros [Hb (H1 & H2)%IH]. split_and!; [|done|].
  - intros x Hx. specialize (Hb x Hx). rewrite covered_app, covered_cons in Hb. rewrite covered_app. tauto.
  - intros x Hx [?|?]%covered_cons; [|by eapply H2]. apply (Hb x); [done|].
    rewrite covered_app, covered_cons. auto.
Qed.

(** The allocated blocks, by header address and units. *)
Definition owned (s : ust) (A : list (Z * Z)) : Prop :=
  ∀ a n, (a, n) ∈ A → siz s a = n ∧ BASE < a ∧ 0 < n ∧ add a n ≤ brk s.

Definition mstate_ok (s : ust) (A : list (Z * Z)) : Prop :=
  (FREEP s = 0 ∧ A = [] ∧ BASE < brk s) ∨
  ∃ l, heap s l ∧ owned s A ∧ disjoint_blocks A ∧ ∀ x, covered A x → ¬ covered l x.

Definition small (nbytes : Z) : Prop := 0 ≤ nbytes ≤ i32_hi - 32.

Inductive mstep : ust * list (Z * Z) → ust * list (Z * Z) → Prop :=
| ms_malloc fuel nbytes s A r s' : small nbytes → malloc fuel nbytes s = Some (r, s') → r ≠ 0 →
    mstep (s, A) (s', (r - HEADER_SIZE, nunits_of nbytes) :: A)
| ms_null fuel nbytes s A s' : small nbytes → malloc fuel nbytes s = Some (0, s') → mstep (s, A) (s', A)
| ms_free fuel s A1 a n A2 s' : free fuel (add a 1) s = Some s' →
    mstep (s, A1 ++ (a, n) :: A2) (s', A1 ++ A2)
| ms_free_null fuel s A s' : free fuel 0 s = Some s' → mstep (s, A) (s', A).

(** The list that the first call sets up. *)
Definition ready (s : ust) : ust :=
  if FREEP s =? 0 then set_freep BASE (set_siz BASE 0 (set_nxt BASE BASE s)) else s.

Lemma ready_ok s A : mstate_ok s A → brk (ready s) = brk s ∧
  ∃ l, heap (ready s) l ∧ owned (ready s) A ∧ disjoint_blocks A ∧ ∀ x, covered A x → ¬ covered l x.
Proof.
  unfold ready. intros [(HF & -> & Hb)|(l & Hh & H)].
  - rewrite HF. simpl. split; [done|]. exists []. split_and!; [|by intros ? ? ?%elem_of_nil|done|].
    + split; simpl; rewrite ?upd_eq; try done; [lia|by left].
    + intros x Hx. by apply covered_nil in Hx.
  - pose proof (h_freep _ _ Hh) as [i Hi]%list_elem_of_lookup.
    pose proof (nodes_ge _ _ _ _ (h_spaced _ _ Hh) Hi). destruct (Z.eqb_spec (FREEP s) 0); [lia|].
    split; [done|]. by exists l.
Qed.

Lemma nunits_small nbytes : small nbytes →
  0 < nunits_of nbytes ∧ nunits_of nbytes * HEADER_SIZE < i32_hi ∧ nbytes ≤ HEADER_SIZE * (nunits_of nbytes - 1).
Proof.
  unfold small, nunits_of, as_u64, u64_max, HEADER_SIZE, i32_hi. intros Hs. rewrite Z.mod_small by lia.
  Z.to_euclidean_division_equations. lia.
Qed.

(** A node other than [BASE] is covered. *)
Lemma node_covered s l x : heap s l → x ∈ nodes l → x = BASE ∨ covered l x.
Proof.
  intros Hh [->|([a n] & -> & Ha)%list_elem_of_fmap]%elem_of_cons; [by left|right].
  exists a, n. split; [done|]. apply (spaced_elem _ _ _ _ _ (h_spaced _ _ Hh)) in Ha.
  unfold add, HEADER_SIZE. simpl. lia.
Qed.
Lemma owned_covered s A a n : owned s A → (a, n) ∈ A → covered A a.
Proof. intros Ho Ha. exists a, n. destruct (Ho a n Ha) as (_ & _ & ? & _). unfold add, HEADER_SIZE. split; [done|lia]. Qed.

Lemma taken_ok s A l s1 l1 q n s' l' : heap s l → owned s A → disjoint_blocks A →
  (∀ x, covered A x → ¬ covered l x) → taken s1 l1 q n s' l' → brk s ≤ brk s1 → 0 < n →
  (∀ x, x ∉ brk s :: nodes l → siz s1 x = siz s x) →
  (∀ x, covered l1 x ↔ covered l x ∨ brk s ≤ x < brk s1) → heap s1 l1 →
  mstate_ok s' ((q, n) :: A).
Proof.
  intros Hh Ho Hd Hdis [T1 T2 T3 T4 [Tb Ts] T6 T7] Hbk Hn Hsz Hcov Hh1.
  assert (HA : ∀ x, covered A x → ¬ covered l1 x ∧ BASE < x < brk s).
  { intros x Hx. assert (Hx' : BASE < x < brk s).
    { destruct Hx as (a & k & Ha & Hx). destruct (Ho a k Ha) as (_ & ? & _ & ?). lia. }
    split; [|done]. rewrite Hcov. intros [?|?]; [by apply (Hdis x)|lia]. }
  right. exists l'. split_and!; [done| | |].
  - intros a k [[= -> ->]|Ha]%elem_of_cons; [done|]. destruct (Ho a k Ha) as (H1 & H2 & H3 & H4).
    destruct (HA a (owned_covered s A a k Ho Ha)) as [Hnc Hr].
    assert (Hx1 : a ∉ q :: nodes l1).
    { intros [->|Hin]%elem_of_cons.
      - apply Hnc, T6. right. unfold add, HEADER_SIZE. lia.
      - apply (node_covered s1 l1 a Hh1) in Hin as [->|Hin]; [lia|done]. }
    assert (Hx2 : a ∉ brk s :: nodes l).
    { intros [->|Hin]%elem_of_cons; [lia|]. apply (node_covered s l a Hh) in Hin as [->|Hin]; [lia|].
      apply (Hdis a); [by eapply owned_covered|done]. }
    rewrite (proj2 (Ts a Hx1)), (Hsz a Hx2), Tb. split_and!; (done || lia).
  - split; [|done]. intros x Hx Hc. apply (proj1 (HA x Hc)), T6. by right.
  - intros x [Hx|Hx]%covered_cons Hc; [by apply (T7 x)|]. apply (proj1 (HA x Hx)), T6. by left.
Qed.

(** [malloc] with enough fuel. *)
Lemma malloc_ok s A nbytes : mstate_ok s A → small nbytes → ∃ fuel0, ∀ fuel, (fuel0 ≤ fuel)%nat →
  ∃ r s', malloc fuel nbytes s = Some (r, s') ∧
    ((r = 0 ∧ mstate_ok s' A ∧ ∃ n, grants (brk s) n = false) ∨
     (r ≠ 0 ∧ mstate_ok s' ((r - HEADER_SIZE, nunits_of nbytes) :: A))).
Proof.
  intros Hok (Hn & Hsm & _)%nunits_small. destruct (ready_ok s A Hok) as (Eb & l & Hh & Ho & Hd & Hdis).
  exists (3 * length l + 10)%nat. intros fuel Hf. unfold malloc. fold (ready s).
  destruct (malloc_spec fuel (nunits_of nbytes) (ready s) l Hh Hn Hsm ltac:(lia))
    as [[E [n' Hg]]|(q & s1 & l1 & s' & l' & E & Hh1 & Ht & Hbk & Hsz & Hcov)]; rewrite E.
  - exists 0, (ready s). split; [done|]. left. split_and!; [done|right; by exists l|]. exists n'. by rewrite <- Eb.
  - exists (add q 1), s'. split; [done|]. right. split.
    + pose proof (tk_lo _ _ _ _ _ _ Ht). unfold add, HEADER_SIZE. lia.
    + replace (add q 1 - HEADER_SIZE) with q by (unfold add, HEADER_SIZE; lia).
      by apply (taken_ok (ready s) A l s1 l1 q _ s' l').
Qed.

Lemma free_ok s A1 a n A2 : mstate_ok s (A1 ++ (a, n) :: A2) → ∃ fuel0, ∀ fuel, (fuel0 ≤ fuel)%nat →
  ∃ s', free fuel (add a 1) s = Some s' ∧ mstate_ok s' (A1 ++ A2).
Proof.
  intros [(_ & E & _)|(l & Hh & Ho & Hd & Hdis)]; [by destruct A1|].
  destruct (Ho a n) as (Hsz & Hb & Hn & Hhi); [set_solver|].
  apply disjoint_blocks_remove in Hd as [Hd Hda].
  assert (Hcov : ∀ x, covered (A1 ++ (a, n) :: A2) x ↔ a ≤ x < add a n ∨ covered (A1 ++ A2) x).
  { intros x. rewrite !covered_app, covered_cons. tauto. }
  exists (length l + 2)%nat. intros fuel Hf.
  destruct (free_spec fuel s l a n) as (s' & l' & E & Hh' & [Eb Hsb] & _ & Hc); try (done || lia).
  { intros b m Hbm. destruct (decide (add a n ≤ b)) as [|H1]; [by left|].
    destruct (decide (add b m ≤ a)) as [|H2]; [by right|]. exfalso.
    pose proof (spaced_elem _ _ _ _ _ (h_spaced _ _ Hh) Hbm) as (_ & Hm & _).
    apply (Hdis (Z.max a b)); [apply Hcov; left; unfold add, HEADER_SIZE in *; lia|].
    exists b, m. split; [done|]. unfold add, HEADER_SIZE in *. lia. }
  exists s'. split; [done|]. right. exists l'. split_and!; [done| |done|].
  - intros b m Hbm. destruct (Ho b m) as (H1 & H2 & H3 & H4); [set_solver|]. rewrite Eb.
    assert (Hcb : covered (A1 ++ A2) b) by (exists b, m; split; [done|unfold add, HEADER_SIZE; lia]).
    assert (Hx : b ∉ a :: nodes l).
    { intros [->|Hin]%elem_of_cons.
      - apply (Hda a); [unfold add, HEADER_SIZE; lia|done].
      - apply (node_covered s l b Hh) in Hin as [->|Hin]; [lia|]. apply (Hdis b); [apply Hcov; by right|done]. }
    destruct (Hsb b Hx) as [_ ->]. done.
  - intros x Hx. rewrite Hc. intros [?|?]; [apply (Hdis x); [apply Hcov; by right|done]|by apply (Hda x)].
Qed.

Lemma mstep_ok s A s' A' : mstep (s, A) (s', A') → mstate_ok s A → mstate_ok s' A'.
Proof.
  intros Hst Hok. remember (s, A) as c eqn:E1. remember (s', A') as c' eqn:E2.
  destruct Hst as [fuel nb s1 A1 r s2 Hs E Hr|fuel nb s1 A1 s2 Hs E|fuel s1 A1 a n A2 s2 E|fuel s1 A1 s2 E]; simplify_eq.
  - destruct (malloc_ok s A nb Hok Hs) as (f0 & Hm). destruct (Hm (fuel `max` f0)%nat) as (r' & s'' & E' & H); [lia|].
    unfold malloc in *. rewrite (malloc_loop_mono _ _ _ _ _ _ _ E) in E' by lia. simplify_eq.
    destruct H as [[? _]|[_ ?]]; done.
  - destruct (malloc_ok s A nb Hok Hs) as (f0 & Hm). destruct (Hm (fuel `max` f0)%nat) as (r' & s'' & E' & H); [lia|].
    unfold malloc in *. rewrite (malloc_loop_mono _ _ _ _ _ _ _ E) in E' by lia. simplify_eq.
    destruct H as [(_ & ? & _)|[? _]]; done.
  - destruct (free_ok s A1 a n A2 Hok) as (f0 & Hm). destruct (Hm (fuel `max` f0)%nat) as (s'' & E' & H); [lia|].
    rewrite (free_mono _ _ _ _ _ E) in E' by lia. by simplify_eq.
  - by injection E as <-.
Qed.

Lemma mrun_ok c c' : rtc mstep c c' → mstate_ok c.1 c.2 → mstate_ok c'.1 c'.2.
Proof.
  induction 1 as [|[s1 A1] [s2 A2] c' Hst _ IH]; [done|]. intros Hok. apply IH. exact (mstep_ok _ _ _ _ Hst Hok).
Qed.


End umalloc.

(** ** Witness *)

Definition u0 : ust := mkU (λ _, 0) (λ _, 0) 0 0x10000.
Definition always (_ _ : Z) : bool := true.


End Umalloc.
