(* ===== verification/Grep.v ===== *)
(** * grep

    user/src/grep.rs: the matcher of Kernighan and Pike for patterns with
    [^ . * $], and the loop that reads a file into a buffer and prints the
    lines that match.

    A pointer into a zero-terminated string is the list of bytes from there
    on; reading at the end of the list gives the terminating zero. *)

From S2P Require Import Prelude.

Module Grep.

(** ** The matcher *)

Definition byte_at (s : list Z) : Z := nth 0 s 0.

(** [matchstar], for the function that matches the rest of the pattern. *)
Fixpoint matchstar (mh : list Z → bool) (c : Z) (text : list Z) : bool :=
  if mh text then true
  else
    match text with
    | [] => false
    | x :: t' =>
        if (x =? 0) || (negb (x =? c) && negb (c =? 46)) then false
        else matchstar mh c t'
    end.

Fixpoint matchhere (re text : list Z) {struct re} : bool :=
  match re with
  | [] => true
  | c :: re1 =>
      if c =? 0 then true
      else
        let single :=
          if (c =? 36) && (byte_at re1 =? 0) then byte_at text =? 0
          else if negb (byte_at text =? 0) && ((c =? 46) || (c =? byte_at text))
          then matchhere re1 (tail text)
          else false in
        match re1 with
        | d :: re2 => if d =? 42 then matchstar (matchhere re2) c text else single
        | [] => single
        end
  end.

Fixpoint match_from (re text : list Z) : bool :=
  if matchhere re text then true
  else
    match text with
    | [] => false
    | x :: t' => if x =? 0 then false else match_from re t'
    end.
Definition match_pattern (re text : list Z) : bool :=
  if byte_at re =? 94 then matchhere (tail re) text else match_from re text.

(** ** The loop over the input *)

(** The unread input, in the pieces the reads return: [read_raw] gives at most
    [n] bytes of the first one, and none at the end. *)
Definition read_raw (input : list (list Z)) (n : nat) : list Z * list (list Z) :=
  match input with
  | [] => ([], [])
  | c :: rest =>
      match drop n c with
      | [] => (take n c, rest)
      | c' => (take n c, c' :: rest)
      end
  end.

(** Index of the first newline from [q] on, or the length. *)
Fixpoint find_nl (buf : list Z) (q : nat) : nat :=
  match buf with
  | [] => q
  | x :: buf' => if x =? 10 then q else find_nl buf' (S q)
  end.

(** The loop over the lines of the buffer [buf], its first [m] bytes: the bytes
    written and the index of what is left. *)
Fixpoint lines_loop (fuel : nat) (pattern buf : list Z) (p : nat) : list Z * nat :=
  match fuel with
  | O => ([], p)
  | S fuel' =>
      if decide (p < length buf)%nat then
        let q := find_nl (drop p buf) p in
        if decide (length buf ≤ q)%nat then ([], p)
        else
          let line := take (q - p) (drop p buf) in
          let out := if match_pattern pattern line then line ++ [10] else [] in
          let (out', p') := lines_loop fuel' pattern buf (S q) in
          (out ++ out', p')
      else ([], p)
  end.

Definition BUFLEN : nat := 1024.

(** [buf] is what is left from the iterations before. *)
Fixpoint grep_loop (fuel : nat) (pattern : list Z) (input : list (list Z)) (buf : list Z) : option (list Z) :=
  match fuel with
  | O => None
  | S fuel' =>
      match read_raw input (BUFLEN - length buf - 1) with
      | ([], _) => Some []
      | (got, input') =>
          let buf := buf ++ got in
          let (out, p) := lines_loop (S (length buf)) pattern buf 0 in
          let rest := if decide (p = 0)%nat then [] else drop p buf in
          match grep_loop fuel' pattern input' rest with
          | Some out' => Some (out ++ out')
          | None => None
          end
      end
  end.

(** The number of bytes of the input bounds the iterations. *)
Definition grep (pattern : list Z) (input : list (list Z)) : option (list Z) :=
  grep_loop (S (length (concat input))) pattern input [].

Definition usage : list Z := map Z.of_nat
  [117; 115; 97; 103; 101; 58; 32; 103; 114; 101; 112; 32; 112; 97; 116; 116; 101; 114; 110; 32;
   91; 102; 105; 108; 101; 32; 46; 46; 46; 93; 10]%nat.
Definition cannot_open : list Z := map Z.of_nat
  [103; 114; 101; 112; 58; 32; 99; 97; 110; 110; 111; 116; 32; 111; 112; 101; 110; 32; 102; 105; 108; 101; 10]%nat.

(** [main]: what it writes to which descriptor. [open] gives the input of a
    file that can be opened. *)
Fixpoint grep_files (open : list Z → option (list (list Z))) (pattern : list Z) (files : list (list Z)) :
    option (list (Z * list Z)) :=
  match files with
  | [] => Some []
  | f :: files' =>
      match open f with
      | None => Some [(1, cannot_open)]
      | Some input =>
          match grep pattern input, grep_files open pattern files' with
          | Some out, Some outs => Some ((1, out) :: outs)
          | _, _ => None
          end
      end
  end.
Definition main (open : list Z → option (list (list Z))) (stdin : list (list Z)) (argv : list (list Z)) :
    option (list (Z * list Z)) :=
  match argv with
  | _ :: pattern :: [] => (λ out, [(1, out)]) <$> grep pattern stdin
  | _ :: pattern :: files => grep_files open pattern files
  | _ => Some [(2, usage)]
  end.

(** ** Regular expressions

    What the patterns mean: a sequence of single characters and stars of
    them, where [46] ('.') stands for any character. *)
Inductive item : Type := One (c : Z) | Star (c : Z).

Fixpoint parse (re : list Z) : list item * bool :=
  match re with
  | [] => ([], false)
  | c :: re1 =>
      match re1 with
      | [] => if c =? 36 then ([], true) else ([One c], false)
      | d :: re2 =>
          if d =? 42 then let (l, e) := parse re2 in (Star c :: l, e)
          else let (l, e) := parse re1 in (One c :: l, e)
      end
  end.

Definition atom (c x : Z) : Prop := c = 46 ∨ c = x.

Inductive lang : list item → list Z → Prop :=
| l_nil : lang [] []
| l_one c x r t : atom c x → lang r t → lang (One c :: r) (x :: t)
| l_stop c r t : lang r t → lang (Star c :: r) t
| l_more c x r t : atom c x → lang (Star c :: r) t → lang (Star c :: r) (x :: t).

(** [t] has a prefix in the language, all of [t] if the pattern ends in [$]. *)
Definition prefix_in (pr : list item * bool) (t : list Z) : Prop :=
  ∃ t1 t2, t = t1 ++ t2 ∧ lang pr.1 t1 ∧ (pr.2 = true → t2 = []).

Definition string_ok (s : list Z) : Prop := Forall (λ x, x ≠ 0) s.

(** ** The matcher is right *)

Lemma matchstar_spec mh c text : string_ok text →
  matchstar mh c text = true ↔ ∃ t1 t2, text = t1 ++ t2 ∧ Forall (atom c) t1 ∧ mh t2 = true.
Proof.
  induction text as [|x t IH]; intros Hok.
  - simpl. destruct (mh []) eqn:E.
    + split; [intros _; by exists [], []|done].
    + split; [done|]. intros (t1 & t2 & Ht & _ & Hm). symmetry in Ht. apply app_nil in Ht as [-> ->]. congruence.
  - apply Forall_cons in Hok as [Hx Hok]. specialize (IH Hok). cbn [matchstar].
    destruct (mh (x :: t)) eqn:E; [split; [intros _; by exists [], (x :: t)|done]|].
    assert (Hc : (x =? 0) || negb (x =? c) && negb (c =? 46) = negb (bool_decide (atom c x))).
    { unfold atom. destruct (Z.eqb_spec x 0), (Z.eqb_spec x c), (Z.eqb_spec c 46); try done; simpl; symmetry.
      1-3: apply negb_false_iff, bool_decide_eq_true; subst; auto.
      apply negb_true_iff, bool_decide_eq_false. intros [?|?]; congruence. }
    rewrite Hc. case_bool_decide as Ha; simpl.
    + rewrite IH. split; [intros (t1 & t2 & -> & H1 & H2); exists (x :: t1), t2; by auto|].
      intros ([|y t1] & t2 & Ht & H1 & H2); simplify_eq/=; [congruence|].
      apply Forall_cons in H1 as [_ H1]. eauto.
    + split; [done|]. intros ([|y t1] & t2 & Ht & H1 & H2); simplify_eq/=; [congruence|].
      by apply Forall_cons in H1 as [? _].
Qed.

Lemma lang_star c r t : lang (Star c :: r) t ↔ ∃ t1 t2, t = t1 ++ t2 ∧ Forall (atom c) t1 ∧ lang r t2.
Proof.
  split.
  - intros H. remember (Star c :: r) as l eqn:El. induction H; simplify_eq.
    + by exists [], t.
    + destruct IHlang as (t1 & t2 & -> & H1 & H2); [done|]. exists (x :: t1), t2. auto.
  - intros (t1 & t2 & -> & H1 & H2). induction H1 as [|x t1 Hx _ IH]; [by apply l_stop|by apply l_more].
Qed.

Lemma prefix_in_nil t : prefix_in ([], false) t.
Proof. exists [], t. by split_and!; [|constructor|]. Qed.

Lemma prefix_in_star c l e t :
  prefix_in (Star c :: l, e) t ↔ ∃ t1 t2, t = t1 ++ t2 ∧ Forall (atom c) t1 ∧ prefix_in (l, e) t2.
Proof.
  split.
  - intros (u & v & -> & (t1 & t2 & -> & H1 & H2)%lang_star & He). exists t1, (t2 ++ v).
    rewrite <- app_assoc. split_and!; [done|done|]. by exists t2, v.
  - intros (t1 & t2 & -> & H1 & (u & v & -> & Hu & He)). exists (t1 ++ u), v.
    rewrite app_assoc. split_and!; [done| |done]. apply lang_star. eauto.
Qed.

Lemma prefix_in_one c l e t :
  prefix_in (One c :: l, e) t ↔ ∃ x t', t = x :: t' ∧ atom c x ∧ prefix_in (l, e) t'.
Proof.
  split.
  - intros (u & v & -> & Hu & He). simpl in Hu. inversion Hu as [|? x ? t' Hx Ht'| |]; subst.
    exists x, (t' ++ v). split_and!; [done|done|]. by exists t', v.
  - intros (x & t' & -> & Hx & (u & v & -> & Hu & He)). exists (x :: u), v.
    split_and!; [done| |done]. by apply l_one.
Qed.

(** A single character before the rest of the pattern. *)
Lemma single_spec c re text (P : list Z → Prop) : string_ok text →
  (∀ t, string_ok t → matchhere re t = true ↔ P t) →
  (if negb (byte_at text =? 0) && ((c =? 46) || (c =? byte_at text)) then matchhere re (tail text) else false)
    = true ↔ ∃ x t', text = x :: t' ∧ atom c x ∧ P t'.
Proof.
  intros Hok IH. destruct text as [|x t]; [split; [done|by intros (? & ? & ? & _)]|].
  apply Forall_cons in Hok as [Hx Hok]. unfold byte_at. cbn [nth tail]. destruct (Z.eqb_spec x 0); [done|].
  cbn [negb andb]. destruct ((c =? 46) || (c =? x)) eqn:E.
  - rewrite (IH t Hok). apply orb_true_iff in E as [E%Z.eqb_eq|E%Z.eqb_eq].
    all: split; [intros HP; exists x, t; unfold atom; auto|intros (y & t' & Ht & _ & HP); congruence].
  - apply orb_false_iff in E as [E1%Z.eqb_neq E2%Z.eqb_neq].
    split; [done|]. intros (y & t' & Ht & [?|?] & _); congruence.
Qed.

Lemma matchhere_spec re text : string_ok re → string_ok text →
  matchhere re text = true ↔ prefix_in (parse re) text.
Proof.
  remember (length re) as n eqn:Hn. assert (Hle : (length re ≤ n)%nat) by lia. clear Hn.
  revert re text Hle. induction n as [|n IH]; intros [|c re1] text Hle Hre Ht; simpl in Hle; try lia.
  1-2: by split; [intros _; apply prefix_in_nil|].
  apply Forall_cons in Hre as [Hc Hre]. cbn [matchhere parse]. destruct (Z.eqb_spec c 0); [done|].
  destruct re1 as [|d re2].
  - simpl (byte_at []). rewrite andb_true_r. destruct (Z.eqb_spec c 36).
    + destruct text as [|x t]; unfold byte_at; simpl.
      * split; [intros _; exists [], []; split_and!; [done|constructor|done]|done].
      * apply Forall_cons in Ht as [Hx _]. destruct (Z.eqb_spec x 0); [done|]. split; [done|].
        intros (u & v & E & Hu & He). rewrite (He eq_refl), app_nil_r in E. subst u. inversion Hu.
    + rewrite prefix_in_one. apply (single_spec c [] text); [done|]. intros t _. by split; [intros _; apply prefix_in_nil|].
  - pose proof Hre as [Hd Hre2]%Forall_cons. destruct (Z.eqb_spec d 42).
    + rewrite matchstar_spec by done. destruct (parse re2) as [l b] eqn:Ep. rewrite prefix_in_star.
      split; intros (t1 & t2 & -> & H1 & H2); exists t1, t2; (split_and!; [done|done|]);
        apply Forall_app in Ht as [_ Ht2]; rewrite <- Ep in *; (apply IH; [simpl in Hle; lia|done|done|done]).
    + unfold byte_at at 1. simpl (nth 0 _ 0). destruct (Z.eqb_spec d 0); [done|]. rewrite andb_false_r.
      destruct (parse (d :: re2)) as [l b] eqn:Ep. rewrite prefix_in_one, <- Ep.
      apply (single_spec c (d :: re2) text); [done|]. intros t Htt. by apply IH; [lia| |].
Qed.

Lemma match_from_spec re text : string_ok re → string_ok text →
  match_from re text = true ↔ ∃ u v, text = u ++ v ∧ prefix_in (parse re) v.
Proof.
  intros Hre. induction text as [|x t IH]; intros Ht; cbn [match_from].
  - destruct (matchhere re []) eqn:E.
    + split; [intros _; exists [], []; by rewrite <- matchhere_spec|done].
    + split; [done|]. intros (u & v & Hu & Hv). symmetry in Hu. apply app_nil in Hu as [-> ->].
      rewrite <- matchhere_spec in Hv by done. congruence.
  - destruct (matchhere re (x :: t)) eqn:E.
    + split; [intros _; exists [], (x :: t); by rewrite <- matchhere_spec|done].
    + pose proof Ht as [Hx Ht']%Forall_cons. destruct (Z.eqb_spec x 0); [done|]. rewrite (IH Ht'). split.
      * intros (u & v & -> & Hv). by exists (x :: u), v.
      * intros ([|y u] & v & Hu & Hv); simplify_eq/=; [|eauto].
        rewrite <- matchhere_spec in Hv by done. congruence.
Qed.

(** C18: The matcher decides the language of the pattern: a line matches exactly
    if some part of it is in the language of the pattern's characters and
    stars, a part at the start if the pattern begins with [^], and one that
    extends to the end if it ends in [$]. *)
Theorem match_pattern_correct (re text : list Z) (Hre : string_ok re) (Ht : string_ok text) :
  match_pattern re text = true ↔
  let anchored := match re with 94 :: _ => true | _ => false end in
  let (items, at_end) := parse (if anchored then tail re else re) in
  ∃ u w v, text = u ++ w ++ v ∧ lang items w ∧ (anchored = true → u = []) ∧ (at_end = true → v = []).
Proof.
  set (anchored := match re with 94 :: _ => true | _ => false end). cbv zeta.
  assert (Hb : (byte_at re =? 94) = anchored).
  { subst anchored. destruct re as [|c re']; [done|]. unfold byte_at. simpl nth.
    destruct (Z.eqb_spec c 94) as [->|Hne]; [done|]. symmetry. repeat case_match; congruence. }
  unfold match_pattern. rewrite Hb. destruct anchored.
  - assert (Htl : string_ok (tail re)) by (destruct Hre; done). rewrite matchhere_spec by done.
    destruct (parse (tail re)) as [items e]. split.
    + intros (w & v & -> & Hw & He). exists [], w, v. by split_and!.
    + intros (u & w & v & -> & Hw & Hu & He). rewrite (Hu eq_refl). exists w, v. by split_and!.
  - rewrite match_from_spec by done. destruct (parse re) as [items e]. split.
    + intros (u & ? & -> & (w & v & -> & Hw & He)). exists u, w, v. by split_and!.
    + intros (u & w & v & -> & Hw & _ & He). exists u, (w ++ v). split; [done|]. by exists w, v.
Qed.

(** ** The loop prints the matching lines *)

Definition unlines (L : list (list Z)) : list Z := concat (map (λ l, l ++ [10]) L).
Definition line_ok (l : list Z) : Prop := 10 ∉ l.

Lemma find_nl_line l rest q : line_ok l → find_nl (l ++ 10 :: rest) q = (q + length l)%nat.
Proof.
  unfold line_ok. revert q. induction l as [|x l IH]; intros q Hl; simpl; [lia|].
  rewrite not_elem_of_cons in Hl. destruct Hl as [Hx Hl]. destruct (Z.eqb_spec x 10); [by subst|].
  rewrite IH by done. lia.
Qed.
Lemma find_nl_none l q : line_ok l → find_nl l q = (q + length l)%nat.
Proof.
  unfold line_ok. revert q. induction l as [|x l IH]; intros q Hl; simpl; [lia|].
  rewrite not_elem_of_cons in Hl. destruct Hl as [Hx Hl]. destruct (Z.eqb_spec x 10); [by subst|].
  rewrite IH by done. lia.
Qed.

(** The lines that match, as they are printed. *)
Definition matching (pattern : list Z) (L : list (list Z)) : list Z :=
  unlines (filter (λ l, match_pattern pattern l = true) L).

Lemma matching_cons pattern l L :
  matching pattern (l :: L) = (if match_pattern pattern l then l ++ [10] else []) ++ matching pattern L.
Proof.
  unfold matching, unlines. rewrite filter_cons. destruct (match_pattern pattern l) eqn:E.
  - rewrite decide_True by done. done.
  - by rewrite decide_False by done.
Qed.

(** The buffer holds the lines [L] from [p] on, and then a partial line [r]. *)
Lemma lines_loop_spec pattern r : line_ok r → ∀ L fuel pre,
  Forall line_ok L → (length L < fuel)%nat →
  lines_loop fuel pattern (pre ++ unlines L ++ r) (length pre) =
    (matching pattern L, (length pre + length (unlines L))%nat).
Proof.
  intros Hr. induction L as [|l L IH]; intros fuel pre HL Hf; (destruct fuel as [|fuel]; [simpl in Hf; lia|]).
  - cbn [lines_loop unlines map concat]. rewrite app_nil_l, drop_app_length, find_nl_none by done.
    rewrite !length_app. simpl (length []). rewrite Nat.add_0_r. repeat case_decide; (lia || done).
  - apply Forall_cons in HL as [Hl HL]. cbn [lines_loop]. rewrite drop_app_length.
    assert (Eu : unlines (l :: L) ++ r = l ++ 10 :: unlines L ++ r) by (unfold unlines; simpl; by rewrite <- !app_assoc).
    rewrite Eu, find_nl_line by done. rewrite !length_app. simpl (length (_ :: _)).
    rewrite decide_True by lia. rewrite decide_False by lia.
    replace (length pre + length l - length pre)%nat with (length l) by lia. rewrite take_app_length.
    replace (pre ++ l ++ 10 :: unlines L ++ r) with ((pre ++ l ++ [10]) ++ unlines L ++ r) by (by rewrite <- !app_assoc).
    replace (S (length pre + length l)) with (length (pre ++ l ++ [10])) by (rewrite !length_app; simpl; lia).
    rewrite IH by (simpl in Hf; done || lia). rewrite matching_cons. f_equal. unfold unlines. simpl.
    rewrite !length_app. simpl. lia.
Qed.

(** What fits in [k] bytes of a text: whole lines and a part of the next. *)
Lemma take_unlines L : ∀ k, Forall line_ok L → ∃ L1 L2 r, L = L1 ++ L2 ∧
  take k (unlines L) = unlines L1 ++ r ∧ line_ok r ∧ r ++ drop k (unlines L) = unlines L2 ∧
  (∀ l L', L = l :: L' → (length l < k)%nat → L1 ≠ []).
Proof.
  induction L as [|l L IH]; intros k HL.
  { exists [], [], []. unfold unlines. simpl. rewrite take_nil, drop_nil.
    split_and!; try done. apply not_elem_of_nil. }
  apply Forall_cons in HL as [Hl HL].
  assert (Eu : unlines (l :: L) = (l ++ [10]) ++ unlines L) by done.
  destruct (decide (length l < k)%nat) as [Hk|Hk].
  - destruct (IH (k - (length l + 1))%nat HL) as (L1 & L2 & r & -> & Et & Hr & Ed & _).
    exists (l :: L1), L2, r.
    rewrite Eu, take_app_ge, drop_app_ge by (rewrite length_app; simpl; lia). rewrite length_app. simpl (length [10]).
    rewrite Et, Ed. split_and!; try done. unfold unlines. simpl. by rewrite <- !app_assoc.
  - exists [], (l :: L), (take k l). rewrite Eu, <- !app_assoc, take_app_le, drop_app_le by lia.
    split_and!; try done.
    + intros Hin%elem_of_take. destruct Hin as (i & Hi & _). by eapply Hl, list_elem_of_lookup_2.
    + by rewrite app_assoc, take_drop.
    + intros l' L' [= <- <-]. lia.
Qed.

Lemma read_raw_one c n : (0 < n)%nat → c ≠ [] →
  read_raw [c] n = (take n c, if decide (drop n c = []) then [] else [drop n c]).
Proof. intros _ _. simpl. by destruct (drop n c). Qed.

Lemma partial_line r x L : line_ok r → r ++ x = unlines L → r = [] ∨
  ∃ l L', L = l :: L' ∧ (length r ≤ length l)%nat.
Proof.
  intros Hr E. destruct L as [|l L]; [left; by apply app_nil in E as [-> _]|right].
  exists l, L. split; [done|]. destruct (decide (length r ≤ length l)%nat) as [|Hgt]; [done|]. exfalso.
  apply Hr, (list_elem_of_lookup_2 _ (length l)).
  assert (El : (r ++ x) !! length l = Some 10).
  { rewrite E. unfold unlines. simpl. rewrite <- app_assoc, lookup_app_r by done. by rewrite Nat.sub_diag. }
  rewrite lookup_app_l in El by lia. done.
Qed.

Lemma length_unlines L : (length L ≤ length (unlines L))%nat.
Proof. induction L as [|l L IH]; [done|]. unfold unlines in *. simpl. rewrite !length_app. simpl. lia. Qed.
Lemma unlines_nonempty L : L ≠ [] → length (unlines L) ≠ 0%nat.
Proof. intros HL. pose proof (length_unlines L). destruct L; [done|]. simpl in *. lia. Qed.

(** Nothing is lost between reads while each line fits in the buffer: [buf] is
    a partial line, the lines [L] are still to come. *)
Lemma grep_loop_lines pattern : ∀ fuel L buf c,
  Forall (λ l, line_ok l ∧ (length l < BUFLEN - 1)%nat) L → line_ok buf → (length buf < BUFLEN - 1)%nat →
  buf ++ c = unlines L → (length c < fuel)%nat →
  grep_loop fuel pattern (if decide (c = []) then [] else [c]) buf = Some (matching pattern L).
Proof.
  induction fuel as [|fuel IH]; intros L buf c HL Hb Hbl Hc Hf; [lia|].
  destruct (decide (c = [])) as [->|Hne].
  { rewrite app_nil_r in Hc. destruct L as [|l L]; [done|]. exfalso. apply Hb. rewrite Hc.
    unfold unlines. simpl. set_solver. }
  cbn [grep_loop]. set (k := (BUFLEN - length buf - 1)%nat). assert (Hk : (0 < k)%nat) by lia.
  rewrite read_raw_one by done. destruct (take k c) as [|x got] eqn:Et.
  { destruct k, c; simplify_eq/=; lia. }
  rewrite <- Et. clear x got Et.
  destruct (take_unlines L (BUFLEN - 1)) as (L1 & L2 & r & -> & Et & Hr & Ed & Hn).
  { eapply Forall_impl; [exact HL|]. by intros ? [? _]. }
  assert (E1 : buf ++ take k c = unlines L1 ++ r).
  { rewrite <- Et, <- Hc, take_app_ge by lia. f_equal. f_equal. lia. }
  assert (E2 : r ++ drop k c = unlines L2).
  { rewrite <- Ed, <- Hc, drop_app_ge by lia. f_equal. f_equal. lia. }
  assert (HL1 : L1 ≠ []).
  { destruct (L1 ++ L2) as [|l L'] eqn:E; [by apply app_nil in Hc as [_ ?]|].
    apply (Hn l L' eq_refl). apply Forall_cons in HL as [[_ ?] _]. done. }
  apply Forall_app in HL as [HL1' HL2]. rewrite E1.
  pose proof (lines_loop_spec pattern r Hr L1 (S (length (unlines L1 ++ r))) []) as Hll.
  simpl app in Hll. simpl length in Hll. rewrite Hll; clear Hll.
  2: { eapply Forall_impl; [exact HL1'|]. by intros ? [? _]. }
  2: { pose proof (length_unlines L1). rewrite length_app. lia. }
  rewrite Nat.add_0_l. destruct (decide (length (unlines L1) = 0%nat)) as [E0|_]; [by apply unlines_nonempty in E0|].
  rewrite drop_app_length, (IH L2 r (drop k c)).
  - unfold matching, unlines. by rewrite filter_app, map_app, concat_app.
  - done.
  - done.
  - destruct (partial_line r _ L2 Hr E2) as [->|(l & L' & -> & Hl)]; [simpl; lia|].
    apply Forall_cons in HL2 as [[_ ?] _]. lia.
  - done.
  - rewrite length_drop. destruct c; [done|]. simpl in *. lia.
Qed.

(** On a file whose lines end in a newline and fit in the buffer, read with
    full reads, [grep] prints exactly the lines that match, in order. *)
Theorem grep_prints_matching_lines (pattern : list Z) (L : list (list Z)) :
  Forall (λ l, line_ok l ∧ (length l < BUFLEN - 1)%nat) L → L ≠ [] →
  grep pattern [unlines L] = Some (unlines (filter (λ l, match_pattern pattern l = true) L)).
Proof.
  intros HL Hne. unfold grep. pose proof (unlines_nonempty L Hne) as Hlen.
  pose proof (grep_loop_lines pattern (S (length (concat [unlines L]))) L [] (unlines L) HL) as Hg.
  rewrite decide_False in Hg by (intros E0; by rewrite E0 in Hlen). apply Hg; simpl.
  - apply not_elem_of_nil.
  - unfold BUFLEN. lia.
  - done.
  - rewrite app_nil_r. lia.
Qed.

Lemma read_raw_length input n got input' : read_raw input n = (got, input') →
  (length got + length (concat input') = length (concat input))%nat.
Proof.
  destruct input as [|c rest]; simpl; [by intros [= <- <-]|].
  pose proof (take_drop n c) as E. apply (f_equal length) in E. rewrite length_app in E.
  destruct (drop n c); intros [= <- <-]; simpl in *; rewrite ?length_app in *; simpl in *; rewrite ?length_app; lia.
Qed.

Lemma grep_total (pattern : list Z) (input : list (list Z)) : is_Some (grep pattern input).
Proof.
  unfold grep. generalize (@nil Z) as buf. remember (S (length (concat input))) as fuel eqn:Hf.
  assert (Hl : (length (concat input) < fuel)%nat) by lia. clear Hf. revert input Hl.
  induction fuel as [|fuel IH]; intros input Hl buf; [lia|]. cbn [grep_loop].
  destruct (read_raw _ _) as [got input'] eqn:E. apply read_raw_length in E.
  destruct got as [|x got]; [by eexists|]. destruct (lines_loop _ _ _ _) as [out p].
  destruct (IH input' ltac:(simpl in E; lia) (if decide (p = 0%nat) then [] else drop p (buf ++ x :: got))) as [o ->].
  by eexists.
Qed.

(** [grep] ends on every input, however the reads cut it. *)
Theorem grep_terminates (pattern : list Z) (input : list (list Z)) :
  ∃ out, grep pattern input = Some out.
Proof. apply grep_total. Qed.

Lemma grep_loop_mono pattern fuel fuel' input buf o :
  grep_loop fuel pattern input buf = Some o → (fuel ≤ fuel')%nat → grep_loop fuel' pattern input buf = Some o.
Proof.
  revert fuel' input buf o. induction fuel as [|fuel IH]; intros [|fuel'] input buf o; try (done || lia).
  cbn [grep_loop]. destruct (read_raw _ _) as [[|x got] input']; [done|].
  destruct (lines_loop _ _ _ _) as [out p]. intros E Hle.
  destruct (grep_loop fuel _ _ _) eqn:E1 in E; [|done]. rewrite (IH fuel' _ _ _ E1) by lia. done.
Qed.

(** A read that brings no newline is thrown away: the line that starts in it
    is matched and printed without it. *)
Theorem grep_drops_partial_line (pattern c : list Z) (rest : list (list Z))
    (Hc : line_ok c) (Hl : (0 < length c < BUFLEN)%nat) :
  grep pattern (c :: rest) = grep pattern rest.
Proof.
  destruct (grep_total pattern rest) as [o E]. rewrite E. unfold grep in *. cbn [grep_loop].
  assert (Er : read_raw (c :: rest) (BUFLEN - 0 - 1) = (c, rest)).
  { unfold read_raw. rewrite drop_ge, take_ge by lia. done. }
  simpl (length []). rewrite Er. destruct c as [|x c]; [simpl in Hl; lia|].
  pose proof (lines_loop_spec pattern (x :: c) Hc [] (S (length (x :: c))) []) as Hll.
  simpl app in Hll. simpl length in Hll. simpl (_ ++ _). simpl (S (length _)). rewrite Hll by (done || lia).
  cbn [length]. rewrite decide_True by done.
  rewrite (grep_loop_mono _ _ _ _ _ _ E); [done|]. simpl. rewrite length_app. lia.
Qed.

(** ** Witnesses *)

Definition re_ab : list Z := [97; 42; 98; 36].   (* a*b$ *)

Lemma match_pattern_correct_witness : match_pattern re_ab [120; 97; 97; 98] = true.
Proof.
  apply (match_pattern_correct re_ab [120; 97; 97; 98]); [repeat constructor; discriminate..|].
  exists [120], [97; 97; 98], []. split; [reflexivity|]. split; [|split; [discriminate|reflexivity]].
  apply l_more; [by right|]. apply l_more; [by right|]. apply l_stop. apply l_one; [by right|]. apply l_nil.
Defined.

Lemma grep_prints_matching_lines_witness :
  grep re_ab [[97; 98; 10; 99; 10]] = Some [97; 98; 10].
Proof.
  apply (grep_prints_matching_lines re_ab [[97; 98]; [99]]); [|discriminate].
  repeat constructor; unfold line_ok, BUFLEN; simpl; try lia; set_solver.
Defined.

Lemma grep_drops_partial_line_witness :
  grep re_ab [[97; 98]; [99; 10]] = grep re_ab [[99; 10]].
Proof.
  apply (grep_drops_partial_line re_ab [97; 98] [[99; 10]]); unfold line_ok, BUFLEN; [set_solver|simpl; lia].
Defined.

End Grep.
