(* ===== verification/Sh.v ===== *)
(** * The shell

    user/src/sh.rs: the lexer and the recursive-descent parser of command
    lines, the writing of the terminating zeros, and [runcmd] as the program
    of system calls it makes.

    The command line is the list of bytes before its terminating zero. A
    pointer into it is the list of the bytes from there on, so [es] is the
    empty list, where a read gives zero. *)

From S2P Require Import Prelude Mem Ulib.

Module Sh.

Definition MAXARGS : nat := 10.
Definition O_RDONLY : Z := 0.
Definition O_WRONLY : Z := 1.
Definition O_CREATE : Z := 0x200.

(** The command structures; [W] are the words, a pair of pointers in the
    code. *)
Inductive cmd (W : Type) : Type :=
| Exec (argv : list W)
| Redir (c : cmd W) (file : W) (mode fd : Z)
| PipeC (left right : cmd W)
| ListC (left right : cmd W)
| Back (c : cmd W).
Arguments Exec {W} _.
Arguments Redir {W} _ _ _ _.
Arguments PipeC {W} _ _.
Arguments ListC {W} _ _.
Arguments Back {W} _.

(** ** Tokens *)

Definition WHITESPACE : list Z := [32; 9; 13; 10; 11].
Definition SYMBOLS : list Z := [60; 124; 62; 38; 59; 40; 41].
Definition is_in (c : Z) (set : list Z) : bool := bool_decide (c ∈ set).
Definition byte_at (s : list Z) : Z := nth 0 s 0.

Fixpoint skip_white (s : list Z) : list Z :=
  match s with
  | x :: s' => if is_in x WHITESPACE then skip_white s' else s
  | [] => []
  end.
Fixpoint skip_word (s : list Z) : list Z :=
  match s with
  | x :: s' => if negb (is_in x WHITESPACE) && negb (is_in x SYMBOLS) then skip_word s' else s
  | [] => []
  end.

(** The token, its start and end, and the rest. *)
Definition gettoken (s : list Z) : Z * list Z * list Z * list Z :=
  let q := skip_white s in
  let (ret, eq) :=
    match q with
    | [] => (0, q)
    | c :: s1 =>
        if c =? 0 then (0, q)
        else if is_in c [124; 40; 41; 59; 38; 60] then (c, s1)
        else if c =? 62 then
          (if byte_at s1 =? 62 then (43, tail s1) else (62, s1))
        else (97, skip_word q)
    end in
  (ret, q, eq, skip_white eq).

Definition peek (s : list Z) (toks : list Z) : bool * list Z :=
  let s := skip_white s in
  (negb (byte_at s =? 0) && is_in (byte_at s) toks, s).

(** ** The parser *)

(** A word by its start and end; the parser's result, a [panic] of the shell,
    or a recursion bound too small. *)
Definition word : Type := list Z * list Z.
Inductive pres (A : Type) : Type := Parsed (a : A) (rest : list Z) | Syntax (msg : string) | OutOfFuel.
Arguments Parsed {A} _ _.
Arguments Syntax {A} _.
Arguments OutOfFuel {A}.

(** The assignment to [ecmd.argv[argc]] reaches the [ExecCmd] under the redirections
    that already wrap it. *)
Fixpoint add_arg {W} (w : W) (c : cmd W) : cmd W :=
  match c with
  | Exec argv => Exec (argv ++ [w])
  | Redir c f m fd => Redir (add_arg w c) f m fd
  | _ => c
  end.

Fixpoint parseredirs (fuel : nat) (c : cmd word) (s : list Z) : pres (cmd word) :=
  match fuel with
  | O => OutOfFuel
  | S fuel' =>
      let (b, s) := peek s [60; 62] in
      if b then
        let '(tok, _, _, s) := gettoken s in
        let '(tok2, q, eq, s) := gettoken s in
        if negb (tok2 =? 97) then Syntax "missing file for redirection"
        else if tok =? 60 then parseredirs fuel' (Redir c (q, eq) O_RDONLY 0) s
        else if tok =? 62 then parseredirs fuel' (Redir c (q, eq) (Z.lor O_WRONLY O_CREATE) 1) s
        else if tok =? 43 then parseredirs fuel' (Redir c (q, eq) (Z.lor O_WRONLY O_CREATE) 1) s
        else parseredirs fuel' c s
      else Parsed c s
  end.

(** The loop of [parseexec] over the words. *)
Fixpoint parseargs (fuel : nat) (c : cmd word) (argc : nat) (s : list Z) : pres (cmd word) :=
  match fuel with
  | O => OutOfFuel
  | S fuel' =>
      let (b, s) := peek s [124; 41; 38; 59] in
      if b then Parsed c s
      else
        let '(tok, q, eq, s) := gettoken s in
        if tok =? 0 then Parsed c s
        else if negb (tok =? 97) then Syntax "syntax"
        else
          let c := add_arg (q, eq) c in
          if decide (MAXARGS ≤ S argc)%nat then Syntax "too many args"
          else
            match parseredirs fuel' c s with
            | Parsed c s => parseargs fuel' c (S argc) s
            | Syntax e => Syntax e
            | OutOfFuel => OutOfFuel
            end
  end.

(** The loop of [parseline] over [&]. *)
Fixpoint parseback (fuel : nat) (c : cmd word) (s : list Z) : pres (cmd word) :=
  match fuel with
  | O => OutOfFuel
  | S fuel' =>
      let (b, s) := peek s [38] in
      if b then let '(_, _, _, s) := gettoken s in parseback fuel' (Back c) s
      else Parsed c s
  end.

Definition parseblock (parseline : list Z → pres (cmd word)) (fuel : nat) (s : list Z) : pres (cmd word) :=
  let (b, s) := peek s [40] in
  if negb b then Syntax "parseblock"
  else
    let '(_, _, _, s) := gettoken s in
    match parseline s with
    | Parsed c s =>
        let (b, s) := peek s [41] in
        if negb b then Syntax "syntax - missing )"
        else let '(_, _, _, s) := gettoken s in parseredirs fuel c s
    | Syntax e => Syntax e
    | OutOfFuel => OutOfFuel
    end.

Definition parseexec (parseline : list Z → pres (cmd word)) (fuel : nat) (s : list Z) : pres (cmd word) :=
  let (b, s) := peek s [40] in
  if b then parseblock parseline fuel s
  else
    match parseredirs fuel (Exec []) s with
    | Parsed c s => parseargs fuel c 0 s
    | Syntax e => Syntax e
    | OutOfFuel => OutOfFuel
    end.

Fixpoint parseline (fuel : nat) (s : list Z) : pres (cmd word) :=
  match fuel with
  | O => OutOfFuel
  | S fuel' =>
      match parsepipe fuel' s with
      | Parsed c s =>
          match parseback fuel' c s with
          | Parsed c s =>
              let (b, s) := peek s [59] in
              if b then
                let '(_, _, _, s) := gettoken s in
                match parseline fuel' s with
                | Parsed c2 s => Parsed (ListC c c2) s
                | Syntax e => Syntax e
                | OutOfFuel => OutOfFuel
                end
              else Parsed c s
          | Syntax e => Syntax e
          | OutOfFuel => OutOfFuel
          end
      | Syntax e => Syntax e
      | OutOfFuel => OutOfFuel
      end
  end
with parsepipe (fuel : nat) (s : list Z) : pres (cmd word) :=
  match fuel with
  | O => OutOfFuel
  | S fuel' =>
      match parseexec (parseline fuel') fuel' s with
      | Parsed c s =>
          let (b, s) := peek s [124] in
          if b then
            let '(_, _, _, s) := gettoken s in
            match parsepipe fuel' s with
            | Parsed c2 s => Parsed (PipeC c c2) s
            | Syntax e => Syntax e
            | OutOfFuel => OutOfFuel
            end
          else Parsed c s
      | Syntax e => Syntax e
      | OutOfFuel => OutOfFuel
      end
  end.

(** [parsecmd] before the zeros are written. *)
Definition parse_fuel (buf : list Z) : nat := 3 * length buf + 4.
Definition parsecmd (buf : list Z) : pres (cmd word) :=
  match parseline (parse_fuel buf) buf with
  | Parsed c s =>
      let (_, s) := peek s [] in
      match s with
      | [] => Parsed c []
      | _ => Syntax "syntax"
      end
  | Syntax e => Syntax e
  | OutOfFuel => OutOfFuel
  end.

(** [nulterminate] on the buffer [b] of a line of [n] bytes: a zero at the end
    of each word. *)
Definition end_word (n : nat) (w : word) (b : list Z) : list Z := <[(n - length w.2)%nat := 0]> b.
Fixpoint nulterminate (n : nat) (c : cmd word) (b : list Z) : list Z :=
  match c with
  | Exec argv => foldl (λ b w, end_word n w b) b argv
  | Redir c f _ _ => end_word n f (nulterminate n c b)
  | PipeC l r => nulterminate n r (nulterminate n l b)
  | ListC l r => nulterminate n r (nulterminate n l b)
  | Back c => nulterminate n c b
  end.

(** ** Running a command

    The system calls of [runcmd], with what follows each of their results. A
    null command pointer, for which it exits, does not come from the parser. *)
Inductive prog : Type :=
| PExit
| PPanic (msg : string)
| PExec (argv : list (list Z)) (failed : prog)
| PPrint (msg : string) (k : prog)
| PClose (fd : Z) (k : prog)
| PDup (fd : Z) (k : prog)
| POpen (file : list Z) (mode : Z) (k failed : prog)
| PPipe (k : Z → Z → prog) (failed : prog)
| PFork (child parent failed : prog)
| PWait (k : prog).

Definition fork1 (child parent : prog) : prog := PFork child parent (PPanic "fork").

Fixpoint runcmd (c : cmd (list Z)) : prog :=
  match c with
  | Exec [] => PExit
  | Exec argv => PExec argv (PPrint "exec failed" PExit)
  | Redir c file mode fd => PClose fd (POpen file mode (runcmd c) (PPrint "open failed" PExit))
  | ListC l r => fork1 (runcmd l) (PWait (runcmd r))
  | PipeC l r =>
      PPipe (λ p0 p1,
        fork1 (PClose 1 (PDup p1 (PClose p0 (PClose p1 (runcmd l)))))
          (fork1 (PClose 0 (PDup p0 (PClose p0 (PClose p1 (runcmd r)))))
            (PClose p0 (PClose p1 (PWait (PWait PExit))))))
        (PPanic "pipe")
  | Back c => fork1 (runcmd c) PExit
  end.

(** [getcmd] and the loop of [main]: the prompt, and what a line makes the
    shell do. The line is the buffer [gets] filled, up to its zero. *)
Inductive shell_act : Type := ChangeDir (path : list Z) | RunLine (buf : list Z) | EndOfInput.
Fixpoint chop_newline (l : list Z) : list Z :=
  match l with
  | x :: l' => if x =? 10 then [] else x :: chop_newline l'
  | [] => []
  end.
Definition getcmd (room : nat) (input : list Z) : Z * list Z * list Z :=
  let (line, rest) := Ulib.gets room input in
  (if byte_at line =? 0 then -1 else 0, line, rest).
Definition main_step (room : nat) (input : list Z) : shell_act * list Z :=
  let '(r, buf, rest) := getcmd room input in
  if r <? 0 then (EndOfInput, rest)
  else
    match buf with
    | 99 :: 100 :: 32 :: path => (ChangeDir (chop_newline path), rest)
    | _ => (RunLine buf, rest)
    end.

(** ** Tokens consume input *)

Lemma skip_white_length s : (length (skip_white s) ≤ length s)%nat.
Proof. induction s as [|x s IH]; simpl; [done|]. destruct (is_in x WHITESPACE); simpl; lia. Qed.
Lemma skip_word_length s : (length (skip_word s) ≤ length s)%nat.
Proof. induction s as [|x s IH]; simpl; [done|]. destruct (_ && _); simpl; lia. Qed.

Lemma skip_white_head s : match skip_white s with [] => True | x :: _ => is_in x WHITESPACE = false end.
Proof. induction s as [|x s IH]; simpl; [done|]. by destruct (is_in x WHITESPACE) eqn:E. Qed.

Lemma is_in_elem c set : is_in c set = true ↔ c ∈ set.
Proof. unfold is_in. by rewrite bool_decide_eq_true. Qed.

(** Symbols are the characters with a token of their own. *)
Lemma is_symbol c : is_in c SYMBOLS = is_in c [124; 40; 41; 59; 38; 60] || (c =? 62).
Proof.
  unfold is_in, SYMBOLS. destruct (Z.eqb_spec c 62) as [->|Hne]; [by rewrite orb_true_r|].
  rewrite orb_false_r. apply bool_decide_ext. rewrite !elem_of_cons. naive_solver.
Qed.

Lemma gettoken_spec s tok q eq rest : gettoken s = (tok, q, eq, rest) →
  q = skip_white s ∧ rest = skip_white eq ∧ (length eq ≤ length q)%nat ∧
  (byte_at q ≠ 0 → tok ≠ 0 ∧ (length eq < length q)%nat) ∧ (byte_at q = 0 → tok = 0) ∧
  (tok = 97 → eq = skip_word q ∧ (length eq < length q)%nat).
Proof.
  unfold gettoken. pose proof (skip_white_head s) as Hh.
  match goal with |- (let (_, _) := ?m in _) = _ → _ => destruct m as [r e] eqn:Er end. intros [= <- <- <- <-].
  split; [done|]. split; [done|]. revert Er. destruct (skip_white s) as [|c s1] eqn:Eq.
  { intros [= <- <-]. split_and!; simpl; try done; try lia. }
  unfold byte_at. cbn [nth]. destruct (Z.eqb_spec c 0) as [->|Hc].
  { intros [= <- <-]. split_and!; simpl; try done; try lia. }
  destruct (is_in c [124; 40; 41; 59; 38; 60]) eqn:Es.
  { intros [= <- <-]. simpl. split_and!; try done; try lia.
    intros ->. apply is_in_elem in Es. set_solver. }
  destruct (Z.eqb_spec c 62) as [->|H62].
  { destruct s1 as [|d s2]; [intros [= <- <-]; simpl; split_and!; (done || lia)|].
    destruct (_ =? 62); intros [= <- <-]; simpl; split_and!; (done || lia). }
  assert (Hw : (length (skip_word (c :: s1)) < length (c :: s1))%nat).
  { simpl. rewrite Hh, is_symbol, Es. simpl. destruct (Z.eqb_spec c 62); [done|]. simpl.
    pose proof (skip_word_length s1). lia. }
  intros [= <- <-]. split_and!; try done; simpl in *; lia.
Qed.

Lemma gettoken_length s tok q eq rest : gettoken s = (tok, q, eq, rest) →
  (length rest ≤ length s)%nat ∧ (tok ≠ 0 → (length rest < length s)%nat).
Proof.
  intros (-> & -> & Hle & H1 & H2 & _)%gettoken_spec.
  pose proof (skip_white_length s). pose proof (skip_white_length eq). split; [lia|].
  intros Ht. destruct (decide (byte_at (skip_white s) = 0)) as [E|E]; [by apply H2 in E|].
  destruct (H1 E). lia.
Qed.

Lemma peek_length s toks b s' : peek s toks = (b, s') → s' = skip_white s ∧ (length s' ≤ length s)%nat ∧
  (b = true → byte_at s' ≠ 0 ∧ byte_at s' ∈ toks).
Proof.
  unfold peek. intros [= <- <-]. split; [done|]. split; [apply skip_white_length|].
  rewrite andb_true_iff, negb_true_iff, is_in_elem. intros [H ?]. by apply Z.eqb_neq in H.
Qed.

Lemma skip_white_idem s : skip_white (skip_white s) = skip_white s.
Proof.
  induction s as [|x s IH]; simpl; [done|]. destruct (is_in x WHITESPACE) eqn:E; [done|]. simpl. by rewrite E.
Qed.

(** The token that [peek] saw. *)
Lemma peek_gettoken s toks s' tok q eq rest : peek s toks = (true, s') → gettoken s' = (tok, q, eq, rest) →
  tok ≠ 0 ∧ (length rest < length s)%nat.
Proof.
  intros Hp Hg. pose proof Hp as (-> & Hle & Hb)%peek_length. destruct (Hb eq_refl) as [Hb0 _].
  pose proof Hg as (Hq & _ & _ & H1 & _)%gettoken_spec. rewrite Hq, skip_white_idem in H1.
  destruct (H1 Hb0) as [Ht _]. apply gettoken_length in Hg as [_ Hl]. specialize (Hl Ht). split; [done|lia].
Qed.

(** ** The parser ends *)

(** A result other than [OutOfFuel], with no more input left than before. *)
Definition fine {A} (s : list Z) (r : pres A) : Prop :=
  match r with
  | Parsed _ rest => (length rest ≤ length s)%nat
  | Syntax _ => True
  | OutOfFuel => False
  end.
Lemma fine_mono {A} s s' (r : pres A) : (length s ≤ length s')%nat → fine s r → fine s' r.
Proof. destruct r; simpl; [lia|done|done]. Qed.

Lemma parseredirs_fine fuel c s : (length s < fuel)%nat → fine s (parseredirs fuel c s).
Proof.
  revert c s. induction fuel as [|fuel IH]; intros c s Hf; [lia|]. cbn [parseredirs].
  destruct (peek s [60; 62]) as [b s1] eqn:Ep. destruct b; [|by apply peek_length in Ep as (_ & ? & _)].
  destruct (gettoken s1) as [[[tok q1] e1] s2] eqn:E1. destruct (peek_gettoken _ _ _ _ _ _ _ Ep E1) as [_ H1].
  destruct (gettoken s2) as [[[tok2 q] e] s3] eqn:E2. apply gettoken_length in E2 as [H2 _].
  destruct (negb _); [done|].
  repeat case_match; (eapply fine_mono; [|apply IH]; lia).
Qed.

Lemma parseargs_fine fuel c n s : (length s < fuel)%nat → fine s (parseargs fuel c n s).
Proof.
  revert c n s. induction fuel as [|fuel IH]; intros c n s Hf; [lia|]. cbn [parseargs].
  destruct (peek s _) as [b s1] eqn:Ep. apply peek_length in Ep as (_ & Hl & _).
  destruct b; [done|]. destruct (gettoken s1) as [[[tok q] e] s2] eqn:E1. apply gettoken_length in E1 as [H1 H2].
  destruct (Z.eqb_spec tok 0); [simpl; lia|]. specialize (H2 ltac:(done)). destruct (negb _); [done|]. case_decide; [done|].
  pose proof (parseredirs_fine fuel (add_arg (q, e) c) s2 ltac:(lia)) as Hr.
  destruct (parseredirs fuel _ s2) as [c' s3| |]; simpl in Hr; [|done|done].
  eapply fine_mono; [|apply IH]; lia.
Qed.

Lemma parseback_fine fuel c s : (length s < fuel)%nat → fine s (parseback fuel c s).
Proof.
  revert c s. induction fuel as [|fuel IH]; intros c s Hf; [lia|]. cbn [parseback].
  destruct (peek s _) as [b s1] eqn:Ep. destruct b; [|by apply peek_length in Ep as (_ & ? & _)].
  destruct (gettoken s1) as [[[tok q] e] s2] eqn:E1. destruct (peek_gettoken _ _ _ _ _ _ _ Ep E1) as [_ H1].
  eapply fine_mono; [|apply IH]; lia.
Qed.

Lemma parseexec_fine pl fuel s : (length s < fuel)%nat → (∀ s', (length s' < length s)%nat → fine s' (pl s')) →
  fine s (parseexec pl fuel s).
Proof.
  intros Hf Hpl. unfold parseexec. destruct (peek s [40]) as [b s1] eqn:Ep.
  pose proof Ep as (E1 & Hl & _)%peek_length. destruct b.
  - unfold parseblock. destruct (peek s1 [40]) as [b s2] eqn:Ep2. destruct b; [|exact I]. cbn [negb].
    destruct (gettoken s2) as [[[tok q] e] s3] eqn:Eg. destruct (peek_gettoken _ _ _ _ _ _ _ Ep2 Eg) as [_ H1].
    pose proof (Hpl s3 ltac:(lia)) as Hr. destruct (pl s3) as [c s4| |]; simpl in Hr; [|done|done].
    destruct (peek s4 [41]) as [b s5] eqn:Ep3. destruct b; [|exact I]. cbn [negb].
    destruct (gettoken s5) as [[[tok' q'] e'] s6] eqn:Eg2. destruct (peek_gettoken _ _ _ _ _ _ _ Ep3 Eg2) as [_ H2].
    eapply fine_mono; [|apply parseredirs_fine]; lia.
  - pose proof (parseredirs_fine fuel (Exec []) s1 ltac:(lia)) as Hr.
    destruct (parseredirs fuel _ s1) as [c s2| |]; simpl in Hr; [|done|done].
    eapply fine_mono; [|apply parseargs_fine]; lia.
Qed.

Lemma parse_fine fuel :
  (∀ s, (2 * length s + 3 ≤ fuel)%nat → fine s (parseline fuel s)) ∧
  (∀ s, (2 * length s + 2 ≤ fuel)%nat → fine s (parsepipe fuel s)).
Proof.
  induction fuel as [|fuel [IHl IHp]]; [split; lia|]. split; intros s Hf.
  - cbn [parseline]. pose proof (IHp s ltac:(lia)) as H1. destruct (parsepipe fuel s) as [c s1| |]; simpl in H1; [|done|done].
    pose proof (parseback_fine fuel c s1 ltac:(lia)) as H2.
    destruct (parseback fuel c s1) as [c2 s2| |]; simpl in H2; [|done|done].
    destruct (peek s2 [59]) as [b s3] eqn:Ep. destruct b; [|apply peek_length in Ep as (_ & ? & _); simpl; lia].
    destruct (gettoken s3) as [[[tok q] e] s4] eqn:Eg. destruct (peek_gettoken _ _ _ _ _ _ _ Ep Eg) as [_ H3].
    pose proof (IHl s4 ltac:(lia)) as H4. destruct (parseline fuel s4); simpl in *; (done || lia).
  - cbn [parsepipe]. pose proof (parseexec_fine (parseline fuel) fuel s ltac:(lia)) as H1.
    assert (H1' : fine s (parseexec (parseline fuel) fuel s)) by (apply H1; intros s' Hs'; apply IHl; lia). clear H1.
    destruct (parseexec _ fuel s) as [c s1| |]; simpl in H1'; [|done|done].
    destruct (peek s1 [124]) as [b s2] eqn:Ep. destruct b; [|apply peek_length in Ep as (_ & ? & _); simpl; lia].
    destruct (gettoken s2) as [[[tok q] e] s3] eqn:Eg. destruct (peek_gettoken _ _ _ _ _ _ _ Ep Eg) as [_ H3].
    pose proof (IHp s3 ltac:(lia)) as H4. destruct (parsepipe fuel s3); simpl in *; (done || lia).
Qed.

(** C35: The recursive-descent parser ends on every command line, with a command
    or a syntax error, within a recursion depth linear in its length. *)
Theorem parsecmd_terminates (buf : list Z) :
  (∃ c, parsecmd buf = Parsed c []) ∨ ∃ msg, parsecmd buf = Syntax msg.
Proof.
  unfold parsecmd. pose proof (proj1 (parse_fine (parse_fuel buf)) buf ltac:(unfold parse_fuel; lia)) as H.
  destruct (parseline _ buf) as [c s|e|]; simpl in H; [|by eauto|done].
  destruct (peek s []) as [b s'] eqn:Ep. destruct s'; eauto.
Qed.

(** ** The words of the parsed command *)

Definition is_word (x : Z) : bool := negb (is_in x WHITESPACE) && negb (is_in x SYMBOLS).
Definition suffix (s buf : list Z) : Prop := ∃ pre, buf = pre ++ s.

(** The text of the word, and that it is a whole word of the line. *)
Definition text (w : word) : list Z := take (length w.1 - length w.2) w.1.
Definition word_in (buf : list Z) (w : word) : Prop :=
  suffix w.1 buf ∧ w.1 = text w ++ w.2 ∧ text w ≠ [] ∧ Forall (λ x, is_word x = true) (text w) ∧
  match w.2 with [] => True | x :: _ => is_word x = false end.

Fixpoint words {W} (c : cmd W) : list W :=
  match c with
  | Exec argv => argv
  | Redir c f _ _ => words c ++ [f]
  | PipeC l r | ListC l r => words l ++ words r
  | Back c => words c
  end.

Definition sound (buf : list Z) (r : pres (cmd word)) : Prop :=
  match r with
  | Parsed c s => Forall (word_in buf) (words c) ∧ suffix s buf
  | _ => True
  end.

Lemma suffix_trans s1 s2 s3 : suffix s1 s2 → suffix s2 s3 → suffix s1 s3.
Proof. intros [p1 ->] [p2 ->]. exists (p2 ++ p1). by rewrite app_assoc. Qed.
Lemma skip_white_suffix s : suffix (skip_white s) s.
Proof.
  induction s as [|x s [p IH]]; simpl; [by exists []|]. destruct (is_in x WHITESPACE); [|by exists []].
  exists (x :: p). simpl. by rewrite <- IH.
Qed.
Lemma skip_word_split s : ∃ txt, s = txt ++ skip_word s ∧ Forall (λ x, is_word x = true) txt ∧
  match skip_word s with [] => True | x :: _ => is_word x = false end.
Proof.
  induction s as [|x s (txt & Es & Ht & Hh)]; simpl; [by exists []|].
  fold (is_word x). destruct (is_word x) eqn:E.
  - exists (x :: txt). simpl. split_and!; [by rewrite <- Es|by constructor|done].
  - exists []. by rewrite E.
Qed.

Lemma gettoken_suffix s tok q eq rest buf : gettoken s = (tok, q, eq, rest) → suffix s buf →
  suffix rest buf ∧ (tok = 97 → word_in buf (q, eq)).
Proof.
  intros Hg Hs. pose proof Hg as (Hq & Hr & Hle & H1 & _ & Hw)%gettoken_spec.
  assert (Hqb : suffix q buf) by (subst q; eapply suffix_trans; [apply skip_white_suffix|done]).
  assert (Heq : suffix eq q).
  { revert Hg. unfold gettoken. rewrite <- Hq.
    match goal with |- (let (_, _) := ?m in _) = _ → _ => destruct m as [r e] eqn:Er end. intros [= _ <- _].
    revert Er. destruct q as [|c s1]; [intros [= _ <-]; by exists []|].
    destruct (c =? 0); [intros [= _ <-]; by exists []|].
    destruct (is_in c [124; 40; 41; 59; 38; 60]); [intros [= _ <-]; by exists [c]|].
    destruct (c =? 62).
    - destruct s1 as [|d s2]; simpl; [intros [= _ <-]; by exists [c]|].
      destruct (_ =? 62); intros [= _ <-]; [by exists [c; d]|by exists [c]].
    - intros [= _ <-]. destruct (skip_word_split (c :: s1)) as (txt & E & _). by exists txt. }
  split; [subst rest; eapply suffix_trans; [apply skip_white_suffix|]; by eapply suffix_trans|].
  intros Ht. destruct (Hw Ht) as [He Hlt]. destruct (skip_word_split q) as (txt & E & Ht' & Hh). rewrite <- He in *.
  assert (Etxt : text (q, eq) = txt).
  { unfold text. simpl. rewrite E at 2. rewrite E, length_app. replace (_ + _ - _)%nat with (length txt) by lia.
    apply take_app_length. }
  unfold word_in. rewrite Etxt. simpl. split_and!; try done. intros ->. simpl in E. rewrite E in Hlt. lia.
Qed.

Lemma words_add_arg w c : Forall (λ x, x ∈ words c ∨ x = w) (words (add_arg (W := word) w c)).
Proof.
  apply Forall_forall. intros x. induction c as [argv|c IH f m fd| | |]; simpl; [|rewrite !elem_of_app|..]; try tauto.
  rewrite elem_of_app, list_elem_of_singleton. tauto.
Qed.
Lemma words_ok_add buf w c : Forall (word_in buf) (words c) → word_in buf w → Forall (word_in buf) (words (add_arg w c)).
Proof.
  intros Hc Hw. eapply Forall_impl; [apply words_add_arg|]. intros x [Hx| ->]; [|done].
  by eapply Forall_forall in Hc.
Qed.

Lemma peek_suffix s toks b s' buf : peek s toks = (b, s') → suffix s buf → suffix s' buf.
Proof. intros (-> & _)%peek_length Hs. eapply suffix_trans; [apply skip_white_suffix|done]. Qed.

Lemma parseredirs_sound buf fuel c s : Forall (word_in buf) (words c) → suffix s buf →
  sound buf (parseredirs fuel c s).
Proof.
  revert c s. induction fuel as [|fuel IH]; intros c s Hc Hs; [done|]. cbn [parseredirs].
  destruct (peek s [60; 62]) as [b s1] eqn:Ep. apply (peek_suffix _ _ _ _ buf) in Ep; [|done].
  destruct b; [|done]. destruct (gettoken s1) as [[[tok q1] e1] s2] eqn:E1.
  apply (gettoken_suffix _ _ _ _ _ buf) in E1 as [H1 _]; [|done].
  destruct (gettoken s2) as [[[tok2 q] e] s3] eqn:E2. apply (gettoken_suffix _ _ _ _ _ buf) in E2 as [H2 Hw]; [|done].
  destruct (Z.eqb_spec tok2 97) as [->|]; [|done]. cbn [negb].
  repeat case_match; apply IH; try done; simpl; apply Forall_app; (split; [done|]); constructor; auto.
Qed.

Lemma parseargs_sound buf fuel c n s : Forall (word_in buf) (words c) → suffix s buf →
  sound buf (parseargs fuel c n s).
Proof.
  revert c n s. induction fuel as [|fuel IH]; intros c n s Hc Hs; [done|]. cbn [parseargs].
  destruct (peek s _) as [b s1] eqn:Ep. apply (peek_suffix _ _ _ _ buf) in Ep; [|done].
  destruct b; [done|]. destruct (gettoken s1) as [[[tok q] e] s2] eqn:E1.
  apply (gettoken_suffix _ _ _ _ _ buf) in E1 as [H1 Hw]; [|done]. destruct (tok =? 0); [done|].
  destruct (Z.eqb_spec tok 97) as [->|]; [|done]. cbn [negb]. case_decide; [done|].
  pose proof (parseredirs_sound buf fuel (add_arg (q, e) c) s2 (words_ok_add _ _ _ Hc (Hw eq_refl)) H1) as Hr.
  destruct (parseredirs fuel _ s2) as [c' s3| |]; simpl in Hr; [|done|done]. destruct Hr. by apply IH.
Qed.

Lemma parseback_sound buf fuel c s : Forall (word_in buf) (words c) → suffix s buf →
  sound buf (parseback fuel c s).
Proof.
  revert c s. induction fuel as [|fuel IH]; intros c s Hc Hs; [done|]. cbn [parseback].
  destruct (peek s _) as [b s1] eqn:Ep. apply (peek_suffix _ _ _ _ buf) in Ep; [|done].
  destruct b; [|done]. destruct (gettoken s1) as [[[tok q] e] s2] eqn:E1.
  apply (gettoken_suffix _ _ _ _ _ buf) in E1 as [H1 _]; [|done]. by apply IH.
Qed.

Lemma parseexec_sound buf pl fuel s : (∀ s', suffix s' buf → sound buf (pl s')) → suffix s buf →
  sound buf (parseexec pl fuel s).
Proof.
  intros Hpl Hs. unfold parseexec. destruct (peek s [40]) as [b s1] eqn:Ep.
  apply (peek_suffix _ _ _ _ buf) in Ep; [|done]. destruct b.
  - unfold parseblock. destruct (peek s1 [40]) as [b s2] eqn:Ep2. apply (peek_suffix _ _ _ _ buf) in Ep2; [|done].
    destruct b; [|exact I]. cbn [negb]. destruct (gettoken s2) as [[[tok q] e] s3] eqn:Eg.
    apply (gettoken_suffix _ _ _ _ _ buf) in Eg as [H1 _]; [|done].
    pose proof (Hpl s3 H1) as Hr. destruct (pl s3) as [c s4| |]; simpl in Hr; [|done|done]. destruct Hr as [Hc Hs4].
    destruct (peek s4 [41]) as [b s5] eqn:Ep3. apply (peek_suffix _ _ _ _ buf) in Ep3; [|done].
    destruct b; [|exact I]. cbn [negb]. destruct (gettoken s5) as [[[tok' q'] e'] s6] eqn:Eg2.
    apply (gettoken_suffix _ _ _ _ _ buf) in Eg2 as [H2 _]; [|done]. by apply parseredirs_sound.
  - pose proof (parseredirs_sound buf fuel (Exec []) s1 (Forall_nil_2 _) Ep) as Hr.
    destruct (parseredirs fuel _ s1) as [c s2| |]; simpl in Hr; [|done|done]. destruct Hr. by apply parseargs_sound.
Qed.

Lemma parse_sound buf fuel :
  (∀ s, suffix s buf → sound buf (parseline fuel s)) ∧ (∀ s, suffix s buf → sound buf (parsepipe fuel s)).
Proof.
  induction fuel as [|fuel [IHl IHp]]; [done|]. split; intros s Hs.
  - cbn [parseline]. pose proof (IHp s Hs) as H1. destruct (parsepipe fuel s) as [c s1| |]; simpl in H1; [|done|done].
    destruct H1 as [Hc H1]. pose proof (parseback_sound buf fuel c s1 Hc H1) as H2.
    destruct (parseback fuel c s1) as [c2 s2| |]; simpl in H2; [|done|done]. destruct H2 as [Hc2 H2].
    destruct (peek s2 [59]) as [b s3] eqn:Ep. apply (peek_suffix _ _ _ _ buf) in Ep; [|done]. destruct b; [|done].
    destruct (gettoken s3) as [[[tok q] e] s4] eqn:Eg. apply (gettoken_suffix _ _ _ _ _ buf) in Eg as [H3 _]; [|done].
    pose proof (IHl s4 H3) as H4. destruct (parseline fuel s4); simpl in *; [|done|done].
    destruct H4. split; [by apply Forall_app|done].
  - cbn [parsepipe]. pose proof (parseexec_sound buf (parseline fuel) fuel s IHl Hs) as H1.
    destruct (parseexec _ fuel s) as [c s1| |]; simpl in H1; [|done|done]. destruct H1 as [Hc H1].
    destruct (peek s1 [124]) as [b s2] eqn:Ep. apply (peek_suffix _ _ _ _ buf) in Ep; [|done]. destruct b; [|done].
    destruct (gettoken s2) as [[[tok q] e] s3] eqn:Eg. apply (gettoken_suffix _ _ _ _ _ buf) in Eg as [H3 _]; [|done].
    pose proof (IHp s3 H3) as H4. destruct (parsepipe fuel s3); simpl in *; [|done|done].
    destruct H4. split; [by apply Forall_app|done].
Qed.

(** ** The zeros that end the words *)

Definition ends (n : nat) (ws : list word) : list nat := (λ w, n - length w.2)%nat <$> ws.

Lemma foldl_ends n argv b i : length (foldl (λ b w, end_word n w b) b argv) = length b ∧
  (i ∉ ends n argv → foldl (λ b w, end_word n w b) b argv !! i = b !! i) ∧
  (i ∈ ends n argv → (i < length b)%nat → foldl (λ b w, end_word n w b) b argv !! i = Some 0).
Proof.
  revert b. induction argv as [|w argv IH]; intros b; simpl; [split_and!; try done; by intros ?%elem_of_nil|].
  destruct (IH (end_word n w b)) as (H1 & H2 & H3). unfold end_word in *. rewrite length_insert in *.
  split_and!; [done| |].
  - intros [Hi Hn]%not_elem_of_cons. rewrite H2 by done. by rewrite list_lookup_insert_ne.
  - intros Hin Hlt. destruct (decide (i ∈ ends n argv)) as [|Hn]; [by apply H3|].
    rewrite H2 by done. apply elem_of_cons in Hin as [->|]; [|done]. by apply list_lookup_insert_eq.
Qed.

Lemma nulterminate_lookup n c b i : length (nulterminate n c b) = length b ∧
  (i ∉ ends n (words c) → nulterminate n c b !! i = b !! i) ∧
  (i ∈ ends n (words c) → (i < length b)%nat → nulterminate n c b !! i = Some 0).
Proof.
  assert (Hseq : ∀ l r b, (∀ b, length (nulterminate n l b) = length b ∧
      (i ∉ ends n (words l) → nulterminate n l b !! i = b !! i) ∧
      (i ∈ ends n (words l) → (i < length b)%nat → nulterminate n l b !! i = Some 0)) →
    (∀ b, length (nulterminate n r b) = length b ∧
      (i ∉ ends n (words r) → nulterminate n r b !! i = b !! i) ∧
      (i ∈ ends n (words r) → (i < length b)%nat → nulterminate n r b !! i = Some 0)) →
    let b' := nulterminate n r (nulterminate n l b) in
    length b' = length b ∧ (i ∉ ends n (words l ++ words r) → b' !! i = b !! i) ∧
    (i ∈ ends n (words l ++ words r) → (i < length b)%nat → b' !! i = Some 0)).
  { intros l r b0 Hl Hr b'. destruct (Hl b0) as (L1 & L2 & L3), (Hr (nulterminate n l b0)) as (R1 & R2 & R3).
    unfold b', ends in *. rewrite fmap_app, elem_of_app. split_and!; [congruence| |].
    - intros Hn. rewrite R2, L2; tauto.
    - intros Hin Hlt. destruct (decide (i ∈ ((λ w, n - length w.2)%nat <$> words r))) as [|Hn]; [apply R3; [done|lia]|].
      rewrite R2 by done. apply L3; tauto. }
  revert b. induction c as [argv|c IH f m fd|l IHl r IHr|l IHl r IHr|c IH]; intros b; simpl.
  - apply foldl_ends.
  - apply (Hseq c (Exec [f])); [done|]. intros b'. apply (foldl_ends n [f]).
  - by apply (Hseq l r).
  - by apply (Hseq l r).
  - apply IH.
Qed.

(** The string at a pointer: the bytes up to the first zero. *)
Fixpoint cstring (s : list Z) : list Z :=
  match s with
  | x :: s' => if x =? 0 then [] else x :: cstring s'
  | [] => []
  end.
Lemma cstring_spec txt s : Forall (λ x, x ≠ 0) txt → (∀ i x, txt !! i = Some x → s !! i = Some x) →
  s !! length txt = Some 0 → cstring s = txt.
Proof.
  revert s. induction txt as [|x txt IH]; intros s Hz Hs H0.
  - destruct s; simplify_eq/=; done.
  - apply Forall_cons in Hz as [Hx Hz]. pose proof (Hs 0%nat x eq_refl) as Hh. destruct s as [|y s]; simplify_eq/=.
    destruct (Z.eqb_spec x 0); [done|]. f_equal. apply IH; [done| |done]. intros i z Hi. by apply (Hs (S i)).
Qed.

Lemma word_position buf w i : word_in buf w →
  buf !! (length buf - length w.1 + i)%nat = w.1 !! i ∧
  buf !! (length buf - length w.2 + i)%nat = w.2 !! i ∧ (length w.2 ≤ length w.1 ≤ length buf)%nat ∧
  (length w.1 = length (text w) + length w.2)%nat.
Proof.
  intros ([pre Hb] & Hq & _). assert (El : length w.1 = (length (text w) + length w.2)%nat) by (rewrite Hq at 1; apply length_app).
  rewrite Hb, length_app. split_and!; try lia.
  - rewrite lookup_app_r by lia. f_equal. lia.
  - assert (Hl : ∀ k, w.1 !! k = (text w ++ w.2) !! k) by (intros; by rewrite <- Hq).
    rewrite lookup_app_r by lia. rewrite Hl, lookup_app_r by lia. f_equal. lia.
Qed.

Lemma parsecmd_words buf c rest : parsecmd buf = Parsed c rest → Forall (word_in buf) (words c).
Proof.
  unfold parsecmd. pose proof (proj1 (parse_sound buf (parse_fuel buf)) buf ltac:(by exists [])) as Hs.
  destruct (parseline _ buf) as [c' s| |]; [|done|done]. destruct (peek s []) as [? [|]]; [|done].
  intros [= -> _]. apply Hs.
Qed.

(** In the command that [parsecmd] returns, every argument and file name is
    a whole word of the line, and after [nulterminate] the zero-terminated
    string at its pointer is that word: no terminating zero falls into another
    word. *)
Theorem nulterminate_ends_words (buf : list Z) (c : cmd word) (rest : list Z) (w : word)
    (Hz : Forall (λ x, x ≠ 0) buf) (Hp : parsecmd buf = Parsed c rest) (Hw : w ∈ words c) :
  let b := nulterminate (length buf) c (buf ++ [0]) in
  cstring (drop (length buf - length w.1) b) = text w ∧ text w ≠ [] ∧ Forall (λ x, is_word x = true) (text w).
Proof.
  intros b. pose proof (parsecmd_words buf c rest Hp) as Hok. rewrite Forall_forall in Hok.
  pose proof (Hok w Hw) as Hwi. pose proof Hwi as (_ & Hq & Hne & Hch & _). split; [|done].
  destruct (word_position buf w 0 Hwi) as (_ & _ & Hlen & Hlt).
  apply cstring_spec.
  - rewrite Forall_lookup in Hz |- *. intros i x Hi. apply (Hz (length buf - length w.1 + i)%nat).
    rewrite (proj1 (word_position buf w i Hwi)), Hq. by rewrite lookup_app_l by (by eapply lookup_lt_Some).
  - intros i x Hi. apply lookup_lt_Some in Hi as Hil. rewrite lookup_drop.
    assert (Hb : buf !! (length buf - length w.1 + i)%nat = Some x).
    { rewrite (proj1 (word_position buf w i Hwi)), Hq. by rewrite lookup_app_l. }
    destruct (nulterminate_lookup (length buf) c (buf ++ [0]) (length buf - length w.1 + i)) as (_ & H2 & _).
    unfold b. rewrite H2, lookup_app_l; [done|lia|]. intros (w' & E & Hw')%list_elem_of_fmap.
    pose proof (Hok w' Hw') as Hwi'. destruct (word_position buf w' 0 Hwi') as (_ & He & _).
    destruct Hwi' as (_ & _ & _ & _ & Hh). rewrite E in Hb. rewrite Nat.add_0_r, Hb in He.
    destruct w' as [q' [|y e']]; simpl in *; [done|]. simplify_eq.
    rewrite Forall_lookup in Hch. specialize (Hch i y Hi). simpl in Hch. congruence.
  - rewrite lookup_drop. apply nulterminate_lookup.
    + apply list_elem_of_fmap. exists w. split; [lia|done].
    + rewrite length_app. simpl. lia.
Qed.

(** ** The descriptors of a pipeline

    What a descriptor refers to, and the programs that get executed, with
    their descriptors, when every call succeeds: [dup] and [pipe] take the
    lowest free descriptors, and [n] numbers the pipes. *)
Inductive handle : Type := HConsole | HFile (name : list Z) (mode : Z) | HPipeR (n : nat) | HPipeW (n : nat).
Definition fdtable : Type := list (option handle).

Fixpoint lowest (t : fdtable) : nat :=
  match t with
  | None :: _ => 0
  | Some _ :: t' => S (lowest t')
  | [] => 0
  end.
Definition put (h : option handle) (t : fdtable) : fdtable := <[lowest t := h]> t.

Fixpoint execs (p : prog) (t : fdtable) (n : nat) : list (list (list Z) * fdtable) * nat :=
  match p with
  | PExit | PPanic _ => ([], n)
  | PExec argv _ => ([(argv, t)], n)
  | PPrint _ k | PWait k => execs k t n
  | PClose fd k => execs k (<[Z.to_nat fd := None]> t) n
  | PDup fd k => execs k (put (t !!! Z.to_nat fd) t) n
  | POpen f m k _ => execs k (put (Some (HFile f m)) t) n
  | PPipe k _ =>
      let fd0 := lowest t in
      let t1 := put (Some (HPipeR n)) t in
      let fd1 := lowest t1 in
      execs (k (Z.of_nat fd0) (Z.of_nat fd1)) (put (Some (HPipeW n)) t1) (S n)
  | PFork child parent _ =>
      let (l1, n1) := execs child t n in
      let (l2, n2) := execs parent t n1 in
      (l1 ++ l2, n2)
  end.

(** Standard input, output and error, and nothing else. *)
Definition std (i o e : handle) : fdtable := [Some i; Some o; Some e] ++ replicate 13 None.

Fixpoint pipeline (a : list (list Z)) (cs : list (list (list Z))) : cmd (list Z) :=
  match cs with
  | [] => Exec a
  | b :: cs' => PipeC (Exec a) (pipeline b cs')
  end.
Fixpoint wiring (i o e : handle) (n : nat) (a : list (list Z)) (cs : list (list (list Z))) :
    list (list (list Z) * fdtable) :=
  match cs with
  | [] => [(a, std i o e)]
  | b :: cs' => (a, std i (HPipeW n) e) :: wiring (HPipeR n) o e (S n) b cs'
  end.

(** Running [a1 | a2 | ... | an] executes each command once, the first with
    the shell's input, the last with its output, and each pipe between two
    neighbours; none of them has another end of any pipe open. *)
Theorem pipeline_wiring (i o e : handle) (a : list (list Z)) (cs : list (list (list Z))) (n : nat) :
  Forall (λ x, x ≠ []) (a :: cs) →
  execs (runcmd (pipeline a cs)) (std i o e) n = (wiring i o e n a cs, (n + length cs)%nat).
Proof.
  revert i a n. induction cs as [|b cs IH]; intros i a n [Ha Hcs]%Forall_cons.
  - destruct a as [|x a]; [done|]. simpl. by rewrite Nat.add_0_r.
  - destruct a as [|x a]; [done|]. cbn [pipeline runcmd fork1 execs wiring]. simpl lowest. simpl put.
    cbv zeta. unfold fork1. cbn [execs]. change (Z.to_nat 1) with 1%nat. change (Z.to_nat 0) with 0%nat.
    change (Z.to_nat (Z.of_nat 3)) with 3%nat. change (Z.to_nat (Z.of_nat 4)) with 4%nat.
    match goal with |- context [execs (runcmd (pipeline b cs)) ?t _] => change t with (std (HPipeR n) o e) end.
    rewrite IH by done. rewrite app_nil_r. simpl. f_equal. lia.
Qed.

Lemma pipeline_wiring_witness :
  (execs (runcmd (pipeline [[108; 115]] [[[119; 99]]])) (std HConsole HConsole HConsole) 0).1 =
  [([[108; 115]], std HConsole (HPipeW 0) HConsole); ([[119; 99]], std (HPipeR 0) HConsole HConsole)].
Proof.
  rewrite (pipeline_wiring HConsole HConsole HConsole [[108; 115]] [[[119; 99]]] 0); [reflexivity|].
  repeat constructor; discriminate.
Defined.

(** ls a>b *)
Definition line1 : list Z := [108; 115; 32; 97; 62; 98; 10].
Lemma nulterminate_ends_words_witness :
  ∃ c w, parsecmd line1 = Parsed c [] ∧ w ∈ words c ∧
    cstring (drop (length line1 - length w.1) (nulterminate (length line1) c (line1 ++ [0]))) = [98].
Proof.
  destruct (parsecmd line1) as [c rest| |] eqn:E; [|vm_compute in E; discriminate..].
  assert (Hc : c = Redir (Exec [(line1, [32; 97; 62; 98; 10]); ([97; 62; 98; 10], [62; 98; 10])])
                     ([98; 10], [10]) 0x201 1 ∧ rest = []).
  { vm_compute in E. injection E as <- <-. split; reflexivity. }
  destruct Hc as [-> ->]. do 2 eexists. split; [reflexivity|]. split; [right; right; left|].
  apply (nulterminate_ends_words line1 _ [] ([98; 10], [10])); [|exact E|right; right; left].
  repeat constructor; discriminate.
Defined.

End Sh.
