(* ===== verification/ShPrint.v ===== *)
(** * Printing and parsing command lines

    A printer for commands, with parentheses where the grammar of
    user/src/sh.rs needs them, and the proof that the shell's parser gives
    back the command. *)

From S2P Require Import Prelude Mem Ulib Sh.
Import Sh.

Module ShPrint.

(** ** The printer *)

Definition wrap (b : bool) (s : list Z) : list Z := if b then 40 :: 32 :: s ++ [41; 32] else s.
Definition redir_sym (fd : Z) : Z := if fd =? 0 then 60 else 62.

(** [lvl] is the grammar level: 0 for [parseexec], 1 for [parsepipe], 2 for a
    line without [;], and 3 for [parseline]. *)
Fixpoint show (lvl : nat) (c : cmd (list Z)) : list Z :=
  match c with
  | Exec argv => concat ((λ w, w ++ [32]) <$> argv)
  | Redir c f _ fd => show 0 c ++ [redir_sym fd; 32] ++ f ++ [32]
  | PipeC l r => wrap (bool_decide (lvl < 1)%nat) (show 0 l ++ [124; 32] ++ show 1 r)
  | Back c => wrap (bool_decide (lvl < 2)%nat) (show 2 c ++ [38; 32])
  | ListC l r => wrap (bool_decide (lvl < 3)%nat) (show 2 l ++ [59; 32] ++ show 3 r)
  end.

Definition good_word (w : list Z) : Prop := w ≠ [] ∧ Forall (λ x, is_word x = true ∧ x ≠ 0) w.

(** The commands the parser can make. *)
Fixpoint good (c : cmd (list Z)) : Prop :=
  match c with
  | Exec argv => (length argv < MAXARGS)%nat ∧ Forall good_word argv
  | Redir c f mode fd => good c ∧ good_word f ∧
      (mode = O_RDONLY ∧ fd = 0 ∨ mode = Z.lor O_WRONLY O_CREATE ∧ fd = 1)
  | PipeC l r | ListC l r => good l ∧ good r
  | Back c => good c
  end.

(** The command with the texts of its words. *)
Fixpoint texts (c : cmd word) : cmd (list Z) :=
  match c with
  | Exec argv => Exec (text <$> argv)
  | Redir c f m fd => Redir (texts c) (text f) m fd
  | PipeC l r => PipeC (texts l) (texts r)
  | ListC l r => ListC (texts l) (texts r)
  | Back c => Back (texts c)
  end.

(** ** Tokens of printed text *)

Lemma is_word_spec x : is_word x = true → is_in x WHITESPACE = false ∧ is_in x SYMBOLS = false.
Proof. unfold is_word. rewrite andb_true_iff, !negb_true_iff. done. Qed.

Lemma skip_white_word w s : good_word w → skip_white (w ++ s) = w ++ s.
Proof.
  intros [Hne Hw]. destruct w as [|x w]; [done|]. apply Forall_cons in Hw as [[Hx _] _].
  apply is_word_spec in Hx as [Hx _]. simpl. by rewrite Hx.
Qed.
Lemma skip_word_word w s : Forall (λ x, is_word x = true ∧ x ≠ 0) w → skip_word (w ++ 32 :: s) = 32 :: s.
Proof.
  induction 1 as [|x w [Hx _] _ IH]; [done|]. apply is_word_spec in Hx as [H1 H2].
  simpl. by rewrite H1, H2.
Qed.
Lemma skip_white_space s : skip_white (32 :: s) = skip_white s.
Proof. done. Qed.

(** A word token. *)
Lemma gettoken_word w s : good_word w →
  gettoken (w ++ 32 :: s) = (97, w ++ 32 :: s, 32 :: s, skip_white s).
Proof.
  intros Hw. unfold gettoken. rewrite skip_white_word, skip_word_word by (done || apply Hw).
  destruct Hw as [Hne Hw]. destruct w as [|x w]; [done|]. apply Forall_cons in Hw as [[Hx Hx0] _].
  apply is_word_spec in Hx as [_ Hx]. rewrite is_symbol in Hx. apply orb_false_iff in Hx as [H1 H2].
  simpl. destruct (Z.eqb_spec x 0); [done|]. by rewrite H1, H2.
Qed.
Lemma text_word w s : text (w ++ 32 :: s, 32 :: s) = w.
Proof.
  unfold text. simpl. rewrite length_app. simpl. replace (_ + _ - _)%nat with (length w) by lia. apply take_app_length.
Qed.

(** A one-character token. *)
Lemma gettoken_symbol x s : is_in x [124; 40; 41; 59; 38; 60] = true →
  gettoken (x :: s) = (x, x :: s, s, skip_white s).
Proof.
  intros Hx. apply is_in_elem in Hx. rewrite !elem_of_cons in Hx.
  destruct Hx as [->|[->|[->|[->|[->|[->|?%elem_of_nil]]]]]]; done.
Qed.
Lemma gettoken_gt s : gettoken (62 :: 32 :: s) = (62, 62 :: 32 :: s, 32 :: s, skip_white s).
Proof. done. Qed.

Lemma gettoken_skip s : gettoken (skip_white s) = gettoken s.
Proof. unfold gettoken. by rewrite skip_white_idem. Qed.
Lemma peek_skip s toks : peek (skip_white s) toks = peek s toks.
Proof. unfold peek. by rewrite skip_white_idem. Qed.

(** The parsing functions skip leading white space. *)
Lemma parseredirs_skip fuel c s : parseredirs fuel c (skip_white s) = parseredirs fuel c s.
Proof. destruct fuel; [done|]. cbn [parseredirs]. by rewrite peek_skip. Qed.
Lemma parseargs_skip fuel c n s : parseargs fuel c n (skip_white s) = parseargs fuel c n s.
Proof. destruct fuel; [done|]. cbn [parseargs]. by rewrite peek_skip. Qed.
Lemma parseback_skip fuel c s : parseback fuel c (skip_white s) = parseback fuel c s.
Proof. destruct fuel; [done|]. cbn [parseback]. by rewrite peek_skip. Qed.
Lemma parseexec_skip pl fuel s : parseexec pl fuel (skip_white s) = parseexec pl fuel s.
Proof. unfold parseexec. by rewrite peek_skip. Qed.
Lemma parsepipe_skip fuel s : parsepipe fuel (skip_white s) = parsepipe fuel s.
Proof. destruct fuel; [done|]. cbn [parsepipe]. by rewrite parseexec_skip. Qed.
Lemma parseline_skip fuel s : parseline fuel (skip_white s) = parseline fuel s.
Proof. destruct fuel; [done|]. cbn [parseline]. by rewrite parsepipe_skip. Qed.

(** What may follow: nothing, or one of [toks]. *)
Definition follows (toks : list Z) (s : list Z) : Prop :=
  match skip_white s with [] => True | x :: _ => x ∈ toks end.

Lemma peek_follows toks s set : follows toks s → (∀ x, x ∈ toks → x ∉ set) → peek s set = (false, skip_white s).
Proof.
  unfold follows, peek, byte_at. intros Hf Hd. destruct (skip_white s) as [|x s']; [done|]. simpl.
  f_equal. rewrite andb_false_iff. right. unfold is_in. apply bool_decide_eq_false. auto.
Qed.
Lemma peek_head x s set : is_in x WHITESPACE = false → x ≠ 0 → is_in x set = true → peek (x :: s) set = (true, x :: s).
Proof. intros Hw H0 Hi. unfold peek. simpl. rewrite Hw. unfold byte_at. simpl. destruct (Z.eqb_spec x 0); [done|]. by rewrite Hi. Qed.
Lemma peek_not_head x s set : is_in x WHITESPACE = false → is_in x set = false → peek (x :: s) set = (false, x :: s).
Proof. intros Hw Hi. unfold peek. simpl. rewrite Hw. unfold byte_at. simpl. by rewrite Hi, andb_false_r. Qed.

(** ** Parsing with enough fuel *)

Definition ev {A} (f : nat → A) (r : A) : Prop := ∃ N, ∀ F, (N ≤ F)%nat → f F = r.

Lemma ev_const {A} (r : A) : ev (λ _, r) r.
Proof. by exists 0%nat. Qed.
Lemma ev_ext {A} (f g : nat → A) r : (∀ F, (0 < F)%nat → f F = g F) → ev g r → ev f r.
Proof. intros E [N H]. exists (S N). intros F HF. rewrite E by lia. apply H. lia. Qed.
Lemma ev_step {A} (f g : nat → A) r : (∀ F, f (S F) = g F) → ev g r → ev f r.
Proof. intros E [N H]. exists (S N). intros [|F] HF; [lia|]. rewrite E. apply H. lia. Qed.

Definition bindp {A B} (r : pres A) (k : A → list Z → pres B) : pres B :=
  match r with
  | Parsed a s => k a s
  | Syntax e => Syntax e
  | OutOfFuel => OutOfFuel
  end.
Lemma ev_bind {A B} (f : nat → pres A) (k : nat → A → list Z → pres B) a s r :
  ev f (Parsed a s) → ev (λ F, k F a s) r → ev (λ F, bindp (f F) (k F)) r.
Proof.
  intros [N1 H1] [N2 H2]. exists (N1 `max` N2)%nat. intros F HF. rewrite H1 by lia. apply H2. lia.
Qed.

(** What [parseexec] does after the command [c], at [R]. *)
Fixpoint args {W} (c : cmd W) : option nat :=
  match c with
  | Exec argv => Some (length argv)
  | Redir c _ _ _ => args c
  | _ => None
  end.
Definition cont (F1 F2 : nat) (c : cmd word) (R : list Z) : pres (cmd word) :=
  match args c with
  | Some n => bindp (parseredirs F1 c R) (λ c s, parseargs F2 c n s)
  | None => parseredirs F1 c R
  end.
Definition ev2 (f : nat → nat → pres (cmd word)) (r : pres (cmd word)) : Prop :=
  ∃ N, ∀ F1 F2, (N ≤ F1)%nat → (N ≤ F2)%nat → f F1 F2 = r.

Definition P0 (c : cmd (list Z)) : Prop := ∀ R, follows [60; 62; 124; 41; 38; 59] R →
  ∃ c', texts c' = c ∧
    ∀ r, ev2 (λ F1 F2, cont F1 F2 c' R) r → ev (λ F, parseexec (parseline F) F (show 0 c ++ R)) r.
Definition P1 (c : cmd (list Z)) : Prop := ∀ R, follows [41; 38; 59] R →
  ∃ c', texts c' = c ∧ ev (λ F, parsepipe F (show 1 c ++ R)) (Parsed c' (skip_white R)).
Definition P2 (c : cmd (list Z)) : Prop := ∀ R, follows [41; 38; 59] R →
  ∃ c', texts c' = c ∧
    ∀ r, ev (λ F, parseback F c' R) r → ev (λ F, bindp (parsepipe F (show 2 c ++ R)) (parseback F)) r.
Definition P3 (c : cmd (list Z)) : Prop := ∀ R, follows [41] R →
  ∃ c', texts c' = c ∧ ev (λ F, parseline F (show 3 c ++ R)) (Parsed c' (skip_white R)).

Lemma follows_mono t1 t2 R : follows t1 R → t1 ⊆ t2 → follows t2 R.
Proof. unfold follows. intros H Hs. destruct (skip_white R); [done|]. by apply Hs. Qed.

Lemma redirs_stop F c R : (0 < F)%nat → follows [124; 41; 38; 59] R → parseredirs F c R = Parsed c (skip_white R).
Proof.
  intros HF Hf. destruct F as [|F]; [lia|]. cbn [parseredirs].
  rewrite (peek_follows [124; 41; 38; 59]); [done|done|]. intros x. set_solver.
Qed.
Lemma args_stop F c n R : (0 < F)%nat → follows [124; 41; 38; 59] R → parseargs F c n R = Parsed c (skip_white R).
Proof.
  intros HF Hf. destruct F as [|F]; [lia|]. cbn [parseargs]. unfold follows in Hf. unfold peek, gettoken.
  rewrite skip_white_idem. destruct (skip_white R) as [|x s] eqn:E; [done|]. unfold byte_at. simpl nth.
  assert (Hx : x ≠ 0) by (intros ->; set_solver). destruct (Z.eqb_spec x 0); [done|]. simpl.
  assert (Hi : is_in x [124; 41; 38; 59] = true) by (by apply is_in_elem). by rewrite Hi.
Qed.
Lemma cont_stop c R : follows [124; 41; 38; 59] R → ev2 (λ F1 F2, cont F1 F2 c R) (Parsed c (skip_white R)).
Proof.
  intros Hf. exists 1%nat. intros F1 F2 H1 H2. unfold cont. rewrite redirs_stop by (done || lia).
  destruct (args c) as [n|]; [|done]. simpl. rewrite parseargs_skip. apply args_stop; [lia|done].
Qed.

Lemma words_head w ws R : good_word w →
  ∃ x s, concat ((λ w, w ++ [32]) <$> (w :: ws)) ++ R = x :: s ∧ is_in x WHITESPACE = false ∧ x ∉ SYMBOLS.
Proof.
  intros [Hne Hw]. destruct w as [|x w]; [done|]. apply Forall_cons in Hw as [[Hx _] _].
  apply is_word_spec in Hx as [H1 H2]. eexists x, _. split; [reflexivity|]. split; [done|].
  unfold is_in in H2. by apply bool_decide_eq_false in H2.
Qed.
Lemma not_symbol x set : x ∉ SYMBOLS → set ⊆ SYMBOLS → is_in x set = false.
Proof. intros Hx Hs. unfold is_in. apply bool_decide_eq_false. auto. Qed.

(** The words of a simple command. *)
Lemma parse_words R : ∀ ws pre n, Forall good_word ws → ws ≠ [] → length pre = n → (n + length ws < MAXARGS)%nat →
  ∃ ws', text <$> ws' = ws ∧ ∀ r, ev2 (λ F1 F2, cont F1 F2 (Exec (pre ++ ws')) R) r →
    ev (λ F, parseargs F (Exec pre) n (concat ((λ w, w ++ [32]) <$> ws) ++ R)) r.
Proof.
  induction ws as [|w ws IH]; intros pre n Hg Hne Hl Hn; [done|]. apply Forall_cons in Hg as [Hw Hg].
  set (rest := concat ((λ w, w ++ [32]) <$> ws) ++ R).
  assert (Es : concat ((λ w, w ++ [32]) <$> (w :: ws)) ++ R = w ++ 32 :: rest)
    by (simpl; by rewrite <- !app_assoc).
  assert (Hstep : ∀ F, parseargs (S F) (Exec pre) n (concat ((λ w, w ++ [32]) <$> (w :: ws)) ++ R) =
    bindp (parseredirs F (Exec (pre ++ [(w ++ 32 :: rest, 32 :: rest)])) rest) (λ c s, parseargs F c (S n) s)).
  { intros F. rewrite Es. cbn [parseargs].
    assert (Hp : peek (w ++ 32 :: rest) [124; 41; 38; 59] = (false, w ++ 32 :: rest)).
    { rewrite <- Es. destruct (words_head w ws R Hw) as (x & s & E & Hx1 & Hx2). rewrite E.
      apply peek_not_head; [done|]. apply not_symbol; [done|]. unfold SYMBOLS. set_solver. }
    rewrite Hp, gettoken_word by done. cbn [Z.eqb negb add_arg]. simpl (97 =? 0). simpl (97 =? 97). cbn [negb].
    rewrite decide_False by (unfold MAXARGS in *; simpl in Hn; lia). rewrite parseredirs_skip. done. }
  destruct ws as [|w2 ws].
  - exists [(w ++ 32 :: rest, 32 :: rest)]. split; [simpl; by rewrite text_word|]. intros r [N H].
    apply (ev_step _ _ _ Hstep). exists N. intros F HF. specialize (H F F HF HF). unfold cont in H. simpl args in H.
    rewrite length_app, Hl in H. simpl in H. rewrite Nat.add_1_r in H. exact H.
  - destruct (IH (pre ++ [(w ++ 32 :: rest, 32 :: rest)]) (S n)) as (ws' & Et & Hk);
      [done|done|rewrite length_app, Hl; simpl; lia|simpl in *; lia|].
    exists ((w ++ 32 :: rest, 32 :: rest) :: ws'). split; [simpl; f_equal; [apply text_word|exact Et]|]. intros r Hr.
    apply (ev_step _ _ _ Hstep). eapply ev_bind; [|apply Hk; by rewrite <- app_assoc].
    exists 1%nat. intros [|F] HF; [lia|]. apply Forall_cons in Hg as [Hw2 _].
    destruct (words_head w2 ws R Hw2) as (x & s & E & Hx1 & Hx2). fold rest in E. rewrite E. cbn [parseredirs].
    rewrite peek_not_head; [by rewrite <- E|done|]. apply not_symbol; [done|]. unfold SYMBOLS. set_solver.
Qed.

(** ** The levels of the grammar *)

Lemma P0_exec argv : good (Exec argv) → P0 (Exec argv).
Proof.
  intros [Hl Hg] R Hf. destruct argv as [|w ws].
  - exists (Exec []). split; [done|]. intros r [N H]. exists (S N). intros F HF. simpl app. unfold parseexec.
    rewrite (peek_follows [60; 62; 124; 41; 38; 59]) by (done || set_solver). rewrite parseredirs_skip.
    specialize (H F F ltac:(lia) ltac:(lia)). exact H.
  - destruct (parse_words R (w :: ws) [] 0 Hg) as (ws' & Et & Hk); [done|done|done|].
    exists (Exec ws'). split; [simpl; by rewrite Et|]. intros r Hr. specialize (Hk r Hr).
    set (s := show 0 (Exec (w :: ws)) ++ R). fold s in Hk.
    apply Forall_cons in Hg as [Hw _]. destruct (words_head w ws R Hw) as (x & s' & Es & Hx1 & Hx2).
    change (s = x :: s') in Es. destruct Hk as [N Hk]. exists (S N). intros [|F] HF; [lia|]. unfold parseexec. rewrite Es.
    rewrite peek_not_head; [|done|apply not_symbol; [done|]; unfold SYMBOLS; set_solver]. cbn [parseredirs].
    rewrite peek_not_head; [|done|apply not_symbol; [done|]; unfold SYMBOLS; set_solver].
    rewrite <- Es. apply Hk. lia.
Qed.

(** A redirection, read by [parseredirs]. *)
Lemma redir_step F c f mode fd R : good_word f →
  (mode = O_RDONLY ∧ fd = 0 ∨ mode = Z.lor O_WRONLY O_CREATE ∧ fd = 1) →
  parseredirs (S F) c ([redir_sym fd; 32] ++ f ++ 32 :: R) =
  parseredirs F (Redir c (f ++ 32 :: R, 32 :: R) mode fd) R.
Proof.
  intros Hf Hm. cbn [parseredirs]. destruct Hm as [[-> ->]|[-> ->]]; unfold redir_sym; simpl (_ =? 0); cbv iota; cbn [app].
  - rewrite peek_head by done. rewrite gettoken_symbol by done. rewrite gettoken_skip.
    replace (gettoken (32 :: f ++ 32 :: R)) with (gettoken (f ++ 32 :: R)) by (rewrite <- (gettoken_skip (32 :: _)); by rewrite skip_white_space, gettoken_skip).
    rewrite gettoken_word by done. simpl. by rewrite parseredirs_skip.
  - rewrite peek_head by done. rewrite gettoken_gt, gettoken_skip, gettoken_word by done. simpl. by rewrite parseredirs_skip.
Qed.

Lemma P0_redir c f mode fd : P0 c → good_word f →
  (mode = O_RDONLY ∧ fd = 0 ∨ mode = Z.lor O_WRONLY O_CREATE ∧ fd = 1) → P0 (Redir c f mode fd).
Proof.
  intros H0 Hf Hm R HR. destruct (H0 ([redir_sym fd; 32] ++ f ++ 32 :: R)) as (c' & Et & Hk).
  { unfold follows, redir_sym. destruct Hm as [[_ ->]|[_ ->]]; simpl; set_solver. }
  exists (Redir c' (f ++ 32 :: R, 32 :: R) mode fd). split; [simpl; by rewrite Et, text_word|].
  intros r [N Hr]. cbn [show]. rewrite <- !app_assoc. cbn [app] in *. apply Hk. exists (S N).
  intros [|F1] F2 HF1 HF2; [lia|]. rewrite <- (Hr F1 F2) by lia. unfold cont. cbn [args].
  pose proof (redir_step F1 c' f mode fd R Hf Hm) as E. cbn [app] in E. by rewrite E.
Qed.

Lemma args_texts c : args (texts c) = args c.
Proof. induction c; simpl; rewrite ?length_fmap; done. Qed.

(** A command in parentheses. *)
Lemma P0_wrap c : P3 c → args c = None → show 0 c = wrap true (show 3 c) → P0 c.
Proof.
  intros H3 Ha Hs R _. destruct (H3 (41 :: 32 :: R)) as (c' & Et & N1 & Hk); [unfold follows; simpl; set_solver|].
  assert (Ha' : args c' = None) by (by rewrite <- args_texts, Et).
  exists c'. split; [done|]. intros r [N2 Hr]. exists (N1 `max` N2)%nat. intros F HF. rewrite Hs. unfold wrap.
  assert (Es : (40 :: 32 :: show 3 c ++ [41; 32]) ++ R = 40 :: 32 :: show 3 c ++ 41 :: 32 :: R)
    by (simpl; by rewrite <- app_assoc).
  rewrite Es. unfold parseexec, parseblock. rewrite !peek_head by done. cbn [negb].
  rewrite gettoken_symbol by done. rewrite skip_white_space, parseline_skip, Hk by lia.
  change (skip_white (41 :: 32 :: R)) with (41 :: 32 :: R). rewrite peek_head by done. cbn [negb].
  rewrite gettoken_symbol by done. rewrite skip_white_space, parseredirs_skip.
  specialize (Hr F F ltac:(lia) ltac:(lia)). unfold cont in Hr. by rewrite Ha' in Hr.
Qed.

Lemma P1_of_P0 c : show 1 c = show 0 c → P0 c → P1 c.
Proof.
  intros Hs H0 R HR. destruct (H0 R) as (c' & Et & Hk); [eapply follows_mono; [done|set_solver]|].
  exists c'. split; [done|]. rewrite Hs.
  assert (HR' : follows [124; 41; 38; 59] R) by (eapply follows_mono; [done|set_solver]).
  destruct (Hk _ (cont_stop c' R HR')) as [N Hp]. exists (S N). intros [|F] HF; [lia|]. cbn [parsepipe].
  rewrite Hp by lia. rewrite peek_skip, (peek_follows [41; 38; 59]) by (done || set_solver). done.
Qed.

Lemma P1_pipe l r : P0 l → P1 r → P1 (PipeC l r).
Proof.
  intros H0 H1 R HR. destruct (H1 R HR) as (r' & Er & N2 & Hr).
  destruct (H0 (124 :: 32 :: show 1 r ++ R)) as (l' & El & Hk); [unfold follows; simpl; set_solver|].
  destruct (Hk _ (cont_stop l' (124 :: 32 :: show 1 r ++ R) ltac:(unfold follows; simpl; set_solver))) as [N1 Hl].
  exists (PipeC l' r'). split; [simpl; congruence|]. exists (S (N1 `max` N2)). intros [|F] HF; [lia|].
  assert (Es : show 1 (PipeC l r) ++ R = show 0 l ++ 124 :: 32 :: show 1 r ++ R) by (simpl; by rewrite <- !app_assoc).
  rewrite Es. cbn [parsepipe]. rewrite Hl by lia. change (skip_white (124 :: ?s)) with (124 :: s).
  rewrite peek_head by done. rewrite gettoken_symbol by done. rewrite skip_white_space, parsepipe_skip, Hr by lia. done.
Qed.

Lemma P2_of_P1 c : show 2 c = show 1 c → P1 c → P2 c.
Proof.
  intros Hs H1 R HR. destruct (H1 R HR) as (c' & Et & Hk). exists c'. split; [done|]. intros r Hr. rewrite Hs.
  eapply ev_bind; [exact Hk|]. destruct Hr as [N Hr]. exists N. intros F HF. rewrite parseback_skip. by apply Hr.
Qed.

Lemma P2_back c : P2 c → P2 (Back c).
Proof.
  intros H2 R HR. destruct (H2 (38 :: 32 :: R)) as (c' & Et & Hk); [unfold follows; simpl; set_solver|].
  exists (Back c'). split; [simpl; congruence|]. intros r Hr.
  assert (Es : show 2 (Back c) ++ R = show 2 c ++ 38 :: 32 :: R) by (simpl; by rewrite <- app_assoc).
  rewrite Es. apply Hk. eapply ev_step; [|exact Hr]. intros F. cbn [parseback].
  rewrite peek_head by done. rewrite gettoken_symbol by done. by rewrite skip_white_space, parseback_skip.
Qed.

Lemma back_stop c R : follows [41; 59] R → ev (λ F, parseback F c R) (Parsed c (skip_white R)).
Proof.
  intros Hf. exists 1%nat. intros [|F] HF; [lia|]. cbn [parseback].
  rewrite (peek_follows [41; 59]) by (done || set_solver). done.
Qed.

Lemma P3_of_P2 c : show 3 c = show 2 c → P2 c → P3 c.
Proof.
  intros Hs H2 R HR. destruct (H2 R) as (c' & Et & Hk); [eapply follows_mono; [done|set_solver]|].
  exists c'. split; [done|]. rewrite Hs.
  destruct (Hk _ (back_stop c' R ltac:(eapply follows_mono; [done|set_solver]))) as [N Hp].
  exists (S N). intros [|F] HF; [lia|]. cbn [parseline]. specialize (Hp F ltac:(lia)).
  destruct (parsepipe F (show 2 c ++ R)) as [c1 s1| |]; simpl in Hp; [|done|done]. rewrite Hp.
  rewrite peek_skip, (peek_follows [41]) by (done || set_solver). done.
Qed.

Lemma P3_list l r : P2 l → P3 r → P3 (ListC l r).
Proof.
  intros H2 H3 R HR. destruct (H3 R HR) as (r' & Er & N2 & Hr).
  destruct (H2 (59 :: 32 :: show 3 r ++ R)) as (l' & El & Hk); [unfold follows; simpl; set_solver|].
  destruct (Hk _ (back_stop l' (59 :: 32 :: show 3 r ++ R) ltac:(unfold follows; simpl; set_solver))) as [N1 Hl].
  exists (ListC l' r'). split; [simpl; congruence|]. exists (S (N1 `max` N2)). intros [|F] HF; [lia|].
  assert (Es : show 3 (ListC l r) ++ R = show 2 l ++ 59 :: 32 :: show 3 r ++ R) by (simpl; by rewrite <- !app_assoc).
  rewrite Es. cbn [parseline]. specialize (Hl F ltac:(lia)).
  destruct (parsepipe F _) as [c1 s1| |]; simpl in Hl; [|done|done]. rewrite Hl.
  change (skip_white (59 :: ?s)) with (59 :: s).
  rewrite peek_head by done. rewrite gettoken_symbol by done. rewrite skip_white_space, parseline_skip, Hr by lia. done.
Qed.

(** Every command at every level. *)
Lemma parse_show c : good c → P0 c ∧ P1 c ∧ P2 c ∧ P3 c.
Proof.
  assert (Hup : ∀ c, show 1 c = show 0 c → show 2 c = show 1 c → show 3 c = show 2 c → P0 c → P0 c ∧ P1 c ∧ P2 c ∧ P3 c).
  { intros d E1 E2 E3 H0. pose proof (P1_of_P0 d E1 H0) as H1. pose proof (P2_of_P1 d E2 H1) as H2.
    pose proof (P3_of_P2 d E3 H2). done. }
  induction c as [argv|c IH f m fd|l IHl r IHr|l IHl r IHr|c IH]; intros Hg.
  - apply Hup; try done. by apply P0_exec.
  - destruct Hg as (Hc & Hf & Hm). apply Hup; try done. apply P0_redir; [by apply IH|done|done].
  - destruct Hg as [Hgl Hgr]. pose proof (P1_pipe l r (proj1 (IHl Hgl)) (proj1 (proj2 (IHr Hgr)))) as H1.
    pose proof (P2_of_P1 (PipeC l r) eq_refl H1) as H2. pose proof (P3_of_P2 (PipeC l r) eq_refl H2) as H3.
    split; [by apply P0_wrap|done].
  - destruct Hg as [Hgl Hgr]. destruct (IHl Hgl) as (_ & _ & Hl2 & _), (IHr Hgr) as (_ & _ & _ & Hr3).
    pose proof (P3_list l r Hl2 Hr3) as H3. assert (H0 : P0 (ListC l r)) by (by apply P0_wrap).
    pose proof (P1_of_P0 (ListC l r) eq_refl H0) as H1. pose proof (P2_of_P1 (ListC l r) eq_refl H1). done.
  - destruct (IH Hg) as (_ & _ & Hc2 & _). pose proof (P2_back c Hc2) as H2.
    pose proof (P3_of_P2 (Back c) eq_refl H2) as H3. assert (H0 : P0 (Back c)) by (by apply P0_wrap).
    pose proof (P1_of_P0 (Back c) eq_refl H0). done.
Qed.

(** ** More fuel changes no answer *)

Definition le_r {A} (r r' : pres A) : Prop := r = OutOfFuel ∨ r = r'.

Lemma parseredirs_le F c s : le_r (parseredirs F c s) (parseredirs (S F) c s).
Proof.
  revert c s. induction F as [|F IH]; intros c s; [by left|]. cbn [parseredirs]. fold parseredirs.
  destruct (peek s _) as [[] s1]; [|by right]. destruct (gettoken s1) as [[[t1 q1] e1] s2].
  destruct (gettoken s2) as [[[t2 q2] e2] s3]. destruct (negb _); [by right|].
  repeat match goal with |- le_r (if ?b then _ else _) _ => destruct b end; apply IH.
Qed.
Lemma le_bind {A B} (r r' : pres A) (k k' : A → list Z → pres B) :
  le_r r r' → (∀ a s, le_r (k a s) (k' a s)) → le_r (bindp r k) (bindp r' k').
Proof. intros [->| ->] Hk; [by left|]. destruct r'; simpl; [apply Hk|by right|by left]. Qed.
Lemma parseargs_le F c n s : le_r (parseargs F c n s) (parseargs (S F) c n s).
Proof.
  revert c n s. induction F as [|F IH]; intros c n s; [by left|]. cbn [parseargs].
  destruct (peek s _) as [[] s1]; [by right|]. destruct (gettoken s1) as [[[t1 q1] e1] s2].
  destruct (t1 =? 0); [by right|]. destruct (negb _); [by right|]. destruct (decide _); [by right|].
  apply (le_bind _ _ (λ c s, parseargs F c (S n) s) (λ c s, parseargs (S F) c (S n) s));
    [apply parseredirs_le|intros; apply IH].
Qed.
Lemma parseback_le F c s : le_r (parseback F c s) (parseback (S F) c s).
Proof.
  revert c s. induction F as [|F IH]; intros c s; [by left|]. cbn [parseback].
  destruct (peek s _) as [[] s1]; [|by right]. destruct (gettoken s1) as [[[t1 q1] e1] s2]. apply IH.
Qed.
Lemma parseexec_le pl pl' F s : (∀ s, le_r (pl s) (pl' s)) → le_r (parseexec pl F s) (parseexec pl' (S F) s).
Proof.
  intros Hpl. unfold parseexec, parseblock. destruct (peek s _) as [[] s1].
  - destruct (peek s1 _) as [[] s2]; [|by right]. cbn [negb]. destruct (gettoken s2) as [[[t1 q1] e1] s3].
    apply (le_bind _ _ (λ c s, let (b, s) := peek s [41] in if negb b then Syntax "syntax - missing )"
        else let '(_, _, _, s) := gettoken s in parseredirs F c s)
      (λ c s, let (b, s) := peek s [41] in if negb b then Syntax "syntax - missing )"
        else let '(_, _, _, s) := gettoken s in parseredirs (S F) c s)); [apply Hpl|].
    intros c s4. destruct (peek s4 _) as [[] s5]; [|by right]. cbn [negb].
    destruct (gettoken s5) as [[[t2 q2] e2] s6]. apply parseredirs_le.
  - apply (le_bind _ _ (λ c s, parseargs F c 0 s) (λ c s, parseargs (S F) c 0 s));
      [apply parseredirs_le|intros; apply parseargs_le].
Qed.
Lemma parse_le F : (∀ s, le_r (parseline F s) (parseline (S F) s)) ∧ (∀ s, le_r (parsepipe F s) (parsepipe (S F) s)).
Proof.
  induction F as [|F [IHl IHp]]; [split; by left|]. split; intros s.
  - cbn [parseline]. eapply (le_bind _ _ (λ c s, bindp (parseback F c s) _) (λ c s, bindp (parseback (S F) c s) _));
      [apply IHp|]. intros c s1. apply le_bind; [apply parseback_le|]. intros c2 s2.
    destruct (peek s2 _) as [[] s3]; [|by right]. destruct (gettoken s3) as [[[t1 q1] e1] s4].
    apply (le_bind _ _ (λ c s, Parsed (ListC c2 c) s) (λ c s, Parsed (ListC c2 c) s)); [apply IHl|by right].
  - cbn [parsepipe]. apply (le_bind _ _ (λ c s, let (b, s) := peek s [124] in if b then
        let '(_, _, _, s) := gettoken s in bindp (parsepipe F s) (λ c2 s, Parsed (PipeC c c2) s) else Parsed c s)
      (λ c s, let (b, s) := peek s [124] in if b then
        let '(_, _, _, s) := gettoken s in bindp (parsepipe (S F) s) (λ c2 s, Parsed (PipeC c c2) s) else Parsed c s));
      [by apply parseexec_le|]. intros c s1.
    destruct (peek s1 _) as [[] s2]; [|by right]. destruct (gettoken s2) as [[[t1 q1] e1] s3].
    apply le_bind; [apply IHp|by right].
Qed.
Lemma parseline_more F F' s : (F ≤ F')%nat → parseline F s ≠ OutOfFuel → parseline F' s = parseline F s.
Proof.
  intros HF Hn. induction HF as [|F' _ IH]; [done|].
  destruct (proj1 (parse_le F') s) as [E|E]; congruence.
Qed.

(** C19: A command printed with parentheses only where the grammar needs them
    parses back to itself, word for word. The commands are those the parser can
    make: nonempty words without white space or symbols, fewer than [MAXARGS]
    arguments, and the two redirections. *)
Theorem parsecmd_show (c : cmd (list Z)) (Hg : good c) :
  ∃ c', parsecmd (show 3 c) = Parsed c' [] ∧ texts c' = c.
Proof.
  destruct (parse_show c Hg) as (_ & _ & _ & H3). destruct (H3 [] I) as (c' & Et & N & Hk).
  rewrite app_nil_r in Hk. exists c'. split; [|done]. unfold parsecmd. set (F := parse_fuel (show 3 c)).
  assert (Hf : parseline F (show 3 c) ≠ OutOfFuel).
  { pose proof (proj1 (parse_fine F) (show 3 c) ltac:(unfold F, parse_fuel; lia)) as Hf. intros E. by rewrite E in Hf. }
  rewrite <- (parseline_more F (F `max` N) _ ltac:(lia) Hf), Hk by lia. done.
Qed.

(** [( a b > c ; d & ) | e < f], as bytes. *)
Definition cmd1 : cmd (list Z) :=
  PipeC (ListC (Redir (Exec [[97]; [98]]) [99] (Z.lor O_WRONLY O_CREATE) 1) (Back (Exec [[100]])))
    (Redir (Exec [[101]]) [102] O_RDONLY 0).
Lemma parsecmd_show_witness :
  good cmd1 ∧ ∃ c', parsecmd (show 3 cmd1) = Parsed c' [] ∧ texts c' = cmd1.
Proof.
  assert (Hw : ∀ x, is_word x = true → x ≠ 0 → good_word [x]).
  { intros x Hx H0. split; [done|]. by repeat constructor. }
  assert (Hg : good cmd1).
  { unfold cmd1. cbn [good]. repeat split; try (apply Hw; done); try (unfold MAXARGS; simpl; lia);
      try (repeat constructor; apply Hw; done); auto. }
  split; [exact Hg|]. exact (parsecmd_show cmd1 Hg).
Defined.

End ShPrint.
