(* ===== verification/Exec.v ===== *)
(** * Program loading

    crates/proc/src/exec.rs with the headers of crates/arch/src/elf.rs and
    [loaduvm] of crates/arch/src/vm.rs.

    The path and the arguments are byte strings without their terminating
    zeros. The argument array is a list of pointers, [None] for null; reading
    past its end is reading past the caller's array. *)

From S2P Require Import Prelude Param Mmu Mem Kalloc Sync Disk Ring Bio Fsh Log Fs Pipe File Vm Proc ProcTable.
Import Sync Bio Fsh Log Fs File Proc ProcTable.

Module Exec.

(** ** ELF headers as the code lays them out *)

Definition ELF_MAGIC : Z := 0x464C457F.
Definition ELF_PROG_LOAD : Z := 1.

Record elfhdr := mkElf {
  magic : Z;
  elf : Z;
  e_type : Z;
  machine : Z;
  version : Z;
  entry : Z;
  phoff : Z;
  shoff : Z;
  e_flags : Z;
  ehsize : Z;
  phentsize : Z;
  phnum : Z;
  shentsize : Z;
  shnum : Z;
  shstrndx : Z;
}.
Definition sizeof_elfhdr : Z := 56.

(** [#[repr(C)]]: every field at a multiple of its size. *)
Definition fld (off n : nat) (d : list Z) : Z := le_val (slice off n d).
Definition elfhdr_of (d : list Z) : elfhdr :=
  mkElf (fld 0 4 d) (fld 4 1 d) (fld 6 2 d) (fld 8 2 d) (fld 12 4 d) (fld 16 8 d) (fld 24 8 d)
        (fld 32 8 d) (fld 40 4 d) (fld 44 2 d) (fld 46 2 d) (fld 48 2 d) (fld 50 2 d) (fld 52 2 d)
        (fld 54 2 d).

Record proghdr := mkPh {
  ph_type : Z;
  ph_flags : Z;
  ph_off : Z;
  vaddr : Z;
  paddr : Z;
  filesz : Z;
  memsz : Z;
  align : Z;
}.
Definition sizeof_proghdr : Z := 64.
Definition proghdr_of (d : list Z) : proghdr :=
  mkPh (fld 0 4 d) (fld 8 8 d) (fld 16 8 d) (fld 24 8 d) (fld 32 8 d) (fld 40 8 d) (fld 48 8 d)
       (fld 56 8 d).

(** The path from after its last slash. *)
Fixpoint find_last_component (path last : list Z) : list Z :=
  match path with
  | [] => last
  | c :: path' => find_last_component path' (if c =? 47 then path' else last)
  end.

(** [ustack], and its bytes. *)
Definition USTACK : nat := 3 + Z.to_nat MAXARG + 1.
Definition words_bytes (l : list Z) : list Z := concat (le_bytes 8 <$> l).

Section exec.
Context {D : Type} `{!BlockDev D}.
Context (kernel_end : Z) (kpdpt : Z).
Context (devsw_read : Z → option (nat → Z → Z → M (fstate (D := D)) (Z * list Z))).
Definition pm : Type → Type := M (pst (D := D)).

(** ** Segments *)

Fixpoint load_loop (fuel : nat) (pgdir addr : Z) (ip : nat) (offset sz i : Z) : pm Z :=
  match fuel with
  | O => nofuel
  | S fuel' =>
      if i <? sz then
        let* va := chk_u64 (addr + i) in
        let* pte := on_vm (Vm.walkpgdir pgdir va false) in
        if pte =? 0 then panic "loaduvm: address should exist"
        else
          let* e := on_vm (Vm.rd pte) in
          let n := Z.min (sz - i) Mmu.PGSIZE in
          let* dst := on_vm (Vm.p2v (Mmu.PTE_ADDR e)) in
          let* off := chk_u32 (offset + i) in
          let* ' (r, bs) := on_k (on_fs (readi devsw_read ip off n)) in
          on_vm (Vm.on_bytes (Mem.store_bytes dst bs)) ;;;
          if negb (r =? n) then ret (-1)
          else
            let* i := chk_u32 (i + Mmu.PGSIZE) in
            load_loop fuel' pgdir addr ip offset sz i
      else ret 0
  end.
Definition loaduvm (pgdir addr : Z) (ip : nat) (offset sz : Z) : pm Z :=
  if negb (addr mod Mmu.PGSIZE =? 0) then panic "loaduvm: addr must be page aligned"
  else load_loop (S (Z.to_nat (sz / Mmu.PGSIZE + 1))) pgdir addr ip offset sz 0.

(** The loop over the [n] remaining program headers, from file offset [off];
    [None] is a jump to the clean-up. *)
Fixpoint load_segs (n : nat) (ip : nat) (pgdir sz off : Z) : pm (option Z) :=
  match n with
  | O => ret (Some sz)
  | S n' =>
      let* ' (r, bs) := on_k (on_fs (readi devsw_read ip off sizeof_proghdr)) in
      if negb (r =? sizeof_proghdr) then ret None
      else
        let ph := proghdr_of bs in
        if negb (as_i32 (ph_type ph) =? ELF_PROG_LOAD) then
          let* off := chk_u32 (off + sizeof_proghdr) in
          load_segs n' ip pgdir sz off
        else if memsz ph <? filesz ph then ret None
        else if as_u64 (vaddr ph + memsz ph) <? vaddr ph then ret None
        else
          let* e := chk_u64 (vaddr ph + memsz ph) in
          let* sz := on_vm (Vm.allocuvm kernel_end pgdir sz e) in
          if sz =? 0 then ret None
          else if negb (vaddr ph mod Mmu.PGSIZE =? 0) then ret None
          else
            let* r := loaduvm pgdir (vaddr ph) ip (as_u32 (ph_off ph)) (as_u32 (filesz ph)) in
            if r <? 0 then ret None
            else
              let* off := chk_u32 (off + sizeof_proghdr) in
              load_segs n' ip pgdir sz off
  end.

(** ** The stack *)

(** Pushes the argument strings; the argument count, the stack pointer and
    [ustack]. *)
Fixpoint push_args (pgdir : Z) (argv : list (option (list Z))) (argc : nat) (sp : Z)
    (ustack : list Z) : pm (option (nat * Z * list Z)) :=
  match argv with
  | [] => panic "argv read past its end"
  | None :: _ => ret (Some (argc, sp, ustack))
  | Some arg :: argv' =>
      if decide (Z.to_nat MAXARG ≤ argc)%nat then ret None
      else
        let arglen := Z.of_nat (length arg) + 1 in
        let* sp := chk_u64 (sp - arglen) in
        let sp := Z.land sp (Mmu.not_u64 7) in
        let* r := on_vm (Vm.copyout pgdir sp (arg ++ [0]) arglen) in
        if r <? 0 then ret None
        else push_args pgdir argv' (S argc) sp (<[(1 + argc)%nat := sp]> ustack)
  end.

(** ** [exec] *)

Definition goto_bad (pgdir : Z) (ip : option nat) : pm Z :=
  (if negb (pgdir =? 0) then on_vm (Vm.freevm kernel_end pgdir) else ret tt) ;;;
  (match ip with
   | Some ip =>
       on_k (on_fs (iunlockput ip)) ;;;
       on_k (on_fs (on_l end_op))
   | None => ret tt
   end) ;;;
  ret (-1).

(** From the null entry of [argv] on: the stack table, and the new image. *)
Definition exec_commit (path : list Z) (eh : elfhdr) (pgdir oldpgdir sz : Z) (argc : nat) (sp : Z)
    (ustack : list Z) : pm Z :=
  let* s := get in
  let n := Z.of_nat argc in
  let ustack := <[0%nat := 0xffffffffffffffff]> (<[(1 + argc)%nat := 0]> ustack) in
  let* rsi := chk_u64 (sp - (n + 1) * 8) in
  on_proc (cur s) (λ p, set_ptf (set_args n rsi (p_tf p)) p) ;;;
  let* sp := chk_u64 (sp - (1 + n + 1) * 8) in
  let* r := on_vm (Vm.copyout pgdir sp (words_bytes ustack) ((1 + n + 1) * 8)) in
  if r <? 0 then goto_bad pgdir None
  else
    on_proc (cur s) (λ p, set_pname (safestrcpy (p_name p) (find_last_component path path) 16) p) ;;;
    on_proc (cur s) (set_image sz pgdir) ;;;
    on_proc (cur s) (λ p, set_ptf (set_entry (entry eh) (entry eh) sp (p_tf p)) p) ;;;
    on_vm (Vm.freevm kernel_end oldpgdir) ;;;
    ret 0.

(** Once the segments are loaded: the stack pages and the arguments. *)
Definition exec_stack (path : list Z) (argv : option (list (option (list Z)))) (eh : elfhdr)
    (pgdir oldpgdir sz : Z) : pm Z :=
  let* sz := Mmu.PGROUNDUP sz in
  let* top := chk_u64 (sz + 2 * Mmu.PGSIZE) in
  let* sz := on_vm (Vm.allocuvm kernel_end pgdir sz top) in
  if sz =? 0 then goto_bad pgdir None
  else
    let* guard := chk_u64 (sz - 2 * Mmu.PGSIZE) in
    on_vm (Vm.clearpteu pgdir guard) ;;;
    let* o :=
      (match argv with
       | Some l => push_args pgdir l 0 sz (replicate USTACK 0)
       | None => ret (Some (0%nat, sz, replicate USTACK 0))
       end) in
    match o with
    | None => goto_bad pgdir None
    | Some (argc, sp, ustack) => exec_commit path eh pgdir oldpgdir sz argc sp ustack
    end.

Definition exec (path : list Z) (argv : option (list (option (list Z)))) : pm Z :=
  let* p := my_proc in
  on_k (on_fs (on_l begin_op)) ;;;
  let* ip := on_k (on_fs (namei devsw_read path)) in
  match ip with
  | None =>
      on_k (on_fs (on_l end_op)) ;;;
      ret (-1)
  | Some ip =>
      on_k (on_fs (ilock ip)) ;;;
      let* ' (r, bs) := on_k (on_fs (readi devsw_read ip 0 sizeof_elfhdr)) in
      let eh := elfhdr_of bs in
      if negb (r =? sizeof_elfhdr) then goto_bad 0 (Some ip)
      else if negb (magic eh =? ELF_MAGIC) then goto_bad 0 (Some ip)
      else
        let* pgdir := on_vm (Vm.setupkvm kpdpt) in
        if pgdir =? 0 then goto_bad pgdir (Some ip)
        else
          let* o := load_segs (Z.to_nat (phnum eh)) ip pgdir Mmu.PGSIZE (as_u32 (phoff eh)) in
          match o with
          | None => goto_bad pgdir (Some ip)
          | Some sz =>
              on_k (on_fs (iunlockput ip)) ;;;
              on_k (on_fs (on_l end_op)) ;;;
              exec_stack path argv eh pgdir (p_pgdir p) sz
          end
  end.

(** ** What happens to the processes *)

Hint Extern 3 (still (let '(_, _) := ?x in _)) => destruct x : still.
Hint Extern 3 (still (if ?b then _ else _)) => destruct b : still.

Lemma still_load_loop fuel pgdir addr ip offset sz i :
  still (load_loop fuel pgdir addr ip offset sz i).
Proof.
  revert i. induction fuel as [|fuel IH]; intros i; cbn [load_loop]; [auto with still|].
  destruct (i <? sz); [|auto with still]. auto 20 with still.
Qed.
Lemma still_loaduvm pgdir addr ip offset sz : still (loaduvm pgdir addr ip offset sz).
Proof. unfold loaduvm. destruct (negb _); [auto with still|apply still_load_loop]. Qed.
Hint Resolve still_loaduvm : still.
Lemma still_load_segs n ip pgdir sz off : still (load_segs n ip pgdir sz off).
Proof.
  revert sz off. induction n as [|n IH]; intros sz off; cbn [load_segs]; [auto with still|]. auto 25 with still.
Qed.
Lemma still_goto_bad pgdir ip : still (goto_bad pgdir ip).
Proof. unfold goto_bad. destruct (negb _), ip; auto 12 with still. Qed.
Hint Resolve still_load_segs still_goto_bad : still.

Lemma goto_bad_result pgdir ip s : wlp (goto_bad pgdir ip) s (λ r s', r = -1 ∧ kept s s').
Proof.
  intros r s' E. split; [|by eapply still_goto_bad]. unfold goto_bad in E.
  apply bind_Ok_inv in E as (? & ? & _ & E). apply bind_Ok_inv in E as (? & ? & _ & E). by injection E.
Qed.

(** The stack pointer after the strings [args] are pushed. *)
Definition down8 (x : Z) : Z := x - x mod 8.
Definition pushed (sp : Z) (args : list (list Z)) : Z :=
  foldl (λ sp a, down8 (sp - (Z.of_nat (length a) + 1))) sp args.

Lemma pushed_aligned sp args : sp mod 8 = 0 → pushed sp args mod 8 = 0.
Proof.
  revert sp. induction args as [|a args IH]; intros sp Hs; [done|]. apply IH. unfold down8.
  Z.to_euclidean_division_equations; lia.
Qed.

Lemma push_args_spec pgdir l argc sp ustack s :
  wlp (push_args pgdir l argc sp ustack) s (λ o s', kept s s' ∧
    match o with
    | Some (n, sp', _) => ∃ args rest, l = (Some <$> args) ++ None :: rest ∧
        n = (argc + length args)%nat ∧ (argc ≤ Z.to_nat MAXARG → n ≤ Z.to_nat MAXARG)%nat ∧
        sp' = pushed sp args
    | None => True
    end).
Proof.
  revert argc sp ustack s. induction l as [|[arg|] l IH]; intros argc sp ustack s; cbn [push_args].
  - by wlp_step.
  - destruct (decide _) as [|Hle]; [by wlp_step|]. wlp_step. apply wlp_chk_u64. intros Hsp. wlp_step.
    eapply wlp_resp; [apply still_on_vm|]. intros r s1 Hk. cbv beta.
    destruct (r <? 0); [by wlp_step|]. eapply wlp_mono; [apply IH|].
    intros o s2 [Hk2 Ho]. split; [by etrans|]. destruct o as [[[n sp'] u]|]; [|done].
    destruct Ho as (args & rest & -> & -> & Hm & ->). exists (arg :: args), rest.
    split_and!; [done|simpl; lia|intros; apply Hm; lia|].
    change (pushed sp (arg :: args)) with (pushed (down8 (sp - (Z.of_nat (length arg) + 1))) args).
    by rewrite (Mmu.land_not_mask _ 3) by lia.
  - wlp_step. split; [done|]. exists [], l. split_and!; (done || simpl; lia).
Qed.

(** The state with the running process changed by [f]. *)
Definition on_cur (f : proc → proc) (s : pst (D := D)) : pst (D := D) :=
  set_ptable (alter f (cur s) (ptable s)) s.

Lemma on_cur_comp f g s : on_cur g (on_cur f s) = on_cur (g ∘ f) s.
Proof.
  assert (E : alter g (cur s) (alter f (cur s) (ptable s)) = alter (g ∘ f) (cur s) (ptable s));
    [|unfold on_cur; simpl; by rewrite E].
  apply list_eq. intros j. destruct (decide (cur s = j)) as [<-|Hne].
  - rewrite !list_lookup_alter_eq. by destruct (ptable s !! cur s).
  - by rewrite !list_lookup_alter_ne.
Qed.
Lemma wlp_on_cur i f s (Q : unit → pst → Prop) : cur s = i → Q tt (on_cur f s) → wlp (on_proc i f) s Q.
Proof. intros <- HQ. by apply wlp_modify. Qed.
Lemma kept_on_cur f s s' : (∀ v p, f (set_state v p) = set_state v (f p)) → (∀ p, p_state (f p) = p_state p) →
  kept s s' → kept (on_cur f s) (on_cur f s').
Proof.
  intros Hf Hs [Hk Hc]. split; [|done]. simpl. rewrite Hc.
  apply Forall2_same_length_lookup_2; [by rewrite !length_alter; eapply Forall2_length|].
  intros j p q. destruct (decide (cur s = j)) as [<-|Hne].
  - rewrite !list_lookup_alter_eq. intros (p0 & Hp & ->)%fmap_Some (q0 & Hq & ->)%fmap_Some.
    destruct (Forall2_lookup_lr _ _ _ _ _ _ Hk Hp Hq) as [E Es]. unfold kept1. rewrite !Hs. split; [|done].
    by rewrite E at 1; rewrite Hf.
  - rewrite !list_lookup_alter_ne by done. intros Hp Hq. exact (Forall2_lookup_lr _ _ _ _ _ _ Hk Hp Hq).
Qed.

(** The process with the arguments of [main], and with its new image. *)
Definition with_args (n : nat) (sp : Z) (p : proc) : proc :=
  set_ptf (set_args (Z.of_nat n) (sp + 8) (p_tf p)) p.
Definition new_image (path : list Z) (e sz pgdir : Z) (n : nat) (sp : Z) (p : proc) : proc :=
  set_ptf (set_entry e e sp (set_args (Z.of_nat n) (sp + 8) (p_tf p)))
    (set_image sz pgdir (set_pname (safestrcpy (p_name p) (find_last_component path path) 16) p)).

Lemma exec_commit_spec path eh pgdir oldpgdir sz argc sp0 ustack s :
  let sp := sp0 - (Z.of_nat argc + 2) * 8 in
  wlp (exec_commit path eh pgdir oldpgdir sz argc sp0 ustack) s (λ r s',
    r = -1 ∧ kept (on_cur (with_args argc sp) s) s' ∨
    r = 0 ∧ kept (on_cur (new_image path (entry eh) sz pgdir argc sp) s) s').
Proof.
  intros sp. unfold exec_commit. do 2 wlp_step. wlp_step. apply wlp_chk_u64. intros _. cbv beta zeta. wlp_step.
  apply wlp_on_cur; [done|]. wlp_step. apply wlp_chk_u64. intros _. wlp_step.
  replace (sp0 - (Z.of_nat argc + 1) * 8) with (sp + 8) by lia.
  replace (sp0 - (1 + Z.of_nat argc + 1) * 8) with sp by lia.
  eapply wlp_resp; [apply still_on_vm|]. intros r s1 Hk. cbv beta. pose proof (proj2 Hk) as Hc. simpl in Hc.
  destruct (r <? 0).
  { eapply wlp_mono; [apply goto_bad_result|]. intros r' s2 [-> Hk2]. left. split; [done|by etrans]. }
  do 3 (wlp_step; apply wlp_on_cur; [done|]). wlp_step. rewrite !on_cur_comp.
  eapply wlp_resp; [apply still_on_vm|]. intros [] s2 Hk2. wlp_step. right. split; [done|]. etrans; [|exact Hk2].
  eapply (kept_on_cur (λ p, set_ptf (set_entry (entry eh) (entry eh) sp (p_tf p))
    (set_image sz pgdir (set_pname (safestrcpy (p_name p) (find_last_component path path) 16) p)))) in Hk; [|done..].
  by rewrite on_cur_comp in Hk.
Qed.

Lemma allocuvm_result pgdir oldsz newsz (s : pst (D := D)) : oldsz ≤ newsz →
  wlp (on_vm (Vm.allocuvm kernel_end pgdir oldsz newsz)) s (λ r s', kept s s' ∧ (r = 0 ∨ r = newsz)).
Proof.
  intros Hle. assert (Hloop : ∀ fuel a k,
    wlp (Vm.alloc_loop kernel_end fuel pgdir a oldsz newsz) k (λ r _, r = 0 ∨ r = newsz)).
  { induction fuel as [|fuel IH]; intros a k; cbn [Vm.alloc_loop]; [done|].
    destruct (a <? newsz); [|wlp_step; by right]. wlp_step. intros m k1 _.
    destruct (m =? 0); [wlp_step; intros ? ? _; wlp_step; by left|]. wlp_step. intros ? k2 _. wlp_step.
    intros r k3 _. destruct (r <? 0).
    - wlp_step. intros ? ? _. wlp_step. intros ? ? _. wlp_step. by left.
    - wlp_step. intros a' k4 _. apply IH. }
  assert (Hr : ∀ k, wlp (Vm.allocuvm kernel_end pgdir oldsz newsz) k (λ r _, r = 0 ∨ r = newsz)).
  { intros k. unfold Vm.allocuvm. destruct (_ <=? newsz); [wlp_step; by left|].
    destruct (Z.ltb_spec newsz oldsz); [lia|]. wlp_step. intros a k1 _. apply Hloop. }
  intros r s' E. split; [by eapply still_on_vm|]. revert r s' E. unfold on_vm, with_k, on_mem.
  apply wlp_zoom, wlp_zoom. eapply wlp_mono; [apply Hr|]. auto.
Qed.

(** The arguments before the null pointer of [argv]. *)
Definition argv_is (argv : option (list (option (list Z)))) (args : list (list Z)) : Prop :=
  match argv with
  | Some l => ∃ rest, l = (Some <$> args) ++ None :: rest
  | None => args = []
  end.

(** What [exec] does to the processes: [old] and [s] are the states before
    and after. *)
Definition exec_post (path : list Z) (argv : option (list (option (list Z)))) (old : pst (D := D))
    (r : Z) (s : pst (D := D)) : Prop :=
  r = -1 ∧ kept old s ∨
  ∃ sz args sp, argv_is argv args ∧ (length args ≤ Z.to_nat MAXARG)%nat ∧ sz mod Mmu.PGSIZE = 0 ∧
    sp = pushed sz args - (Z.of_nat (length args) + 2) * 8 ∧ sp mod 8 = 0 ∧
    (r = -1 ∧ kept (on_cur (with_args (length args) sp) old) s ∨
     r = 0 ∧ ∃ e pgdir, kept (on_cur (new_image path e sz pgdir (length args) sp) old) s).

Lemma kept_on_cur_after f s s' t : (∀ v p, f (set_state v p) = set_state v (f p)) → (∀ p, p_state (f p) = p_state p) →
  kept s s' → kept (on_cur f s') t → kept (on_cur f s) t.
Proof. intros Hf Hs Hk Ht. etrans; [|exact Ht]. by apply kept_on_cur. Qed.

Lemma exec_post_after path argv old s r s' : kept old s → exec_post path argv s r s' → exec_post path argv old r s'.
Proof.
  intros Hk [[-> H]|(sz & args & sp & H1 & H2 & H3 & H4 & H5 & H6)]; [left; split; [done|by etrans]|].
  right. exists sz, args, sp. split_and!; try done. destruct H6 as [[-> H6]|(-> & e & pgdir & H6)].
  - left. split; [done|]. by eapply kept_on_cur_after.
  - right. split; [done|]. exists e, pgdir. by eapply kept_on_cur_after.
Qed.
Lemma exec_post_bad path argv pgdir ip s : wlp (goto_bad pgdir ip) s (exec_post path argv s).
Proof. eapply wlp_mono; [apply goto_bad_result|]. by left. Qed.

(** A call that leaves the processes alone, before the rest of [exec]. *)
Lemma exec_post_step {A} path argv s (m : M pst A) k :
  still m → (∀ a s', wlp (k a) s' (exec_post path argv s')) → wlp (bind m k) s (exec_post path argv s).
Proof.
  intros Hm Hk. apply wlp_bind. eapply wlp_resp; [exact Hm|]. intros a s1 H1.
  eapply wlp_mono; [apply Hk|]. intros r s2. by apply exec_post_after.
Qed.

Lemma exec_args_spec pgdir argv sz s :
  wlp (match argv with
       | Some l => push_args pgdir l 0 sz (replicate USTACK 0)
       | None => ret (Some (0%nat, sz, replicate USTACK 0))
       end) s (λ o s', kept s s' ∧
    match o with
    | Some (n, sp, _) => ∃ args, argv_is argv args ∧ n = length args ∧ (n ≤ Z.to_nat MAXARG)%nat ∧ sp = pushed sz args
    | None => True
    end).
Proof.
  destruct argv as [l|].
  - eapply wlp_mono; [apply push_args_spec|]. intros o s' [Hk Ho]. split; [done|].
    destruct o as [[[n sp] u]|]; [|done]. destruct Ho as (args & rest & -> & -> & Hm & ->).
    exists args. split_and!; [by exists rest|done|apply Hm; lia|done].
  - wlp_step. split; [done|]. exists []. split_and!; (done || simpl; lia).
Qed.

Lemma exec_stack_spec path argv eh pgdir oldpgdir sz0 s :
  wlp (exec_stack path argv eh pgdir oldpgdir sz0) s (exec_post path argv s).
Proof.
  unfold exec_stack. wlp_step. intros sz s' Er.
  assert (Hr : sz mod Mmu.PGSIZE = 0 ∧ s' = s).
  { unfold Mmu.PGROUNDUP in Er. apply bind_Ok_inv in Er as (x & s1 & Ex & Er). injection Er as <- <-.
    revert x s1 Ex. apply wlp_chk_u64. intros Hx. rewrite (Mmu.land_not_mask _ 12) by lia. split; [|done].
    change (2 ^ 12) with 4096. unfold Mmu.PGSIZE. Z.to_euclidean_division_equations; lia. }
  destruct Hr as [Hsz ->]. wlp_step. apply wlp_chk_u64. intros Htop. wlp_step.
  eapply wlp_mono; [apply allocuvm_result; unfold Mmu.PGSIZE; lia|]. intros top s1 [Hk1 Htop'].
  eapply wlp_mono; [|intros r s2; by apply exec_post_after]. cbv beta.
  destruct (Z.eqb_spec top 0) as [|Hnz]; [apply exec_post_bad|]. destruct Htop' as [?|Et]; [done|].
  wlp_step. apply wlp_chk_u64. intros _. apply exec_post_step; [apply still_on_vm|]. intros _ s2. wlp_step.
  eapply wlp_mono; [apply exec_args_spec|]. intros o s3 [Hk3 Ho].
  eapply wlp_mono; [|intros r s4; by apply exec_post_after]. destruct o as [[[n sp] u]|]; [|apply exec_post_bad].
  destruct Ho as (args & Ha & -> & Hn & ->). eapply wlp_mono; [apply exec_commit_spec|].
  intros r s4 Hr. right. exists top, args, (pushed top args - (Z.of_nat (length args) + 2) * 8).
  assert (Htm : top mod Mmu.PGSIZE = 0) by (subst top; unfold Mmu.PGSIZE in *; Z.to_euclidean_division_equations; lia).
  split_and!; try done.
  - pose proof (pushed_aligned top args) as Hp. unfold Mmu.PGSIZE in Htm.
    assert (H8 : top mod 8 = 0) by (Z.to_euclidean_division_equations; lia).
    specialize (Hp H8). Z.to_euclidean_division_equations; lia.
  - destruct Hr as [[-> Hr]|[-> Hr]]; [by left|right]. split; [done|]. by eexists _, _.
Qed.


(** ** ELF files *)

(** The first 56 bytes of the header of an ELF64 file, as the format defines
    it: a 16-byte identification, then the fields. *)
Definition elf64_header (ident : list Z) (ty mach ver ent ph sh flags eh phent : Z) : list Z :=
  [127; 69; 76; 70] ++ ident ++ le_bytes 2 ty ++ le_bytes 2 mach ++ le_bytes 4 ver ++
  le_bytes 8 ent ++ le_bytes 8 ph ++ le_bytes 8 sh ++ le_bytes 4 flags ++ le_bytes 2 eh ++ le_bytes 2 phent.

Lemma le_val_app a b : le_val (a ++ b) = le_val a + 256 ^ Z.of_nat (length a) * le_val b.
Proof.
  induction a as [|x a IH]; [simpl; lia|]. cbn [app le_val length]. rewrite IH, Nat2Z.inj_succ, Z.pow_succ_r by lia. lia.
Qed.
Lemma fld_at pre x post d off n : d = pre ++ x ++ post → off = length pre → n = length x → fld off n d = le_val x.
Proof.
  intros -> -> ->. unfold fld, slice. by rewrite drop_app_length, take_app_length.
Qed.

(** C39: [exec] misreads every ELF64 file, because [elfhdr] gives the
    identification one byte after the magic number where the format has
    twelve. The magic number passes the check, but the entry point is made of
    the file's type, machine and version, the program headers are looked for
    at the entry point, and their number is taken from the flags, which are
    zero on this machine: no segment is loaded. *)
Theorem exec_misreads_elf64 (ident : list Z) (ty mach ver ent ph sh flags eh phent : Z)
    (Hi : length ident = 12%nat) (Ht : 0 ≤ ty < u16_max) (Hm : 0 ≤ mach < u16_max)
    (Hv : 0 ≤ ver < u32_max) (He : 0 ≤ ent < u64_max) (Hf : 0 ≤ flags < u32_max) :
  let h := elfhdr_of (elf64_header ident ty mach ver ent ph sh flags eh phent) in
  magic h = ELF_MAGIC ∧ entry h = ty + mach * 2 ^ 16 + ver * 2 ^ 32 ∧ phoff h = ent ∧
  phnum h = flags mod 2 ^ 16 ∧
  (flags = 0 → ∀ ip pgdir sz off s, load_segs (Z.to_nat (phnum h)) ip pgdir sz off s = Ok (Some sz, s)).
Proof.
  set (d := elf64_header ident ty mach ver ent ph sh flags eh phent). cbv zeta.
  assert (Hl : ∀ n v, length (le_bytes n v) = n) by (intros; apply length_le_bytes).
  assert (Hp : phnum (elfhdr_of d) = flags mod 2 ^ 16).
  { change (phnum (elfhdr_of d)) with (fld 48 2 d).
    rewrite (fld_at ([127; 69; 76; 70] ++ ident ++ le_bytes 2 ty ++ le_bytes 2 mach ++ le_bytes 4 ver ++
      le_bytes 8 ent ++ le_bytes 8 ph ++ le_bytes 8 sh) (le_bytes 2 flags) (le_bytes 2 (flags / 256 / 256) ++ le_bytes 2 eh ++ le_bytes 2 phent)).
    - by rewrite le_val_bytes.
    - unfold d, elf64_header. by rewrite <- !app_assoc.
    - rewrite !length_app, !Hl, Hi. done.
    - by rewrite Hl. }
  split_and!.
  - change (magic (elfhdr_of d)) with (fld 0 4 d). done.
  - change (entry (elfhdr_of d)) with (fld 16 8 d).
    rewrite (fld_at ([127; 69; 76; 70] ++ ident) (le_bytes 2 ty ++ le_bytes 2 mach ++ le_bytes 4 ver)
      (le_bytes 8 ent ++ le_bytes 8 ph ++ le_bytes 8 sh ++ le_bytes 4 flags ++ le_bytes 2 eh ++ le_bytes 2 phent)).
    + rewrite !le_val_app, !Hl, !le_val_bytes. unfold u16_max, u32_max in *.
      rewrite !Z.mod_small by (simpl; lia). simpl. lia.
    + unfold d, elf64_header. by rewrite <- !app_assoc.
    + rewrite length_app, Hi. done.
    + by rewrite !length_app, !Hl.
  - change (phoff (elfhdr_of d)) with (fld 24 8 d).
    rewrite (fld_at ([127; 69; 76; 70] ++ ident ++ le_bytes 2 ty ++ le_bytes 2 mach ++ le_bytes 4 ver) (le_bytes 8 ent)
      (le_bytes 8 ph ++ le_bytes 8 sh ++ le_bytes 4 flags ++ le_bytes 2 eh ++ le_bytes 2 phent)).
    + by apply le_val_bytes_small.
    + unfold d, elf64_header. by rewrite <- !app_assoc.
    + rewrite !length_app, !Hl, Hi. done.
    + by rewrite Hl.
  - exact Hp.
  - intros ->. by rewrite Hp.
Qed.

End exec.

(** ** Witnesses *)

(** An empty root directory in the inode cache. *)
Definition root_dir : Inode :=
  mkInode ROOTDEV ROOTINO 1 zero_lock I_VALID T_DIR 0 0 1 0 (replicate 13 0).
Definition k_root : kst (D := Memide.memdisk) :=
  mkK (mkFs (boot disk1 1) sb_zero (mkSpin 0 EmptyString None) [root_dir] [] None)
      (mkSpin 0 EmptyString None) [] ∅ Kalloc.boot3 [] 0.


(** An executable for x86-64 with its entry at 0x1000. *)
Lemma exec_misreads_elf64_witness :
  let h := elfhdr_of (elf64_header (replicate 12 0) 2 62 1 0x1000 64 0 0 64 56) in
  magic h = ELF_MAGIC ∧ entry h = 0x1003e0002 ∧ phoff h = 0x1000 ∧ phnum h = 0.
Proof.
  destruct (exec_misreads_elf64 (D := Memide.memdisk) 0 no_dev (replicate 12 0) 2 62 1 0x1000 64 0 0 64 56
    ltac:(reflexivity) ltac:(unfold u16_max; lia) ltac:(unfold u16_max; lia) ltac:(unfold u32_max; lia)
    ltac:(unfold u64_max; lia) ltac:(unfold u32_max; lia)) as (H1 & H2 & H3 & H4 & _).
  split; [exact H1|]. split; [exact H2|]. split; [exact H3|exact H4].
Defined.

End Exec.
