(* ===== verification/Syscall.v ===== *)
(** * System calls

    crates/syscall/src/lib.rs, sysfile.rs and sysproc.rs: fetching arguments
    from the trap frame and from user memory, the handlers, and the dispatch
    table.

    The kernel dereferences user pointers directly. What the processor reads
    and writes at a user address depends on the loaded page table, which is
    outside these files: [uload] and [ustore] stand for it. *)

From S2P Require Import Prelude Param Mmu Mem Kalloc Sync Disk Ring Bio Fsh Log Fs Pipe File Vm Proc ProcTable Exec Ulib.
Import Sync Bio Fsh Log Fs Pipe File Proc ProcTable.

Module Syscall.

(** How a handler ends: with the value for rax, asleep inside a call that
    resumes at byte [i], or not at all. *)
Inductive sysret : Type :=
| SRet (v : Z)
| SSleep (i : Z)
| SNever.

Definition minus1 : Z := u64_max - 1.

(** [struct stat] as bytes, with its padding. *)
Definition sizeof_stat : Z := 20.
Definition stat_bytes (pad : list Z) (st : stat) : list Z :=
  le_bytes 2 (as_u16 (st_type st)) ++ take 2 pad ++ le_bytes 4 (as_u32 (st_dev st)) ++
  le_bytes 4 (st_ino st) ++ le_bytes 2 (as_u16 (st_nlink st)) ++ take 2 (drop 2 pad) ++
  le_bytes 4 (st_size st).

Section syscall.
Context {D : Type} `{!BlockDev D}.
Context (kernel_end kpdpt : Z).
Context (devsw_read : Z → option (nat → Z → Z → M (fstate (D := D)) (Z * list Z)))
        (devsw_write : Z → option (nat → Z → list Z → Z → M (fstate (D := D)) Z)).
Context (uload : Kalloc.kmem_t → Z → Z) (ustore : Z → list Z → Kalloc.kmem_t → Kalloc.kmem_t).

(** ** Arguments *)

Definition fetcharg (n : Z) : M (pst (D := D)) Z :=
  let* p := my_proc in
  let tf := p_tf p in
  if n =? 0 then ret (rdi tf)
  else if n =? 1 then ret (rsi tf)
  else if n =? 2 then ret (rdx tf)
  else if n =? 3 then ret (r10 tf)
  else if n =? 4 then ret (r8 tf)
  else if n =? 5 then ret (r9 tf)
  else panic "fetcharg: invalid index".

(** [argint] and [argaddr] always return 0. *)
Definition argint (n : Z) : M (pst (D := D)) Z := let* a := fetcharg n in ret (as_i32 a).
Definition argaddr (n : Z) : M (pst (D := D)) Z := fetcharg n.

(** [None] is -1. *)
Definition argptr (n size : Z) : M (pst (D := D)) (option Z) :=
  let* i := argaddr n in
  let* p := my_proc in
  if (size <? 0) || (p_sz p <=? i) then ret None
  else
    let* e := chk_u64 (i + as_u64 size) in
    if p_sz p <? e then ret None else ret (Some i).

Definition user_byte (a : Z) : M (pst (D := D)) Z := gets (λ s, uload (k_mem (pk s)) a).

(** The bytes from [a] on before the first zero, among the first [n]. *)
Fixpoint scan_str (n : nat) (a : Z) (acc : list Z) : M (pst (D := D)) (option (list Z)) :=
  match n with
  | O => ret None
  | S n' =>
      let* c := user_byte a in
      if c =? 0 then ret (Some acc) else scan_str n' (a + 1) (acc ++ [c])
  end.

(** The result, and the string when there is one. *)
Definition fetchstr (addr : Z) : M (pst (D := D)) (Z * list Z) :=
  let* p := my_proc in
  if (addr <? Mmu.PGSIZE) || (p_sz p <=? addr) then ret (-1, [])
  else
    let* o := scan_str (Z.to_nat (p_sz p - addr)) addr [] in
    match o with
    | Some str => ret (as_i32 (Z.of_nat (length str)), str)
    | None => ret (-1, [])
    end.
Definition argstr (n : Z) : M (pst (D := D)) (Z * list Z) :=
  let* addr := argaddr n in
  fetchstr addr.

Definition fetchaddr (addr : Z) : M (pst (D := D)) (option Z) :=
  let* p := my_proc in
  if p_sz p <=? addr then ret None
  else
    let* e := chk_u64 (addr + 8) in
    if p_sz p <? e then ret None
    else let* k := gets (λ s, k_mem (pk s)) in
      ret (Some (le_val ((λ i, uload k (addr + Z.of_nat i)) <$> seq 0 8))).

(** ** File descriptors *)

Definition argfd (n : Z) : M (pst (D := D)) (option (Z * nat)) :=
  let* fd := argint n in
  let* p := my_proc in
  if (fd <? 0) || (NOFILE <=? fd) then ret None
  else
    match nth (Z.to_nat fd) (p_ofile p) None with
    | Some f => ret (Some (fd, f))
    | None => ret None
    end.

Fixpoint fd_scan (fd : nat) (l : list (option nat)) : option nat :=
  match l with
  | [] => None
  | None :: _ => Some fd
  | Some _ :: l' => fd_scan (S fd) l'
  end.
Definition fdalloc (f : nat) : M (pst (D := D)) Z :=
  let* s := get in
  let* p := my_proc in
  match fd_scan 0 (p_ofile p) with
  | Some fd => on_proc (cur s) (set_ofile fd (Some f)) ;;; ret (Z.of_nat fd)
  | None => ret (-1)
  end.

(** ** Handlers of sysfile.rs *)

Definition sys_dup : M (pst (D := D)) sysret :=
  let* a := argfd 0 in
  match a with
  | None => ret (SRet minus1)
  | Some (_, f) =>
      let* fd := fdalloc f in
      if fd <? 0 then ret (SRet minus1)
      else
        let* _ := on_k (filedup f) in
        ret (SRet (as_u64 fd))
  end.

(** The switch to the scheduler when a pipe makes the process wait. *)
Definition pipe_sleep (f : nat) (c : Z → chan) (i : Z) : M (pst (D := D)) sysret :=
  let* x := with_k (file_at f) in
  sleep_proc (c (f_pipe x)) (LkOther (ret tt)) ;;;
  ret (SSleep i).

Definition sys_read : M (pst (D := D)) sysret :=
  let* a := argfd 0 in
  match a with
  | None => ret (SRet minus1)
  | Some (_, f) =>
      let* n := argint 2 in
      let* p := argptr 1 n in
      match p with
      | None => ret (SRet minus1)
      | Some p =>
          let* ' (r, bs) := on_k (fileread devsw_read f n) in
          with_k (on_mem (modify (ustore p bs))) ;;;
          match r with
          | PDone r => ret (SRet (as_u64 r))
          | PSleep i => pipe_sleep f ChPipeRead i
          end
      end
  end.

(** [i] is the byte at which a write to a pipe resumes, 0 at first. *)
Definition sys_write (i : Z) : M (pst (D := D)) sysret :=
  let* a := argfd 0 in
  match a with
  | None => ret (SRet minus1)
  | Some (_, f) =>
      let* n := argint 2 in
      let* p := argptr 1 n in
      match p with
      | None => ret (SRet minus1)
      | Some p =>
          let* k := gets (λ s, k_mem (pk s)) in
          let* r := on_k (filewrite devsw_write f (λ j, uload k (p + j)) n i) in
          match r with
          | PDone r => ret (SRet (as_u64 r))
          | PSleep i => pipe_sleep f ChPipeWrite i
          end
      end
  end.

Definition sys_close : M (pst (D := D)) sysret :=
  let* a := argfd 0 in
  match a with
  | None => ret (SRet minus1)
  | Some (fd, f) =>
      let* s := get in
      on_proc (cur s) (set_ofile (Z.to_nat fd) None) ;;;
      on_k (fileclose kernel_end f) ;;;
      ret (SRet 0)
  end.

(** The padding of the structure keeps what user memory has there. *)
Definition sys_fstat : M (pst (D := D)) sysret :=
  let* a := argfd 0 in
  match a with
  | None => ret (SRet minus1)
  | Some (_, f) =>
      let* st := argptr 1 sizeof_stat in
      match st with
      | None => ret (SRet minus1)
      | Some st =>
          let* ' (r, o) := on_k (filestat f) in
          (match o with
           | Some x =>
               let* k := gets (λ s, k_mem (pk s)) in
               with_k (on_mem (modify (ustore st (stat_bytes
                 [uload k (st + 2); uload k (st + 3); uload k (st + 14); uload k (st + 15)] x))))
           | None => ret tt
           end) ;;;
          ret (SRet (as_u64 r))
      end
  end.

(** The loop over [uargv]; [None] is a failure. *)
Fixpoint fetch_argv (n : nat) (uargv off : Z) (acc : list (option (list Z)))
    : M (pst (D := D)) (option (list (option (list Z)))) :=
  match n with
  | O => ret (Some acc)
  | S n' =>
      let* a := chk_u64 (uargv + off) in
      let* o := fetchaddr a in
      match o with
      | None => ret None
      | Some uarg =>
          if uarg =? 0 then ret (Some (acc ++ replicate (S n') None))
          else
            let* ' (r, str) := fetchstr uarg in
            if r <? 0 then ret None
            else fetch_argv n' uargv (off + 8) (acc ++ [Some str])
      end
  end.

Definition sys_exec : M (pst (D := D)) sysret :=
  let* ' (r, path) := argstr 0 in
  if r <? 0 then ret (SRet minus1)
  else
    let* uargv := argaddr 1 in
    let* o := fetch_argv (Z.to_nat MAXARG) uargv 0 [] in
    match o with
    | None => ret (SRet minus1)
    | Some argv =>
        let* r := Exec.exec kernel_end kpdpt devsw_read path (Some argv) in
        ret (SRet (as_u64 r))
    end.

Definition sys_pipe : M (pst (D := D)) sysret :=
  let* a := argptr 0 8 in
  match a with
  | None => ret (SRet minus1)
  | Some fds =>
      let* ' (r, rf, wf) := on_k (pipealloc kernel_end) in
      if r <? 0 then ret (SRet minus1)
      else
        let* rf := expect "null file" rf in
        let* wf := expect "null file" wf in
        let* fd0 := fdalloc rf in
        if fd0 <? 0 then
          on_k (fileclose kernel_end rf) ;;;
          on_k (fileclose kernel_end wf) ;;;
          ret (SRet minus1)
        else
          let* fd1 := fdalloc wf in
          if fd1 <? 0 then
            let* s := get in
            on_proc (cur s) (set_ofile (Z.to_nat fd0) None) ;;;
            on_k (fileclose kernel_end rf) ;;;
            on_k (fileclose kernel_end wf) ;;;
            ret (SRet minus1)
          else
            with_k (on_mem (modify (ustore fds (le_bytes 4 fd0)))) ;;;
            with_k (on_mem (modify (ustore (fds + 4) (le_bytes 4 fd1)))) ;;;
            ret (SRet 0)
  end.

(** ** Handlers of sysproc.rs *)

(** The register an i32 argument arrives in, of which [growproc] reads all 64
    bits, and the tick counter. *)
Context (widen : Z → Z) (ticks : Z).

Definition sys_fork : M (pst (D := D)) sysret :=
  let* r := fork kernel_end kpdpt in ret (SRet (as_u64 r)).
Definition sys_exit : M (pst (D := D)) sysret :=
  exit kernel_end ;;; ret SNever.
Definition sys_wait : M (pst (D := D)) sysret :=
  let* r := wait kernel_end in
  match r with
  | WDone r => ret (SRet (as_u64 r))
  | WSleep => ret (SSleep 0)
  end.
Definition sys_kill : M (pst (D := D)) sysret :=
  let* pid := argint 0 in
  let* r := kill pid in
  ret (SRet (as_u64 r)).
Definition sys_getpid : M (pst (D := D)) sysret :=
  let* p := my_proc in ret (SRet (as_u64 (p_pid p))).
Definition sys_sbrk : M (pst (D := D)) sysret :=
  let* n := argint 0 in
  let* p := my_proc in
  let addr := p_sz p in
  let* r := growproc kernel_end (widen n) in
  if r <? 0 then ret (SRet minus1) else ret (SRet addr).
Definition sys_sleep : M (pst (D := D)) sysret :=
  let* _ := argint 0 in
  sleep_proc ChTicks LkNull ;;;
  ret (SRet 0).
Definition sys_uptime : M (pst (D := D)) sysret := ret (SRet ticks).

(** ** Dispatch *)

Definition SYSCALLS_len : Z := 26.
Definition SYSCALLS (num : Z) : option (M (pst (D := D)) sysret) :=
  if num =? 1 then Some sys_fork
  else if num =? 2 then Some sys_exit
  else if num =? 3 then Some sys_wait
  else if num =? 6 then Some sys_kill
  else if num =? 11 then Some sys_getpid
  else if num =? 12 then Some sys_sbrk
  else if num =? 13 then Some sys_sleep
  else if num =? 14 then Some sys_uptime
  else if num =? 4 then Some sys_pipe
  else if num =? 5 then Some sys_read
  else if num =? 7 then Some sys_exec
  else if num =? 8 then Some sys_fstat
  else if num =? 10 then Some sys_dup
  else if num =? 16 then Some (sys_write 0)
  else if num =? 21 then Some sys_close
  else None.

Definition set_result (i : nat) (v : Z) : M (pst (D := D)) unit :=
  on_proc i (λ p, set_ptf (set_rax v (p_tf p)) p).

Definition syscall : M (pst (D := D)) sysret :=
  let* s := get in
  let* p := my_proc in
  let num := rax (p_tf p) in
  match (if (0 <? num) && (num <? SYSCALLS_len) then SYSCALLS num else None) with
  | Some func =>
      let* r := func in
      (match r with
       | SRet v => set_result (cur s) v
       | _ => ret tt
       end) ;;;
      ret r
  | None =>
      set_result (cur s) minus1 ;;;
      ret (SRet minus1)
  end.

(** ** The user library's requests *)

(** The trap frame of a process that made request [q]. *)
Definition requests (q : Ulib.sysreq) (t : trapframe) : Prop :=
  rax t = Ulib.num q ∧ (∀ a, Ulib.a1 q = Some a → rdi t = a) ∧
  (∀ a, Ulib.a2 q = Some a → rsi t = a) ∧ (∀ a, Ulib.a3 q = Some a → rdx t = a).

(** The handler's result goes to rax. *)
Definition answer (i : nat) (r : sysret) : M (pst (D := D)) sysret :=
  (match r with SRet v => set_result i v | _ => ret tt end) ;;; ret r.

Lemma my_proc_eq (s : pst (D := D)) p : ptable s !! cur s = Some p → my_proc s = Ok (p, s).
Proof. intros Hp. unfold my_proc, proc_at, bind, get. by rewrite Hp. Qed.

Lemma syscall_dispatch (s : pst (D := D)) p h : ptable s !! cur s = Some p →
  (if (0 <? rax (p_tf p)) && (rax (p_tf p) <? SYSCALLS_len) then SYSCALLS (rax (p_tf p)) else None) = h →
  syscall s = (match h with
               | Some h => let* r := h in answer (cur s) r
               | None => set_result (cur s) minus1 ;;; ret (SRet minus1)
               end) s.
Proof.
  intros Hp <-. unfold syscall, bind at 1, get at 1. unfold bind at 1. rewrite (my_proc_eq s p Hp). done.
Qed.

Lemma fetcharg_eq (s : pst (D := D)) p q : ptable s !! cur s = Some p → requests q (p_tf p) →
  (∀ a, Ulib.a1 q = Some a → fetcharg 0 s = Ok (a, s)) ∧ (∀ a, Ulib.a2 q = Some a → fetcharg 1 s = Ok (a, s)) ∧
  (∀ a, Ulib.a3 q = Some a → fetcharg 2 s = Ok (a, s)).
Proof.
  intros Hp (_ & H1 & H2 & H3). unfold fetcharg, bind. rewrite (my_proc_eq s p Hp). unfold ret.
  split_and!; intros a Ha; simpl; [by rewrite (H1 a Ha)|by rewrite (H2 a Ha)|by rewrite (H3 a Ha)].
Qed.

(** The wrappers of the user library and the dispatch table agree. A
    request by a wrapper runs the handler of the same name, whose arguments 0,
    1 and 2 are the wrapper's. The six wrappers that the kernel has no handler
    for ([open], [chdir], [mknod], [unlink], [link] and [mkdir]) return -1 and
    change nothing else. *)
Theorem ulib_requests_dispatched (s : pst (D := D)) (p : proc) (q : Ulib.sysreq) (x y z : Z)
    (Hp : ptable s !! cur s = Some p) (Hq : requests q (p_tf p)) :
  (∀ h, (q, h) ∈ [(Ulib.fork, sys_fork); (Ulib.exit, sys_exit); (Ulib.wait, sys_wait); (Ulib.pipe x, sys_pipe);
      (Ulib.read x y z, sys_read); (Ulib.kill x, sys_kill); (Ulib.exec x y, sys_exec); (Ulib.fstat x y, sys_fstat);
      (Ulib.dup x, sys_dup); (Ulib.getpid, sys_getpid); (Ulib.sbrk x, sys_sbrk); (Ulib.sleep x, sys_sleep);
      (Ulib.uptime, sys_uptime); (Ulib.write x y z, sys_write 0); (Ulib.close x, sys_close)] →
    syscall s = (let* r := h in answer (cur s) r) s) ∧
  (q ∈ [Ulib.open x y; Ulib.chdir x; Ulib.mknod x y z; Ulib.unlink x; Ulib.link x y; Ulib.mkdir x] →
    syscall s = Ok (SRet minus1, Exec.on_cur (λ p, set_ptf (set_rax minus1 (p_tf p)) p) s)) ∧
  (∀ a, Ulib.a1 q = Some a → fetcharg 0 s = Ok (a, s)) ∧ (∀ a, Ulib.a2 q = Some a → fetcharg 1 s = Ok (a, s)) ∧
  (∀ a, Ulib.a3 q = Some a → fetcharg 2 s = Ok (a, s)).
Proof.
  split; [|split; [|exact (fetcharg_eq s p q Hp Hq)]]; destruct Hq as [Hn _].
  - intros h Hin. apply (syscall_dispatch s p (Some h) Hp). rewrite Hn.
    repeat (apply elem_of_cons in Hin as [[= -> ->]|Hin]; [done|]). by apply elem_of_nil in Hin.
  - intros Hin. rewrite (syscall_dispatch s p None Hp); [done|]. rewrite Hn.
    repeat (apply elem_of_cons in Hin as [->|Hin]; [done|]). by apply elem_of_nil in Hin.
Qed.

(** Any call of the user library's [sleep] stops the kernel: [sys_sleep]
    gives [sleep] a null lock, for which it panics. *)
Theorem sys_sleep_panics (s : pst (D := D)) (p : proc) (n : Z)
    (Hp : ptable s !! cur s = Some p) (Hq : requests (Ulib.sleep n) (p_tf p)) :
  syscall s = Panic "sleep without lk".
Proof.
  rewrite (syscall_dispatch s p (Some sys_sleep) Hp); [|by rewrite (proj1 Hq)].
  unfold sys_sleep, argint, bind at 1 2 3. rewrite (proj1 (fetcharg_eq s p _ Hp Hq) n eq_refl). done.
Qed.

(** ** User pointers *)

Lemma scan_str_spec n : ∀ a acc s, ∃ o, scan_str n a acc s = Ok (o, s) ∧
  match o with
  | Some str => ∃ l, str = acc ++ l ∧ (length l < n)%nat ∧
      (∀ i, (i < length l)%nat → l !! i = Some (uload (k_mem (pk s)) (a + Z.of_nat i)) ∧
        uload (k_mem (pk s)) (a + Z.of_nat i) ≠ 0) ∧
      uload (k_mem (pk s)) (a + Z.of_nat (length l)) = 0
  | None => ∀ i, (i < n)%nat → uload (k_mem (pk s)) (a + Z.of_nat i) ≠ 0
  end.
Proof.
  induction n as [|n IH]; intros a acc s; cbn [scan_str]; [exists None; split; [done|lia]|].
  unfold bind at 1, user_byte, gets. destruct (Z.eqb_spec (uload (k_mem (pk s)) a) 0) as [E|E].
  - exists (Some acc). split; [done|]. exists []. simpl. rewrite app_nil_r, Z.add_0_r.
    split_and!; [done|lia|intros; lia|done].
  - destruct (IH (a + 1) (acc ++ [uload (k_mem (pk s)) a]) s) as (o & Eo & Ho). exists o. split; [done|].
    destruct o as [str|].
    + destruct Ho as (l & -> & Hl & Hb & Hz). exists (uload (k_mem (pk s)) a :: l).
      rewrite <- app_assoc. split; [done|]. split; [simpl; lia|]. split.
      * intros [|i] Hi; [by rewrite Z.add_0_r|]. cbn [length] in Hi.
        replace (a + Z.of_nat (S i)) with (a + 1 + Z.of_nat i) by lia. apply (Hb i). lia.
      * cbn [length]. by replace (a + Z.of_nat (S (length l))) with (a + 1 + Z.of_nat (length l)) by lia.
    + intros [|i] Hi; [by rewrite Z.add_0_r|]. replace (a + Z.of_nat (S i)) with (a + 1 + Z.of_nat i) by lia. apply Ho. lia.
Qed.

(** C31: The checks on user pointers. [argptr] accepts exactly the buffers
    that lie below the size of the process, and [fetchstr] exactly the
    strings that start above the first page and end below that size: it
    returns the length and the bytes before the first zero. Neither panics
    nor changes the state. The process is smaller than 2 GiB, so that a
    length fits the result. *)
Theorem user_pointers_checked (s : pst (D := D)) (p : proc) (n a size : Z)
    (Hp : ptable s !! cur s = Some p) (Hsz : 0 ≤ p_sz p < i32_hi)
    (Ha : fetcharg n s = Ok (a, s)) (Hr : 0 ≤ a < u64_max) (Hs : i32_lo ≤ size < i32_hi) :
  argptr n size s = Ok (if decide (0 ≤ size ∧ a < p_sz p ∧ a + size ≤ p_sz p) then Some a else None, s) ∧
  ∃ len str, argstr n s = Ok ((len, str), s) ∧
    let at_ i := uload (k_mem (pk s)) (a + i) in
    if decide (len < 0) then
      len = -1 ∧ (a < Mmu.PGSIZE ∨ p_sz p ≤ a ∨ ∀ i, 0 ≤ i < p_sz p - a → at_ i ≠ 0)
    else
      len = Z.of_nat (length str) ∧ Mmu.PGSIZE ≤ a ∧ a + len < p_sz p ∧ at_ len = 0 ∧
      ∀ i, 0 ≤ i < len → str !! Z.to_nat i = Some (at_ i) ∧ at_ i ≠ 0.
Proof.
  unfold i32_hi, i32_lo, u64_max in *. split.
  - unfold argptr, argaddr, bind at 1. rewrite Ha. unfold bind at 1. rewrite (my_proc_eq s p Hp).
    destruct (Z.ltb_spec size 0); [simpl; rewrite decide_False by lia; done|].
    destruct (Z.leb_spec (p_sz p) a); [simpl; rewrite decide_False by lia; done|]. cbn [orb].
    unfold as_u64, u64_max. rewrite Z.mod_small by lia.
    rewrite (bind_ok _ _ _ _ _ (chk_u64_ok (a + size) s ltac:(unfold u64_max; lia))).
    destruct (Z.ltb_spec (p_sz p) (a + size)); [by rewrite decide_False by lia|by rewrite decide_True by lia].
  - unfold argstr, argaddr, bind at 1. rewrite Ha. unfold fetchstr, bind at 1. rewrite (my_proc_eq s p Hp).
    destruct (Z.ltb_spec a Mmu.PGSIZE); [exists (-1), []; split; [done|]; cbv zeta; rewrite decide_True by lia; auto|].
    destruct (Z.leb_spec (p_sz p) a); [exists (-1), []; split; [done|]; cbv zeta; rewrite decide_True by lia; auto|]. cbn [orb].
    destruct (scan_str_spec (Z.to_nat (p_sz p - a)) a [] s) as (o & Eo & Ho). unfold bind. rewrite Eo.
    destruct o as [str|].
    + destruct Ho as (l & -> & Hl & Hb & Hz). simpl. exists (Z.of_nat (length l)), l.
      rewrite Ulib.as_i32_small by (unfold i32_lo, i32_hi; lia). split; [done|]. cbv zeta. rewrite decide_False by lia.
      split_and!; [done|done|lia|done|]. intros i Hi. specialize (Hb (Z.to_nat i) ltac:(lia)). by rewrite Z2Nat.id in Hb by lia.
    + exists (-1), []. split; [done|]. cbv zeta. rewrite decide_True by lia. split; [done|]. right. right.
      intros i Hi. specialize (Ho (Z.to_nat i) ltac:(lia)). by rewrite Z2Nat.id in Ho by lia.
Qed.

End syscall.

(** ** Witnesses *)

Definition no_load (k : Kalloc.kmem_t) (a : Z) : Z := 0.
Definition no_store (a : Z) (bs : list Z) (k : Kalloc.kmem_t) : Kalloc.kmem_t := k.

(** [init] runs with [num] in rax and [a] in rdi, in two pages of memory. *)
Definition caller_proc (num a : Z) : proc :=
  set_ptf (set_rax num (set_args a 0 tf_zero)) (set_image 8192 0 init_proc).
Definition caller (num a : Z) (k : kst (D := Memide.memdisk)) : pst :=
  mkPst k (caller_proc num a :: replicate 63 zero_proc) (mkSpin 0 EmptyString None) (Some 0%nat) 2 false 0 1 false.

(** [mkdir] is refused. *)
Lemma ulib_requests_dispatched_witness :
  ∃ s', syscall 0 0 no_dev no_dev no_load no_store id 0 (caller 20 5 k0) = Ok (SRet minus1, s') ∧
    fetcharg 0 (caller 20 5 k0) = Ok (5, caller 20 5 k0).
Proof.
  destruct (ulib_requests_dispatched 0 0 no_dev no_dev no_load no_store id 0 (caller 20 5 k0) (caller_proc 20 5)
    (Ulib.mkdir 5) 5 0 0 eq_refl) as (_ & H1 & H2 & _).
  - split; [reflexivity|]. split; [intros a [= <-]; reflexivity|]. split; intros a [=].
  - eexists. split; [apply H1; repeat constructor|]. apply H2. reflexivity.
Defined.

Lemma sys_sleep_panics_witness :
  syscall 0 0 no_dev no_dev no_load no_store id 0 (caller 13 10 k0) = Panic "sleep without lk".
Proof.
  apply (sys_sleep_panics 0 0 no_dev no_dev no_load no_store id 0 (caller 13 10 k0) (caller_proc 13 10) 10 eq_refl).
  split; [reflexivity|]. split; [intros a [= <-]; reflexivity|]. split; intros a [=].
Defined.

(** A four-byte string at the start of the second page. *)
Definition str_load (k : Kalloc.kmem_t) (a : Z) : Z := if a =? 4100 then 0 else 65.
Lemma user_pointers_checked_witness :
  argptr 0 8 (caller 7 4096 k0) = Ok (Some 4096, caller 7 4096 k0) ∧
  ∃ len str, argstr str_load 0 (caller 7 4096 k0) = Ok ((len, str), caller 7 4096 k0).
Proof.
  destruct (user_pointers_checked str_load (caller 7 4096 k0) (caller_proc 7 4096) 0 4096 8 eq_refl
    ltac:(simpl; unfold i32_hi; lia) eq_refl ltac:(unfold u64_max; lia) ltac:(unfold i32_lo, i32_hi; lia))
    as [H1 (len & str & H2 & _)].
  split; [exact H1|]. exists len, str. exact H2.
Defined.

End Syscall.
