(* ===== verification/Descr.v ===== *)
(** * File descriptors

    Across the system calls of crates/syscall, [fork] and [exit], the
    reference count of an open file is the number of descriptors of all
    processes that name it. *)

From S2P Require Import Prelude Param Mmu Mem Kalloc Sync Disk Ring Bio Fsh Log Fs Pipe File Vm Proc ProcTable Exec Ulib Syscall.
Import Sync Bio Fsh Log Fs Pipe File Proc ProcTable Exec Syscall.

Module Descr.

Create HintDb calm.

(** ** Counting with handles in transit

    [hs] are the descriptors; [extra] are references held by a function in
    the middle of its work, and [owed] those that descriptors have and the
    table has not counted yet, or no longer counts. *)

Definition bal (l : list File) (hs extra owed : list nat) : Prop :=
  (∀ i x, l !! i = Some x → ref_ x + handles owed i = handles hs i + handles extra i) ∧
  (∀ i, i ∈ hs ∨ i ∈ extra → is_Some (l !! i)).

Lemma bal_cancel l hs f e o : bal l hs (f :: e) (f :: o) → bal l hs e o.
Proof.
  intros [H1 H2]. split.
  - intros i x Hx. specialize (H1 i x Hx). rewrite !handles_cons in H1. lia.
  - intros i [?|?]; apply H2; [by left|]. right. by right.
Qed.

Lemma bal_counts l l' hs e o : ref_ <$> l' = ref_ <$> l → bal l hs e o → bal l' hs e o.
Proof.
  intros E [H1 H2]. assert (Hl : ∀ i, ref_ <$> l' !! i = ref_ <$> l !! i).
  { intros i. by rewrite <- !list_lookup_fmap, E. }
  split.
  - intros i x Hx. specialize (Hl i). rewrite Hx in Hl. destruct (l !! i) as [y|] eqn:Ey; [|done].
    injection Hl as ->. by apply H1.
  - intros i Hi. destruct (H2 i Hi) as [y Hy]. specialize (Hl i). rewrite Hy in Hl. by destruct (l' !! i).
Qed.

Lemma ref_alter (g : File → File) (i : nat) (l : list File) : (∀ x, ref_ (g x) = ref_ x) → ref_ <$> alter g i l = ref_ <$> l.
Proof.
  intros Hg. apply list_eq. intros j. rewrite !list_lookup_fmap. destruct (decide (i = j)) as [->|].
  - rewrite list_lookup_alter_eq. destruct (l !! j); simpl; [by rewrite Hg|done].
  - by rewrite list_lookup_alter_ne.
Qed.

Lemma bal_set l hs e e' o o' f x v : l !! f = Some x →
  (∀ i, handles e' i - handles o' i = handles e i - handles o i + if decide (f = i) then v - ref_ x else 0) →
  (∀ i, i ∈ e' → i ∈ e ∨ i = f) → bal l hs e o → bal (alter (set_fref v) f l) hs e' o'.
Proof.
  intros Hx Hd Hin [H1 H2]. split.
  - intros i y. specialize (Hd i). destruct (decide (f = i)) as [<-|Hne].
    + rewrite list_lookup_alter_eq, Hx. intros [= <-]. specialize (H1 f x Hx). simpl. lia.
    + rewrite list_lookup_alter_ne by done. intros Hy. specialize (H1 i y Hy). lia.
  - intros i Hi. destruct (decide (f = i)) as [<-|Hne]; [rewrite list_lookup_alter_eq, Hx; by eexists|].
    rewrite list_lookup_alter_ne by done. apply H2. destruct Hi as [?|[?|?]%Hin]; auto; congruence.
Qed.

Section files.
Context {D : Type} `{!BlockDev D} (kernel_end : Z).
Implicit Types k : kst (D := D).

Lemma filealloc_bal k hs e o : bal (files k) hs e o →
  wlp filealloc k (λ a k', bal (files k') hs (match a with Some i => i :: e | None => e end) o).
Proof.
  intros Hb a k' E. rewrite filealloc_spec in E. destruct (find_free 0 (files k)) as [i|] eqn:Ef;
    injection E as <- <-; [|done]. simpl. destruct (find_free_0 _ _ Ef) as (x & Hx & H0).
  eapply bal_set; [exact Hx| | |exact Hb]; [|set_solver].
  intros j. rewrite handles_cons, H0. destruct (decide (i = j)); lia.
Qed.

Lemma filedup_bal k hs e o f : bal (files k) hs e o →
  wlp (filedup f) k (λ g k', g = f ∧ bal (files k') hs (f :: e) o).
Proof.
  intros Hb g k' E. unfold filedup, file_at, bind, modify, get in E. cbn -[alter] in E.
  destruct (files k !! f) as [x|] eqn:Hx; [|done]. cbn -[alter] in E. destruct (ref_ x <? 1); [done|].
  unfold chk_i32 in E. destruct (_ && _); [|done]. injection E as <- <-. split; [done|]. simpl.
  eapply bal_set; [exact Hx| | |exact Hb]; [|set_solver].
  intros j. rewrite handles_cons. destruct (decide (f = j)); lia.
Qed.

Lemma fileclose_bal k hs e o f : bal (files k) hs e o →
  wlp (fileclose kernel_end f) k (λ _ k', bal (files k') hs e (f :: o)).
Proof.
  intros Hb [] k' E. destruct (files k !! f) as [x|] eqn:Hx.
  2: { unfold fileclose, file_at, bind, modify, get in E. cbn -[alter] in E. by rewrite Hx in E. }
  eapply bal_counts; [exact (fileclose_counts kernel_end f x k k' Hx E)|].
  eapply (bal_set (files k) hs e e o (f :: o) f x); [exact Hx| |auto|exact Hb].
  intros j. rewrite handles_cons. destruct (decide (f = j)); lia.
Qed.

(** Closing a file that a function in the middle of its work holds. *)
Lemma fileclose_extra k hs e o f : bal (files k) hs (f :: e) o →
  wlp (fileclose kernel_end f) k (λ _ k', bal (files k') hs e o).
Proof.
  intros Hb. eapply wlp_mono; [by apply fileclose_bal|]. intros ? k' H. exact (bal_cancel _ _ f _ _ H).
Qed.

Lemma bal_perm l hs e e' o : e ≡ₚ e' → bal l hs e o → bal l hs e' o.
Proof.
  intros He [H1 H2]. split; [|intros i; rewrite <- He; apply H2].
  intros i x Hx. rewrite (H1 i x Hx). unfold handles. by rewrite He.
Qed.

Lemma cleanup_bal k hs e o f0 f1 : bal (files k) hs (option_list f0 ++ option_list f1 ++ e) o →
  wlp (cleanup kernel_end 0 f0 f1) k (λ r k', r = -1 ∧ bal (files k') hs e o).
Proof.
  intros Hb. unfold cleanup. change (negb (0 =? 0)) with false. cbv iota. do 2 wlp_step.
  wlp_step. eapply (wlp_mono _ _ (λ _ k', bal (files k') hs (option_list f1 ++ e) o)).
  { destruct f0; [by apply fileclose_extra|by wlp_step]. }
  intros [] k1 H1. wlp_step. eapply (wlp_mono _ _ (λ _ k', bal (files k') hs e o)).
  { destruct f1; [by apply fileclose_extra|by wlp_step]. }
  intros [] k2 H2. by wlp_step.
Qed.

Lemma pipealloc_bal k hs e o : bal (files k) hs e o →
  wlp (pipealloc kernel_end) k (λ r k',
    (r.1.1 < 0 ∧ bal (files k') hs e o) ∨
    ∃ a b, r = (0, Some a, Some b) ∧ bal (files k') hs (a :: b :: e) o).
Proof.
  intros Hb. unfold pipealloc. wlp_step. eapply wlp_mono; [by apply filealloc_bal|]. intros [a|] k1 H1.
  2: { wlp_step. eapply wlp_mono; [by apply (cleanup_bal k1 hs e o None None)|]. intros r k2 [-> H2]. wlp_step. by left. }
  wlp_step. eapply wlp_mono; [by apply filealloc_bal|]. intros [b|] k2 H2.
  2: { wlp_step. eapply wlp_mono; [by apply (cleanup_bal k2 hs e o (Some a) None)|]. intros r k3 [-> H3]. wlp_step. by left. }
  apply (bal_perm _ _ _ (a :: b :: e)) in H2; [|by constructor].
  wlp_step. eapply wlp_keeps; [apply (keeps_zoom files); done|]. intros p k3 E3. cbv beta. rewrite <- E3 in H2.
  destruct (Z.eqb_spec p 0) as [->|Hp].
  - wlp_step. eapply wlp_mono; [by apply (cleanup_bal k3 hs e o (Some a) (Some b))|]. intros r k4 [-> H4]. wlp_step. by left.
  - unfold on_file. repeat wlp_step. right. exists a, b. split; [done|]. cbn [files set_files set_pipes].
    eapply (bal_counts (files k3)); [by rewrite !ref_alter|]. exact H2.
Qed.

End files.

(** ** Descriptors of the processes *)

Definition ofs (p : proc) : list nat := omap id (p_ofile p).
Definition fds (l : list proc) : list nat := l ≫= ofs.
Definition dead (p : proc) : Prop := p_state p = UNUSED ∨ p_state p = ZOMBIE.

(** The descriptor table has its size, and is empty in a slot that is free or
    a zombie. *)
Definition tidy (p : proc) : Prop := length (p_ofile p) = Z.to_nat NOFILE ∧ (dead p → ofs p = []).

Lemma handles_fds_insert l i p q f : l !! i = Some p →
  handles (fds (<[i := q]> l)) f = handles (fds l) f - handles (ofs p) f + handles (ofs q) f.
Proof.
  revert i. induction l as [|x l IH]; intros [|i] Hi; [done..| |].
  - injection Hi as ->. change (fds (<[0%nat := q]> (p :: l))) with (ofs q ++ fds l).
    change (fds (p :: l)) with (ofs p ++ fds l). rewrite !handles_app. lia.
  - specialize (IH i Hi). change (fds (<[S i := q]> (x :: l))) with (ofs x ++ fds (<[i := q]> l)).
    change (fds (x :: l)) with (ofs x ++ fds l). rewrite !handles_app. lia.
Qed.
Lemma elem_of_fds l i p f : l !! i = Some p → f ∈ ofs p → f ∈ fds l.
Proof. intros Hp Hf. apply list_elem_of_bind. exists p. split; [done|by eapply list_elem_of_lookup_2]. Qed.
Lemma elem_of_fds_inv l f : f ∈ fds l → ∃ i p, l !! i = Some p ∧ f ∈ ofs p.
Proof. intros (p & Hf & [i Hi]%list_elem_of_lookup)%list_elem_of_bind. by exists i, p. Qed.

Lemma omap_opt_cons (x : option nat) l : omap id (x :: l) = option_list x ++ omap id l.
Proof. by destruct x. Qed.
Lemma handles_ofs_insert (l : list (option nat)) fd (v w : option nat) f : l !! fd = Some v →
  handles (omap id (<[fd := w]> l)) f =
  handles (omap id l) f - handles (option_list v) f + handles (option_list w) f.
Proof.
  revert fd. induction l as [|x l IH]; intros [|fd] Hi; [done..| |].
  - injection Hi as ->. change (omap id (<[0%nat := w]> (v :: l))) with (omap id (w :: l)).
    rewrite !omap_opt_cons, !handles_app. lia.
  - specialize (IH fd Hi). change (<[S fd := w]> (x :: l)) with (x :: <[fd := w]> l).
    rewrite !omap_opt_cons, !handles_app. lia.
Qed.
Lemma elem_of_ofs p f : f ∈ ofs p ↔ ∃ fd, p_ofile p !! fd = Some (Some f).
Proof.
  unfold ofs. rewrite list_elem_of_omap. split.
  - intros (o & Ho & Hf). simpl in Hf. subst o. apply list_elem_of_lookup in Ho as [fd ?]. by exists fd.
  - intros [fd Hfd]. exists (Some f). split; [by eapply list_elem_of_lookup_2|done].
Qed.

Section descr.
Context {D : Type} `{!BlockDev D}.
Context (kernel_end kpdpt : Z).
Context (devsw_read : Z → option (nat → Z → Z → M (fstate (D := D)) (Z * list Z)))
        (devsw_write : Z → option (nat → Z → list Z → Z → M (fstate (D := D)) Z)).
Context (uload : Kalloc.kmem_t → Z → Z) (ustore : Z → list Z → Kalloc.kmem_t → Kalloc.kmem_t).
Context (widen : Z → Z) (ticks : Z).
Implicit Types s : pst (D := D).

Definition inv (e o : list nat) (s : pst (D := D)) : Prop :=
  bal (files (pk s)) (fds (ptable s)) e o ∧ Forall tidy (ptable s).

(** One slot of the table changes. *)
Lemma bal_table l (pt : list proc) i p q e e' o o' : pt !! i = Some p →
  (∀ f, handles e' f - handles o' f = handles e f - handles o f + handles (ofs p) f - handles (ofs q) f) →
  (∀ f, f ∈ ofs q → f ∈ fds pt ∨ is_Some (l !! f)) → (∀ f, f ∈ e' → f ∈ fds pt ∨ f ∈ e) →
  bal l (fds pt) e o → bal l (fds (<[i := q]> pt)) e' o'.
Proof.
  intros Hp Hd Hq He [H1 H2]. split.
  - intros f x Hx. specialize (H1 f x Hx). specialize (Hd f). rewrite (handles_fds_insert pt i p q f Hp). lia.
  - intros f [Hf|Hf].
    + apply elem_of_fds_inv in Hf as (j & r & Hr & Hf). destruct (decide (i = j)) as [<-|Hne].
      * rewrite list_lookup_insert_eq in Hr by (by eapply lookup_lt_Some). injection Hr as <-.
        destruct (Hq f Hf) as [?|?]; [|done]. apply H2. by left.
      * rewrite list_lookup_insert_ne in Hr by done. apply H2. left. by eapply elem_of_fds.
    + apply H2. destruct (He f Hf); auto.
Qed.

(** ** Calls that leave descriptors and counts alone *)

Definition calm1 (p q : proc) : Prop := p_ofile q = p_ofile p ∧ (dead q → dead p).
Definition same_fds (s s' : pst (D := D)) : Prop :=
  counts (pk s') = counts (pk s) ∧ Forall2 calm1 (ptable s) (ptable s') ∧ cur s' = cur s.

#[local] Instance calm1_preorder : PreOrder calm1.
Proof.
  split; [by intros p|]. intros p q r [E1 H1] [E2 H2]. split; [congruence|auto].
Qed.
#[local] Instance same_fds_preorder : PreOrder same_fds.
Proof.
  split; [by intros s; split_and!|]. intros s t u (A1 & A2 & A3) (B1 & B2 & B3).
  split_and!; [congruence|by etrans|congruence].
Qed.

Lemma fds_calm l l' : Forall2 calm1 l l' → fds l' = fds l.
Proof.
  induction 1 as [|p q l l' [E _] _ IH]; [done|].
  change (ofs q ++ fds l' = ofs p ++ fds l). rewrite IH. unfold ofs. by rewrite E.
Qed.
Lemma tidy_calm l l' : Forall2 calm1 l l' → Forall tidy l → Forall tidy l'.
Proof.
  intros Ht Hd. induction Ht as [|p q l l' [E Hdead] _ IH]; [done|]. apply Forall_cons in Hd as [[H1 H2] Hd].
  constructor; [|by apply IH]. unfold tidy, ofs. rewrite E. split; [done|]. intros Hq. by apply H2, Hdead.
Qed.
Lemma inv_same e o s s' : same_fds s s' → inv e o s → inv e o s'.
Proof.
  intros (Hc & Ht & _) [Hb Hd]. split; [|by eapply tidy_calm].
  rewrite (fds_calm _ _ Ht). by eapply bal_counts.
Qed.

Definition calm {A} : M (pst (D := D)) A → Prop := resp same_fds.
Lemma calm_ret {A} (a : A) : calm (ret a).
Proof. exact (resp_ret same_fds a). Qed.
Lemma calm_bind {A B} (m : M pst A) (k : A → M pst B) : calm m → (∀ a, calm (k a)) → calm (bind m k).
Proof. exact (resp_bind same_fds m k). Qed.
Lemma calm_forM {A} (l : list A) body : (∀ x, calm (body x)) → calm (forM l body).
Proof. exact (resp_forM same_fds l body). Qed.
Lemma calm_keeps {A} (m : M pst A) : keeps (λ s, (counts (pk s), ptable s, cur s)) m → calm m.
Proof.
  intros Hk. eapply resp_keeps; [exact Hk|]. intros s s' [= E1 E2 E3]. split_and!; try done. by rewrite E2.
Qed.
Lemma calm_with_k {A} (m : M kst A) : keeps counts m → calm (with_k m).
Proof.
  intros Hm. apply calm_keeps. intros s a s' E. unfold with_k, zoom in E.
  destruct (m (pk s)) as [[b k]|e| |] eqn:Em; try done. injection E as _ <-. simpl. by rewrite (Hm _ _ _ Em).
Qed.
Lemma kept_calm s s' : kept s s' → Forall2 calm1 (ptable s) (ptable s').
Proof.
  intros [Ht _]. eapply Forall2_impl; [exact Ht|]. intros p q [Eq Hs]. split; [by rewrite Eq|].
  unfold dead. destruct Hs as [->|[-> ->]]; [done|]. by intros [?|?].
Qed.
Lemma calm_kept s s' : kept s s' → counts (pk s') = counts (pk s) → same_fds s s'.
Proof. intros Hk E. split_and!; [done|by apply kept_calm|apply Hk]. Qed.
Lemma calm_wakeup1 c : calm (wakeup1 c).
Proof. intros s a s' E. apply calm_kept; [by eapply still_wakeup1|]. by injection E as _ <-. Qed.
Lemma calm_my_proc : calm my_proc.
Proof. apply calm_keeps. unfold my_proc, proc_at. auto 8 with keeps. Qed.
Lemma calm_on_vm {A} (m : M Kalloc.kmem_t A) : calm (on_vm m).
Proof. apply calm_with_k. by apply keeps_zoom. Qed.
Lemma calm_on_proc i f : (∀ p, calm1 p (f p)) → calm (on_proc i f).
Proof.
  intros Hf. apply resp_modify. intros s. split_and!; [done| |done]. simpl. apply Forall2_same_length_lookup_2.
  - by rewrite length_alter.
  - intros j p q Hp. destruct (decide (i = j)) as [->|].
    + rewrite list_lookup_alter_eq, Hp. intros [= <-]. apply Hf.
    + rewrite list_lookup_alter_ne, Hp by done. by intros [= <-].
Qed.

Hint Resolve calm_ret calm_bind calm_forM calm_wakeup1 calm_my_proc calm_on_vm : calm.
Hint Extern 2 (calm (on_proc _ _)) =>
  apply calm_on_proc; intros; split; [reflexivity|first [done | intros [?|?]; discriminate]] : calm.
Hint Extern 5 (calm _) => apply calm_keeps; solve [auto 12 with keeps] : calm.
Hint Extern 3 (calm (let '(_, _) := ?x in _)) => destruct x : calm.
Hint Extern 3 (calm (if ?b then _ else _)) => destruct b : calm.
Hint Extern 3 (calm (match ?x with _ => _ end)) => destruct x : calm.

(** A call into the components below: what it does to the file table. *)
Lemma wlp_on_k {A} (m : M kst A) s (Q : A → pst → Prop) :
  (∀ k, files k = files (pk s) → wlp m k (λ a k', ∀ s', kept s s' → files (pk s') = files k' → Q a s')) →
  wlp (on_k m) s Q.
Proof.
  intros Hm a s' E. assert (Hk : kept s s') by (by eapply still_on_k). revert E. unfold on_k.
  intros (p & s1 & E1 & E)%bind_Ok_inv. assert (s1 = s) as ->.
  { unfold my_proc, proc_at in E1. apply bind_Ok_inv in E1 as (? & ? & E1 & E2). injection E1 as <- <-.
    apply bind_Ok_inv in E2 as (? & ? & E2 & E3). injection E2 as <- <-. unfold expect in E3.
    destruct (ptable _ !! _); [by injection E3|done]. }
  apply bind_Ok_inv in E as (? & s2 & E2 & E). apply bind_Ok_inv in E as (b & s3 & E3 & E).
  apply bind_Ok_inv in E as (k & s4 & E4 & E). injection E4 as <- <-.
  apply bind_Ok_inv in E as (? & s5 & E5 & E). injection E as <- <-.
  assert (Hf : pk s5 = pk s3).
  { revert E5. apply (keeps_forM pk). intros c. apply keeps_modify. done. }
  unfold with_k, zoom in E2, E3. simpl in E2. injection E2 as _ <-. simpl in E3.
  destruct (m _) as [[b' k']|e| |] eqn:Em; try done. injection E3 as <- <-.
  eapply Hm; [|exact Em|done|by rewrite Hf]. done.
Qed.

Lemma calm_on_k {A} (m : M kst A) : keeps counts m → calm (on_k m).
Proof.
  intros Hm s. apply wlp_on_k. intros k Hk a k' E s' Hs Hf. apply calm_kept; [done|].
  unfold counts in *. rewrite Hf. transitivity (counts k); [by eapply Hm|]. unfold counts. by rewrite Hk.
Qed.
Lemma calm_on_fs {A} (m : M fstate A) : calm (on_k (on_fs m)).
Proof. apply calm_on_k. by apply keeps_zoom. Qed.
Lemma calm_fileread f n : calm (on_k (fileread devsw_read f n)).
Proof. apply calm_on_k, fileread_counts. Qed.
Lemma calm_filewrite f addr n i : calm (on_k (filewrite devsw_write f addr n i)).
Proof. apply calm_on_k, filewrite_counts. Qed.
Lemma calm_filestat f : calm (on_k (filestat f)).
Proof.
  apply calm_on_k. unfold filestat, file_at. apply keeps_bind; [auto with keeps|]. intros x.
  assert (Hz : ∀ B (m : M (fstate (D := D)) B), keeps counts (on_fs m)) by (intros; by apply keeps_zoom).
  destruct (ftype x); auto 12 with keeps.
Qed.
Lemma calm_ustore a bs : calm (with_k (on_mem (modify (ustore a bs)))).
Proof. apply calm_with_k. by apply keeps_zoom. Qed.
Hint Resolve calm_on_fs calm_fileread calm_filewrite calm_filestat calm_ustore : calm.

(** ** Fetching arguments *)

Lemma calm_fetcharg n : calm (fetcharg n).
Proof. unfold fetcharg. auto 12 with calm. Qed.
Hint Resolve calm_fetcharg : calm.
Lemma calm_argint n : calm (argint n).
Proof. unfold argint. auto with calm. Qed.
Lemma calm_argptr n size : calm (argptr n size).
Proof. unfold argptr, argaddr. auto 12 with calm. Qed.
Lemma calm_scan_str n a acc : calm (scan_str uload n a acc).
Proof.
  revert a acc. induction n as [|n IH]; intros a acc; cbn [scan_str]; [auto with calm|]. unfold user_byte. auto 12 with calm.
Qed.
Hint Resolve calm_argint calm_argptr calm_scan_str : calm.
Lemma calm_fetchstr a : calm (fetchstr uload a).
Proof. unfold fetchstr. auto 12 with calm. Qed.
Lemma calm_fetchaddr a : calm (fetchaddr uload a).
Proof. unfold fetchaddr. auto 12 with calm. Qed.
Hint Resolve calm_fetchstr calm_fetchaddr : calm.
Lemma calm_fetch_argv n uargv off acc : calm (fetch_argv uload n uargv off acc).
Proof.
  revert off acc. induction n as [|n IH]; intros off acc; cbn [fetch_argv]; [auto with calm|]. auto 15 with calm.
Qed.
Lemma calm_argfd n : calm (argfd n).
Proof. unfold argfd. auto 12 with calm. Qed.
Hint Resolve calm_fetch_argv calm_argfd : calm.

(** ** The descriptor table of the running process *)

Definition live (s : pst (D := D)) : Prop := ∃ p, ptable s !! cur s = Some p ∧ ¬ dead p.
Definition rinv (e o : list nat) (s : pst (D := D)) : Prop := inv e o s ∧ live s.

Lemma live_calm s s' : Forall2 calm1 (ptable s) (ptable s') → cur s' = cur s → live s → live s'.
Proof.
  intros Ht Hc (p & Hp & Hd). destruct (Forall2_lookup_l _ _ _ _ _ Ht Hp) as (q & Hq & _ & Hdq).
  exists q. rewrite Hc. auto.
Qed.
Lemma rinv_same e o s s' : same_fds s s' → rinv e o s → rinv e o s'.
Proof.
  intros Hs [Hi Hl]. split; [by eapply inv_same|]. destruct Hs as (_ & Ht & Hc). by eapply live_calm.
Qed.
Lemma rinv_calm {A} (m : M pst A) e o s : calm m → rinv e o s → wlp m s (λ _ s', rinv e o s').
Proof. intros Hm Hi. eapply wlp_resp; [exact Hm|]. intros a s' Hs. by eapply rinv_same. Qed.

Lemma set_ofile_ofs p fd v w f : p_ofile p !! fd = Some v →
  handles (ofs (set_ofile fd w p)) f = handles (ofs p) f - handles (option_list v) f + handles (option_list w) f.
Proof. apply handles_ofs_insert. Qed.
Lemma set_ofile_elem p fd w f : f ∈ ofs (set_ofile fd w p) → f ∈ ofs p ∨ w = Some f.
Proof.
  rewrite !elem_of_ofs. intros [j Hj]. simpl in Hj. destruct (decide (fd = j)) as [<-|Hne].
  - apply list_lookup_insert_Some in Hj as [(_ & -> & _)|[? _]]; [by right|done].
  - rewrite list_lookup_insert_ne in Hj by done. left. by exists j.
Qed.

(** A descriptor of a live process changes from [v] to [w]. *)
Lemma inv_set_ofile s i p fd v w e e' o o' : inv e o s → ptable s !! i = Some p → ¬ dead p ∨ w = None →
  p_ofile p !! fd = Some v →
  (∀ f, handles e' f - handles o' f =
    handles e f - handles o f + handles (option_list v) f - handles (option_list w) f) →
  (∀ f, w = Some f → is_Some (files (pk s) !! f)) → (∀ f, f ∈ e' → f ∈ e ∨ v = Some f) →
  inv e' o' (set_ptable (<[i := set_ofile fd w p]> (ptable s)) s).
Proof.
  intros [Hb Ht] Hp Hd Hfd Hh Hw He. split.
  - simpl. eapply (bal_table _ _ i p _ e e' o o'); [done| | | |exact Hb].
    + intros f. rewrite (set_ofile_ofs p fd v w f Hfd), Hh. lia.
    + intros f [Hf|Hf]%set_ofile_elem; [left; by eapply elem_of_fds|right; by apply Hw].
    + intros f [?|Hv]%He; [by right|left]. eapply elem_of_fds; [done|]. apply elem_of_ofs. exists fd. congruence.
  - simpl. rewrite Forall_forall in Ht. apply Forall_insert; [by apply Forall_forall|].
    destruct (Ht p) as [H1 H2]; [by eapply list_elem_of_lookup_2|]. split; [simpl; by rewrite length_insert|].
    intros Hq. destruct Hd as [Hd| ->]; [by destruct (Hd Hq)|]. specialize (H2 Hq).
    destruct (ofs (set_ofile fd None p)) as [|f l] eqn:E; [done|]. exfalso.
    assert (Hf : f ∈ ofs (set_ofile fd None p)) by (rewrite E; left).
    apply set_ofile_elem in Hf as [Hf|?]; [rewrite H2 in Hf; by apply elem_of_nil in Hf|done].
Qed.

Lemma fd_scan_spec l : ∀ k fd, fd_scan k l = Some fd → (k ≤ fd)%nat ∧ l !! (fd - k)%nat = Some None.
Proof.
  induction l as [|[f|] l IH]; intros k fd E; simpl in E; [done| |].
  - apply IH in E as [Hk Hl]. split; [lia|]. by replace (fd - k)%nat with (S (fd - S k)) by lia.
  - injection E as <-. by rewrite Nat.sub_diag.
Qed.

(** The running process has descriptor [fd] for [f]. *)
Definition has_fd (s : pst (D := D)) (fd : Z) (f : nat) : Prop :=
  ∃ p, ptable s !! cur s = Some p ∧ ¬ dead p ∧ p_ofile p !! Z.to_nat fd = Some (Some f).

Lemma fdalloc_spec s e o f : rinv e o s → is_Some (files (pk s) !! f) →
  wlp (fdalloc f) s (λ fd s', pk s' = pk s ∧
    if fd <? 0 then s' = s else rinv e (f :: o) s' ∧ has_fd s' fd f).
Proof.
  intros [Hi (p & Hp & Hd)] Hf. unfold fdalloc. do 2 wlp_step. wlp_step. apply wlp_my_proc. intros p' Hp'.
  rewrite Hp in Hp'. injection Hp' as <-. destruct (fd_scan 0 (p_ofile p)) as [fd|] eqn:Es.
  2: { wlp_step. done. }
  apply fd_scan_spec in Es as [_ Hfd]. rewrite Nat.sub_0_r in Hfd.
  wlp_step. apply (wlp_on_proc _ _ p); [done|]. wlp_step. split; [done|].
  rewrite (proj2 (Z.ltb_ge _ _)) by lia. assert (Hl : (cur s < length (ptable s))%nat) by (by eapply lookup_lt_Some).
  assert (Hq : ptable (set_ptable (<[cur s:=set_ofile fd (Some f) p]> (ptable s)) s) !! cur s =
    Some (set_ofile fd (Some f) p)) by (simpl; by apply list_lookup_insert_eq).
  split; [split|].
  - eapply inv_set_ofile; [exact Hi|done|by left|exact Hfd| |intros ? [= <-]; done|by left].
    intros g. simpl. rewrite !handles_cons. unfold handles. simpl. lia.
  - by exists (set_ofile fd (Some f) p).
  - exists (set_ofile fd (Some f) p). rewrite Nat2Z.id. split; [done|]. split; [done|]. simpl.
    apply list_lookup_insert_eq. by eapply lookup_lt_Some.
Qed.

Lemma clear_fd_spec s e o fd f : rinv e o s → has_fd s fd f →
  wlp (on_proc (cur s) (set_ofile (Z.to_nat fd) None)) s (λ _ s', pk s' = pk s ∧ rinv (f :: e) o s').
Proof.
  intros [Hi _] (p & Hp & Hd & Hfd). apply (wlp_on_proc _ _ p); [done|]. split; [done|].
  assert (Hl : (cur s < length (ptable s))%nat) by (by eapply lookup_lt_Some). split.
  - eapply inv_set_ofile; [exact Hi|done|by left|exact Hfd| |done|].
    + intros g. simpl. rewrite !handles_cons. unfold handles. simpl. lia.
    + intros g [->|?]%elem_of_cons; auto.
  - exists (set_ofile (Z.to_nat fd) None p). split; [simpl; by apply list_lookup_insert_eq|done].
Qed.

Lemma rinv_cancel f e o s : rinv (f :: e) (f :: o) s → rinv e o s.
Proof. intros [[Hb Ht] Hl]. split; [split; [by eapply bal_cancel|done]|done]. Qed.

Lemma rinv_on_k {A} (m : M kst A) s e o (e' o' : A → list nat) (Q : A → Prop) : rinv e o s →
  (∀ k hs, bal (files k) hs e o → wlp m k (λ a k', Q a ∧ bal (files k') hs (e' a) (o' a))) →
  wlp (on_k m) s (λ a s', (Q a ∧ rinv (e' a) (o' a) s') ∧ kept s s').
Proof.
  intros [[Hb Ht] Hl] Hm. apply wlp_on_k. intros k Hk. rewrite <- Hk in Hb.
  eapply wlp_mono; [by apply Hm|]. intros a k' [HQ Hb'] s' Hs Hf. split; [|done]. split; [done|].
  pose proof (kept_calm _ _ Hs) as Hc. split; [split|].
  - by rewrite Hf, (fds_calm _ _ Hc).
  - by eapply tidy_calm.
  - eapply live_calm; [done|apply Hs|done].
Qed.

(** ** Handlers *)

(** After [exit] the process that ran is a zombie. *)
Definition safe {A} (m : M (pst (D := D)) A) : Prop := ∀ s, rinv [] [] s → wlp m s (λ _ s', inv [] [] s').
Lemma safe_live {A} (m : M pst A) : (∀ s, rinv [] [] s → wlp m s (λ _ s', rinv [] [] s')) → safe m.
Proof. intros Hm s Hi. eapply wlp_mono; [by apply Hm|]. by intros ? ? [? _]. Qed.
Lemma calm_safe {A} (m : M pst A) : calm m → safe m.
Proof. intros Hm. apply safe_live. intros s. by apply rinv_calm. Qed.

Lemma argfd_spec n s e o : rinv e o s → wlp (argfd n) s (λ a s', rinv e o s' ∧
  match a with Some (fd, f) => has_fd s' fd f ∧ is_Some (files (pk s') !! f) | None => True end).
Proof.
  intros Hi. unfold argfd. wlp_step. eapply wlp_mono; [by apply (rinv_calm _ e o s (calm_argint n))|].
  intros fd s1 H1. wlp_step. apply wlp_my_proc. intros p Hp. destruct (_ || _); [by wlp_step|].
  destruct (nth (Z.to_nat fd) (p_ofile p) None) as [f|] eqn:Ef; [|by wlp_step]. wlp_step.
  assert (Hfd : p_ofile p !! Z.to_nat fd = Some (Some f)).
  { destruct (nth_lookup_or_length (p_ofile p) (Z.to_nat fd) None) as [E|Hle]; [congruence|].
    by rewrite nth_overflow in Ef. }
  split; [done|]. destruct H1 as [[Hb _] (p' & Hp' & Hd)]. rewrite Hp in Hp'. injection Hp' as <-.
  split; [by exists p|]. apply Hb. left. eapply elem_of_fds; [done|]. apply elem_of_ofs. by exists (Z.to_nat fd).
Qed.

Lemma sys_dup_safe : safe sys_dup.
Proof.
  apply safe_live. intros s Hi. unfold sys_dup. wlp_step. eapply wlp_mono; [by apply argfd_spec|]. intros [[fd f]|] s1 [H1 H2]; [|by wlp_step].
  destruct H2 as [_ Hf]. wlp_step. eapply wlp_mono; [by apply (fdalloc_spec s1 [] [])|]. intros fd' s2 [_ H3].
  destruct (fd' <? 0); [subst s2; by wlp_step|]. destruct H3 as [H3 _]. wlp_step.
  eapply wlp_mono; [apply (rinv_on_k _ s2 [] [f] (λ _, [f]) (λ _, [f]) (λ g, g = f) H3)|].
  - intros k hs Hb. by apply filedup_bal.
  - intros g s3 [[_ H4] _]. wlp_step. by eapply rinv_cancel.
Qed.

Lemma close_extra s e f : rinv (f :: e) [] s → wlp (on_k (fileclose kernel_end f)) s (λ _ s', rinv e [] s').
Proof.
  intros Hi. eapply wlp_mono; [apply (rinv_on_k _ s (f :: e) [] (λ _, e) (λ _, []) (λ _, True) Hi)|by intros ? ? [[_ ?] _]].
  intros k hs Hb. eapply wlp_mono; [by apply fileclose_extra|done].
Qed.

Lemma sys_close_safe : safe (sys_close kernel_end).
Proof.
  apply safe_live. intros s Hi. unfold sys_close. wlp_step. eapply wlp_mono; [by apply argfd_spec|]. intros [[fd f]|] s1 [H1 H2]; [|by wlp_step].
  destruct H2 as [Hfd _]. do 2 wlp_step. wlp_step. eapply wlp_mono; [by apply (clear_fd_spec s1 [] [] fd f)|]. intros [] s2 [_ H3].
  wlp_step. eapply wlp_mono; [by apply close_extra|]. intros [] s3 H4. by wlp_step.
Qed.

(** [sys_pipe] from the two new files on. *)
Lemma sys_pipe_fds fds x y s : rinv [x; y] [] s →
  wlp (let* fd0 := fdalloc x in
       if fd0 <? 0 then
         on_k (fileclose kernel_end x) ;;; on_k (fileclose kernel_end y) ;;; ret (SRet minus1)
       else
         let* fd1 := fdalloc y in
         if fd1 <? 0 then
           let* s := get in
           on_proc (cur s) (set_ofile (Z.to_nat fd0) None) ;;;
           on_k (fileclose kernel_end x) ;;; on_k (fileclose kernel_end y) ;;; ret (SRet minus1)
         else
           with_k (on_mem (modify (ustore fds (le_bytes 4 fd0)))) ;;;
           with_k (on_mem (modify (ustore (fds + 4) (le_bytes 4 fd1)))) ;;;
           ret (SRet 0)) s (λ _ s', rinv [] [] s').
Proof.
  intros H2. assert (Hclose : ∀ s, rinv [x; y] [] s →
    wlp (on_k (fileclose kernel_end x) ;;; on_k (fileclose kernel_end y) ;;; ret (SRet minus1)) s (λ _ s', rinv [] [] s')).
  { intros t Ht. wlp_step. eapply wlp_mono; [by apply close_extra|]. intros [] t1 Ht1. wlp_step.
    eapply wlp_mono; [by apply close_extra|]. intros [] t2 Ht2. by wlp_step. }
  assert (Hin : is_Some (files (pk s) !! x) ∧ is_Some (files (pk s) !! y)).
  { destruct H2 as [[[_ Hb] _] _]. split; apply Hb; right; set_solver. }
  destruct Hin as [Hx Hy]. wlp_step. eapply wlp_mono; [by apply (fdalloc_spec s [x; y] [])|]. intros fd0 s1 [E1 H3].
  destruct (fd0 <? 0); [subst s1; by apply Hclose|]. destruct H3 as [H3 Hfd0].
  apply rinv_cancel in H3. wlp_step. rewrite <- E1 in Hy.
  eapply wlp_mono; [by apply (fdalloc_spec s1 [y] [])|]. intros fd1 s2 [_ H4]. destruct (fd1 <? 0).
  - subst s2. do 2 wlp_step. wlp_step. eapply wlp_mono; [by apply (clear_fd_spec s1 [y] [] fd0 x)|].
    intros [] s3 [_ H5]. by apply Hclose.
  - destruct H4 as [H4 _]. apply rinv_cancel in H4. apply (rinv_calm (A := sysret)); [auto 12 with calm|done].
Qed.

Lemma sys_pipe_safe : safe (sys_pipe kernel_end ustore).
Proof.
  apply safe_live. intros s Hi. unfold sys_pipe. wlp_step. eapply wlp_mono; [by apply (rinv_calm _ [] [] s (calm_argptr 0 8))|].
  intros [a|] s1 H1; [|by wlp_step]. wlp_step.
  eapply wlp_mono; [apply (rinv_on_k _ s1 [] []
    (λ r, if r.1.1 <? 0 then [] else option_list r.1.2 ++ option_list r.2) (λ _, [])
    (λ r, r.1.1 < 0 ∨ ∃ a b, r = (0, Some a, Some b)) H1)|].
  { intros k hs Hb. eapply wlp_mono; [by apply pipealloc_bal|]. intros r k' [[Hv Hb']|(x & y & -> & Hb')].
    - rewrite (proj2 (Z.ltb_lt _ _)) by done. auto.
    - split; [right; by eexists _, _|done]. }
  intros r s2 [[[Hv|(x & y & ->)] H2] _].
  { destruct r as [[v rf] wf]. simpl in *. rewrite (proj2 (Z.ltb_lt v 0)) in * by done. by wlp_step. }
  change (0 <? 0) with false in *. cbv beta iota in *. change (option_list (Some x) ++ option_list (Some y)) with [x; y] in H2.
  do 2 (wlp_step; apply wlp_expect; intros ? [= <-]). apply sys_pipe_fds. exact H2.
Qed.

Lemma calm_sched : calm sched.
Proof. unfold sched. auto 12 with calm. Qed.
Hint Resolve calm_sched : calm.
Lemma calm_sleep c lk : (∀ m, lk = LkOther m → calm m) → calm (sleep_proc c lk).
Proof. intros Hl. unfold sleep_proc. destruct lk; auto 15 with calm. Qed.
Lemma calm_pipe_sleep f c i : calm (pipe_sleep f c i).
Proof.
  unfold pipe_sleep. apply calm_bind; [apply calm_with_k; unfold file_at; auto with keeps|]. intros x.
  apply calm_bind; [apply calm_sleep; intros m [= <-]|]; auto with calm.
Qed.
Hint Resolve calm_sleep calm_pipe_sleep : calm.

Lemma calm_sys_read : calm (sys_read devsw_read ustore).
Proof. unfold sys_read. auto 20 with calm. Qed.
Lemma calm_sys_write i : calm (sys_write devsw_write uload i).
Proof. unfold sys_write. auto 20 with calm. Qed.
Lemma calm_sys_fstat : calm (sys_fstat uload ustore).
Proof. unfold sys_fstat. auto 25 with calm. Qed.
Lemma calm_kill pid : calm (kill pid).
Proof.
  unfold kill. apply calm_bind; [auto with calm|]. intros _. apply calm_bind; [auto with calm|]. intros s.
  destruct (kill_scan _ _ _) as [i|]; [|auto with calm]. apply calm_bind; [auto with calm|]. intros _.
  apply calm_bind; [|auto with calm]. apply calm_on_proc. intros p. destruct (decide _); split; try done.
  intros [?|?]; discriminate.
Qed.
Lemma calm_growproc n : calm (growproc kernel_end n).
Proof. unfold growproc. auto 20 with calm. Qed.

(** [exec]. *)
Lemma calm_load_loop fuel pgdir addr ip offset sz i : calm (load_loop devsw_read fuel pgdir addr ip offset sz i).
Proof.
  revert i. induction fuel as [|fuel IH]; intros i; cbn [load_loop]; [auto with calm|]. auto 25 with calm.
Qed.
Hint Resolve calm_load_loop : calm.
Lemma calm_load_segs n ip pgdir sz off : calm (load_segs kernel_end devsw_read n ip pgdir sz off).
Proof.
  revert sz off. induction n as [|n IH]; intros sz off; cbn [load_segs]; [auto with calm|]. unfold loaduvm. auto 25 with calm.
Qed.
Lemma calm_goto_bad pgdir ip : calm (goto_bad kernel_end pgdir ip).
Proof. unfold goto_bad. auto 15 with calm. Qed.
Hint Resolve calm_load_segs calm_goto_bad : calm.
Lemma calm_push_args pgdir l argc sp u : calm (push_args pgdir l argc sp u).
Proof.
  revert argc sp u. induction l as [|[a|] l IH]; intros argc sp u; cbn [push_args]; auto 15 with calm.
Qed.
Hint Resolve calm_push_args : calm.
Lemma calm_exec path argv : calm (exec kernel_end kpdpt devsw_read path argv).
Proof. unfold exec, exec_stack, exec_commit, Mmu.PGROUNDUP. auto 40 with calm. Qed.

(** [wait]: the slot it frees is a zombie's. *)
Lemma same_fds_insert s s' i p q : ptable s !! i = Some p → ptable s' = <[i := q]> (ptable s) → calm1 p q →
  counts (pk s') = counts (pk s) → cur s' = cur s → same_fds s s'.
Proof.
  intros Hp Et Hq Hc Hcur. split_and!; [done| |done]. rewrite Et.
  apply Forall2_same_length_lookup_2; [by rewrite length_insert|]. intros j x y Hx.
  destruct (decide (i = j)) as [<-|Hne].
  - rewrite list_lookup_insert_eq by (by eapply lookup_lt_Some). intros [= <-]. congruence.
  - rewrite list_lookup_insert_ne by done. intros Hy. assert (x = y) as -> by congruence. done.
Qed.

Lemma wlp_on_vm {A} (m : M Kalloc.kmem_t A) s (Q : A → pst → Prop) :
  (∀ a s', ptable s' = ptable s → counts (pk s') = counts (pk s) → cur s' = cur s → Q a s') → wlp (on_vm m) s Q.
Proof.
  intros HQ. eapply (wlp_keeps (λ s, (ptable s, counts (pk s), cur s))).
  - unfold on_vm, with_k, on_mem. intros s1 a s2 E. unfold zoom in E. destruct (m _) as [[b k]|e| |]; try done.
    by injection E as _ <-.
  - intros a s' [= E1 E2 E3]. auto.
Qed.

Lemma calm_wait : calm (wait kernel_end).
Proof.
  intros s. unfold wait. do 4 wlp_step. cbn [ptable cur set_pt_lock].
  destruct (scan_children (cur s) 0 (ptable s) false) as [[i|] b] eqn:Es.
  - apply scan_children_Some in Es as (c & Hc & _ & Hz & _). rewrite Nat.sub_0_r in Hc.
    wlp_step. apply wlp_proc_at. intros c' Hc'. cbn [ptable set_pt_lock] in Hc'. rewrite Hc in Hc'. injection Hc' as <-.
    wlp_step. apply wlp_on_vm. intros _ s1 T1 K1 C1. cbn [ptable pk cur set_pt_lock] in T1, K1, C1. rewrite <- T1 in Hc.
    wlp_step. apply (wlp_on_proc i _ c); [done|]. wlp_step. apply wlp_on_vm. intros _ s2 T2 K2 C2.
    cbn [ptable pk cur set_ptable] in T2, K2, C2.
    assert (Hl : (i < length (ptable s1))%nat) by (by eapply lookup_lt_Some).
    wlp_step. apply (wlp_on_proc i _ (set_kstack 0 c)); [rewrite T2; by apply list_lookup_insert_eq|]. do 3 wlp_step.
    rewrite T2, list_insert_insert_eq, T1.
    eapply (same_fds_insert _ _ i c); [by rewrite <- T1|done| | |]; cbn [pk cur set_pt_lock set_ptable]; [|congruence..].
    split; [done|]. intros _. by right.
  - apply wlp_bind. apply wlp_my_proc. intros p Hp. destruct (_ || _); [repeat wlp_step; by split_and!|].
    eapply wlp_mono; [|intros ? s' Hs; exact Hs].
    assert (Hc : calm (sleep_proc (ChProc (cur s)) LkPtable ;;; ret WSleep)).
    { apply calm_bind; [by apply calm_sleep|auto with calm]. }
    eapply wlp_resp; [exact Hc|]. intros a s' Hs. etrans; [|exact Hs]. by split_and!.
Qed.

(** A slot other than the running process's, with no descriptors. *)
Definition blank (i : nat) (s : pst (D := D)) : Prop := ∃ p, ptable s !! i = Some p ∧ ofs p = [].

Lemma blank_same i s s' : same_fds s s' → blank i s → blank i s'.
Proof.
  intros (_ & Ht & _) (p & Hp & Ho). destruct (Forall2_lookup_l _ _ _ _ _ Ht Hp) as (q & Hq & E & _).
  exists q. split; [done|]. unfold ofs. by rewrite E.
Qed.

Lemma inv_on_blank i f s : inv [] [] s → blank i s → (∀ p, p_ofile (f p) = p_ofile p) →
  wlp (on_proc i f) s (λ _ s', inv [] [] s' ∧ cur s' = cur s ∧ pk s' = pk s ∧ blank i s' ∧
    ∀ j, j ≠ i → ptable s' !! j = ptable s !! j).
Proof.
  intros [Hb Ht] (p & Hp & Ho) Hf. apply (wlp_on_proc i f p); [done|].
  assert (Hl : (i < length (ptable s))%nat) by (by eapply lookup_lt_Some).
  assert (Hofs : ofs (f p) = ofs p) by (unfold ofs; by rewrite Hf). split_and!; try done.
  - split; simpl.
    + eapply (bal_table _ _ i p (f p) [] [] [] []); [done|by intros; rewrite Hofs; lia| |by right|exact Hb].
      rewrite Hofs, Ho. by intros ? ?%elem_of_nil.
    + apply Forall_insert; [done|]. rewrite Forall_forall in Ht. destruct (Ht p) as [H1 _]; [by eapply list_elem_of_lookup_2|].
      split; [by rewrite Hf|by rewrite Hofs].
  - exists (f p). simpl. rewrite list_lookup_insert_eq by done. split; [done|congruence].
  - intros j Hj. simpl. by rewrite list_lookup_insert_ne.
Qed.
Lemma rinv_on_blank i f s : rinv [] [] s → blank i s → i ≠ cur s → (∀ p, p_ofile (f p) = p_ofile p) →
  wlp (on_proc i f) s (λ _ s', rinv [] [] s' ∧ cur s' = cur s ∧ blank i s').
Proof.
  intros [Hi (p & Hp & Hd)] Hbl Hne Hf. eapply wlp_mono; [by apply inv_on_blank|].
  intros _ s' (H1 & H2 & _ & H3 & H4). split_and!; try done. split; [done|]. exists p. rewrite H2, H4 by done. done.
Qed.

(** The slot of a process being made. *)
Definition fresh (i : nat) (s : pst (D := D)) : Prop :=
  i ≠ cur s ∧ ∃ q, ptable s !! i = Some q ∧ ofs q = [] ∧ ¬ dead q.
Lemma fresh_blank i s : fresh i s → blank i s.
Proof. intros (_ & q & ? & ? & _). by exists q. Qed.
Lemma fresh_same i s s' : same_fds s s' → fresh i s → fresh i s'.
Proof.
  intros (_ & Ht & Hc) (Hne & p & Hp & Ho & Hd). split; [congruence|].
  destruct (Forall2_lookup_l _ _ _ _ _ Ht Hp) as (q & Hq & E & Hdq). exists q. split_and!; [done| |auto].
  unfold ofs. by rewrite E.
Qed.
(** A call that leaves descriptors alone while a process is being made. *)
Lemma fresh_calm {A} (m : M pst A) i s : calm m → rinv [] [] s ∧ fresh i s →
  wlp m s (λ _ s', (rinv [] [] s' ∧ fresh i s') ∧ cur s' = cur s).
Proof.
  intros Hm [Hi Hf]. eapply wlp_resp; [exact Hm|]. intros a s' Hs. split; [|apply Hs].
  split; [by eapply rinv_same|by eapply fresh_same].
Qed.
Lemma fresh_bind {A B} i (m : M pst A) (k : A → M pst B) Q s : calm m → rinv [] [] s ∧ fresh i s →
  (∀ a s', rinv [] [] s' ∧ fresh i s' → cur s' = cur s → wlp (k a) s' Q) → wlp (bind m k) s Q.
Proof.
  intros Hm Hs Hk. wlp_step. eapply wlp_mono; [by apply (fresh_calm m i s)|]. intros a s' [? ?]. by apply Hk.
Qed.
(** The slot is given up. *)
Lemma fresh_unused i s : rinv [] [] s ∧ fresh i s → wlp (on_proc i (set_state UNUSED)) s (λ _ s', rinv [] [] s' ∧ cur s' = cur s).
Proof.
  intros [Hi Hf]. eapply wlp_mono; [apply (rinv_on_blank i _ s Hi (fresh_blank i s Hf)); [apply Hf|done]|].
  by intros ? s' (? & ? & _).
Qed.

Lemma tidy_blank i p s : inv [] [] s → ptable s !! i = Some p → dead p → blank i s.
Proof.
  intros [_ Ht] Hp Hd. exists p. split; [done|]. rewrite Forall_forall in Ht. apply (Ht p); [by eapply list_elem_of_lookup_2|done].
Qed.

(** ** [fork] *)

Lemma allocproc_fds s : rinv [] [] s →
  wlp allocproc s (λ a s', rinv [] [] s' ∧ cur s' = cur s ∧
    match a with Some i => fresh i s' | None => True end).
Proof.
  intros Hi. unfold allocproc. do 4 wlp_step. cbn [ptable set_pt_lock].
  destruct (find_unused 0 (ptable s)) as [i|] eqn:Ef; [|by repeat wlp_step].
  apply find_unused_Some in Ef as (x & Hx & Hu & _). rewrite Nat.sub_0_r in Hx.
  assert (Hbl : blank i s) by (eapply tidy_blank; [apply Hi|done|by left]).
  assert (Hne : i ≠ cur s). { intros ->. destruct Hi as [_ (p & Hp & Hd)]. apply Hd. left. congruence. }
  assert (Hl : (i < length (ptable s))%nat) by (by eapply lookup_lt_Some).
  assert (H1 : wlp (on_proc i (set_state EMBRYO)) (set_pt_lock 1 s) (λ _ s', (rinv [] [] s' ∧ fresh i s') ∧ cur s' = cur s)).
  { intros [] s' E. destruct (rinv_on_blank i (set_state EMBRYO) (set_pt_lock 1 s) Hi Hbl Hne ltac:(done) _ _ E) as (H1 & H2 & q & Hq & Ho).
    split; [|done]. split; [done|]. split; [by rewrite H2|]. exists q. split_and!; [done|done|].
    injection E as <-. cbn [ptable set_ptable set_pt_lock] in Hq. rewrite list_lookup_alter_eq, Hx in Hq. injection Hq as <-.
    intros [?|?]; discriminate. }
  wlp_step. eapply wlp_mono; [exact H1|]. intros _ s1 [F1 C1].
  apply (fresh_bind i); [auto with calm|done|]. intros _ s2 F2 C2. apply (fresh_bind i); [auto with calm|done|]. intros np s3 F3 C3.
  apply (fresh_bind i); [auto with calm|done|]. intros _ s4 F4 C4. apply (fresh_bind i); [auto with calm|done|]. intros _ s5 F5 C5.
  apply (fresh_bind i); [auto with calm|done|]. intros kstack s6 F6 C6. destruct (kstack =? 0).
  - wlp_step. eapply wlp_mono; [by apply fresh_unused|]. intros _ s7 [H7 C7]. wlp_step. split_and!; [done|congruence|done].
  - apply (fresh_bind i); [auto with calm|done|]. intros _ s7 F7 C7. apply (fresh_bind i); [auto with calm|done|]. intros _ s8 F8 C8. wlp_step.
    split_and!; [apply F8|congruence|apply F8].
Qed.

(** The child, whose descriptors from [j] on are still free. *)
Definition child (i j : nat) (s : pst (D := D)) : Prop :=
  i ≠ cur s ∧ ∃ q, ptable s !! i = Some q ∧ ¬ dead q ∧
    ∀ k, (j ≤ k < Z.to_nat NOFILE)%nat → p_ofile q !! k = Some None.

Lemma fresh_child i s : inv [] [] s → fresh i s → child i 0 s.
Proof.
  intros [_ Ht] (Hne & q & Hq & Ho & Hd). split; [done|]. exists q. split_and!; [done..|]. intros k [_ Hk].
  rewrite Forall_forall in Ht. destruct (Ht q) as [Hl _]; [by eapply list_elem_of_lookup_2|].
  destruct (lookup_lt_is_Some_2 (p_ofile q) k ltac:(lia)) as [[f|] Hf]; [|done]. exfalso.
  assert (Hin : f ∈ ofs q) by (apply elem_of_ofs; by exists k). rewrite Ho in Hin. by apply elem_of_nil in Hin.
Qed.
Lemma child_kept i j s s' : kept s s' → child i j s → child i j s'.
Proof.
  intros Hk (Hne & p & Hp & Hd & Ho). split; [by rewrite (proj2 Hk)|].
  destruct (Forall2_lookup_l _ _ _ _ _ (kept_calm _ _ Hk) Hp) as (q & Hq & E & Hdq). exists q. rewrite E.
  split_and!; auto.
Qed.

(** One descriptor is copied. *)
Lemma dup_fd_spec i j o s : rinv [] [] s → child i j s → (j < Z.to_nat NOFILE)%nat →
  wlp (match o with
       | Some f => let* f := on_k (filedup f) in on_proc i (set_ofile j (Some f))
       | None => ret tt
       end) s (λ _ s', rinv [] [] s' ∧ child i (S j) s').
Proof.
  intros Hi Hc Hj. destruct o as [f|].
  2: { wlp_step. split; [done|]. destruct Hc as (Hne & q & Hq & Hd & Ho). split; [done|]. exists q.
       split_and!; [done..|]. intros k Hk. apply Ho. lia. }
  wlp_step. eapply wlp_mono; [apply (rinv_on_k _ s [] [] (λ _, [f]) (λ _, []) (λ g, g = f) Hi)|].
  { intros k hs Hb. by apply filedup_bal. }
  intros g s1 [[-> H1] Hk]. apply (child_kept _ _ _ _ Hk) in Hc as (Hne & q & Hq & Hd & Ho).
  apply (wlp_on_proc i _ q); [done|]. destruct H1 as [H1 (p & Hp & Hdp)].
  assert (Hl : (i < length (ptable s1))%nat) by (by eapply lookup_lt_Some).
  assert (Hf : is_Some (files (pk s1) !! f)) by (apply H1; right; by left). split; [split|].
  - eapply inv_set_ofile; [exact H1|done|by left|apply Ho; lia| |by intros ? [= <-]|].
    + intros h. simpl. rewrite !handles_cons. unfold handles. simpl. lia.
    + by intros ? ?%elem_of_nil.
  - exists p. simpl. rewrite list_lookup_insert_ne by done. done.
  - split; [done|]. exists (set_ofile j (Some f) q). split_and!; [simpl; by apply list_lookup_insert_eq|done|].
    intros k Hk'. simpl. rewrite list_lookup_insert_ne by lia. apply Ho. lia.
Qed.
Lemma dup_fds_spec i (g : nat → option nat) n j s : rinv [] [] s → child i j s → (j + n ≤ Z.to_nat NOFILE)%nat →
  wlp (forM (seq j n) (λ fd, match g fd with
       | Some f => let* f := on_k (filedup f) in on_proc i (set_ofile fd (Some f))
       | None => ret tt
       end)) s (λ _ s', rinv [] [] s').
Proof.
  revert j s. induction n as [|n IH]; intros j s Hi Hc Hn; cbn [seq forM]; [by wlp_step|]. wlp_step.
  eapply wlp_mono; [apply (dup_fd_spec i j (g j) s Hi Hc); lia|]. intros _ s1 [H1 C1]. apply IH; [done|done|lia].
Qed.

Lemma fork_safe : safe (fork kernel_end kpdpt).
Proof.
  apply safe_live. intros s Hi. unfold fork. do 2 wlp_step. wlp_step. apply wlp_my_proc. intros p Hp.
  wlp_step. eapply wlp_mono; [by apply allocproc_fds|]. intros [np|] s1 (H1 & C1 & F1); [|by wlp_step].
  apply (fresh_bind np); [auto with calm|done|]. intros pgdir s2 F2 C2. destruct (pgdir =? 0).
  - apply (fresh_bind np); [apply calm_keeps; unfold proc_at; auto with keeps|done|]. intros c s3 F3 C3.
    apply (fresh_bind np); [auto with calm|done|]. intros _ s4 F4 C4.
    apply (fresh_bind np); [auto with calm|done|]. intros _ s5 F5 C5.
    wlp_step. eapply wlp_mono; [by apply fresh_unused|]. intros _ s6 [H6 _]. by wlp_step.
  - do 3 (apply (fresh_bind np); [auto with calm|done|]; intros _ ? ? ?). destruct_and!.
    wlp_step. eapply wlp_mono; [apply (dup_fds_spec np (λ i, nth i (p_ofile p) None) (Z.to_nat NOFILE) 0); [done| |done]|].
    { by apply fresh_child; [match goal with H : rinv _ _ _ |- _ => apply H end|]. }
    intros ? s6 Hs6. apply (rinv_calm (A := Z)); [|exact Hs6].
    apply calm_bind; [auto with calm|]. intros c. apply calm_bind; [auto with calm|]. intros c'.
    apply calm_bind; [auto with calm|]. intros _. apply calm_bind; [auto with calm|]. intros _.
    apply calm_bind; [apply calm_keeps; unfold proc_at; auto with keeps|]. intros x. auto with calm.
Qed.

(** ** [exit] *)

(** The running process, whose descriptors below [j] are closed. *)
Definition closing (j : nat) (s : pst (D := D)) : Prop :=
  ∃ q, ptable s !! cur s = Some q ∧ ∀ k, (k < j)%nat → p_ofile q !! k = Some None.

Lemma close_fd_spec j i s : rinv [] [] s → closing j s → cur s = i → (j < Z.to_nat NOFILE)%nat →
  wlp (let* x := my_proc in
       match nth j (p_ofile x) None with
       | Some f => on_k (fileclose kernel_end f) ;;; on_proc i (set_ofile j None)
       | None => ret tt
       end) s (λ _ s', rinv [] [] s' ∧ closing (S j) s' ∧ cur s' = i).
Proof.
  intros Hi (q & Hq & Ho) Hcur Hj. wlp_step. apply wlp_my_proc. intros x Hx. rewrite Hq in Hx. injection Hx as <-.
  assert (Hl : p_ofile q !! j = Some (nth j (p_ofile q) None)).
  { destruct (nth_lookup_or_length (p_ofile q) j None) as [E|Hle]; [done|]. destruct Hi as [[_ Ht] _].
    rewrite Forall_forall in Ht. destruct (Ht q) as [E _]; [by eapply list_elem_of_lookup_2|]. lia. }
  destruct (nth j (p_ofile q) None) as [f|] eqn:Ef.
  2: { wlp_step. split_and!; [done| |done]. exists q. split; [done|]. intros k Hk.
       destruct (decide (k = j)) as [->|]; [done|apply Ho; lia]. }
  wlp_step. eapply wlp_mono; [apply (rinv_on_k _ s [] [] (λ _, []) (λ _, [f]) (λ _, True) Hi)|].
  { intros k hs Hb. eapply wlp_mono; [by apply fileclose_bal|done]. }
  intros [] s1 [[_ [H1 Hlive]] Hk].
  destruct (Forall2_lookup_l _ _ _ _ _ (kept_calm _ _ Hk) Hq) as (r & Hr & Er & Hdr).
  rewrite <- Er in Hl, Ho. destruct Hk as [_ Hc1]. apply (wlp_on_proc i _ r); [by rewrite <- Hcur|].
  assert (Hlen : (i < length (ptable s1))%nat) by (rewrite <- Hcur; by eapply lookup_lt_Some).
  assert (Hnew : ptable (set_ptable (<[i:=set_ofile j None r]> (ptable s1)) s1) !! cur s1 = Some (set_ofile j None r)).
  { rewrite Hc1, Hcur. by apply list_lookup_insert_eq. }
  split_and!; [split| |by rewrite <- Hcur].
  - eapply (inv_set_ofile s1 i r j (Some f) None [] [] [f] []); [exact H1|by rewrite <- Hcur|by right|done| |done|].
    + intros h. simpl. rewrite !handles_cons. unfold handles. simpl. lia.
    + by intros ? ?%elem_of_nil.
  - destruct Hlive as (r' & Hr' & Hd). rewrite Hc1, Hr in Hr'. injection Hr' as <-. by exists (set_ofile j None r).
  - exists (set_ofile j None r). split; [done|]. intros k Hk'. simpl. destruct (decide (k = j)) as [->|].
    + apply list_lookup_insert_eq. by eapply lookup_lt_Some.
    + rewrite list_lookup_insert_ne by done. apply Ho. lia.
Qed.

Lemma close_fds_spec i n j s : rinv [] [] s → closing j s → cur s = i → (j + n ≤ Z.to_nat NOFILE)%nat →
  wlp (forM (seq j n) (λ fd, let* x := my_proc in
       match nth fd (p_ofile x) None with
       | Some f => on_k (fileclose kernel_end f) ;;; on_proc i (set_ofile fd None)
       | None => ret tt
       end)) s (λ _ s', rinv [] [] s' ∧ closing (j + n) s' ∧ cur s' = i).
Proof.
  revert j s. induction n as [|n IH]; intros j s Hi Hc Hi' Hn; cbn [seq forM]; [rewrite Nat.add_0_r; by wlp_step|]. wlp_step.
  eapply wlp_mono; [apply (close_fd_spec j i s Hi Hc Hi'); lia|]. intros _ s1 (H1 & C1 & E1).
  rewrite Nat.add_succ_r. apply (IH (S j)); [done|done|done|lia].
Qed.

Lemma closing_blank s : inv [] [] s → closing (Z.to_nat NOFILE) s → blank (cur s) s.
Proof.
  intros [_ Ht] (q & Hq & Ho). exists q. split; [done|]. rewrite Forall_forall in Ht.
  destruct (Ht q) as [Hl _]; [by eapply list_elem_of_lookup_2|].
  destruct (ofs q) as [|f l] eqn:E; [done|]. exfalso.
  assert (Hf : f ∈ ofs q) by (rewrite E; left). apply elem_of_ofs in Hf as [fd Hfd].
  rewrite Ho in Hfd; [done|]. apply lookup_lt_Some in Hfd. lia.
Qed.

Lemma calm_reparent n i p : calm (reparent n i p).
Proof.
  revert i. induction n as [|n IH]; intros i; cbn [reparent]; [auto with calm|]. apply calm_bind; [auto with calm|]. intros s.
  apply calm_bind; [apply calm_keeps; unfold proc_at; auto with keeps|]. intros c. auto 12 with calm.
Qed.
Hint Resolve calm_reparent : calm.

Lemma exit_safe : safe (exit kernel_end).
Proof.
  intros s Hi. unfold exit. do 2 wlp_step. destruct (decide _); [by wlp_step|]. wlp_step.
  eapply wlp_mono; [apply (close_fds_spec (cur s) (Z.to_nat NOFILE) 0 s Hi); [|done|done]|].
  { destruct Hi as [_ (p & Hp & _)]. exists p. split; [done|]. lia. }
  intros _ s1 (H1 & C1 & E1). apply closing_blank in C1; [|apply H1]. rewrite E1 in C1.
  assert (Hstep : ∀ A (m : M pst A) k Q t, calm m → rinv [] [] t ∧ blank (cur s) t →
    (∀ a t', rinv [] [] t' ∧ blank (cur s) t' → wlp (k a) t' Q) → wlp (bind (B := unit) m k) t Q).
  { intros A m k Q t Hm [Ht Hb] Hk. wlp_step. eapply wlp_resp; [exact Hm|]. intros a t' Hs. apply Hk.
    split; [by eapply rinv_same|by eapply blank_same]. }
  do 10 (apply Hstep; [auto with calm|done|]; intros ? ? ?). destruct_and!. wlp_step.
  eapply wlp_mono; [apply (inv_on_blank (cur s)); [match goal with H : rinv _ _ _ |- _ => apply H end|done|done]|].
  intros _ s9 (Hs9 & _). eapply wlp_resp; [apply calm_sched|]. intros [] s10 Hs. by eapply inv_same.
Qed.

(** ** The system call interface *)

Definition sys : M (pst (D := D)) sysret :=
  syscall kernel_end kpdpt devsw_read devsw_write uload ustore widen ticks.

Lemma safe_then {A B} (m : M pst A) (k : A → M pst B) : safe m → (∀ a, calm (k a)) → safe (bind m k).
Proof.
  intros Hm Hk s Hi. wlp_step. eapply wlp_mono; [by apply Hm|]. intros a s1 H1. cbv beta in H1.
  eapply wlp_resp; [apply Hk|]. intros b s2 Hs. by eapply inv_same.
Qed.

Lemma handler_safe num h :
  SYSCALLS kernel_end kpdpt devsw_read devsw_write uload ustore widen ticks num = Some h → safe h.
Proof.
  unfold SYSCALLS. intros H. repeat (destruct (_ =? _); [injection H as <-|]); [..|done].
  - apply safe_then; [apply fork_safe|auto with calm].
  - apply safe_then; [apply exit_safe|auto with calm].
  - apply calm_safe. unfold sys_wait. apply calm_bind; [apply calm_wait|auto with calm].
  - apply calm_safe. unfold sys_kill. apply calm_bind; [auto with calm|]. intros pid.
    apply calm_bind; [apply calm_kill|auto with calm].
  - apply calm_safe. unfold sys_getpid. auto with calm.
  - apply calm_safe. unfold sys_sbrk. do 2 (apply calm_bind; [auto with calm|intros ?]).
    apply calm_bind; [apply calm_growproc|auto with calm].
  - apply calm_safe. unfold sys_sleep. apply calm_bind; [auto with calm|]. intros ?.
    apply calm_bind; [by apply calm_sleep|auto with calm].
  - apply calm_safe. unfold sys_uptime. auto with calm.
  - apply sys_pipe_safe.
  - apply calm_safe, calm_sys_read.
  - apply calm_safe. unfold sys_exec, argstr, argaddr. apply calm_bind; [auto with calm|]. intros [r path].
    destruct (r <? 0); [auto with calm|]. do 2 (apply calm_bind; [auto with calm|intros ?]).
    case_match; [|auto with calm]. apply calm_bind; [apply calm_exec|auto with calm].
  - apply calm_safe, calm_sys_fstat.
  - apply sys_dup_safe.
  - apply calm_safe, calm_sys_write.
  - apply sys_close_safe.
Qed.

Lemma syscall_safe : safe sys.
Proof.
  intros s Hi. unfold sys, syscall. do 2 wlp_step. wlp_step. apply wlp_my_proc. intros p Hp.
  match goal with |- wlp (match ?x with _ => _ end) _ _ => destruct x as [h|] eqn:E end.
  - assert (Hh : safe h) by (destruct (_ && _); [by eapply handler_safe|done]).
    apply (safe_then h _ Hh); [|done]. intros r. unfold set_result. destruct r; auto with calm.
  - apply (calm_safe (A := sysret)); [|done]. unfold set_result. auto with calm.
Qed.

(** What the kernel does: system calls of the running process, started or
    resumed, wakeups, and the scheduler's switches. *)
Inductive dstep : pst (D := D) → pst (D := D) → Prop :=
| d_call (s s' : pst (D := D)) (r : sysret) : running s → sys s = Ok (r, s') → dstep s s'
| d_write (s s' : pst (D := D)) (i : Z) (r : sysret) : running s → sys_write devsw_write uload i s = Ok (r, s') → dstep s s'
| d_resume (s s' : pst (D := D)) (b : bool) (r : unit) : running s → sleep_resume b s = Ok (r, s') → dstep s s'
| d_wakeup (s s' : pst (D := D)) (c : chan) (r : unit) : wakeup c s = Ok (r, s') → dstep s s'
| d_yield (s s' : pst (D := D)) (r : unit) : running s → yield_proc s = Ok (r, s') → dstep s s'
| d_sched (s s' : pst (D := D)) (i : nat) (k : Z) (r : sres * Z) : scheduler_step i k s = Ok (r, s') → dstep s s'.

Lemma scheduler_fds i k s : inv [] [] s → wlp (scheduler_step i k) s (λ _ s', inv [] [] s').
Proof.
  intros Hi. unfold scheduler_step. do 4 wlp_step. destruct (sched_scan _ _ _) as [[j|] n].
  - do 2 wlp_step.
    assert (Hc : calm (on_proc j (set_state RUNNING) ;;; ret (SRun j, n))) by auto with calm.
    eapply wlp_resp; [exact Hc|]. intros a s' Hs. eapply inv_same; [exact Hs|]. exact Hi.
  - do 2 wlp_step. destruct (_ <? _); by wlp_step.
Qed.

Lemma dstep_inv s s' : dstep s s' → inv [] [] s → inv [] [] s'.
Proof.
  intros Hst Hi. assert (Hl : running s → rinv [] [] s).
  { intros (p & Hp & Hr). split; [done|]. exists p. split; [done|]. intros [?|?]; congruence. }
  assert (Hcalm : ∀ A (m : M (pst (D := D)) A) r, calm m → m s = Ok (r, s') → inv [] [] s').
  { intros A m r Hm E. eapply inv_same; [by eapply Hm|done]. }
  destruct Hst as [s s' r Hr E|s s' i r Hr E|s s' b r Hr E|s s' c r E|s s' r Hr E|s s' i k r E].
  - by eapply (syscall_safe s (Hl Hr)).
  - by eapply Hcalm; [apply calm_sys_write|].
  - eapply Hcalm; [|exact E]. unfold sleep_resume. auto with calm.
  - eapply Hcalm; [|exact E]. unfold wakeup. auto with calm.
  - eapply Hcalm; [|exact E]. unfold yield_proc. auto with calm.
  - by eapply scheduler_fds.
Qed.

(** C4: From a state in which no file is open on, whatever system calls the
    processes make, [fork], [exit], [pipe], [dup] and [close] among them, the
    reference count of a file is the number of descriptors that name it, over
    all processes, and every descriptor names a file with a positive count. *)
Theorem file_refs_are_descriptors (s0 s : pst (D := D))
    (Hf : Forall (λ x, ref_ x = 0) (files (pk s0)))
    (Hp : Forall (λ p, p_ofile p = replicate (Z.to_nat NOFILE) None) (ptable s0))
    (Hrun : rtc dstep s0 s) :
  (∀ i x, files (pk s) !! i = Some x → ref_ x = handles (fds (ptable s)) i) ∧
  (∀ j p fd f, ptable s !! j = Some p → p_ofile p !! fd = Some (Some f) →
     ∃ x, files (pk s) !! f = Some x ∧ 0 < ref_ x).
Proof.
  assert (Hi : inv [] [] s0).
  { assert (E : fds (ptable s0) = []).
    { clear -Hp. induction Hp as [|p l E _ IH]; [done|]. change (ofs p ++ fds l = []). rewrite IH. unfold ofs. by rewrite E. }
    split; [split|].
    - intros i x Hx. rewrite E. pose proof (Forall_lookup_1 _ _ _ _ Hf Hx) as H0. cbv beta in H0. rewrite H0. done.
    - rewrite E. by intros i [?%elem_of_nil|?%elem_of_nil].
    - eapply Forall_impl; [exact Hp|]. intros p Ep. unfold tidy, ofs. by rewrite Ep. }
  assert (Hs : inv [] [] s) by (clear Hf Hp; induction Hrun as [|? ? ? Hst _ IH]; [done|by apply IH, (dstep_inv _ _ Hst)]).
  destruct Hs as [[H1 H2] _].
  assert (Hr : ∀ i x, files (pk s) !! i = Some x → ref_ x = handles (fds (ptable s)) i).
  { intros i x Hx. specialize (H1 i x Hx). unfold handles at 1 3 in H1. simpl in H1. lia. }
  split; [exact Hr|]. intros j p fd f Hj Hfd.
  assert (Hin : f ∈ fds (ptable s)) by (eapply elem_of_fds; [done|]; apply elem_of_ofs; by exists fd).
  destruct (H2 f (or_introl Hin)) as [x Hx]. exists x. split; [done|]. rewrite (Hr f x Hx).
  apply list_elem_of_split in Hin as (l1 & l2 & ->). rewrite handles_app, handles_cons, decide_True by done.
  pose proof (handles_nonneg l1 f). pose proof (handles_nonneg l2 f). lia.
Qed.

End descr.

(** ** Witness *)

(** [init] calls [pipe] with a pointer into its second page. *)
Lemma file_refs_are_descriptors_witness :
  ∃ s x, rtc (dstep Kalloc.end0 0 no_dev no_dev no_load no_store id 0) (caller 4 4096 k0) s ∧
    fds (ptable s) = [0%nat; 1%nat] ∧ files (pk s) !! 0%nat = Some x ∧ ref_ x = handles [0%nat; 1%nat] 0.
Proof.
  assert (Hr : match sys Kalloc.end0 0 no_dev no_dev no_load no_store id 0 (caller 4 4096 k0) with
    | Ok (_, s) => fds (ptable s) = [0%nat; 1%nat] ∧ is_Some (files (pk s) !! 0%nat) | _ => False end).
  { vm_compute. split; [reflexivity|eexists; reflexivity]. }
  destruct (sys Kalloc.end0 0 no_dev no_dev no_load no_store id 0 (caller 4 4096 k0)) as [[r s]|e| |] eqn:E; [|contradiction..].
  destruct Hr as [Hr [x Hx]]. exists s, x.
  assert (Hrun : rtc (dstep Kalloc.end0 0 no_dev no_dev no_load no_store id 0) (caller 4 4096 k0) s).
  { eapply rtc_l; [|apply rtc_refl]. refine (d_call _ _ _ _ _ _ _ _ _ s r _ E). exists (caller_proc 4 4096). split; reflexivity. }
  split; [exact Hrun|]. split; [exact Hr|]. split; [exact Hx|]. rewrite <- Hr.
  refine (proj1 (file_refs_are_descriptors Kalloc.end0 0 no_dev no_dev no_load no_store id 0
    (caller 4 4096 k0) s _ _ Hrun) 0%nat x Hx).
  - apply Forall_replicate. reflexivity.
  - constructor; [reflexivity|]. apply Forall_replicate. reflexivity.
Defined.

End Descr.
