(* ===== verification/Kbd.v ===== *)
(** * The keyboard

    crates/drivers/src/kbd.rs: the scan-code tables and the translation of
    scan codes to characters, with the modifier state. *)

From S2P Require Import Prelude.

Module Kbd.

(** The status bit, the modifiers and the special keys, src/crates/drivers/src/kbd.rs
    lines 6 to 29. *)
Abbreviation KBS_DIB := 0x01 (only parsing).
Abbreviation SHIFT := (Z.shiftl 1 0) (only parsing).
Abbreviation CTL := (Z.shiftl 1 1) (only parsing).
Abbreviation ALT := (Z.shiftl 1 2) (only parsing).
Abbreviation CAPSLOCK := (Z.shiftl 1 3) (only parsing).
Abbreviation NUMLOCK := (Z.shiftl 1 4) (only parsing).
Abbreviation SCROLLLOCK := (Z.shiftl 1 5) (only parsing).
Abbreviation E0ESC := (Z.shiftl 1 6) (only parsing).
Abbreviation KEY_HOME := (0xE0) (only parsing).
Abbreviation KEY_END := (0xE1) (only parsing).
Abbreviation KEY_UP := (0xE2) (only parsing).
Abbreviation KEY_DN := (0xE3) (only parsing).
Abbreviation KEY_LF := (0xE4) (only parsing).
Abbreviation KEY_RT := (0xE5) (only parsing).
Abbreviation KEY_PGUP := (0xE6) (only parsing).
Abbreviation KEY_PGDN := (0xE7) (only parsing).
Abbreviation KEY_INS := (0xE8) (only parsing).
Abbreviation KEY_DEL := (0xE9) (only parsing).
Abbreviation NO := (0) (only parsing).

Definition ctrl (x : Z) : Z := as_u8 (x - 64).

(** An array of 256 entries, zero but for the assignments. *)
Definition table (l : list (Z * Z)) : list Z :=
  foldl (λ m iv, <[Z.to_nat iv.1 := iv.2]> m) (replicate 256 NO) l.

Definition SHIFTCODE : list Z := table [
  (0x1D, CTL); (0x2A, SHIFT); (0x36, SHIFT); (0x38, ALT); (0x9D, CTL); (0xB8, ALT)].

Definition TOGGLECODE : list Z := table [
  (0x3A, CAPSLOCK); (0x45, NUMLOCK); (0x46, SCROLLLOCK)].

Definition NORMALMAP : list Z := table [
  (0x01, 0x1B); (0x02, 49); (0x03, 50); (0x04, 51); (0x05, 52); (0x06, 53); (0x07, 54);
  (0x08, 55); (0x09, 56); (0x0A, 57); (0x0B, 48); (0x0C, 45); (0x0D, 61); (0x0E, 0x08);
  (0x0F, 9); (0x10, 113); (0x11, 119); (0x12, 101); (0x13, 114); (0x14, 116); (0x15, 121);
  (0x16, 117); (0x17, 105); (0x18, 111); (0x19, 112); (0x1A, 91); (0x1B, 93); (0x1C, 10);
  (0x1E, 97); (0x1F, 115); (0x20, 100); (0x21, 102); (0x22, 103); (0x23, 104); (0x24, 106);
  (0x25, 107); (0x26, 108); (0x27, 59); (0x28, 39); (0x29, 96); (0x2B, 92); (0x2C, 122);
  (0x2D, 120); (0x2E, 99); (0x2F, 118); (0x30, 98); (0x31, 110); (0x32, 109); (0x33, 44);
  (0x34, 46); (0x35, 47); (0x37, 42); (0x39, 32); (0x47, 55); (0x48, 56); (0x49, 57);
  (0x4A, 45); (0x4B, 52); (0x4C, 53); (0x4D, 54); (0x4E, 43); (0x4F, 49); (0x50, 50);
  (0x51, 51); (0x52, 48); (0x53, 46); (0x9C, 10); (0xB5, 47); (0xC8, KEY_UP); (0xD0, KEY_DN);
  (0xC9, KEY_PGUP); (0xD1, KEY_PGDN); (0xCB, KEY_LF); (0xCD, KEY_RT); (0x97, KEY_HOME);
  (0xCF, KEY_END); (0xD2, KEY_INS); (0xD3, KEY_DEL)].

Definition SHIFTMAP : list Z := table [
  (0x01, 0x1B); (0x02, 33); (0x03, 64); (0x04, 35); (0x05, 36); (0x06, 37); (0x07, 94);
  (0x08, 38); (0x09, 42); (0x0A, 40); (0x0B, 41); (0x0C, 95); (0x0D, 43); (0x0E, 0x08);
  (0x0F, 9); (0x10, 81); (0x11, 87); (0x12, 69); (0x13, 82); (0x14, 84); (0x15, 89);
  (0x16, 85); (0x17, 73); (0x18, 79); (0x19, 80); (0x1A, 123); (0x1B, 125); (0x1C, 10);
  (0x1E, 65); (0x1F, 83); (0x20, 68); (0x21, 70); (0x22, 71); (0x23, 72); (0x24, 74);
  (0x25, 75); (0x26, 76); (0x27, 58); (0x28, 34); (0x29, 126); (0x2B, 124); (0x2C, 90);
  (0x2D, 88); (0x2E, 67); (0x2F, 86); (0x30, 66); (0x31, 78); (0x32, 77); (0x33, 60);
  (0x34, 62); (0x35, 63); (0x37, 42); (0x39, 32); (0x47, 55); (0x48, 56); (0x49, 57);
  (0x4A, 45); (0x4B, 52); (0x4C, 53); (0x4D, 54); (0x4E, 43); (0x4F, 49); (0x50, 50);
  (0x51, 51); (0x52, 48); (0x53, 46); (0x9C, 10); (0xB5, 47); (0xC8, KEY_UP); (0xD0, KEY_DN);
  (0xC9, KEY_PGUP); (0xD1, KEY_PGDN); (0xCB, KEY_LF); (0xCD, KEY_RT); (0x97, KEY_HOME);
  (0xCF, KEY_END); (0xD2, KEY_INS); (0xD3, KEY_DEL)].

Definition CTLMAP : list Z := table [
  (0x1C, 10); (0x1E, ctrl 65); (0x1F, ctrl 83); (0x20, ctrl 68); (0x21, ctrl 70);
  (0x22, ctrl 71); (0x23, ctrl 72); (0x24, ctrl 74); (0x25, ctrl 75); (0x26, ctrl 76);
  (0x2C, ctrl 90); (0x2D, ctrl 88); (0x2E, ctrl 67); (0x2F, ctrl 86); (0x30, ctrl 66);
  (0x31, ctrl 78); (0x32, ctrl 77); (0x10, ctrl 81); (0x11, ctrl 87); (0x12, ctrl 69);
  (0x13, ctrl 82); (0x14, ctrl 84); (0x15, ctrl 89); (0x16, ctrl 85); (0x17, ctrl 73);
  (0x18, ctrl 79); (0x19, ctrl 80); (0x39, 32); (0x9C, 10); (0xB5, ctrl 47); (0xC8, KEY_UP);
  (0xD0, KEY_DN); (0xC9, KEY_PGUP); (0xD1, KEY_PGDN); (0xCB, KEY_LF); (0xCD, KEY_RT);
  (0x97, KEY_HOME); (0xCF, KEY_END); (0xD2, KEY_INS); (0xD3, KEY_DEL)].

(** [!x] on 32 bits. *)
Definition not_u32 (x : Z) : Z := u32_max - 1 - x.
Definition at_ (m : list Z) (i : Z) : M Z Z := expect "index out of bounds" (m !! Z.to_nat i).

(** [kbdgetc]: the state is [SHIFT_STATE]; [st] and [data] are what the status
    and the data port give. *)
Definition caps (state c : Z) : Z :=
  if negb (Z.land state CAPSLOCK =? 0) then
    if (97 <=? c) && (c <=? 122) then c - 32
    else if (65 <=? c) && (c <=? 90) then c + 32
    else c
  else c.

Definition kbdgetc (st data : Z) : M Z Z :=
  if Z.land st KBS_DIB =? 0 then ret (-1)
  else if data =? 0xE0 then
    modify (λ s, Z.lor s E0ESC) ;;;
    ret 0
  else if negb (Z.land data 0x80 =? 0) then
    let* s := get in
    let* m := at_ SHIFTCODE (if negb (Z.land s E0ESC =? 0) then data else Z.land data 0x7F) in
    modify (λ s, Z.land s (not_u32 (Z.lor m E0ESC))) ;;;
    ret 0
  else
    let* s := get in
    let* data :=
      (if negb (Z.land s E0ESC =? 0) then
         modify (λ s, Z.land s (not_u32 E0ESC)) ;;;
         ret (Z.lor data 0x80)
       else ret data) in
    let* m := at_ SHIFTCODE data in
    modify (λ s, Z.lor s m) ;;;
    let* t := at_ TOGGLECODE data in
    modify (λ s, Z.lxor s t) ;;;
    let* s := get in
    let* map := expect "index out of bounds"
      ([NORMALMAP; SHIFTMAP; CTLMAP; CTLMAP] !! Z.to_nat (Z.land s (Z.lor CTL SHIFT))) in
    let* c := at_ map data in
    ret (caps s c).

(** ** The modifier state as a keyboard user sees it *)

Record mods := mkMods {
  m_shift : bool;
  m_ctl : bool;
  m_alt : bool;
  m_caps : bool;
  m_num : bool;
  m_scroll : bool;
  m_esc : bool;
}.
Definition has (s b : Z) : bool := negb (Z.land s b =? 0).
Definition mods_of (s : Z) : mods :=
  mkMods (has s SHIFT) (has s CTL) (has s ALT) (has s CAPSLOCK) (has s NUMLOCK) (has s SCROLLLOCK)
         (has s E0ESC).

(** What a scan code does to the modifiers: the prefix, the release of a key,
    or a key pressed. The right control and alt keys come with the prefix. *)
Definition mods_step (m : mods) (data : Z) : mods :=
  if data =? 0xE0 then mkMods (m_shift m) (m_ctl m) (m_alt m) (m_caps m) (m_num m) (m_scroll m) true
  else
    let key := data mod 128 in
    let is_shift := negb (m_esc m) && ((key =? 0x2A) || (key =? 0x36)) in
    let is_ctl := key =? 0x1D in
    let is_alt := key =? 0x38 in
    if 128 <=? data then
      mkMods (m_shift m && negb is_shift) (m_ctl m && negb is_ctl) (m_alt m && negb is_alt)
             (m_caps m) (m_num m) (m_scroll m) false
    else
      mkMods (m_shift m || is_shift) (m_ctl m || is_ctl) (m_alt m || is_alt)
             (xorb (m_caps m) (negb (m_esc m) && (key =? 0x3A)))
             (xorb (m_num m) (negb (m_esc m) && (key =? 0x45)))
             (xorb (m_scroll m) (negb (m_esc m) && (key =? 0x46))) false.

(** The character a pressed letter key gives. *)
Definition letter (m : mods) (c : Z) : Z :=
  if m_ctl m then c - 96 else if xorb (m_shift m) (m_caps m) then c - 32 else c.

#[global] Instance mods_eq_dec : EqDecision mods.
Proof. solve_decision. Defined.

(** One scan code in one state. *)
Definition key_ok (s data : Z) : bool :=
  match kbdgetc 1 data s with
  | Ok (c, s') =>
      (0 <=? c) && (c <? 256) && (0 <=? s') && (s' <? 128) &&
      bool_decide (mods_of s' = mods_step (mods_of s) data) &&
      (let n := nth (Z.to_nat data) NORMALMAP 0 in
       if negb (m_esc (mods_of s)) && (data <? 128) && (97 <=? n) && (n <=? 122)
       then c =? letter (mods_of s) n else true)
  | _ => false
  end.

Lemma key_ok_all : forallb (λ s, forallb (key_ok s) (seqZ 0 256)) (seqZ 0 128) = true.
Proof. vm_compute. reflexivity. Qed.

Lemma key_ok_at s data : 0 ≤ s < 128 → 0 ≤ data < 256 → key_ok s data = true.
Proof.
  intros Hs Hd. pose proof key_ok_all as H. rewrite forallb_forall in H.
  specialize (H s ltac:(apply list_elem_of_In, elem_of_seqZ; lia)). rewrite forallb_forall in H.
  apply H, list_elem_of_In, elem_of_seqZ. lia.
Qed.
Lemma kbdgetc_bytes s data : 0 ≤ s < 128 → 0 ≤ data < 256 →
  ∃ c s', kbdgetc KBS_DIB data s = Ok (c, s') ∧ 0 ≤ s' < 128 ∧ 0 ≤ c < 256.
Proof.
  intros Hs Hd. pose proof (key_ok_at s data Hs Hd) as H. unfold key_ok in H. change (kbdgetc KBS_DIB data s) with (kbdgetc 1 data s).
  destruct (kbdgetc 1 data s) as [[c s']| | |]; try done. exists c, s'. b2p. split_and!; [done|lia..].
Qed.

(** C33: [kbdgetc] is total and keeps its state: for any status and data byte
    it returns without an out-of-range access, -1 when there is no data and a
    byte otherwise, and its state stays seven bits that follow the modifier
    keys held and the locks toggled. A letter key without the prefix gives the
    control character when control is held, and otherwise the letter, in
    upper case exactly when one of shift and caps lock is on. *)
Theorem kbdgetc_total (s st data : Z) (Hs : 0 ≤ s < 128) (Hd : 0 ≤ data < 256) :
  ∃ c s', kbdgetc st data s = Ok (c, s') ∧ 0 ≤ s' < 128 ∧
    if Z.testbit st 0 then
      0 ≤ c < 256 ∧ mods_of s' = mods_step (mods_of s) data ∧
      ∀ n, NORMALMAP !! Z.to_nat data = Some n → 97 ≤ n ≤ 122 → data < 128 → m_esc (mods_of s) = false →
        c = letter (mods_of s) n
    else c = -1 ∧ s' = s.
Proof.
  assert (Hb : Z.land st KBS_DIB = if Z.testbit st 0 then 1 else 0).
  { change KBS_DIB with (Z.ones 1). rewrite Z.land_ones by lia. change (2 ^ 1) with 2. rewrite <- Z.bit0_mod.
    by destruct (Z.testbit st 0). }
  destruct (Z.testbit st 0) eqn:E.
  2: { exists (-1), s. unfold kbdgetc. rewrite Hb. done. }
  pose proof (key_ok_at s data Hs Hd) as Hk.
  assert (Hst : kbdgetc st data s = kbdgetc 1 data s) by (unfold kbdgetc; by rewrite Hb).
  rewrite Hst. unfold key_ok in Hk. destruct (kbdgetc 1 data s) as [[c s']| | |]; try done.
  rewrite !andb_true_iff, bool_decide_eq_true in Hk. destruct Hk as [[[[[H1 H2] H3] H4] H5] H6].
  exists c, s'. b2p. split_and!; [done|lia|lia|lia|lia|done|]. intros n Hn Hr Hlt He.
  rewrite (nth_lookup_Some _ _ _ _ Hn), He in H6. rewrite (proj2 (Z.ltb_lt data 128)) in H6 by done.
  rewrite (proj2 (Z.leb_le 97 n)), (proj2 (Z.leb_le n 122)) in H6 by lia. simpl in H6. by apply Z.eqb_eq.
Qed.

(** The left shift key and then the key of [a]. *)
Lemma kbdgetc_total_witness :
  kbdgetc 1 0x2A 0 = Ok (0, 1) ∧ ∃ c s', kbdgetc 1 0x1E 1 = Ok (c, s') ∧ c = 65.
Proof.
  split; [reflexivity|].
  destruct (kbdgetc_total 1 1 0x1E ltac:(lia) ltac:(lia)) as (c & s' & E & _ & _ & _ & H). exists c, s'.
  split; [exact E|]. rewrite (H 97 ltac:(reflexivity) ltac:(lia) ltac:(lia) ltac:(reflexivity)). reflexivity.
Defined.

End Kbd.
