(* ===== verification/Console.v ===== *)
(** * The console

    crates/console/src/lib.rs: the text screen and the line discipline of the
    keyboard; with crates/drivers/src/uart.rs, the keyboard interrupt of
    crates/drivers/src/kbd.rs and the console device functions of
    kernel/src/glue.rs.

    The video memory is a function from cell numbers to 16-bit cells; the
    cursor register of the video controller holds 16 bits; [tx] are the bytes
    sent to the serial port, [rx] those waiting there and [codes] the scan codes
    waiting in the keyboard controller. *)

From S2P Require Import Prelude Sync Kbd.
Import Sync.

Module Console.

Definition BACKSPACE : Z := 0x100.
Definition INPUT_BUF_SIZE : Z := 128.

Record Input := mkInput {
  buf : list Z;
  r_ : Z;
  w_ : Z;
  e_ : Z;
}.

Record cons := mkCons {
  CRT : Z → Z;
  cursor : Z;
  UART_EXISTS : bool;
  tx : list Z;
  rx : list Z;
  INPUT : Input;
  cwakes : list chan;
  SHIFT_STATE : Z;
  codes : list Z;
}.

Definition set_crt (f : Z → Z) (s : cons) : cons :=
  mkCons f (cursor s) (UART_EXISTS s) (tx s) (rx s) (INPUT s) (cwakes s) (SHIFT_STATE s) (codes s).
Definition set_cursor (v : Z) (s : cons) : cons :=
  mkCons (CRT s) v (UART_EXISTS s) (tx s) (rx s) (INPUT s) (cwakes s) (SHIFT_STATE s) (codes s).
Definition set_uart (v : bool) (s : cons) : cons :=
  mkCons (CRT s) (cursor s) v (tx s) (rx s) (INPUT s) (cwakes s) (SHIFT_STATE s) (codes s).
Definition set_tx (v : list Z) (s : cons) : cons :=
  mkCons (CRT s) (cursor s) (UART_EXISTS s) v (rx s) (INPUT s) (cwakes s) (SHIFT_STATE s) (codes s).
Definition set_rx (v : list Z) (s : cons) : cons :=
  mkCons (CRT s) (cursor s) (UART_EXISTS s) (tx s) v (INPUT s) (cwakes s) (SHIFT_STATE s) (codes s).
Definition set_input (v : Input) (s : cons) : cons :=
  mkCons (CRT s) (cursor s) (UART_EXISTS s) (tx s) (rx s) v (cwakes s) (SHIFT_STATE s) (codes s).
Definition add_wake (c : chan) (s : cons) : cons :=
  mkCons (CRT s) (cursor s) (UART_EXISTS s) (tx s) (rx s) (INPUT s) (cwakes s ++ [c]) (SHIFT_STATE s) (codes s).
Definition set_shift (v : Z) (s : cons) : cons :=
  mkCons (CRT s) (cursor s) (UART_EXISTS s) (tx s) (rx s) (INPUT s) (cwakes s) v (codes s).
Definition set_codes (v : list Z) (s : cons) : cons :=
  mkCons (CRT s) (cursor s) (UART_EXISTS s) (tx s) (rx s) (INPUT s) (cwakes s) (SHIFT_STATE s) v.

(** ** The serial port *)

Definition uartputc (c : Z) : M cons unit :=
  modify (λ s, if UART_EXISTS s then set_tx (tx s ++ [as_u8 c]) s else s).
Definition uartgetc : M cons Z :=
  let* s := get in
  if negb (UART_EXISTS s) then ret (-1)
  else
    match rx s with
    | [] => ret (-1)
    | c :: l => modify (set_rx l) ;;; ret c
    end.

(** The setup of the port at boot. [uartearlyinit] returns what it writes to
    the registers, by their offsets from [COM1]; [lsr] is the line status it
    reads then. The second read of [uartinit] takes a byte that waits. *)
Definition uartearlyinit (lsr : Z) : M cons (list (Z * Z)) :=
  let writes := [(2, 0); (3, 0x80); (0, as_u8 (115200 / 9600)); (1, 0); (3, 0x03); (4, 0); (1, 0x01)] in
  if lsr =? 0xFF then ret writes
  else
    modify (set_uart true) ;;;
    forM [120; 118; 54; 45; 114; 117; 115; 116; 46; 46; 46; 10] uartputc ;;;
    ret writes.
Definition uartinit : M cons unit :=
  let* s := get in
  if negb (UART_EXISTS s) then ret tt
  else modify (λ s, set_rx (tail (rx s)) s).

(** [cprintf_str] of glue.rs, on the bytes before the terminating zero. *)
Definition cprintf_str (s : list Z) : M cons unit := forM s uartputc.

(** ** The screen *)

Definition put_cell (i v : Z) (f : Z → Z) : Z → Z := λ j, if j =? i then v else f j.
(** [copy(CRT.add(80), CRT, 23 * 80)] and [write_bytes(CRT.add(pos), 0, n)]. *)
Definition scroll (f : Z → Z) : Z → Z := λ j, if (0 <=? j) && (j <? 23 * 80) then f (j + 80) else f j.
Definition clear (pos n : Z) (f : Z → Z) : Z → Z := λ j, if (pos <=? j) && (j <? pos + n) then 0 else f j.

Definition cgaputc (c : Z) : M cons unit :=
  let* s := get in
  let pos := cursor s in
  let* pos :=
    (if c =? 10 then chk_u64 (pos + (80 - pos mod 80))
     else if c =? BACKSPACE then (if 0 <? pos then chk_u64 (pos - 1) else ret pos)
     else
       modify (λ s, set_crt (put_cell pos (Z.lor (Z.land (as_u16 c) 0xff) 0x0700) (CRT s)) s) ;;;
       chk_u64 (pos + 1)) in
  let* pos :=
    (if 24 <=? pos / 80 then
       modify (λ s, set_crt (scroll (CRT s)) s) ;;;
       let* pos := chk_u64 (pos - 80) in
       let* n := chk_u64 (24 * 80 - pos) in
       modify (λ s, set_crt (clear pos n (CRT s)) s) ;;;
       ret pos
     else ret pos) in
  modify (set_cursor (256 * as_u8 (Z.shiftr pos 8) + as_u8 (Z.land pos 0xff))) ;;;
  modify (λ s, set_crt (put_cell pos (Z.lor 32 0x0700) (CRT s)) s).

Definition consputc (c : Z) : M cons unit :=
  (if c =? BACKSPACE then
     uartputc 8 ;;;
     uartputc 32 ;;;
     uartputc 8
   else uartputc c) ;;;
  cgaputc c.

(** ** Input *)

Definition set_e (v : Z) (i : Input) : Input := mkInput (buf i) (r_ i) (w_ i) v.
Definition set_w (v : Z) (i : Input) : Input := mkInput (buf i) (r_ i) v (e_ i).
Definition set_buf (k : nat) (v : Z) (i : Input) : Input := mkInput (<[k := v]> (buf i)) (r_ i) (w_ i) (e_ i).
Definition on_input (f : Input → Input) : M cons unit := modify (λ s, set_input (f (INPUT s)) s).

(** One character of the loop of [consoleintr]. *)
Definition intr_char (c : Z) : M cons unit :=
  let* i := gets INPUT in
  if c =? 3 then ret tt
  else if (c =? 8) || (c =? 127) then
    if negb (e_ i =? w_ i) then
      let* e := chk_u64 (e_ i - 1) in
      on_input (set_e e) ;;;
      consputc BACKSPACE
    else ret tt
  else if negb (c =? 0) && (as_u64 (e_ i - r_ i) <? INPUT_BUF_SIZE) then
    let ch := if c =? 13 then 10 else as_u8 c in
    on_input (set_buf (Z.to_nat (e_ i mod INPUT_BUF_SIZE)) ch) ;;;
    let* e := chk_u64 (e_ i + 1) in
    on_input (set_e e) ;;;
    consputc ch ;;;
    let* full := (if (ch =? 10) || (ch =? 4) then ret true
                  else let* top := chk_u64 (r_ i + INPUT_BUF_SIZE) in ret (e =? top)) in
    if (full : bool) then
      on_input (set_w e) ;;;
      modify (add_wake ChInput)
    else ret tt
  else ret tt.

Fixpoint consoleintr (fuel : nat) (getc : M cons Z) : M cons unit :=
  match fuel with
  | O => nofuel
  | S fuel' =>
      let* c := getc in
      if c <? 0 then ret tt else intr_char c ;;; consoleintr fuel' getc
  end.

(** [kbdgetc] reads the status port, whose data bit is set while there are
    codes, and then the data port. *)
Definition kbdgetc : M cons Z :=
  let* s := get in
  match codes s with
  | [] => zoom SHIFT_STATE set_shift (Kbd.kbdgetc 0 0)
  | d :: l =>
      modify (set_codes l) ;;;
      zoom SHIFT_STATE set_shift (Kbd.kbdgetc Kbd.KBS_DIB d)
  end.

(** The interrupts of the two devices; each call of [getc] takes one of the
    codes or bytes that wait. *)
Definition kbdintr : M cons unit :=
  let* s := get in
  consoleintr (S (length (codes s))) kbdgetc.
Definition uartintr : M cons unit :=
  let* s := get in
  consoleintr (S (length (rx s))) uartgetc.

(** [consoleread] and [consolewrite] of glue.rs; the bytes read come with the
    count. *)
Fixpoint consoleread_loop (fuel : nat) (i n : Z) (acc : list Z) : M cons (Z * list Z) :=
  match fuel with
  | O => nofuel
  | S fuel' =>
      if i <? n then
        let* c := uartgetc in
        if c <? 0 then ret (i, acc)
        else if c =? 10 then ret (i + 1, acc ++ [as_u8 c])
        else consoleread_loop fuel' (i + 1) n (acc ++ [as_u8 c])
      else ret (i, acc)
  end.
Definition consoleread (n : Z) : M cons (Z * list Z) :=
  consoleread_loop (S (Z.to_nat n)) 0 n [].
Definition consolewrite (src : list Z) : M cons Z :=
  forM src consputc ;;;
  ret (Z.of_nat (length src)).

(** ** The screen as text

    The cells before the cursor, with the zero cells that scrolling leaves
    shown as blanks. *)
Definition blank : Z := 0x0720.
Definition shown (v : Z) : Z := if v =? 0 then blank else v.
Definition text (s : cons) : list Z := (λ i, shown (CRT s i)) <$> seqZ 0 (cursor s).

(** The cursor is in the 24 lines, and there is nothing after it. *)
Definition screen_ok (s : cons) : Prop :=
  0 ≤ cursor s < 24 * 80 ∧ ∀ i, cursor s ≤ i < 24 * 80 → shown (CRT s i) = blank.

(** What a character does to the text: a new line fills the current one, and
    a full screen loses its first line. *)
Definition put (t : list Z) (c : Z) : list Z :=
  let t := if c =? 10 then t ++ replicate (80 - length t mod 80) blank
           else if c =? BACKSPACE then take (pred (length t)) t
           else t ++ [Z.lor (c mod 256) 0x0700] in
  if decide (24 * 80 ≤ length t)%nat then drop 80 t else t.

Lemma cursor_value pos : 0 ≤ pos < 65536 → 256 * as_u8 (Z.shiftr pos 8) + as_u8 (Z.land pos 0xff) = pos.
Proof.
  intros H. unfold as_u8, u8_max. change 0xff with (Z.ones 8). rewrite Z.shiftr_div_pow2, Z.land_ones by lia.
  change (2 ^ 8) with 256. Z.to_euclidean_division_equations; lia.
Qed.

Lemma cell_value c : 0 ≤ c < 65536 → Z.land (as_u16 c) 0xff = c mod 256.
Proof.
  intros H. unfold as_u16, u16_max. rewrite Z.mod_small by done. change 0xff with (Z.ones 8).
  by rewrite Z.land_ones by lia.
Qed.
Lemma shown_char x : 0 ≤ x → shown (Z.lor x 0x0700) = Z.lor x 0x0700.
Proof.
  intros Hx. unfold shown. destruct (Z.eqb_spec (Z.lor x 0x0700) 0) as [E|]; [|done].
  by apply Z.lor_eq_0_iff in E as [_ ?].
Qed.

(** The text in the cells before [pos]. *)
Definition cells (f : Z → Z) (pos : Z) : list Z := (λ i, shown (f i)) <$> seqZ 0 pos.
Lemma length_cells f pos : length (cells f pos) = Z.to_nat pos.
Proof. unfold cells. by rewrite length_fmap, length_seqZ. Qed.
Lemma cells_ext f g pos : (∀ i, 0 ≤ i < pos → shown (f i) = shown (g i)) → cells f pos = cells g pos.
Proof. intros H. unfold cells. apply list_fmap_ext. intros k i [-> Hk]%lookup_seqZ. apply H. lia. Qed.
Lemma cells_app f pos n : 0 ≤ pos → 0 ≤ n → cells f (pos + n) = cells f pos ++ ((λ i, shown (f i)) <$> seqZ pos n).
Proof. intros. unfold cells. rewrite seqZ_app by done. by rewrite fmap_app, Z.add_0_l. Qed.
Lemma cells_take f pos n : 0 ≤ n ≤ pos → take (Z.to_nat n) (cells f pos) = cells f n.
Proof.
  intros H. replace pos with (n + (pos - n)) by lia. rewrite cells_app by lia.
  rewrite take_app_le, take_ge; rewrite ?length_cells; [done|lia|lia].
Qed.
Lemma cells_blank f pos n : (∀ i, pos ≤ i < pos + n → shown (f i) = blank) → 
  (λ i, shown (f i)) <$> seqZ pos n = replicate (Z.to_nat n) blank.
Proof.
  intros H. apply list_eq. intros k. rewrite list_lookup_fmap. destruct (decide (k < Z.to_nat n)%nat).
  - rewrite lookup_seqZ_lt by lia. rewrite lookup_replicate_2 by done. simpl. f_equal. apply H. lia.
  - rewrite lookup_seqZ_ge by lia. symmetry. apply lookup_replicate_None. lia.
Qed.

Lemma cells_shift g f n : 0 ≤ n → (∀ i, 0 ≤ i < n → shown (g i) = shown (f (i + 80))) →
  cells g n = drop 80 (cells f (n + 80)).
Proof.
  intros Hn H. rewrite Z.add_comm, cells_app by lia.
  rewrite drop_app_ge, length_cells, drop_0 by (rewrite length_cells; lia). unfold cells.
  apply list_eq. intros k. rewrite !list_lookup_fmap. destruct (decide (Z.of_nat k < n)).
  - rewrite !lookup_seqZ_lt by lia. simpl. f_equal. rewrite H by lia. f_equal. f_equal. lia.
  - by rewrite !lookup_seqZ_ge by lia.
Qed.

(** The first half of [cgaputc]: the character itself. *)
Lemma put_raw f pos c : 0 ≤ pos < 24 * 80 → 0 ≤ c < 65536 → (∀ i, pos ≤ i < 24 * 80 → shown (f i) = blank) →
  let pos1 := if c =? 10 then pos + (80 - pos mod 80)
              else if c =? BACKSPACE then (if 0 <? pos then pos - 1 else pos) else pos + 1 in
  let f1 := if (c =? 10) || (c =? BACKSPACE) then f
            else put_cell pos (Z.lor (Z.land (as_u16 c) 0xff) 0x0700) f in
  0 ≤ pos1 ≤ 24 * 80 ∧ (∀ i, pos1 < i < 24 * 80 → shown (f1 i) = blank) ∧
  cells f1 pos1 = (if c =? 10 then cells f pos ++ replicate (80 - length (cells f pos) mod 80) blank
                   else if c =? BACKSPACE then take (pred (length (cells f pos))) (cells f pos)
                   else cells f pos ++ [Z.lor (c mod 256) 0x0700]).
Proof.
  intros Hp Hc Hb. rewrite length_cells. destruct (Z.eqb_spec c 10) as [->|Hn]; cbn [orb].
  { assert (Hm : 0 ≤ pos mod 80 < 80) by (apply Z.mod_pos_bound; lia). split_and!.
    - lia.
    - Z.to_euclidean_division_equations; lia.
    - intros i Hi. apply Hb. lia.
    - rewrite cells_app by lia. f_equal. rewrite cells_blank.
      + f_equal. rewrite <- (Z2Nat.id pos) at 1 by lia. change 80 with (Z.of_nat 80) at 2.
        rewrite <- Nat2Z.inj_mod. pose proof (Nat.mod_upper_bound (Z.to_nat pos) 80 ltac:(lia)). lia.
      + intros i Hi. apply Hb. Z.to_euclidean_division_equations; lia. }
  destruct (Z.eqb_spec c BACKSPACE) as [->|Hbs].
  { destruct (Z.ltb_spec 0 pos).
    - split_and!; [lia|lia|intros i Hi; apply Hb; lia|]. rewrite <- (cells_take f pos (pos - 1)) by lia. f_equal. lia.
    - assert (pos = 0) as -> by lia. split_and!; [lia|lia|intros i Hi; apply Hb; lia|done]. }
  split_and!; [lia|lia| |].
  - intros i Hi. unfold put_cell. rewrite (proj2 (Z.eqb_neq i pos)) by lia. apply Hb. lia.
  - rewrite cells_app by lia. f_equal.
    + apply cells_ext. intros i Hi. unfold put_cell. by rewrite (proj2 (Z.eqb_neq i pos)) by lia.
    + simpl. unfold put_cell. rewrite Z.eqb_refl, cell_value by done. f_equal. apply shown_char.
      apply Z.mod_pos_bound. lia.
Qed.

Lemma wp_chk_u64 {S} x (s : S) (Q : Z → S → Prop) : 0 ≤ x < u64_max → Q x s → wp (chk_u64 x) s Q.
Proof. intros Hx HQ. unfold wp. by rewrite chk_u64_ok. Qed.

Lemma cgaputc_spec s c : screen_ok s → 0 ≤ c < 65536 →
  wp (cgaputc c) s (λ _ s', screen_ok s' ∧ text s' = put (text s) c ∧
    ∃ f pos, s' = set_crt f (set_cursor pos s)).
Proof.
  intros [Hp Hb] Hc. destruct (put_raw (CRT s) (cursor s) c Hp Hc Hb) as (Hp1 & Hb1 & Ht1). cbv zeta in *.
  set (pos1 := if c =? 10 then cursor s + _ else _) in *. set (f1 := if (c =? 10) || _ then _ else _) in *.
  unfold cgaputc. wp_step. wp_step. wp_step.
  eapply (wp_mono _ _ (λ p s1, p = pos1 ∧ s1 = set_crt f1 s)).
  { assert (Hs : set_crt (CRT s) s = s) by (by destruct s). subst pos1 f1.
    assert (Hm : 0 ≤ cursor s mod 80 < 80) by (apply Z.mod_pos_bound; lia).
    destruct (c =? 10); cbn [orb]; [apply wp_chk_u64; [unfold u64_max; lia|]; by rewrite Hs|].
    destruct (c =? BACKSPACE).
    - destruct (Z.ltb_spec 0 (cursor s)); [apply wp_chk_u64; [unfold u64_max; lia|]|wp_step]; by rewrite Hs.
    - do 2 wp_step. apply wp_chk_u64; [unfold u64_max; lia|]. done. }
  intros p s1 [-> ->]. fold (cells (CRT s) (cursor s)) in Ht1. unfold put.
  change (text s) with (cells (CRT s) (cursor s)). rewrite <- Ht1, length_cells. wp_step.
  destruct (Z.leb_spec 24 (pos1 / 80)) as [H24|H24].
  - assert (pos1 = 24 * 80) as E by (Z.to_euclidean_division_equations; lia). rewrite E in *.
    rewrite decide_True by done. do 2 wp_step. wp_step. apply wp_chk_u64; [unfold u64_max; lia|]. wp_step.
    apply wp_chk_u64; [unfold u64_max; lia|]. change (24 * 80 - 80) with 1840. change (24 * 80 - 1840) with 80.
    do 5 wp_step. rewrite cursor_value by lia. split_and!; [split|..].
    + cbn [cursor set_crt set_cursor]. lia.
    + cbn [cursor CRT set_crt set_cursor]. intros i Hi. unfold put_cell. destruct (Z.eqb_spec i 1840); [done|].
      unfold clear. rewrite (proj2 (Z.leb_le 1840 i)), (proj2 (Z.ltb_lt i (1840 + 80))) by lia. done.
    + unfold text. cbn [cursor CRT set_crt set_cursor]. apply (cells_shift _ f1 1840); [lia|]. intros i Hi.
      unfold put_cell, clear, scroll. rewrite (proj2 (Z.eqb_neq i 1840)), (proj2 (Z.leb_gt 1840 i)) by lia. cbn [andb].
      by rewrite (proj2 (Z.leb_le 0 i)), (proj2 (Z.ltb_lt i (23 * 80))) by lia.
    + eexists _, _. reflexivity.
  - assert (pos1 < 24 * 80) by (Z.to_euclidean_division_equations; lia). rewrite decide_False by lia.
    do 4 wp_step. rewrite cursor_value by lia. split_and!; [split|..].
    + cbn [cursor set_crt set_cursor]. lia.
    + cbn [cursor CRT set_crt set_cursor]. intros i Hi. unfold put_cell. destruct (Z.eqb_spec i pos1); [done|]. apply Hb1. lia.
    + unfold text. cbn [cursor CRT set_crt set_cursor]. apply cells_ext. intros i Hi. unfold put_cell.
      by rewrite (proj2 (Z.eqb_neq i pos1)) by lia.
    + eexists _, _. reflexivity.
Qed.

(** What the characters typed come from. *)
Definition source (s : cons) : bool * list Z * Z * list Z := (UART_EXISTS s, rx s, SHIFT_STATE s, codes s).

(** The bytes a character makes the serial port send. *)
Definition sent (c : Z) : list Z := if c =? BACKSPACE then [8; 32; 8] else [as_u8 c].

Lemma consputc_spec s c : screen_ok s → 0 ≤ c < 65536 →
  wp (consputc c) s (λ _ s', screen_ok s' ∧ text s' = put (text s) c ∧
    tx s' = (if UART_EXISTS s then tx s ++ sent c else tx s) ∧ source s' = source s ∧ INPUT s' = INPUT s).
Proof.
  intros Hs Hc. unfold consputc. wp_step. eapply (wp_mono _ _ (λ _ s1, CRT s1 = CRT s ∧ cursor s1 = cursor s ∧
    tx s1 = (if UART_EXISTS s then tx s ++ sent c else tx s) ∧ source s1 = source s ∧ INPUT s1 = INPUT s)).
  { clear Hs. unfold uartputc, sent. destruct s as [f cur [] out inp i wk k cd]; destruct (c =? BACKSPACE); repeat wp_step;
      split_and!; try done. simpl. by rewrite <- !app_assoc. }
  intros _ s1 (E1 & E2 & E3 & E4 & E5). eapply wp_mono; [apply (cgaputc_spec s1 c); [|done]|].
  { unfold screen_ok. rewrite E1, E2. exact Hs. }
  intros _ s2 (H1 & H2 & f & pos & ->). split_and!; [done| |done..].
  rewrite H2. unfold text. by rewrite E1, E2.
Qed.

(** What is written to the console is what the screen shows and what the
    serial port sends. The screen behaves as a text of at most 24 lines of 80
    columns in which a new line fills up the current one and a full screen
    loses its first line; the cursor is always at the end of the text, inside
    the screen, with only blanks after it, and no write goes out of the 24
    lines. *)
Theorem console_shows_text (s : cons) (src : list Z) (Hs : screen_ok s) (Hu : UART_EXISTS s = true)
    (Hc : Forall (λ c, 0 ≤ c < 256) src) :
  wp (consolewrite src) s (λ n s', n = Z.of_nat (length src) ∧ screen_ok s' ∧
    text s' = foldl put (text s) src ∧ tx s' = tx s ++ src ∧ INPUT s' = INPUT s).
Proof.
  unfold consolewrite. wp_step. eapply (wp_mono _ _ (λ _ s', screen_ok s' ∧
    text s' = foldl put (text s) src ∧ tx s' = tx s ++ src ∧ INPUT s' = INPUT s)).
  2: { intros _ s' H. by wp_step. }
  revert s Hs Hu. induction Hc as [|c src Hc _ IH]; intros s Hs Hu; cbn [forM].
  { wp_step. by rewrite app_nil_r. }
  wp_step. eapply wp_mono; [apply (consputc_spec s c Hs); lia|]. intros _ s1 (H1 & H2 & H3 & H4 & H5).
  eapply wp_mono; [apply IH; [done|unfold source in H4; congruence]|]. intros _ s2 (G1 & G2 & G3 & G4).
  rewrite Hu in H3. unfold sent in H3. rewrite (proj2 (Z.eqb_neq c BACKSPACE)) in H3 by (unfold BACKSPACE; lia).
  unfold as_u8, u8_max in H3. rewrite Z.mod_small in H3 by done.
  split_and!; [done|by rewrite G2, H2|by rewrite G3, H3, <- app_assoc|congruence].
Qed.

Definition boot : cons := mkCons (λ _, 0) 0 true [] [] (mkInput (replicate 128 0) 0 0 0) [] 0 [].
Lemma boot_screen : screen_ok boot.
Proof. split; [simpl; lia|]. intros i _. reflexivity. Qed.

Lemma console_shows_text_witness :
  wp (consolewrite [104; 105; 10; 36]) boot (λ n s', n = 4 ∧ screen_ok s' ∧
    text s' = [0x0768; 0x0769] ++ replicate 78 blank ++ [0x0724] ∧ tx s' = [104; 105; 10; 36] ∧ INPUT s' = INPUT boot).
Proof.
  refine (console_shows_text boot [104; 105; 10; 36] boot_screen eq_refl _). repeat constructor; lia.
Defined.

(** ** The line discipline *)

Definition ring (i : Input) (k : Z) : Z := nth (Z.to_nat (k mod INPUT_BUF_SIZE)) (buf i) 0.
(** The lines that are complete, and the one being edited. *)
Definition complete (i : Input) : list Z := ring i <$> seqZ (r_ i) (w_ i - r_ i).
Definition line (i : Input) : list Z := ring i <$> seqZ (w_ i) (e_ i - w_ i).
Record input_ok (i : Input) : Prop := {
  io_len : length (buf i) = Z.to_nat INPUT_BUF_SIZE;
  io_r : 0 ≤ r_ i;
  io_order : r_ i ≤ w_ i ≤ e_ i;
  io_room : e_ i ≤ r_ i + INPUT_BUF_SIZE;
  io_top : r_ i + INPUT_BUF_SIZE < u64_max;
}.

(** What a character does to the two: control-C and a zero nothing, a
    backspace takes the last character of the line back, and anything else
    is added while there is room; a new line, control-D or a full buffer
    completes the line. *)
Definition edit (st : list Z * list Z) (c : Z) : list Z * list Z :=
  let (done, line) := st in
  if (c =? 3) || (c =? 0) then st
  else if (c =? 8) || (c =? 127) then (done, take (pred (length line)) line)
  else if decide (Z.to_nat INPUT_BUF_SIZE ≤ length done + length line)%nat then st
  else
    let ch := if c =? 13 then 10 else c in
    if decide (ch = 10 ∨ ch = 4 ∨ S (length done + length line) = Z.to_nat INPUT_BUF_SIZE)
    then (done ++ line ++ [ch], []) else (done, line ++ [ch]).

Lemma complete_length i : input_ok i → (length (complete i) + length (line i))%nat = Z.to_nat (e_ i - r_ i).
Proof. intros [_ _ H _ _]. unfold complete, line. rewrite !length_fmap, !length_seqZ. lia. Qed.

(** Changing the cell of [e] leaves those from [r] on. *)
Lemma ring_set_buf i k ch : input_ok i → r_ i ≤ k < e_ i → e_ i < r_ i + INPUT_BUF_SIZE →
  ring (set_buf (Z.to_nat (e_ i mod INPUT_BUF_SIZE)) ch i) k = ring i k.
Proof.
  intros Hi Hk He. unfold ring. cbn [buf set_buf]. rewrite !nth_lookup. f_equal. apply list_lookup_insert_ne.
  unfold INPUT_BUF_SIZE in *. Z.to_euclidean_division_equations; lia.
Qed.
Lemma ring_set_buf_eq i ch : input_ok i → ring (set_buf (Z.to_nat (e_ i mod INPUT_BUF_SIZE)) ch i) (e_ i) = ch.
Proof.
  intros Hi. unfold ring. cbn [buf set_buf]. rewrite nth_lookup, list_lookup_insert_eq; [done|].
  rewrite (io_len i Hi). pose proof (Z.mod_pos_bound (e_ i) INPUT_BUF_SIZE ltac:(done)). lia.
Qed.

(** A character goes to the end of the line. *)
Lemma input_add i ch : input_ok i → e_ i < r_ i + INPUT_BUF_SIZE →
  let i' := set_e (e_ i + 1) (set_buf (Z.to_nat (e_ i mod INPUT_BUF_SIZE)) ch i) in
  input_ok i' ∧ complete i' = complete i ∧ line i' = line i ++ [ch] ∧
  input_ok (set_w (e_ i + 1) i') ∧ complete (set_w (e_ i + 1) i') = complete i ++ line i ++ [ch] ∧
  line (set_w (e_ i + 1) i') = [].
Proof.
  intros Hi He i'. pose proof Hi as [H1 H2 H3 H4 H5].
  assert (Hold : ∀ a n, r_ i ≤ a → a + n ≤ e_ i → ring i' <$> seqZ a n = ring i <$> seqZ a n).
  { intros a n Ha Hn. apply list_fmap_ext. intros k x [-> Hk]%lookup_seqZ. apply (ring_set_buf i (a + Z.of_nat k) ch Hi); lia. }
  assert (Hlast : ring i' (e_ i) = ch) by (by apply ring_set_buf_eq).
  assert (Hcut : ∀ a, r_ i ≤ a ≤ e_ i → ring i' <$> seqZ a (e_ i + 1 - a) = (ring i <$> seqZ a (e_ i - a)) ++ [ch]).
  { intros a Ha. replace (e_ i + 1 - a) with ((e_ i - a) + 1) by lia. rewrite seqZ_app, fmap_app by lia. f_equal.
    - apply Hold; lia.
    - replace (a + (e_ i - a)) with (e_ i) by lia. change (seqZ (e_ i) 1) with [0 + e_ i]. cbn [fmap list_fmap]. by rewrite Z.add_0_l, Hlast. }
  split_and!.
  - split; simpl; rewrite ?length_insert; (done || lia).
  - unfold complete. simpl. apply Hold; lia.
  - unfold line. simpl. apply Hcut. lia.
  - split; simpl; rewrite ?length_insert; (done || lia).
  - unfold complete at 1. simpl. change (ring (set_w (e_ i + 1) i')) with (ring i'). rewrite Hcut by lia.
    rewrite app_assoc. f_equal. unfold complete, line. rewrite <- fmap_app.
    replace (seqZ (w_ i) (e_ i - w_ i)) with (seqZ (r_ i + (w_ i - r_ i)) (e_ i - w_ i)) by (f_equal; lia).
    rewrite <- seqZ_app by lia. do 2 f_equal. lia.
  - unfold line. simpl. by rewrite Z.sub_diag.
Qed.

(** The last character of the line is taken back. *)
Lemma input_back i : input_ok i → e_ i ≠ w_ i →
  input_ok (set_e (e_ i - 1) i) ∧ complete (set_e (e_ i - 1) i) = complete i ∧
  line (set_e (e_ i - 1) i) = take (pred (length (line i))) (line i).
Proof.
  intros Hi Hne. destruct Hi as [H1 H2 H3 H4 H5]. split_and!; [split; simpl; (done || lia)|done|].
  unfold line. rewrite length_fmap, length_seqZ. cbn [e_ w_ set_e]. change (ring (set_e (e_ i - 1) i)) with (ring i).
  replace (e_ i - w_ i) with ((e_ i - 1 - w_ i) + 1) at 2 by lia. rewrite seqZ_app, fmap_app by lia.
  rewrite take_app_le, take_ge; rewrite ?length_fmap, ?length_seqZ; [done|lia|lia].
Qed.

Definition typed (i : Input) : list Z * list Z := (complete i, line i).

Lemma intr_char_spec s c : input_ok (INPUT s) → screen_ok s → 0 ≤ c < 256 →
  wp (intr_char c) s (λ _ s', input_ok (INPUT s') ∧ screen_ok s' ∧ r_ (INPUT s') = r_ (INPUT s) ∧
    source s' = source s ∧ typed (INPUT s') = edit (typed (INPUT s)) c).
Proof.
  intros Hi Hs Hc. pose proof (complete_length _ Hi) as Hlen. pose proof Hi as [H1 H2 H3 H4 H5].
  unfold intr_char, edit, typed. do 2 wp_step. rewrite Hlen.
  destruct (Z.eqb_spec c 3); cbn [orb]; [by wp_step|].
  destruct (Z.eqb_spec c 0) as [->|Hc0]; cbn [orb negb andb Z.eqb]; [by wp_step|].
  destruct ((c =? 8) || (c =? 127)).
  { destruct (Z.eqb_spec (e_ (INPUT s)) (w_ (INPUT s))) as [E|E]; cbn [negb].
    - wp_step. split_and!; [done..|]. unfold line. rewrite E, Z.sub_diag. done.
    - destruct (input_back _ Hi E) as (G1 & G2 & G3). wp_step. apply wp_chk_u64; [lia|]. unfold on_input. do 2 wp_step.
      eapply wp_mono; [by apply (consputc_spec _ BACKSPACE)|]. intros ? s1 (K1 & _ & _ & K0 & K2). rewrite K2.
      cbn [INPUT set_input]. by rewrite G2, G3. }
  unfold as_u64. rewrite Z.mod_small by (unfold INPUT_BUF_SIZE in *; lia).
  destruct (Z.ltb_spec (e_ (INPUT s) - r_ (INPUT s)) INPUT_BUF_SIZE) as [Hr|Hr].
  2: { rewrite decide_True by lia. by wp_step. }
  rewrite decide_False by lia.
  assert (as_u8 c = c) as -> by (unfold as_u8, u8_max; apply Z.mod_small; lia).
  set (ch := if c =? 13 then 10 else c). assert (0 ≤ ch < 65536) by (subst ch; destruct (c =? 13); lia).
  destruct (input_add _ ch Hi ltac:(lia)) as (G1 & G2 & G3 & G4 & G5 & G6). cbv zeta in *.
  unfold on_input. do 3 wp_step. apply wp_chk_u64; [lia|]. do 3 wp_step.
  eapply wp_mono; [by apply (consputc_spec _ ch)|]. intros ? s1 (K1 & _ & _ & K0 & K2). cbn [INPUT set_input] in K2.
  wp_step. eapply (wp_mono _ _ (λ b s2, s2 = s1 ∧ b = bool_decide (ch = 10 ∨ ch = 4 ∨ S (Z.to_nat (e_ (INPUT s) - r_ (INPUT s))) = Z.to_nat INPUT_BUF_SIZE))).
  { destruct (Z.eqb_spec ch 10), (Z.eqb_spec ch 4); cbn [orb]; wp_step; [split; [done|]; symmetry; apply bool_decide_eq_true; tauto..|].
    apply wp_chk_u64; [lia|]. wp_step. split; [done|]. apply Bool.eq_iff_eq_true. rewrite Z.eqb_eq, bool_decide_eq_true. lia. }
  intros ? s2 [-> ->]. case_bool_decide as Hf; [rewrite decide_True by done|rewrite decide_False by done].
  - do 3 wp_step. cbn [INPUT set_input add_wake]. rewrite K2. by rewrite G5, G6.
  - wp_step. rewrite K2. by rewrite G2, G3.
Qed.

(** ** The devices as sources of characters

    What the line discipline relies on: a call of [getc] gives the next of the
    characters that are pending, or -1, and touches neither the screen nor the
    input buffer; what is pending depends on the device alone. *)
Class Source (getc : M cons Z) := {
  src_ok : cons → Prop;
  pending : cons → list Z;
  src_frame : ∀ s s', source s' = source s → src_ok s → src_ok s' ∧ pending s' = pending s;
  src_bytes : ∀ s, src_ok s → Forall (λ c, 0 ≤ c < 256) (pending s);
  src_none : ∀ s, src_ok s → pending s = [] → getc s = Ok (-1, s);
  src_next : ∀ s c l, src_ok s → pending s = c :: l → ∃ s',
    getc s = Ok (c, s') ∧ src_ok s' ∧ pending s' = l ∧
    CRT s' = CRT s ∧ cursor s' = cursor s ∧ INPUT s' = INPUT s;
}.
Arguments src_ok getc {_}.
Arguments pending getc {_}.

(** The characters of a sequence of scan codes. *)
Fixpoint kbd_chars (k : Z) (l : list Z) : list Z :=
  match l with
  | [] => []
  | d :: l' =>
      match Kbd.kbdgetc Kbd.KBS_DIB d k with
      | Ok (c, k') => c :: kbd_chars k' l'
      | _ => []
      end
  end.
Definition kbd_ok (s : cons) : Prop := 0 ≤ SHIFT_STATE s < 128 ∧ Forall (λ d, 0 ≤ d < 256) (codes s).

Lemma kbd_step k d : 0 ≤ k < 128 → 0 ≤ d < 256 →
  ∃ c k', Kbd.kbdgetc Kbd.KBS_DIB d k = Ok (c, k') ∧ 0 ≤ k' < 128 ∧ 0 ≤ c < 256.
Proof. intros Hk Hd. destruct (Kbd.kbdgetc_bytes k d Hk Hd) as (c & k' & E & H1 & H2). by exists c, k'. Qed.

Lemma kbd_chars_length k l : (length (kbd_chars k l) ≤ length l)%nat.
Proof.
  revert k. induction l as [|d l IH]; intros k; simpl; [done|].
  destruct (Kbd.kbdgetc _ _ _) as [[c k']| | |]; simpl; [|lia..]. specialize (IH k'). lia.
Qed.
Lemma kbd_chars_nil s : kbd_ok s → kbd_chars (SHIFT_STATE s) (codes s) = [] → codes s = [].
Proof.
  intros [Hk Hc] E. destruct (codes s) as [|d l]; [done|]. apply Forall_cons in Hc as [Hd _].
  destruct (kbd_step _ d Hk Hd) as (c & k' & Ek & _). simpl in E. by rewrite Ek in E.
Qed.

#[global, refine] Instance kbd_source : Source kbdgetc := {
  src_ok := kbd_ok;
  pending s := kbd_chars (SHIFT_STATE s) (codes s);
}.
Proof.
  - unfold source, kbd_ok. intros s s' [= _ _ -> ->]. done.
  - intros [f cur u t r i w k cd] [Hk Hc]. simpl in *. revert k Hk. induction Hc as [|d l Hd _ IH]; intros k Hk; [constructor|].
    destruct (kbd_step k d Hk Hd) as (c & k' & E & H1 & H2). simpl. rewrite E. constructor; [done|]. by apply IH.
  - intros [f cur u t r i w k cd] [Hk Hc] Hp. simpl in *. destruct Hc as [|d l Hd _]; [done|].
    destruct (kbd_step k d Hk Hd) as (c & k' & E & H1 & H2). simpl in Hp. by rewrite E in Hp.
  - intros [f cur u t r i w k cd] c l [Hk Hc] Hp. simpl in *. destruct Hc as [|d cd Hd Hc]; [done|].
    destruct (kbd_step k d Hk Hd) as (c' & k' & E & H1 & H2). simpl in Hp. rewrite E in Hp. injection Hp as -> <-.
    eexists. split; [unfold kbdgetc, bind, get, modify, zoom; simpl; rewrite E; reflexivity|]. done.
Defined.

#[global, refine] Instance uart_source : Source uartgetc := {
  src_ok s := Forall (λ d, 0 ≤ d < 256) (rx s);
  pending s := if UART_EXISTS s then rx s else [];
}.
Proof.
  - unfold source. intros s s' [= -> -> _ _]. done.
  - intros s H. by destruct (UART_EXISTS s).
  - intros [f cur [] t r i w k cd] H Hp; simpl in *; [by subst r|done].
  - intros [f cur [] t r i w k cd] c l H Hp; simpl in *; [|done]. subst r. inversion H. eexists. split; [reflexivity|]. done.
Defined.

Definition disciplined (s : cons) (cs : list Z) (s' : cons) : Prop :=
  input_ok (INPUT s') ∧ screen_ok s' ∧ r_ (INPUT s') = r_ (INPUT s) ∧
  typed (INPUT s') = foldl edit (typed (INPUT s)) cs.

Lemma consoleintr_spec getc `{!Source getc} fuel s : input_ok (INPUT s) → screen_ok s → src_ok getc s →
  (length (pending getc s) < fuel)%nat →
  wp (consoleintr fuel getc) s (λ _ s', disciplined s (pending getc s) s' ∧ src_ok getc s' ∧ pending getc s' = []).
Proof.
  revert s. induction fuel as [|fuel IH]; intros s Hi Hs Hk Hf; [lia|]. pose proof (src_bytes s Hk) as Hb.
  cbn [consoleintr]. destruct (pending getc s) as [|c l] eqn:Ep.
  { wp_step. eapply wp_eq; [by apply src_none|]. cbn [Z.ltb Z.compare]. by wp_step. }
  destruct (src_next s c l Hk Ep) as (s1 & E & Hk1 & Ep1 & E1 & E2 & E3). apply Forall_cons in Hb as [Hc Hl].
  wp_step. eapply wp_eq; [exact E|]. rewrite (proj2 (Z.ltb_ge c 0)) by lia. wp_step.
  assert (screen_ok s1) by (unfold screen_ok; by rewrite E1, E2).
  eapply wp_mono; [apply intr_char_spec; [by rewrite E3|done..]|]. intros ? s2 (K1 & K2 & K3 & K4 & K5).
  destruct (src_frame s1 s2 K4 Hk1) as [Hk2 Ep2]. eapply wp_mono; [apply IH; [done..|]|].
  { rewrite Ep2, Ep1. simpl in Hf. lia. }
  intros ? s3 ((J1 & J2 & J3 & J4) & J5 & J6). rewrite Ep2, Ep1, K5, E3 in J4. rewrite K3, E3 in J3. done.
Qed.

(** A full buffer takes nothing. *)
Lemma edit_full cs d : length d = Z.to_nat INPUT_BUF_SIZE → foldl edit (d, []) cs = (d, []).
Proof.
  intros Hd. induction cs as [|c cs IH]; [done|].
  cbn [foldl]. replace (edit (d, []) c) with (d, @nil Z); [done|]. unfold edit. repeat case_match; done || lia.
Qed.

(** C32: What is typed is edited as a line editor would: after an interrupt of
    the keyboard or of the serial port, every character that was waiting has
    been taken, and the complete lines and the line being edited, read off
    the ring buffer of 128 bytes and its three indices, are those of [edit]
    run over the characters. No index leaves its range, and the read index
    never moves: once there are 128 characters of complete lines, whatever is
    typed is dropped. *)
Theorem consoleintr_line_discipline (s : cons) (Hi : input_ok (INPUT s)) (Hs : screen_ok s)
    (Hk : kbd_ok s) (Hr : Forall (λ c, 0 ≤ c < 256) (rx s)) :
  wp kbdintr s (λ _ s', disciplined s (kbd_chars (SHIFT_STATE s) (codes s)) s' ∧ codes s' = []) ∧
  wp uartintr s (λ _ s', disciplined s (if UART_EXISTS s then rx s else []) s') ∧
  ∀ cs s', length (complete (INPUT s)) = Z.to_nat INPUT_BUF_SIZE → disciplined s cs s' →
    typed (INPUT s') = typed (INPUT s).
Proof.
  split_and!.
  - unfold kbdintr. do 2 wp_step. eapply wp_mono; [apply (consoleintr_spec kbdgetc); [done..|]|].
    + cbn [pending kbd_source]. pose proof (kbd_chars_length (SHIFT_STATE s) (codes s)). lia.
    + intros ? s' (H1 & H2 & H3). split; [done|]. by eapply kbd_chars_nil.
  - unfold uartintr. do 2 wp_step. eapply wp_mono; [apply (consoleintr_spec uartgetc); [done..|]|].
    + cbn [pending uart_source]. destruct (UART_EXISTS s); simpl; lia.
    + intros ? s' (H1 & _). done.
  - intros cs s' Hl (_ & _ & _ & ->). unfold typed. replace (line (INPUT s)) with (@nil Z); [by apply edit_full|].
    symmetry. apply nil_length_inv. pose proof (complete_length _ Hi). destruct Hi. lia.
Qed.

(** The keys [l], [x], backspace, [s], enter and [a], and their releases. *)
Lemma consoleintr_line_discipline_witness :
  wp kbdintr (set_codes [0x26; 0xA6; 0x2D; 0xAD; 0x0E; 0x8E; 0x1F; 0x9F; 0x1C; 0x9C; 0x1E] boot) (λ _ s',
    typed (INPUT s') = ([108; 115; 10], [97])).
Proof.
  destruct (consoleintr_line_discipline (set_codes [0x26; 0xA6; 0x2D; 0xAD; 0x0E; 0x8E; 0x1F; 0x9F; 0x1C; 0x9C; 0x1E] boot))
    as (H & _ & _).
  - split; simpl; try done; unfold INPUT_BUF_SIZE, u64_max; lia.
  - apply boot_screen.
  - split; [simpl; lia|]. repeat constructor; lia.
  - constructor.
  - eapply wp_mono; [exact H|]. intros ? s' [(_ & _ & _ & ->) _]. vm_compute. reflexivity.
Defined.

(** ** Reading the console device *)

(** The bytes one read takes: at most [n], and none after a newline. *)
Fixpoint read_line (n : nat) (l : list Z) : list Z :=
  match n, l with
  | S n', c :: l' => c :: if c =? 10 then [] else read_line n' l'
  | _, _ => []
  end.

Lemma consoleread_loop_spec fuel i n acc s : UART_EXISTS s = true → Forall (λ c, 0 ≤ c < 256) (rx s) →
  (Z.to_nat (n - i) < fuel)%nat →
  let b := read_line (Z.to_nat (n - i)) (rx s) in
  consoleread_loop fuel i n acc s = Ok ((i + Z.of_nat (length b), acc ++ b), set_rx (drop (length b) (rx s)) s).
Proof.
  revert i acc s. induction fuel as [|fuel IH]; intros i acc [f cur u t r ip w k cd] Hu Hr Hf; simpl in Hu, Hr, Hf; [lia|]. subst u.
  cbn [rx consoleread_loop]. destruct (Z.ltb_spec i n).
  2: { replace (Z.to_nat (n - i)) with 0%nat by lia. simpl. by rewrite Z.add_0_r, app_nil_r. }
  replace (Z.to_nat (n - i)) with (S (Z.to_nat (n - (i + 1)))) by lia.
  destruct Hr as [|c r Hc Hr]; [simpl; by rewrite Z.add_0_r, app_nil_r|].
  rewrite (bind_ok uartgetc _ _ c (mkCons f cur true t r ip w k cd)) by reflexivity. rewrite (proj2 (Z.ltb_ge c 0)) by lia.
  assert (as_u8 c = c) as -> by (apply Z.mod_small; unfold u8_max; lia). cbn [read_line]. destruct (c =? 10).
  { done. }
  rewrite (IH (i + 1) (acc ++ [c]) (mkCons f cur true t r ip w k cd)) by (simpl; done || lia). cbn -[read_line Z.to_nat]. rewrite <- app_assoc. do 3 f_equal. lia.
Qed.

(** A read of the console gives the bytes waiting at the serial port, up to and
    with the first newline, and leaves the others there. *)
Theorem consoleread_line s n : UART_EXISTS s = true → Forall (λ c, 0 ≤ c < 256) (rx s) →
  let b := read_line (Z.to_nat n) (rx s) in
  consoleread n s = Ok ((Z.of_nat (length b), b), set_rx (drop (length b) (rx s)) s).
Proof.
  intros Hu Hr. unfold consoleread. rewrite consoleread_loop_spec by (done || lia). by rewrite Z.sub_0_r, Z.add_0_l.
Qed.

End Console.
