(* ===== verification/Ide.v ===== *)
(** * The IDE disk driver

    crates/drivers/src/ide.rs: the queue of requests linked through the
    buffers, the programming of the disk and its interrupt. The disk itself is
    a parameter, an instance of [Ata], whose laws are what the ATA standard
    says of the registers the driver uses. Each function runs under the
    driver's lock and is one step; [iderw] tells whether it returns or sleeps.

    The driver, run for one request, is a block device in the sense of
    [BlockDev], so that the theorems on the buffer cache and the log hold over
    it. *)

From S2P Require Import Prelude Param Mem Sync Disk.

Module Ide.

Definition SECTOR_SIZE : Z := 512.
Definition IDE_BSY : Z := 0x80.
Definition IDE_DRDY : Z := 0x40.
Definition IDE_DF : Z := 0x20.
Definition IDE_ERR : Z := 0x01.
Definition IDE_CMD_READ : Z := 0x20.
Definition IDE_CMD_WRITE : Z := 0x30.
Definition IDE_CMD_RDMUL : Z := 0xC4.
Definition IDE_CMD_WRMUL : Z := 0xC5.

(** ** The disk

    The task-file registers, the command in progress ([true] for a write), the
    sectors of each drive by their number, the sectors that cannot be read,
    and whether the second drive exists. *)
Record ata := mkAta {
  reg : Z → Z;
  cmd : option (bool * (Z * Z));
  sector : Z * Z → list Z;
  bad : Z * Z → bool;
  disk1 : bool;
}.

(** The drive and the sector the registers select. *)
Definition sel (a : ata) : Z := Z.land (Z.shiftr (reg a 0x1F6) 4) 1.
Definition lba (a : ata) : Z :=
  reg a 0x1F3 + 2 ^ 8 * reg a 0x1F4 + 2 ^ 16 * reg a 0x1F5 + 2 ^ 24 * Z.land (reg a 0x1F6) 0x0F.
Definition present (a : ata) : bool := (sel a =? 0) || disk1 a.

(** A write to a port: a register, or a command for one sector. *)
Definition ata_out (p v : Z) (a : ata) : ata :=
  if p =? 0x1F7 then
    mkAta (reg a)
      (if negb (reg a 0x1F2 =? 1) then None
       else if v =? IDE_CMD_READ then Some (false, (sel a, lba a))
       else if v =? IDE_CMD_WRITE then Some (true, (sel a, lba a)) else None)
      (sector a) (bad a) (disk1 a)
  else if (0x1F2 <=? p) && (p <=? 0x1F6) then
    mkAta (λ r, if r =? p then v else reg a r) (cmd a) (sector a) (bad a) (disk1 a)
  else a.
(** The data of a write command. *)
Definition ata_data (l : list Z) (a : ata) : ata :=
  match cmd a with
  | Some (true, k) => mkAta (reg a) None (<[k := l]> (sector a)) (bad a) (disk1 a)
  | _ => a
  end.

(** The status register shows busy for some time, and then ready, with an
    error bit after the read of a bad sector; for an absent drive it is 0. The
    data of a read is there once the disk is not busy; the data of a write is
    taken as soon as the command is given, which is what the driver, like the
    one it ports, expects of the disk. *)
Class Ata (D : Type) := {
  inb : D → Z * D;
  outb : Z → Z → D → D;
  outsl : list Z → D → D;
  insl : D → list Z * D;
  obs : D → ata;
  busy : D → nat;
  inb_obs d : obs (inb d).2 = obs d;
  inb_ready d : present (obs d) = true → busy d = 0%nat →
    Z.land (inb d).1 (Z.lor IDE_BSY IDE_DRDY) = IDE_DRDY ∧ busy (inb d).2 = 0%nat ∧
    ∀ k, cmd (obs d) = Some (false, k) → Z.land (inb d).1 (Z.lor IDE_DF IDE_ERR) ≠ 0 ↔ bad (obs d) k = true;
  inb_busy d : present (obs d) = true → busy d ≠ 0%nat →
    Z.land (inb d).1 IDE_BSY ≠ 0 ∧ (busy (inb d).2 < busy d)%nat;
  inb_absent d : present (obs d) = false → (inb d).1 = 0;
  outb_obs p v d : obs (outb p v d) = ata_out p v (obs d);
  outsl_obs l d : length l = Z.to_nat SECTOR_SIZE → obs (outsl l d) = ata_data l (obs d);
  insl_obs d : obs (insl d).2 = obs d;
  insl_data d k : busy d = 0%nat → cmd (obs d) = Some (false, k) → bad (obs d) k = false → (insl d).1 = sector (obs d) k;
}.

Section driver.
Context {D : Type} `{!Ata D}.

(** ** The driver's state *)

Record ide := mkIde {
  IDE_QUEUE : option nat;
  HAVE_DISK1 : bool;
  bufs : list Buf;
  dev : D;
  iwakes : list nat;
}.
Definition set_queue (v : option nat) (s : ide) : ide := mkIde v (HAVE_DISK1 s) (bufs s) (dev s) (iwakes s).
Definition set_have (v : bool) (s : ide) : ide := mkIde (IDE_QUEUE s) v (bufs s) (dev s) (iwakes s).
Definition set_ibufs (v : list Buf) (s : ide) : ide := mkIde (IDE_QUEUE s) (HAVE_DISK1 s) v (dev s) (iwakes s).
Definition set_disk (v : D) (s : ide) : ide := mkIde (IDE_QUEUE s) (HAVE_DISK1 s) (bufs s) v (iwakes s).
Definition iwakeup (i : nat) (s : ide) : ide :=
  mkIde (IDE_QUEUE s) (HAVE_DISK1 s) (bufs s) (dev s) (iwakes s ++ [i]).

Definition at_buf (i : nat) : M ide Buf := λ s, expect "wild buffer pointer" (bufs s !! i) s.
Definition on_ibuf (i : nat) (f : Buf → Buf) : M ide unit := modify (λ s, set_ibufs (alter f i (bufs s)) s).
Definition in_status : M ide Z := λ s, Ok ((inb (dev s)).1, set_disk (inb (dev s)).2 s).
Definition out (p v : Z) : M ide unit := modify (λ s, set_disk (outb p v (dev s)) s).
Definition out_data (l : list Z) : M ide unit := modify (λ s, set_disk (outsl l (dev s)) s).
Definition in_data : M ide (list Z) := λ s, Ok ((insl (dev s)).1, set_disk (insl (dev s)).2 s).

(** ** The operations *)

Fixpoint idewait_loop (fuel : nat) : M ide Z :=
  match fuel with
  | O => nofuel
  | S fuel' =>
      let* r := in_status in
      if Z.land r (Z.lor IDE_BSY IDE_DRDY) =? IDE_DRDY then ret r else idewait_loop fuel'
  end.
Definition idewait (checkerr : bool) : M ide Z :=
  let* s := get in
  let* r := idewait_loop (S (busy (dev s))) in
  ret (if checkerr && negb (Z.land r (Z.lor IDE_DF IDE_ERR) =? 0) then -1 else 0).

Fixpoint probe (n : nat) : M ide unit :=
  match n with
  | O => ret tt
  | S n' =>
      let* r := in_status in
      if negb (r =? 0) then modify (set_have true) else probe n'
  end.
Definition ideinit : M ide unit :=
  idewait false ;;;
  out 0x1F6 (Z.lor 0xE0 (Z.shiftl 1 4)) ;;;
  probe 1000 ;;;
  out 0x1F6 (Z.lor 0xE0 (Z.shiftl 0 4)).

Definition idestart (p : option nat) : M ide unit :=
  match p with
  | None => panic "idestart"
  | Some i =>
      let* b := at_buf i in
      if FSSIZE <=? b_blockno b then panic "incorrect blockno"
      else
        let sector_per_block := BSIZE / SECTOR_SIZE in
        let* sector := chk_u32 (b_blockno b * as_u32 sector_per_block) in
        let read_cmd := if sector_per_block =? 1 then IDE_CMD_READ else IDE_CMD_RDMUL in
        let write_cmd := if sector_per_block =? 1 then IDE_CMD_WRITE else IDE_CMD_WRMUL in
        if 7 <? sector_per_block then panic "idestart"
        else
          idewait false ;;;
          out 0x3F6 0 ;;;
          out 0x1F2 (as_u8 sector_per_block) ;;;
          out 0x1F3 (as_u8 (Z.land sector 0xFF)) ;;;
          out 0x1F4 (as_u8 (Z.land (Z.shiftr sector 8) 0xFF)) ;;;
          out 0x1F5 (as_u8 (Z.land (Z.shiftr sector 16) 0xFF)) ;;;
          out 0x1F6 (Z.lor (Z.lor 0xE0 (as_u8 (Z.shiftl (Z.land (b_dev b) 1) 4)))
                           (as_u8 (Z.land (Z.shiftr sector 24) 0x0F))) ;;;
          if negb (Z.land (b_flags b) B_DIRTY =? 0) then
            out 0x1F7 write_cmd ;;;
            out_data (b_data b)
          else out 0x1F7 read_cmd
  end.

Definition ideintr : M ide unit :=
  let* q := gets IDE_QUEUE in
  match q with
  | None => ret tt
  | Some i =>
      let* b := at_buf i in
      modify (set_queue (b_qnext b)) ;;;
      let* ok := (if Z.land (b_flags b) B_DIRTY =? 0 then let* r := idewait true in ret (0 <=? r)
                  else ret false) in
      (if (ok : bool) then let* l := in_data in on_ibuf i (set_data l) else ret tt) ;;;
      on_ibuf i (λ b, set_flags (Z.lor (b_flags b) B_VALID) b) ;;;
      on_ibuf i (λ b, set_flags (Z.ldiff (b_flags b) B_DIRTY) b) ;;;
      modify (iwakeup i) ;;;
      let* q := gets IDE_QUEUE in
      match q with
      | None => ret tt
      | Some _ => idestart q
      end
  end.

(** The pointer [pp]: to [IDE_QUEUE], or to the [qnext] of a buffer. *)
Definition load_pp (pp : option nat) : M ide (option nat) :=
  match pp with
  | None => gets IDE_QUEUE
  | Some j => let* b := at_buf j in ret (b_qnext b)
  end.
Definition store_pp (pp : option nat) (v : option nat) : M ide unit :=
  match pp with
  | None => modify (set_queue v)
  | Some j => on_ibuf j (set_qnext v)
  end.
Fixpoint find_end (fuel : nat) (pp : option nat) : M ide (option nat) :=
  match fuel with
  | O => nofuel
  | S fuel' =>
      let* q := load_pp pp in
      match q with
      | None => ret pp
      | Some j => find_end fuel' (Some j)
      end
  end.

(** The condition of the last loop of [iderw]: whether it returns; it sleeps
    otherwise, and tests it again when woken. *)
Definition iderw_done (i : nat) : M ide bool :=
  let* b := at_buf i in
  ret (Z.land (b_flags b) (Z.lor B_VALID B_DIRTY) =? B_VALID).
Definition iderw (i : nat) : M ide bool :=
  let* b := at_buf i in
  let* s := get in
  if Z.land (b_flags b) (Z.lor B_VALID B_DIRTY) =? B_VALID then panic "iderw: nothing to do"
  else if negb (b_dev b =? 0) && negb (HAVE_DISK1 s) then panic "iderw: disk 1 not present"
  else
    on_ibuf i (set_qnext None) ;;;
    let* pp := find_end (S (length (bufs s))) None in
    store_pp pp (Some i) ;;;
    let* s := get in
    (if bool_decide (IDE_QUEUE s = Some i) then idestart (Some i) else ret tt) ;;;
    iderw_done i.

(** ** The queue as a list of requests *)

Fixpoint qchain (bs : list Buf) (p : option nat) (q : list nat) : Prop :=
  match q with
  | [] => p = None
  | i :: q' => p = Some i ∧ ∃ b, bs !! i = Some b ∧ qchain bs (b_qnext b) q'
  end.

Definition dirty (b : Buf) : bool := negb (Z.land (b_flags b) B_DIRTY =? 0).
Definition target (b : Buf) : Z * Z := (Z.land (b_dev b) 1, b_blockno b).

(** A buffer that may be queued. *)
Record req_ok (have1 : bool) (b : Buf) : Prop := {
  rq_pending : Z.land (b_flags b) (Z.lor B_VALID B_DIRTY) ≠ B_VALID;
  rq_block : 0 ≤ b_blockno b < FSSIZE;
  rq_dev : b_dev b = 0 ∨ have1 = true;
  rq_data : dirty b = true → length (b_data b) = Z.to_nat SECTOR_SIZE;
}.

(** What a request does to the disk and to its buffer. *)
Definition perform (A : Z * Z → list Z) (b : Buf) : Z * Z → list Z :=
  if dirty b then <[target b := b_data b]> A else A.
Definition completed (bd : Z * Z → bool) (A : Z * Z → list Z) (b : Buf) : Buf :=
  set_flags (Z.ldiff (Z.lor (b_flags b) B_VALID) B_DIRTY)
    (if dirty b || bd (target b) then b else set_data (A (target b)) b).

(** The driver has the requests [q] before a disk with content [A]: the first
    of them is started, so that the data of a write has reached the disk and
    a read is the command in progress. *)
Definition started (a : ata) (A : Z * Z → list Z) (b : Buf) : Prop :=
  sector a = perform A b ∧ (dirty b = false → cmd a = Some (false, target b)).
Record repr (bd : Z * Z → bool) (A : Z * Z → list Z) (q : list nat) (s : ide) : Prop := {
  re_chain : qchain (bufs s) (IDE_QUEUE s) q;
  re_nodup : NoDup q;
  re_req i : i ∈ q → ∃ b, bufs s !! i = Some b ∧ req_ok (HAVE_DISK1 s) b;
  re_have : HAVE_DISK1 s = true → disk1 (obs (dev s)) = true;
  re_present : present (obs (dev s)) = true;
  re_bad : bad (obs (dev s)) = bd;
  re_disk : match q with
            | [] => sector (obs (dev s)) = A
            | i :: _ => ∀ b, bufs s !! i = Some b → started (obs (dev s)) A b
            end;
}.

(** ** The disk under the driver *)

Lemma wp_at_buf i b s (Q : Buf → ide → Prop) : bufs s !! i = Some b → Q b s → wp (at_buf i) s Q.
Proof. intros E HQ. unfold wp, at_buf. by rewrite E. Qed.

Lemma idewait_loop_spec fuel s : present (obs (dev s)) = true → (busy (dev s) < fuel)%nat →
  wp (idewait_loop fuel) s (λ r s', ∃ d, s' = set_disk d s ∧ obs d = obs (dev s) ∧ busy d = 0%nat ∧
    ∀ k, cmd (obs d) = Some (false, k) → Z.land r (Z.lor IDE_DF IDE_ERR) ≠ 0 ↔ bad (obs d) k = true).
Proof.
  revert s. induction fuel as [|fuel IH]; intros s Hp Hf; [lia|]. cbn [idewait_loop]. wp_step.
  eapply wp_eq; [reflexivity|]. destruct (decide (busy (dev s) = 0%nat)) as [Hb|Hb].
  - destruct (inb_ready (dev s) Hp Hb) as (Hr & Hb' & He). rewrite Hr, Z.eqb_refl. wp_step. exists (inb (dev s)).2.
    rewrite inb_obs. done.
  - destruct (inb_busy (dev s) Hp Hb) as [Hr Hd]. destruct (Z.eqb_spec (Z.land (inb (dev s)).1 (Z.lor IDE_BSY IDE_DRDY)) IDE_DRDY) as [E|_].
    { exfalso. apply Hr. apply (f_equal (λ z, Z.land z IDE_BSY)) in E. rewrite <- Z.land_assoc in E. exact E. }
    eapply wp_mono; [apply IH|].
    + simpl. by rewrite inb_obs.
    + simpl. lia.
    + intros r s' (d & -> & Ho & Hb' & Hk). exists d. simpl in Ho. rewrite inb_obs in Ho. done.
Qed.

Lemma idewait_spec ck s : present (obs (dev s)) = true →
  wp (idewait ck) s (λ r s', ∃ d, s' = set_disk d s ∧ obs d = obs (dev s) ∧ busy d = 0%nat ∧
    ∀ k, cmd (obs d) = Some (false, k) → (0 <=? r) = negb (ck && bad (obs d) k)).
Proof.
  intros Hp. unfold idewait. wp_step. wp_step. wp_step. eapply wp_mono; [by apply idewait_loop_spec; [|lia]|].
  intros r s' (d & -> & Ho & Hb & Hk). wp_step. exists d. split_and!; [done..|]. intros k Hc. specialize (Hk k Hc).
  destruct ck; [|done]. destruct (Z.eqb_spec (Z.land r (Z.lor IDE_DF IDE_ERR)) 0) as [E|E]; simpl.
  - destruct (bad (obs d) k); [|done]. by apply proj2 in Hk; destruct Hk.
  - by rewrite (proj1 Hk E).
Qed.

Lemma drive_bit x : Z.land x 1 = 0 ∨ Z.land x 1 = 1.
Proof.
  assert (Z.land x 1 = x mod 2) as -> by (by apply (Z.land_ones x 1)). pose proof (Z.mod_pos_bound x 2). lia.
Qed.

(** The values written to the registers select the drive and the block. *)
Lemma select_regs dv n : 0 ≤ n < FSSIZE →
  let h := Z.lor (Z.lor 0xE0 (as_u8 (Z.shiftl (Z.land dv 1) 4))) (as_u8 (Z.land (Z.shiftr n 24) 0x0F)) in
  Z.land (Z.shiftr h 4) 1 = Z.land dv 1 ∧
  as_u8 (Z.land n 0xFF) + 2 ^ 8 * as_u8 (Z.land (Z.shiftr n 8) 0xFF) +
  2 ^ 16 * as_u8 (Z.land (Z.shiftr n 16) 0xFF) + 2 ^ 24 * Z.land h 0x0F = n.
Proof.
  intros Hn. cbv zeta. unfold FSSIZE in Hn. assert (Z.shiftr n 24 = 0) as E24 by (rewrite Z.shiftr_div_pow2 by lia; apply Z.div_small; lia).
  assert (Z.shiftr n 16 = 0) as E16 by (rewrite Z.shiftr_div_pow2 by lia; apply Z.div_small; lia).
  rewrite E24, E16. change (Z.land 0 15) with 0. change (Z.land 0 255) with 0.
  change 0xFF with (Z.ones 8). rewrite !Z.land_ones, (Z.shiftr_div_pow2 n 8) by lia.
  change (2 ^ 8) with 256. unfold as_u8, u8_max.
  destruct (drive_bit dv) as [->| ->]; split; try reflexivity.
  - rewrite !Zmod_mod. change (Z.land _ 15) with 0. change (0 mod 256) with 0. Z.to_euclidean_division_equations; lia.
  - rewrite !Zmod_mod. change (Z.land _ 15) with 0. change (0 mod 256) with 0. Z.to_euclidean_division_equations; lia.
Qed.

(** The registers after [idestart] has written them. *)
Definition programmed (b : Buf) (a : ata) : ata :=
  let n := b_blockno b in
  ata_out 0x1F6 (Z.lor (Z.lor 0xE0 (as_u8 (Z.shiftl (Z.land (b_dev b) 1) 4))) (as_u8 (Z.land (Z.shiftr n 24) 0x0F)))
    (ata_out 0x1F5 (as_u8 (Z.land (Z.shiftr n 16) 0xFF)) (ata_out 0x1F4 (as_u8 (Z.land (Z.shiftr n 8) 0xFF))
      (ata_out 0x1F3 (as_u8 (Z.land n 0xFF)) (ata_out 0x1F2 1 (ata_out 0x3F6 0 a))))).
Lemma programmed_spec b a : 0 ≤ b_blockno b < FSSIZE →
  let a' := programmed b a in
  (sel a', lba a') = target b ∧ reg a' 0x1F2 = 1 ∧ sector a' = sector a ∧ bad a' = bad a ∧ disk1 a' = disk1 a.
Proof.
  intros Hn. cbv zeta. split_and!; [|reflexivity..]. destruct (select_regs (b_dev b) (b_blockno b) Hn) as [H1 H2].
  unfold target. f_equal; [exact H1|exact H2].
Qed.

Lemma idestart_spec i b s : bufs s !! i = Some b → req_ok (HAVE_DISK1 s) b →
  (HAVE_DISK1 s = true → disk1 (obs (dev s)) = true) → present (obs (dev s)) = true →
  wp (idestart (Some i)) s (λ _ s', ∃ d, s' = set_disk d s ∧ started (obs d) (sector (obs (dev s))) b ∧
    present (obs d) = true ∧ bad (obs d) = bad (obs (dev s)) ∧ disk1 (obs d) = disk1 (obs (dev s))).
Proof.
  intros E [Hp Hn Hd Hl] Hh Hpr. unfold idestart. wp_step. eapply wp_at_buf; [exact E|]. cbv beta.
  rewrite (proj2 (Z.leb_gt FSSIZE (b_blockno b))) by lia. cbv zeta.
  change (as_u32 (BSIZE / SECTOR_SIZE)) with 1. rewrite Z.mul_1_r.
  change (7 <? BSIZE / SECTOR_SIZE) with false. change (BSIZE / SECTOR_SIZE =? 1) with true.
  change (as_u8 (BSIZE / SECTOR_SIZE)) with 1. cbv iota.
  wp_step. eapply wp_eq; [apply chk_u32_ok; unfold FSSIZE, u32_max in *; lia|]. cbv beta.
  wp_step. eapply wp_mono; [by apply idewait_spec|]. intros _ s1 (d1 & -> & Ho & _).
  destruct (programmed_spec b (obs (dev s)) Hn) as (P1 & P2 & P3 & P4 & P5). cbv zeta in *.
  assert (Hsel : present (programmed b (obs (dev s))) = true).
  { unfold present. rewrite P5. injection P1 as -> _. destruct Hd as [->|Hd]; [done|]. rewrite (Hh Hd). apply orb_true_r. }
  unfold out, out_data. do 12 wp_step. unfold started. fold (dirty b). destruct (dirty b) eqn:Edi.
  - do 3 wp_step. eexists. split; [reflexivity|]. cbn [dev set_disk].
    rewrite outsl_obs by (by apply Hl). rewrite !outb_obs, Ho. fold (programmed b (obs (dev s))).
    set (a := programmed b (obs (dev s))) in *. unfold ata_data, ata_out. cbn [cmd Z.eqb Pos.eqb]. rewrite P2. cbn [negb Z.eqb Pos.eqb].
    unfold perform. rewrite Edi. cbn [sector bad disk1]. rewrite P1, P3, P4, P5. done.
  - wp_step. eexists. split; [reflexivity|]. cbn [dev set_disk].
    rewrite !outb_obs, Ho. fold (programmed b (obs (dev s))).
    set (a := programmed b (obs (dev s))) in *. unfold ata_out. cbn [cmd Z.eqb Pos.eqb]. rewrite P2. cbn [negb Z.eqb Pos.eqb].
    unfold perform. rewrite Edi. cbn [sector bad disk1 cmd]. rewrite P1, P3, P4, P5. done.
Qed.

Lemma wp_on_ibuf i f b s (Q : unit → ide → Prop) : bufs s !! i = Some b →
  Q tt (set_ibufs (<[i := f b]> (bufs s)) s) → wp (on_ibuf i f) s Q.
Proof.
  intros E HQ. unfold on_ibuf. wp_step. replace (alter f i (bufs s)) with (<[i := f b]> (bufs s)); [done|].
  symmetry. by apply alter_is_insert.
Qed.

(** ** The links *)

(** The same buffers but for the links of the queue. *)
Definition linkless (bs : list Buf) : list Buf := set_qnext None <$> bs.

Lemma linkless_lookup bs bs' i b' : linkless bs' = linkless bs → bs' !! i = Some b' →
  ∃ b, bs !! i = Some b ∧ set_qnext None b' = set_qnext None b.
Proof.
  intros E Hi. apply (f_equal (.!! i)) in E. unfold linkless in E. rewrite !list_lookup_fmap, Hi in E.
  destruct (bs !! i) as [b|]; [|done]. exists b. split; [done|]. by apply (inj Some) in E.
Qed.
Lemma linkless_insert bs i b v : bs !! i = Some b → linkless (<[i := set_qnext v b]> bs) = linkless bs.
Proof.
  intros E. unfold linkless. rewrite list_fmap_insert. apply list_insert_id. rewrite list_lookup_fmap, E. done.
Qed.
Lemma req_ok_link h b b' : set_qnext None b' = set_qnext None b → req_ok h b → req_ok h b'.
Proof. destruct b, b'. intros [= -> -> -> -> -> -> -> ->] [? ? ? ?]. done. Qed.
Lemma started_link a A b b' : set_qnext None b' = set_qnext None b → started a A b → started a A b'.
Proof. destruct b, b'. intros [= -> -> -> -> -> -> -> ->] H. exact H. Qed.

Lemma qchain_ext bs bs' p q : (∀ i, i ∈ q → b_qnext <$> bs' !! i = b_qnext <$> bs !! i) →
  qchain bs p q → qchain bs' p q.
Proof.
  revert p. induction q as [|i q IH]; intros p H; [done|]. intros (-> & b & E & Hq). split; [done|].
  pose proof (H i ltac:(by left)) as Hi. rewrite E in Hi. simpl in Hi. destruct (bs' !! i) as [b'|] eqn:E'; [|done].
  simpl in Hi. injection Hi as Hi. exists b'. split; [done|]. rewrite Hi. apply IH; [|done]. intros j Hj. apply H. by right.
Qed.

(** A request is linked after the last one. *)
Lemma qchain_snoc bs p q i b j l : qchain bs p q → NoDup q → i ∉ q → bs !! i = Some b → b_qnext b = None →
  last q = Some j → bs !! j = Some l → qchain (<[j := set_qnext (Some i) l]> bs) p (q ++ [i]).
Proof.
  intros Hq Hnd Hni Ei Hb Hj El. apply last_Some in Hj as [q' ->].
  rewrite <- app_assoc. apply NoDup_app in Hnd as (Hnd & Hd & _). apply not_elem_of_app in Hni as [Hni Hij%not_elem_of_cons].
  destruct Hij as [Hij _]. revert p Hq Hnd Hd Hni. induction q' as [|k q' IH]; intros p Hq Hnd Hd Hni.
  - destruct Hq as (-> & b0 & E0 & Hn). simpl. split; [done|]. eexists. rewrite list_lookup_insert_eq by (by eapply lookup_lt_Some).
    split; [done|]. simpl. split; [done|]. exists b. rewrite list_lookup_insert_ne by done. done.
  - destruct Hq as (-> & b0 & E0 & Hn). simpl. split; [done|]. exists b0.
    rewrite list_lookup_insert_ne by (intros ->; eapply (Hd k); [by left|by left]). split; [done|].
    apply NoDup_cons in Hnd as [_ Hnd]. apply IH; [done|done| |set_solver].
    intros x Hx. apply Hd. by right.
Qed.

Lemma find_end_spec fuel pp p q s : load_pp pp s = Ok (p, s) → qchain (bufs s) p q → (length q < fuel)%nat →
  find_end fuel pp s = Ok (match last q with Some j => Some j | None => pp end, s).
Proof.
  revert pp p fuel. induction q as [|i q IH]; intros pp p fuel Hp Hq Hf; (destruct fuel as [|fuel]; [simpl in Hf; lia|]).
  - simpl in Hq. subst p. cbn [find_end]. by rewrite (bind_ok _ _ _ _ _ Hp).
  - destruct Hq as (-> & b & E & Hq). cbn [find_end]. rewrite (bind_ok _ _ _ _ _ Hp).
    rewrite (IH (Some i) (b_qnext b)); [|unfold load_pp, bind, at_buf; by rewrite E|done|simpl in Hf; lia].
    rewrite last_cons. by destruct (last q).
Qed.

Lemma queue_length q (s : ide) : NoDup q → (∀ i, i ∈ q → is_Some (bufs s !! i)) → (length q ≤ length (bufs s))%nat.
Proof.
  intros Hnd Hb. trans (length (seq 0 (length (bufs s)))); [|by rewrite length_seq]. apply submseteq_length, NoDup_submseteq; [done|].
  intros i Hi. apply elem_of_seq. destruct (Hb i Hi) as [b E]. apply lookup_lt_Some in E. lia.
Qed.

(** ** Requests and their completion *)

Lemma iderw_spec bd A q s i b : repr bd A q s → bufs s !! i = Some b → i ∉ q → req_ok (HAVE_DISK1 s) b →
  wp (iderw i) s (λ r s', r = false ∧ repr bd A (q ++ [i]) s' ∧ iwakes s' = iwakes s ∧
    HAVE_DISK1 s' = HAVE_DISK1 s ∧ linkless (bufs s') = linkless (bufs s)).
Proof.
  intros [R1 R2 R3 R4 R5 R6 R7] E Hni Hr. pose proof Hr as [Hp Hn Hd Hl]. unfold iderw.
  wp_step. eapply wp_at_buf; [exact E|]. cbv beta. wp_step. wp_step.
  rewrite (proj2 (Z.eqb_neq _ B_VALID)) by done.
  assert (negb (b_dev b =? 0) && negb (HAVE_DISK1 s) = false) as -> by (by destruct Hd as [->| ->]; rewrite ?andb_false_r).
  wp_step. eapply wp_on_ibuf; [exact E|]. set (bs1 := <[i := set_qnext None b]> (bufs s)).
  assert (E1 : bs1 !! i = Some (set_qnext None b)) by (apply list_lookup_insert_eq; by eapply lookup_lt_Some).
  assert (L1 : linkless bs1 = linkless (bufs s)) by (by apply linkless_insert).
  assert (Q1 : qchain bs1 (IDE_QUEUE s) q).
  { eapply qchain_ext; [|exact R1]. intros j Hj. unfold bs1. by rewrite list_lookup_insert_ne by (intros ->; done). }
  wp_step. eapply wp_eq.
  { apply (find_end_spec _ None (IDE_QUEUE s) q); [reflexivity|exact Q1|].
    pose proof (queue_length q s R2 ltac:(intros j Hj; destruct (R3 j Hj) as (? & ? & _); eauto)). lia. }
  cbv beta. set (s2 := set_ibufs bs1 s). wp_step.
  assert (Hreq : ∀ bs, linkless bs = linkless (bufs s) → ∀ j, j ∈ q ++ [i] → ∃ c, bs !! j = Some c ∧ req_ok (HAVE_DISK1 s) c).
  { intros bs Hbs j Hj. assert (∃ c, bufs s !! j = Some c ∧ req_ok (HAVE_DISK1 s) c) as (c & Ec & Hc).
    { apply elem_of_app in Hj as [Hj| ->%list_elem_of_singleton]; [by apply R3|by exists b]. }
    destruct (linkless_lookup _ _ _ _ (eq_sym Hbs) Ec) as (c' & Ec' & Hcc). exists c'. split; [done|]. by eapply req_ok_link. }
  assert (Hnd : NoDup (q ++ [i])) by (apply NoDup_app; split_and!; [done|set_solver|apply NoDup_singleton]).
  destruct (last q) as [j|] eqn:Elast; cbn [store_pp].
  - assert (j ∈ q) as Hjq by (apply last_Some in Elast as [? ->]; set_solver).
    assert (∃ l, bs1 !! j = Some l) as [l El].
    { destruct (R3 j Hjq) as (l & El & _). exists l. unfold bs1. rewrite list_lookup_insert_ne; [done|]. by intros ->. }
    eapply wp_on_ibuf; [exact El|]. wp_step. wp_step. cbn [IDE_QUEUE set_ibufs s2].
    destruct q as [|h q']; [done|]. destruct R1 as [R1 _]. rewrite R1. rewrite bool_decide_eq_false_2 by (intros [= ->]; set_solver).
    wp_step. wp_step.
    assert (L2 : linkless (<[j := set_qnext (Some i) l]> bs1) = linkless (bufs s)) by (rewrite linkless_insert; done).
    unfold iderw_done. wp_step. eapply wp_at_buf.
    { cbn [bufs set_ibufs]. rewrite list_lookup_insert_ne by (intros ->; done). exact E1. }
    wp_step. cbn [b_flags set_qnext]. rewrite (proj2 (Z.eqb_neq _ B_VALID)) by done. split_and!; [done| |done..].
    split; cbn [bufs IDE_QUEUE HAVE_DISK1 dev set_ibufs s2]; [|done|by apply Hreq|done..|].
    + rewrite R1 in Q1. eapply qchain_snoc; [rewrite R1; exact Q1|done|done|exact E1|done|done|done].
    + cbn [app]. intros c Ec. destruct (linkless_lookup _ _ _ _ L2 Ec) as (c' & Ec' & Hcc). eapply started_link; [exact Hcc|]. by apply R7.
  - apply last_None in Elast. subst q. wp_step. wp_step. wp_step. cbn [IDE_QUEUE set_queue]. rewrite bool_decide_eq_true_2 by done. wp_step.
    eapply wp_mono; [apply (idestart_spec i (set_qnext None b))|].
    + exact E1.
    + by eapply req_ok_link.
    + done.
    + done.
    + intros ? s' (d & -> & Hst & Hpr & Hbd & Hd1). unfold iderw_done. wp_step. eapply wp_at_buf; [exact E1|]. wp_step.
      cbn [b_flags set_qnext]. rewrite (proj2 (Z.eqb_neq _ B_VALID)) by done. split_and!; [done| |done..].
      cbn [dev set_queue set_ibufs s2] in *. split; cbn [bufs IDE_QUEUE HAVE_DISK1 dev set_disk set_queue set_ibufs s2]; [|done|by apply Hreq|..].
      * split; [done|]. exists (set_qnext None b). done.
      * by rewrite Hd1.
      * done.
      * by rewrite Hbd.
      * cbn [app]. intros c Ec. rewrite E1 in Ec. injection Ec as <-. by rewrite R7 in Hst.
Qed.

(** The data part of the interrupt. *)
Lemma intr_data A i b s (k : M ide unit) (Q : unit → ide → Prop) :
  bufs s !! i = Some b → present (obs (dev s)) = true → started (obs (dev s)) A b →
  (∀ d, obs d = obs (dev s) →
     wp k (set_disk d (set_ibufs (<[i := if dirty b || bad (obs (dev s)) (target b) then b
                                         else set_data (A (target b)) b]> (bufs s)) s)) Q) →
  wp (let* ok := (if Z.land (b_flags b) B_DIRTY =? 0 then let* r := idewait true in ret (0 <=? r) else ret false) in
      (if (ok : bool) then let* l := in_data in on_ibuf i (set_data l) else ret tt) ;;; k) s Q.
Proof.
  intros E Hp [Hs Hc] HQ. unfold perform, dirty in *. destruct (Z.eqb_spec (Z.land (b_flags b) B_DIRTY) 0) as [Hd|Hd]; cbn [negb orb] in *.
  - specialize (Hc eq_refl). do 2 wp_step. eapply wp_mono; [by apply idewait_spec|]. intros r s1 (d1 & -> & Ho & Hb & Hr).
    do 2 wp_step. rewrite <- Ho in Hc. rewrite (Hr _ Hc), Ho. cbn [andb]. destruct (bad (obs (dev s)) (target b)) eqn:Ebd; cbn [negb].
    + wp_step. specialize (HQ d1 Ho). rewrite list_insert_id in HQ by done. by destruct s.
    + wp_step. eapply wp_eq; [reflexivity|]. cbn [dev set_disk]. rewrite (insl_data _ _ Hb Hc) by (by rewrite Ho). rewrite Ho, Hs.
      eapply wp_on_ibuf; [exact E|]. apply (HQ (insl d1).2). by rewrite insl_obs.
  - do 4 wp_step. specialize (HQ (dev s) eq_refl). rewrite list_insert_id in HQ by done. by destruct s.
Qed.

Lemma ideintr_spec bd A i q s b : repr bd A (i :: q) s → bufs s !! i = Some b →
  wp ideintr s (λ _ s', repr bd (perform A b) q s' ∧ iwakes s' = iwakes s ++ [i] ∧ HAVE_DISK1 s' = HAVE_DISK1 s ∧
    bufs s' = <[i := completed bd A b]> (bufs s)).
Proof.
  intros [R1 R2 R3 R4 R5 R6 R7] E. destruct R1 as (Hq & b0 & E0 & Hch).
  rewrite E in E0. injection E0 as <-. subst bd. apply NoDup_cons in R2 as [Hni Hnd]. unfold ideintr. do 2 wp_step. rewrite Hq. wp_step. eapply wp_at_buf; [exact E|]. cbv beta.
  do 2 wp_step. apply (intr_data A i b (set_queue (b_qnext b) s)); [done..|by apply R7|].
  cbn [dev set_queue bufs HAVE_DISK1 IDE_QUEUE iwakes set_ibufs]. intros d Ho.
  set (b1 := if _ || _ then b else _). assert (Hlt : (i < length (bufs s))%nat) by (by eapply lookup_lt_Some).
  wp_step. eapply wp_on_ibuf; [by apply list_lookup_insert_eq|]. cbn [bufs set_disk set_ibufs].
  wp_step. eapply wp_on_ibuf; [apply list_lookup_insert_eq; by rewrite length_insert|]. cbn [bufs set_disk set_ibufs].
  rewrite !list_insert_insert_eq. assert (∀ f, set_flags (f (b_flags (set_flags (Z.lor (b_flags b1) B_VALID) b1))) (set_flags (Z.lor (b_flags b1) B_VALID) b1) =
    set_flags (f (Z.lor (b_flags b) B_VALID)) b1) as Hfl by (intros f; unfold b1; by destruct (_ || _)).
  rewrite (Hfl (λ z, Z.ldiff z B_DIRTY)). fold (completed (bad (obs (dev s))) A b).
  do 4 wp_step. cbn [IDE_QUEUE set_queue set_ibufs set_disk iwakeup].
  assert (Hother : ∀ j, j ∈ q → <[i := completed (bad (obs (dev s))) A b]> (bufs s) !! j = bufs s !! j)
    by (intros j Hj; apply list_lookup_insert_ne; by intros ->).
  assert (Hsec : sector (obs d) = perform A b) by (rewrite Ho; by apply R7).
  destruct q as [|j q].
  - simpl in Hch. rewrite Hch. wp_step. split_and!; [|done..]. split; cbn; rewrite ?Ho, ?Hch; try done.
    + by intros j ?%not_elem_of_nil.
    + by rewrite <- Ho.
  - destruct Hch as (Hj & c & Ec & Hch). rewrite Hj. destruct (R3 j ltac:(set_solver)) as (c' & Ec' & Hrc).
    rewrite Ec in Ec'. injection Ec' as <-.
    eapply wp_mono; [apply (idestart_spec j c)|].
    + cbn. rewrite Hother by (by left). done.
    + done.
    + cbn. by rewrite Ho.
    + cbn. by rewrite Ho.
    + cbn. intros ? s' (d' & -> & Hst & Hpr & Hbd & Hd1). rewrite Ho in Hbd, Hd1. rewrite Hsec in Hst. split_and!; [|done..].
      split; cbn; rewrite ?Hbd, ?Hd1, ?Ho; try done.
      * split; [done|]. exists c. rewrite Hother by (by left). split; [done|]. eapply qchain_ext; [|exact Hch].
        intros k Hk. rewrite Hother by (by right). done.
      * intros k Hk. rewrite Hother by done. apply R3. by right.
      * intros x Ex. rewrite Hother, Ec in Ex by (by left). by injection Ex as <-.
Qed.

Lemma ideintr_idle s : IDE_QUEUE s = None → ideintr s = Ok (tt, s).
Proof. intros H. unfold ideintr, bind, gets. by rewrite H. Qed.

(** C9: The driver is a first-in first-out queue of requests before the disk. A
    buffer handed to [iderw] goes to the end of the queue, linked through the
    buffers, and its process sleeps; an interrupt completes the request at the
    front and no other: the data of a dirty buffer is then on the disk at its
    block, a buffer to read has the content of the block that all requests
    before it left, the buffer is valid and clean, its sleepers are woken, and
    the next request is started. A read error leaves the data of the buffer as
    it was and marks it valid all the same. *)
Theorem ide_fifo (bd : Z * Z → bool) (A : Z * Z → list Z) (q : list nat) (s : ide) (Hr : repr bd A q s) :
  (∀ i b, bufs s !! i = Some b → i ∉ q → req_ok (HAVE_DISK1 s) b →
     wp (iderw i) s (λ r s', r = false ∧ repr bd A (q ++ [i]) s' ∧ iwakes s' = iwakes s ∧
       HAVE_DISK1 s' = HAVE_DISK1 s ∧ linkless (bufs s') = linkless (bufs s))) ∧
  match q with
  | [] => ideintr s = Ok (tt, s)
  | i :: q' => ∀ b, bufs s !! i = Some b →
      wp ideintr s (λ _ s', repr bd (perform A b) q' s' ∧ iwakes s' = iwakes s ++ [i] ∧
        HAVE_DISK1 s' = HAVE_DISK1 s ∧ bufs s' = <[i := completed bd A b]> (bufs s))
  end.
Proof.
  split; [intros i b; by apply iderw_spec|]. destruct q as [|i q]; [apply ideintr_idle, Hr|]. intros b. by apply ideintr_spec.
Qed.

(** Interrupts, one after another. *)
Fixpoint interrupts (n : nat) : M ide unit :=
  match n with
  | O => ret tt
  | S n' => ideintr ;;; interrupts n'
  end.

Definition requests (bs : list Buf) (q : list nat) : list Buf := omap (λ i, bs !! i) q.

Lemma done_flags f : Z.land (Z.ldiff (Z.lor f B_VALID) B_DIRTY) (Z.lor B_VALID B_DIRTY) = B_VALID.
Proof.
  apply Z.bits_inj'. intros n Hn. rewrite Z.land_spec, Z.ldiff_spec, Z.lor_spec. unfold B_VALID, B_DIRTY.
  destruct (decide (n < 3)) as [H3|H3].
  - assert (n = 0 ∨ n = 1 ∨ n = 2) as [->|[->| ->]] by lia; simpl; rewrite ?andb_false_r, ?orb_true_r; done.
  - rewrite (Z.bits_above_log2 2) by (change (Z.log2 2) with 1; lia).
    rewrite (Z.bits_above_log2 (Z.lor 2 4)) by (change (Z.log2 (Z.lor 2 4)) with 2; change (Z.lor 2 4) with 6; lia). by rewrite andb_false_r.
Qed.

Lemma interrupts_spec bd A q1 q2 s : repr bd A (q1 ++ q2) s →
  wp (interrupts (length q1)) s (λ _ s', repr bd (foldl perform A (requests (bufs s) q1)) q2 s' ∧
    iwakes s' = iwakes s ++ q1 ∧ ∀ j, j ∉ q1 → bufs s' !! j = bufs s !! j).
Proof.
  revert A s. induction q1 as [|i q1 IH]; intros A s Hr; cbn [length interrupts].
  { wp_step. by rewrite app_nil_r. }
  destruct (re_req _ _ _ _ Hr i ltac:(by left)) as (b & E & _). wp_step.
  eapply wp_mono; [by apply (ideintr_spec bd A i (q1 ++ q2) s b)|]. intros ? s1 (R1 & W1 & _ & B1).
  pose proof (re_nodup _ _ _ _ Hr) as [Hni _]%NoDup_cons.
  eapply wp_mono; [by apply IH|]. intros ? s2 (R2 & W2 & B2).
  assert (Hreq : requests (bufs s1) q1 = requests (bufs s) q1).
  { unfold requests. assert (∀ q : list nat, i ∉ q → omap (λ j, bufs s1 !! j) q = omap (λ j, bufs s !! j) q) as H; [|apply H; set_solver].
    clear -B1. induction q as [|j q IHq]; intros Hn; [done|]. cbn. rewrite B1, list_lookup_insert_ne by set_solver.
    rewrite <- B1, IHq by set_solver. done. }
  rewrite Hreq in R2. split_and!.
  - unfold requests in *. cbn. rewrite E. cbn. exact R2.
  - rewrite W2, W1, <- app_assoc. done.
  - intros j Hj. rewrite B2 by set_solver. rewrite B1. apply list_lookup_insert_ne. set_solver.
Qed.

(** C27: Every request completes: one that has [n] others before it is done
    after [n + 1] interrupts, which wake its process to find the loop of
    [iderw] at its end. A write is then on the disk; a read has the content
    its block has after the writes of the requests before it. *)
Theorem ide_request_completes (bd : Z * Z → bool) (A : Z * Z → list Z) (q1 q2 : list nat) (i : nat) (b : Buf) (s : ide)
    (Hr : repr bd A (q1 ++ i :: q2) s) (Hb : bufs s !! i = Some b) (Hbad : bd (target b) = false) :
  wp (interrupts (S (length q1))) s (λ _ s',
    let A' := foldl perform A (requests (bufs s) q1) in
    iwakes s' = iwakes s ++ q1 ++ [i] ∧ iderw_done i s' = Ok (true, s') ∧
    repr bd (perform A' b) q2 s' ∧
    ∃ b', bufs s' !! i = Some b' ∧ target b' = target b ∧ b_data b' = perform A' b (target b)).
Proof.
  pose proof (re_nodup _ _ _ _ Hr) as Hnd. rewrite cons_middle, app_assoc in Hnd. apply NoDup_app in Hnd as (Hnd & _ & _).
  apply NoDup_app in Hnd as (_ & Hd & _). assert (i ∉ q1) as Hni by (intros H; by apply (Hd i H), list_elem_of_singleton).
  replace (S (length q1)) with (length (q1 ++ [i])) by (rewrite length_app; simpl; lia).
  rewrite cons_middle, app_assoc in Hr.
  assert (Happ : ∀ n m s Q, wp (interrupts n) s (λ _ s1, wp (interrupts m) s1 Q) → wp (interrupts (n + m)) s Q).
  { clear. intros n m. induction n as [|n IH]; intros s Q H; cbn [interrupts Nat.add] in *; [exact H|].
    wp_step. apply wp_bind_inv in H. eapply wp_mono; [exact H|]. intros ? s1 H1. by apply IH. }
  rewrite length_app. apply Happ. rewrite <- app_assoc in Hr. eapply wp_mono; [by apply interrupts_spec|].
  intros ? s1 (R1 & W1 & B1). cbn [interrupts length]. wp_step.
  assert (Hb1 : bufs s1 !! i = Some b) by (by rewrite B1). eapply wp_mono; [exact (ideintr_spec _ _ _ _ _ _ R1 Hb1)|]. intros ? s2 (R2 & W2 & _ & B2). wp_step. cbv zeta.
  assert (E2 : bufs s2 !! i = Some (completed bd (foldl perform A (requests (bufs s) q1)) b)).
  { rewrite B2. apply list_lookup_insert_eq. by eapply lookup_lt_Some. }
  split_and!; [by rewrite W2, W1, <- app_assoc| |done|].
  - unfold iderw_done, bind, at_buf. rewrite E2. cbn [expect]. unfold ret. unfold completed. cbn [b_flags set_flags].
    by rewrite done_flags.
  - eexists. split; [exact E2|]. unfold completed. rewrite Hbad, orb_false_r. split; [by destruct (dirty b)|].
    unfold perform. destruct (dirty b); cbn [b_data set_flags set_data]; [by rewrite fn_lookup_insert|done].
Qed.

(** ** Initialisation *)

Lemma status_present d : present (obs d) = true → (inb d).1 ≠ 0.
Proof.
  intros Hp E. destruct (decide (busy d = 0%nat)) as [Hb|Hb].
  - destruct (inb_ready d Hp Hb) as (H & _). by rewrite E in H.
  - destruct (inb_busy d Hp Hb) as [H _]. by rewrite E in H.
Qed.
Lemma probe_spec n s : sel (obs (dev s)) = 1 → HAVE_DISK1 s = false →
  wp (probe (S n)) s (λ _ s', ∃ d, s' = set_have (disk1 (obs (dev s))) (set_disk d s) ∧ obs d = obs (dev s)).
Proof.
  revert s. induction n as [|n IH]; intros s Hs Hh; cbn [probe]; wp_step; (eapply wp_eq; [reflexivity|]);
    destruct (disk1 (obs (dev s))) eqn:E1.
  1,3: assert (present (obs (dev s)) = true) as Hp by (unfold present; by rewrite E1, orb_true_r);
    pose proof (status_present _ Hp) as Hz; rewrite (proj2 (Z.eqb_neq _ 0) Hz); cbn [negb]; wp_step; eexists; split; [reflexivity|apply inb_obs].
  all: assert (present (obs (dev s)) = false) as Hp by (unfold present; by rewrite E1, Hs); rewrite (inb_absent _ Hp); cbn [negb Z.eqb].
  - wp_step. exists (inb (dev s)).2. split; [|apply inb_obs]. destruct s; simpl in Hh; by subst.
  - eapply wp_mono; [apply (IH (set_disk (inb (dev s)).2 s)); cbn; [by rewrite inb_obs|done]|].
    cbn. intros ? s' (d & -> & Ho). rewrite inb_obs in Ho |- *. rewrite E1. by exists d.
Qed.

(** [ideinit] finds out whether the second drive exists, leaves the first one
    selected and the driver ready for requests. *)
Theorem ideinit_ready s : IDE_QUEUE s = None → HAVE_DISK1 s = false → present (obs (dev s)) = true →
  wp ideinit s (λ _ s', HAVE_DISK1 s' = disk1 (obs (dev s)) ∧ bufs s' = bufs s ∧
    repr (bad (obs (dev s))) (sector (obs (dev s))) [] s').
Proof.
  intros Hq Hh Hp. unfold ideinit, out. wp_step. eapply wp_mono; [by apply idewait_spec|]. intros ? s1 (d1 & -> & Ho & _).
  do 3 wp_step. eapply wp_mono; [apply (probe_spec 999); [cbn; by rewrite outb_obs|done]|].
  intros ? s2 (d & -> & Hd). wp_step. cbn in *. rewrite outb_obs, Ho in *. split_and!; [done..|].
  split; cbn; rewrite ?outb_obs, ?Hd; try done; [constructor|]. by intros i ?%not_elem_of_nil.
Qed.

(** ** The driver as a block device

    A request alone: [iderw] starts it, and the interrupt completes it. *)
Definition iderw_alone (b : Buf) (d : bool * D) : outcome (Buf * (bool * D)) :=
  match iderw 0 (mkIde None d.1 [b] d.2 []) with
  | Ok (_, s) =>
      match ideintr s with
      | Ok (_, s) =>
          match bufs s with
          | [b'] => Ok (b', (HAVE_DISK1 s, dev s))
          | _ => Panic "wild buffer pointer"
          end
      | Panic e => Panic e
      | Blocked => Blocked
      | NoFuel => NoFuel
      end
  | Panic e => Panic e
  | Blocked => Blocked
  | NoFuel => NoFuel
  end.
Definition ide_blk (d : bool * D) (dv bn : Z) : list Z :=
  resize (Z.to_nat BSIZE) 0 (sector (obs d.2) (Z.land dv 1, bn)).
Record ide_ok (d : bool * D) (dv bn : Z) : Prop := {
  io_dev : dv = 0 ∨ dv = 1 ∧ d.1 = true;
  io_blk : 0 ≤ bn < FSSIZE;
  io_have : d.1 = true → disk1 (obs d.2) = true;
  io_present : present (obs d.2) = true;
  io_good : bad (obs d.2) (Z.land dv 1, bn) = false;
  io_len : length (sector (obs d.2) (Z.land dv 1, bn)) = Z.to_nat BSIZE;
}.

Lemma repr_idle (d : bool * D) bs : (d.1 = true → disk1 (obs d.2) = true) → present (obs d.2) = true →
  repr (bad (obs d.2)) (sector (obs d.2)) [] (mkIde None d.1 bs d.2 []).
Proof. intros H1 H2. split; cbn; try done; [constructor|]. by intros i ?%not_elem_of_nil. Qed.

Lemma iderw_alone_spec b d : ide_ok d (b_dev b) (b_blockno b) → Z.land (b_flags b) (Z.lor B_VALID B_DIRTY) ≠ B_VALID →
  (dirty b = true → length (b_data b) = Z.to_nat BSIZE) → ∃ d', iderw_alone b d =
    Ok (set_qnext None (completed (bad (obs d.2)) (sector (obs d.2)) b), (d.1, d')) ∧
    sector (obs d') = perform (sector (obs d.2)) b ∧ bad (obs d') = bad (obs d.2) ∧ present (obs d') = true ∧
    (d.1 = true → disk1 (obs d') = true).
Proof.
  intros [H1 H2 H3 H4 H5 H6] Hp Hl. set (s := mkIde None d.1 [b] d.2 []).
  assert (Hrq : req_ok d.1 b) by (split; [done|done|naive_solver|done]).
  pose proof (iderw_spec _ _ _ s 0 b (repr_idle d [b] H3 H4) eq_refl ltac:(set_solver) Hrq) as W.
  apply wp_ok in W as (r & s1 & E1 & _ & R1 & _ & B1 & L1). unfold iderw_alone. fold s. rewrite E1. cbn [app] in R1.
  destruct (bufs s1) as [|b1 [|]] eqn:Eb; cbn in L1; [done| |done].
  assert (set_qnext None b1 = set_qnext None b) as Eq by (apply (f_equal (.!! 0%nat)) in L1; by apply (inj Some) in L1).
  assert (Eq1 : b_qnext b1 = None).
  { pose proof (re_chain _ _ _ _ R1) as (_ & c & Ec & Hc). rewrite Eb in Ec. cbn in Ec. injection Ec as <-. exact Hc. }
  assert (b1 = set_qnext None b) as -> by (rewrite <- Eq; destruct b1; cbn in *; by subst).
  pose proof (ideintr_spec _ _ 0%nat [] s1 (set_qnext None b) R1 ltac:(by rewrite Eb)) as W.
  apply wp_ok in W as (u & s2 & E2 & R2 & _ & H2d & B2). rewrite E2, B2, Eb. cbn [insert list_insert].
  rewrite H2d, B1. exists (dev s2). destruct R2 as [_ _ _ P4 P5 P6 P7]. split_and!.
  - do 2 f_equal. unfold completed. destruct b. cbn. by destruct (dirty _ || _).
  - exact P7.
  - done.
  - done.
  - rewrite H2d, B1 in P4. exact P4.
Qed.

#[global, refine] Instance ide_dev : BlockDev (bool * D) := {
  Disk.iderw := iderw_alone;
  Disk.blk := ide_blk;
  Disk.dev_ok := ide_ok;
}.
Proof.
  - intros d dv bn. apply length_resize.
  - intros b d Hok Hf. assert (dirty b = false) as Hd by (unfold dirty; by rewrite Hf).
    destruct (iderw_alone_spec b d Hok) as (d' & E & Hs & Hb & Hp & Hh); [by rewrite Hf|by rewrite Hd|].
    unfold perform in Hs. rewrite Hd in Hs. exists None, (d.1, d'). split_and!.
    + rewrite E. unfold completed, target. rewrite Hd, Hf, (io_good _ _ _ Hok). cbn [orb].
      unfold ide_blk. rewrite resize_all_alt by (symmetry; apply Hok). done.
    + intros dv bn. unfold ide_blk. cbn [snd]. by rewrite Hs.
    + intros dv bn. destruct Hok as [_ _ O3 O4 _ _].
      split; intros [K1 K2 K3 K4 K5 K6]; split; cbn [fst snd] in *; rewrite ?Hs, ?Hb in *; done.
  - intros b d Hok Hf Hl. assert (dirty b = true) as Hd by (unfold dirty; by rewrite Hf).
    destruct (iderw_alone_spec b d Hok) as (d' & E & Hs & Hb & Hp & Hh); [by rewrite Hf|done|].
    unfold perform in Hs. rewrite Hd in Hs. exists None, (d.1, d').
    assert (Hsec : ∀ dv bn, (dv = 0 ∨ dv = 1) → sector (obs d') (Z.land dv 1, bn) =
      if bool_decide (dv = b_dev b ∧ bn = b_blockno b) then b_data b else sector (obs d.2) (Z.land dv 1, bn)).
    { intros dv bn Hdv. rewrite Hs. unfold target. case_bool_decide as Heq.
      - destruct Heq as [-> ->]. by rewrite fn_lookup_insert.
      - rewrite fn_lookup_insert_ne; [done|]. intros [= E1 E2]. apply Heq. split; [|done].
        destruct (io_dev _ _ _ Hok) as [Hb0|[Hb0 _]]; rewrite Hb0 in *; destruct Hdv as [-> | ->]; done. }
    split_and!.
    + rewrite E. unfold completed. by rewrite Hd, Hf.
    + intros dv bn [K1 K2 K3 K4 K5 K6]. unfold ide_blk. cbn [snd]. rewrite Hsec by naive_solver.
      case_bool_decide; [|done]. by rewrite resize_all_alt by done.
    + intros dv bn. destruct Hok as [_ _ O3 O4 _ O6].
      split; intros [K1 K2 K3 K4 K5 K6]; (split; cbn [fst snd] in *; rewrite ?Hb in *; [done..|]);
        (rewrite Hsec in * by naive_solver; case_bool_decide as Heq; [|done]); [by destruct Heq as [-> ->]|done].
Defined.

End driver.
Arguments ide : clear implicits.

(** ** A disk

    One that is busy for three reads of the status register after a command. *)
Definition sim : Type := ata * nat.
Definition sim_inb (d : sim) : Z * sim :=
  if present d.1 then
    match d.2 with
    | O => (match cmd d.1 with
            | Some (false, k) => if bad d.1 k then Z.lor IDE_DRDY IDE_ERR else IDE_DRDY
            | _ => IDE_DRDY
            end, d)
    | S n => (IDE_BSY, (d.1, n))
    end
  else (0, d).
#[global, refine] Instance sim_ata : Ata sim := {
  inb := sim_inb;
  outb p v d := (ata_out p v d.1, if p =? 0x1F7 then 3%nat else d.2);
  outsl l d := (ata_data l d.1, d.2);
  insl d := (match cmd d.1 with Some (false, k) => sector d.1 k | _ => [] end, d);
  obs := fst;
  busy := snd;
}.
Proof.
  - intros [a n]. unfold sim_inb. cbn. destruct (present a), n; done.
  - intros [a n] Hp Hn. cbn in *. unfold sim_inb. cbn. rewrite Hp, Hn. cbn. destruct (cmd a) as [[[] k]|]; split_and!; try done.
    + by destruct (bad a k).
    + intros k' [= <-]. by destruct (bad a k).
  - intros [a n] Hp Hn. cbn in *. unfold sim_inb. cbn. rewrite Hp. destruct n; [done|]. cbn. split; [done|lia].
  - intros [a n] Hp. cbn in *. unfold sim_inb. cbn. by rewrite Hp.
  - done.
  - done.
  - done.
  - intros [a n] k _ Hc _. cbn in *. by rewrite Hc.
Defined.

(** Two buffers, one to write to block 7 of the second drive and one to read it. *)
Definition sim0 : sim := (mkAta (λ _, 0) None (λ _, replicate 512 0) (λ _, false) true, 0%nat).
Definition lock0 : Sync.sleeplock := Sync.mkSleep 0 (Sync.mkSpin 0 EmptyString None) EmptyString 0.
Definition wbuf : Buf := mkBuf (Z.lor B_VALID B_DIRTY) 1 7 lock0 1 0 0 None (replicate 512 5).
Definition rbuf : Buf := mkBuf 0 1 7 lock0 1 0 0 None (replicate 512 0).
Definition ide0 : ide sim := mkIde None true [wbuf; rbuf] sim0 [].

Lemma repr0 : repr (λ _, false) (λ _, replicate 512 0) [] ide0.
Proof. split; cbn; try done; [constructor|]. by intros i ?%not_elem_of_nil. Qed.
Lemma wbuf_ok : req_ok true wbuf.
Proof. split; cbn; [done|unfold FSSIZE; lia|by right|done]. Qed.

Lemma ide_fifo_witness :
  wp (iderw 0) ide0 (λ r s', r = false ∧ repr (λ _, false) (λ _, replicate 512 0) [0%nat] s' ∧ iwakes s' = [] ∧
    HAVE_DISK1 s' = true ∧ linkless (bufs s') = linkless [wbuf; rbuf]).
Proof.
  apply (proj1 (ide_fifo (λ _, false) (λ _, replicate 512 0) [] ide0 repr0) 0%nat wbuf);
    [reflexivity|set_solver|apply wbuf_ok].
Defined.

Lemma ide_request_completes_witness : ∃ s1, iderw 0 ide0 = Ok (false, s1) ∧
  wp (interrupts 1) s1 (λ _ s', iwakes s' = iwakes s1 ++ [0%nat] ∧ iderw_done 0 s' = Ok (true, s')).
Proof.
  pose proof (iderw_spec _ _ _ ide0 0%nat wbuf repr0 eq_refl ltac:(set_solver) wbuf_ok) as W.
  apply wp_ok in W as (r & s1 & E & -> & R & _ & _ & L). exists s1. split; [exact E|].
  destruct (linkless_lookup _ _ 0%nat wbuf (eq_sym L) eq_refl) as (b & Eb & _).
  eapply wp_mono; [exact (ide_request_completes _ _ [] [] 0%nat b s1 R Eb eq_refl)|].
  cbn. intros ? s' (H1 & H2 & _). done.
Defined.

End Ide.
