(* ===== verification/Mkfs.v ===== *)
(** * The file system image builder

    mkfs/src/main.rs: the program that makes the disk image the kernel boots
    from. The image file is its length in sectors and a function from sector
    numbers to the bytes; a hole reads as zeros. The files given on the command
    line are their names and contents. An error that [main] returns, like a
    failed assertion, ends the program and is a [Panic]. *)

From S2P Require Import Prelude Param Fsh.
Import Fsh.

Module Mkfs.

Record mkfs := mkMkfs {
  nsec : Z;
  sect : Z → list Z;
  sb : Superblock;
  free_inode : Z;
  free_block : Z;
}.

Definition zeroes : list Z := replicate 512 0.

Definition n_inode_blocks : Z := 200 / IPB + 1.
Definition n_bitmap : Z := FSSIZE / (BSIZE * 8) + 1.
Definition n_meta : Z := 2 + LOGSIZE + n_inode_blocks + n_bitmap.
Definition mkfs_sb : Superblock :=
  mkSB FSSIZE (FSSIZE - n_meta) 200 LOGSIZE 2 (2 + LOGSIZE) (2 + LOGSIZE + n_inode_blocks).
Definition new : mkfs := mkMkfs 0 (λ _, zeroes) mkfs_sb 1 n_meta.

Definition set_sect (k : Z) (d : list Z) (s : mkfs) : mkfs :=
  mkMkfs (Z.max (nsec s) (k + 1)) (<[k := d]> (sect s)) (sb s) (free_inode s) (free_block s).
Definition set_free_inode (v : Z) (s : mkfs) : mkfs := mkMkfs (nsec s) (sect s) (sb s) v (free_block s).
Definition set_free_block (v : Z) (s : mkfs) : mkfs := mkMkfs (nsec s) (sect s) (sb s) (free_inode s) v.

Definition write_sector (sec : Z) (data : list Z) : M mkfs unit :=
  if BSIZE <? Z.of_nat (length data) then panic "assertion failed: data.len() <= BSIZE"
  else modify (set_sect sec (data ++ replicate (512 - length data) 0)).
Definition read_sector (sec : Z) : M mkfs (list Z) :=
  let* s := get in
  if sec <? nsec s then ret (sect s sec) else panic "failed to fill whole buffer".

Definition iblock (inum : Z) : M mkfs Z :=
  let* s := get in
  ret (inum / IPB + sb_inodestart (sb s)).
Definition read_inode (inum : Z) : M mkfs Dinode :=
  let* b := iblock inum in
  let* buf := read_sector b in
  ret (get_dinode (Z.to_nat (inum mod IPB)) buf).
Definition write_inode (inum : Z) (dinode : Dinode) : M mkfs unit :=
  let* b := iblock inum in
  let* buf := read_sector b in
  let* b := iblock inum in
  write_sector b (put_dinode (Z.to_nat (inum mod IPB)) dinode buf).

Definition default_dinode : Dinode := mkDinode 0 0 0 0 0 (replicate 13 0).
Definition ialloc (itype : Z) : M mkfs Z :=
  let* s := get in
  let inum := free_inode s in
  modify (set_free_inode (as_u32 (inum + 1))) ;;;
  write_inode inum (mkDinode itype 0 0 1 0 (replicate 13 0)) ;;;
  ret inum.

Definition take_block : M mkfs Z :=
  let* s := get in
  modify (set_free_block (as_u32 (free_block s + 1))) ;;;
  ret (free_block s).
Definition addr (din : Dinode) (i : nat) : Z := nth i (di_addrs din) 0.
Definition set_addr (i : nat) (v : Z) (din : Dinode) : Dinode :=
  mkDinode (di_type din) (di_major din) (di_minor din) (di_nlink din) (di_size din) (<[i := v]> (di_addrs din)).
Definition set_size (v : Z) (din : Dinode) : Dinode :=
  mkDinode (di_type din) (di_major din) (di_minor din) (di_nlink din) v (di_addrs din).

(** The block [fbn] of a file, allocated if there is none. *)
Definition target_block (din : Dinode) (fbn : nat) : M mkfs (Dinode * Z) :=
  if Z.of_nat fbn <? NDIRECT then
    let* din := (if addr din fbn =? 0 then let* b := take_block in ret (set_addr fbn b din) else ret din) in
    ret (din, addr din fbn)
  else
    let* din := (if addr din 12 =? 0 then let* b := take_block in ret (set_addr 12 b din) else ret din) in
    let* indirect := read_sector (addr din 12) in
    let entry_off := ((fbn - 12) * 4)%nat in
    let blk := rd_u32 entry_off indirect in
    if blk =? 0 then
      let* blk := take_block in
      write_sector (addr din 12) (wr_u32 entry_off blk indirect) ;;;
      ret (din, blk)
    else ret (din, blk).

Fixpoint iappend_loop (fuel : nat) (data : list Z) (din : Dinode) (off p_offset : nat) : M mkfs (Dinode * nat) :=
  match fuel with
  | O => nofuel
  | S fuel' =>
      if (p_offset <? length data)%nat then
        let fbn := (off / 512)%nat in
        if MAXFILE <=? Z.of_nat fbn then panic "file too large"
        else
          let* '(din, target) := target_block din fbn in
          let n1 := Nat.min (length data - p_offset) ((fbn + 1) * 512 - off) in
          let* buf := read_sector target in
          let buf_off := (off - fbn * 512)%nat in
          write_sector target (splice buf_off (slice p_offset n1 data) buf) ;;;
          iappend_loop fuel' data din (off + n1) (p_offset + n1)
      else ret (din, off)
  end.
Definition iappend (inum : Z) (data : list Z) : M mkfs unit :=
  let* din := read_inode inum in
  let* '(din, off) := iappend_loop (S (length data)) data din (Z.to_nat (di_size din)) 0 in
  write_inode inum (set_size (as_u32 (Z.of_nat off)) din).

Definition set_name (s : list Z) : list Z := take 14 s ++ replicate (14 - length (take 14 s)) 0.
Definition display_name (filename : list Z) : list Z :=
  match filename with
  | c :: l => if c =? 95 then l else filename
  | [] => []
  end.

Definition bit_set (bitmap : list Z) (i : Z) : M mkfs (list Z) :=
  let* b := expect "index out of bounds" (bitmap !! Z.to_nat (i / 8)) in
  ret (<[Z.to_nat (i / 8) := Z.lor b (Z.shiftl 1 (i mod 8))]> bitmap).
Fixpoint bits_set (l : list Z) (bitmap : list Z) : M mkfs (list Z) :=
  match l with
  | [] => ret bitmap
  | i :: l' => let* bitmap := bit_set bitmap i in bits_set l' bitmap
  end.

(** A file of the command line. *)
Definition add_file (root_ino : Z) (f : list Z * list Z) : M mkfs unit :=
  let* inum := ialloc T_FILE in
  iappend root_ino (enc_dirent (mkDirent (as_u16 inum) (set_name (display_name f.1)))) ;;;
  iappend inum f.2.

Definition main (files : list (list Z * list Z)) : M mkfs unit :=
  forM (seqZ 0 FSSIZE) (λ i, write_sector i zeroes) ;;;
  let* s := get in
  write_sector 1 (splice 0 (enc_sb (sb s)) zeroes) ;;;
  let* root_ino := ialloc T_DIR in
  if negb (root_ino =? ROOTINO) then panic "assertion failed: root_ino == ROOTINO"
  else
    iappend root_ino (enc_dirent (mkDirent (as_u16 root_ino) (set_name [46]))) ;;;
    iappend root_ino (enc_dirent (mkDirent (as_u16 root_ino) (set_name [46; 46]))) ;;;
    forM files (add_file root_ino) ;;;
    let* s := get in
    let* bitmap := bits_set (seqZ 0 (free_block s)) zeroes in
    write_sector (sb_bmapstart (sb s)) bitmap.

(** ** Words of an indirect block *)

Definition words (l : list Z) : list Z := concat (le_bytes 4 <$> l).

Lemma length_words' l : length (words l) = (4 * length l)%nat.
Proof. apply length_words. Qed.
Lemma drop_words i l : drop (i * 4) (words l) = words (drop i l).
Proof.
  revert l. induction i as [|i IH]; intros l; [done|]. destruct l as [|x l]; [by rewrite drop_nil|].
  cbn [words fmap list_fmap concat drop]. change (S i * 4)%nat with (4 + i * 4)%nat. rewrite <- drop_drop.
  rewrite drop_app_length' by (by rewrite length_le_bytes). apply IH.
Qed.
Lemma take_words i l : take (i * 4) (words l) = words (take i l).
Proof.
  revert l. induction i as [|i IH]; intros l; [done|]. destruct l as [|x l]; [by rewrite take_nil|].
  cbn [take]. unfold words in *. rewrite !fmap_cons. cbn [concat]. change (S i * 4)%nat with (4 + i * 4)%nat.
  rewrite take_app_ge by (rewrite length_le_bytes; lia). rewrite length_le_bytes. f_equal.
  rewrite <- IH. f_equal. lia.
Qed.

Lemma rd_words i l : Forall is_u32 l → (i < length l)%nat → rd_u32 (i * 4) (words l) = nth i l 0.
Proof.
  intros Hl Hi. unfold rd_u32, slice. rewrite drop_words.
  destruct (lookup_lt_is_Some_2 l i Hi) as [x E]. rewrite (drop_S _ _ _ E).
  unfold words. rewrite fmap_cons. cbn [concat]. rewrite take_app_length' by (by rewrite length_le_bytes).
  rewrite le4_roundtrip; [|by eapply Forall_lookup_1]. by rewrite (nth_lookup_Some _ _ _ _ E).
Qed.
Lemma wr_words i v l : (i < length l)%nat → wr_u32 (i * 4) v (words l) = words (<[i := v]> l).
Proof.
  intros Hi. unfold wr_u32, splice. rewrite length_le_bytes, take_words.
  replace (i * 4 + 4)%nat with (S i * 4)%nat by lia. rewrite drop_words.
  rewrite insert_take_drop by done. unfold words. rewrite fmap_app, fmap_cons, concat_app. done.
Qed.
Lemma words_zero : words (replicate 128 0) = zeroes.
Proof. reflexivity. Qed.

(** ** The files of an image *)

(** The number of data blocks of [n] bytes, and of all blocks with the
    indirect one. *)
Definition nb (n : nat) : nat := ((n + 511) / 512)%nat.
Definition cost (n : nat) : nat := (nb n + if (12 <? nb n)%nat then 1 else 0)%nat.

(** The block map of an inode: the data blocks [bs] and the indirect block. *)
Definition own (bs : list Z) (ind : Z) : list Z := bs ++ if (12 <? length bs)%nat then [ind] else [].
Record mapped (s : mkfs) (din : Dinode) (bs : list Z) (ind : Z) : Prop := {
  mp_addrs : di_addrs din = resize 12 0 bs ++ [ind];
  mp_max : (length bs ≤ 140)%nat;
  mp_ind0 : (length bs ≤ 12)%nat → ind = 0;
  mp_ind : (12 < length bs)%nat → sect s ind = words (resize 128 0 (drop 12 bs));
  mp_own : Forall (λ b, n_meta ≤ b < free_block s) (own bs ind);
  mp_nodup : NoDup (own bs ind);
}.
Definition holds (s : mkfs) (din : Dinode) (bs : list Z) (ind : Z) (c : list Z) : Prop :=
  mapped s din bs ind ∧ length bs = nb (length c) ∧ take (length c) (concat (sect s <$> bs)) = c.

Record img_ok (s : mkfs) : Prop := {
  im_nsec : nsec s = FSSIZE;
  im_sb : sb s = mkfs_sb;
  im_len k : length (sect s k) = 512%nat;
  im_free : n_meta ≤ free_block s ≤ FSSIZE;
  im_zero k : free_block s ≤ k → sect s k = zeroes;
}.

(** What an operation on one file leaves alone. *)
Definition frame (o : list Z) (s s' : mkfs) : Prop :=
  free_block s ≤ free_block s' ∧ free_inode s' = free_inode s ∧
  ∀ k, k < free_block s → k ∉ o → sect s' k = sect s k.

Lemma frame_trans o o' s1 s2 s3 : frame o s1 s2 → frame o' s2 s3 →
  (∀ k, k ∈ o' → k ∈ o ∨ free_block s1 ≤ k) → frame o s1 s3.
Proof.
  intros (H1 & H2 & H3) (G1 & G2 & G3) Ho. split_and!; [lia|congruence|]. intros k Hk Hn.
  rewrite G3, H3; [done..|lia|]. intros [?|?]%Ho; [done|lia].
Qed.

(** ** Finding and allocating a block *)

Ltac mlia := change n_meta with 59 in *; change FSSIZE with 2000 in *; unfold is_u32, u32_max in *; lia.

Lemma nth_resize_in l m i x : (i < m)%nat → l !! i = Some x → nth i (resize m 0 l) 0 = x.
Proof.
  intros Hi E. apply nth_lookup_Some. rewrite lookup_resize; [done|done|]. by eapply lookup_lt_Some.
Qed.
Lemma nth_resize_out (l : list Z) m i : (length l ≤ i)%nat → nth i (resize m 0 l) 0 = 0.
Proof.
  intros Hi. rewrite nth_lookup. destruct (decide (i < m)%nat).
  - by rewrite lookup_resize_new.
  - by rewrite lookup_resize_old by lia.
Qed.

Lemma own_small bs ind : (length bs ≤ 12)%nat → own bs ind = bs.
Proof. intros H. unfold own. rewrite (proj2 (Nat.ltb_ge 12 (length bs))) by done. by rewrite app_nil_r. Qed.
Lemma own_big bs ind : (12 < length bs)%nat → own bs ind = bs ++ [ind].
Proof. intros H. unfold own. by rewrite (proj2 (Nat.ltb_lt 12 (length bs))). Qed.

Lemma mapped_bs s din bs ind b : mapped s din bs ind → b ∈ bs → n_meta ≤ b < free_block s.
Proof. intros H Hb. apply (proj1 (Forall_forall _ _) (mp_own _ _ _ _ H)). unfold own. set_solver. Qed.
Lemma mapped_ind s din bs ind : mapped s din bs ind → (12 < length bs)%nat → n_meta ≤ ind < free_block s ∧ ind ∉ bs.
Proof.
  intros [_ _ _ _ Ho Hn] Hl. rewrite own_big in Ho, Hn by done. apply Forall_app in Ho as [_ [Ho _]%Forall_cons].
  split; [exact Ho|]. apply NoDup_app in Hn as (_ & Hd & _). intros Hi. by apply (Hd ind Hi), list_elem_of_singleton.
Qed.
Lemma addr_direct s din bs ind i : mapped s din bs ind → (i < 12)%nat → addr din i = nth i (resize 12 0 bs) 0.
Proof. intros [Ha _ _ _ _ _] Hi. unfold addr. rewrite Ha. apply app_nth1. by rewrite length_resize. Qed.
Lemma addr_indirect s din bs ind : mapped s din bs ind → addr din 12 = ind.
Proof. intros [Ha _ _ _ _ _]. unfold addr. rewrite Ha, app_nth2; rewrite length_resize; done || lia. Qed.

Lemma read_sector_ok s k : img_ok s → k < FSSIZE → read_sector k s = Ok (sect s k, s).
Proof. intros Hi Hk. unfold read_sector, bind, get. rewrite (im_nsec _ Hi), (proj2 (Z.ltb_lt _ _)) by done. done. Qed.
Lemma write_sector_ok s k d : length d = 512%nat → write_sector k d s = Ok (tt, set_sect k d s).
Proof.
  intros Hd. unfold write_sector. rewrite Hd. change (BSIZE <? Z.of_nat 512) with false.
  rewrite Nat.sub_diag. cbn [replicate]. by rewrite app_nil_r.
Qed.
Lemma set_sect_ok s k d : img_ok s → k < free_block s → length d = 512%nat → img_ok (set_sect k d s).
Proof.
  intros [H1 H2 H3 H4 H5] Hk Hd. split; cbn; try done.
  - lia.
  - intros j. destruct (decide (k = j)) as [<-|]; [by rewrite fn_lookup_insert|by rewrite fn_lookup_insert_ne].
  - intros j Hj. rewrite fn_lookup_insert_ne by lia. by apply H5.
Qed.
Lemma take_block_ok s : img_ok s → free_block s < FSSIZE →
  take_block s = Ok (free_block s, set_free_block (free_block s + 1) s) ∧ img_ok (set_free_block (free_block s + 1) s).
Proof.
  intros [H1 H2 H3 H4 H5] Hf. split.
  - unfold take_block, bind, get, modify, ret. do 3 f_equal. unfold as_u32. rewrite Z.mod_small; [done|mlia].
  - split; cbn; try done; [lia|]. intros k Hk. apply H5. lia.
Qed.

Lemma word_range s din bs ind : img_ok s → mapped s din bs ind → Forall is_u32 (resize 128 0 (drop 12 bs)).
Proof.
  intros Hi Hm. apply Forall_resize; [unfold is_u32, u32_max; lia|]. apply Forall_forall. intros b Hb.
  assert (b ∈ bs) as Hb' by (rewrite <- (take_drop 12 bs); set_solver). pose proof (mapped_bs _ _ _ _ _ Hm Hb').
  pose proof (im_free _ Hi). mlia.
Qed.

Lemma target_block_old s din bs ind fbn b : img_ok s → mapped s din bs ind → bs !! fbn = Some b →
  target_block din fbn s = Ok ((din, b), s).
Proof.
  intros Hi Hm E. assert (Hlt : (fbn < length bs)%nat) by (by eapply lookup_lt_Some).
  assert (n_meta ≤ b < free_block s) as Hb by (eapply mapped_bs; [done|by eapply list_elem_of_lookup_2]).
  assert (b ≠ 0) by mlia.
  unfold target_block, NDIRECT. destruct (Z.ltb_spec (Z.of_nat fbn) 12).
  - assert (addr din fbn = b) as Ea by (rewrite (addr_direct _ _ _ _ _ Hm) by lia; apply nth_resize_in; [lia|done]).
    unfold bind, ret. rewrite Ea, (proj2 (Z.eqb_neq b 0)) by done. by rewrite Ea.
  - destruct (mapped_ind _ _ _ _ Hm ltac:(lia)) as [Hind _]. rewrite (addr_indirect _ _ _ _ Hm).
    rewrite (proj2 (Z.eqb_neq ind 0)) by mlia. unfold bind at 1, ret at 1.
    rewrite (addr_indirect _ _ _ _ Hm).
    rewrite (bind_ok _ _ _ _ _ (read_sector_ok s ind Hi ltac:(pose proof (im_free _ Hi); lia))).
    rewrite (mp_ind _ _ _ _ Hm) by lia. cbv zeta. rewrite rd_words by (by eapply word_range || (rewrite length_resize; pose proof (mp_max _ _ _ _ Hm); lia)).
    rewrite (nth_resize_in _ _ _ b); [|pose proof (mp_max _ _ _ _ Hm); lia|rewrite lookup_drop, <- E; f_equal; lia].
    by rewrite (proj2 (Z.eqb_neq b 0)).
Qed.

Definition meta (din : Dinode) : Z * Z * Z * Z * Z :=
  (di_type din, di_major din, di_minor din, di_nlink din, di_size din).

(** A block [b] of zeros has become the next one of the file. *)
Record grown (s : mkfs) (din : Dinode) (bs : list Z) (ind : Z) (s' : mkfs) (din' : Dinode) (b ind' : Z) : Prop := {
  gr_img : img_ok s';
  gr_mapped : mapped s' din' (bs ++ [b]) ind';
  gr_meta : meta din' = meta din;
  gr_new : free_block s ≤ b < free_block s';
  gr_zero : sect s' b = zeroes;
  gr_frame : frame (own bs ind) s s';
  gr_bs k : k ∈ bs → sect s' k = sect s k;
  gr_own k : k ∈ own (bs ++ [b]) ind' → k ∈ own bs ind ∨ free_block s ≤ k;
  gr_count : free_block s' = free_block s + if (length bs =? 12)%nat then 2 else 1;
}.

Lemma own_range_mono n n' o : n ≤ n' → Forall (λ b, n_meta ≤ b < n) o → Forall (λ b, n_meta ≤ b < n') o.
Proof. intros H Ho. eapply Forall_impl; [exact Ho|]. intros b. simpl. lia. Qed.

Lemma grown_direct s din bs ind : img_ok s → mapped s din bs ind → (length bs < 12)%nat → free_block s < FSSIZE →
  let s' := set_free_block (free_block s + 1) s in
  grown s din bs ind s' (set_addr (length bs) (free_block s) din) (free_block s) ind.
Proof.
  intros Hi Hm Hl Hf s'. destruct (take_block_ok s Hi Hf) as [_ Hi']. pose proof (im_free _ Hi).
  destruct Hm as [M1 M2 M3 M4 M5 M6]. rewrite own_small in M5, M6 by lia.
  assert (Ho : own (bs ++ [free_block s]) ind = bs ++ [free_block s]) by (apply own_small; rewrite length_app; simpl; lia).
  split; try done.
  - split; cbn.
    + rewrite M1, insert_app_l by (by rewrite length_resize). by rewrite resize_snoc.
    + rewrite length_app; simpl; lia.
    + intros _. apply M3. lia.
    + rewrite length_app; simpl; lia.
    + rewrite Ho. apply Forall_app. split; [eapply own_range_mono; [|done]; lia|]. constructor; [lia|constructor].
    + rewrite Ho. apply NoDup_app. split_and!; [done| |apply NoDup_singleton]. intros k Hk ->%list_elem_of_singleton.
      apply (proj1 (Forall_forall _ _) M5) in Hk. lia.
  - cbn. lia.
  - cbn. apply Hi. lia.
  - split_and!; cbn; [lia|done..].
  - rewrite Ho, own_small by lia. intros k [?| ->%list_elem_of_singleton]%elem_of_app; [by left|right; lia].
  - cbn. by rewrite (proj2 (Nat.eqb_neq (length bs) 12)) by lia.
Qed.

(** A new entry in the indirect block [i]. *)
Lemma indirect_new s din bs i : img_ok s → addr din 12 = i → (12 ≤ length bs < 140)%nat → free_block s < FSSIZE →
  i < free_block s → sect s i = words (resize 128 0 (drop 12 bs)) → Forall is_u32 (resize 128 0 (drop 12 bs)) →
  (let* indirect := read_sector (addr din 12) in
   let entry_off := ((length bs - 12) * 4)%nat in
   let blk := rd_u32 entry_off indirect in
   if blk =? 0 then
     let* blk := take_block in
     write_sector (addr din 12) (wr_u32 entry_off blk indirect) ;;;
     ret (din, blk)
   else ret (din, blk)) s =
  Ok ((din, free_block s), set_sect i (words (resize 128 0 (drop 12 (bs ++ [free_block s]))))
        (set_free_block (free_block s + 1) s)).
Proof.
  intros Hi Ha Hl Hf Hind Hs Hw. rewrite Ha. destruct (take_block_ok s Hi Hf) as [Et Hi'].
  rewrite (bind_ok _ _ _ _ _ (read_sector_ok s i Hi ltac:(lia))). rewrite Hs. cbv zeta.
  rewrite rd_words by (done || (rewrite length_resize; lia)). rewrite nth_resize_out by (rewrite length_drop; lia).
  cbn [Z.eqb]. rewrite (bind_ok _ _ _ _ _ Et). rewrite wr_words by (rewrite length_resize; lia).
  replace (length bs - 12)%nat with (length (drop 12 bs)) by (by rewrite length_drop).
  rewrite resize_snoc by (rewrite length_drop; lia). rewrite <- drop_app_le by lia.
  erewrite bind_ok; [|apply write_sector_ok; by rewrite length_words', length_resize]. done.
Qed.

Lemma length_ind_words l : length (words (resize 128 0 l)) = 512%nat.
Proof. by rewrite length_words', length_resize. Qed.

Lemma resize_12_full (bs l : list Z) : (12 ≤ length bs)%nat → resize 12 0 (bs ++ l) = resize 12 0 bs.
Proof. intros H. by rewrite resize_app_le. Qed.

Lemma grown_next s din bs ind : img_ok s → mapped s din bs ind → (12 < length bs < 140)%nat → free_block s < FSSIZE →
  grown s din bs ind (set_sect ind (words (resize 128 0 (drop 12 (bs ++ [free_block s])))) (set_free_block (free_block s + 1) s))
        din (free_block s) ind.
Proof.
  intros Hi Hm Hl Hf. destruct (take_block_ok s Hi Hf) as [_ Hi']. pose proof (im_free _ Hi).
  destruct (mapped_ind _ _ _ _ Hm ltac:(lia)) as [Hind Hni]. destruct Hm as [M1 M2 M3 M4 M5 M6].
  assert (Ho : own (bs ++ [free_block s]) ind = bs ++ [free_block s] ++ [ind])
    by (rewrite own_big, <- app_assoc by (rewrite length_app; simpl; lia); done).
  rewrite own_big in M5, M6 by lia. apply Forall_app in M5 as [M5 M5']. apply NoDup_app in M6 as (M6 & M6' & _).
  assert (Hnf : free_block s ∉ bs) by (intros Hk; apply (proj1 (Forall_forall _ _) M5) in Hk; lia).
  split; try done.
  - apply set_sect_ok; [done|cbn; lia|apply length_ind_words].
  - split; cbn [free_block sect set_sect set_free_block].
    + by rewrite resize_12_full by lia.
    + rewrite length_app; simpl; lia.
    + rewrite length_app; simpl; lia.
    + intros _. by rewrite fn_lookup_insert.
    + rewrite Ho. apply Forall_app. split; [eapply own_range_mono; [|done]; lia|]. repeat constructor; lia.
    + rewrite Ho. apply NoDup_app. split_and!; [done|set_solver|]. apply NoDup_cons. split; [|apply NoDup_singleton].
      intros ?%list_elem_of_singleton. lia.
  - cbn. lia.
  - cbn. rewrite fn_lookup_insert_ne by lia. apply Hi. lia.
  - split_and!; cbn; [lia|done|]. intros k Hk Hn. rewrite fn_lookup_insert_ne; [done|]. intros ->. apply Hn.
    rewrite own_big by lia. set_solver.
  - cbn. intros k Hk. rewrite fn_lookup_insert_ne; [done|]. by intros ->.
  - rewrite Ho, own_big by lia. intros k Hk. destruct (decide (k = free_block s)) as [->|]; [right; lia|left; set_solver].
  - cbn. by rewrite (proj2 (Nat.eqb_neq (length bs) 12)) by lia.
Qed.

Lemma grown_first s din bs ind : img_ok s → mapped s din bs ind → length bs = 12%nat → free_block s + 2 ≤ FSSIZE →
  let fb := free_block s in
  grown s din bs ind (set_sect fb (words (resize 128 0 (drop 12 (bs ++ [fb + 1])))) (set_free_block (fb + 1 + 1) s))
        (set_addr 12 fb din) (fb + 1) fb.
Proof.
  intros Hi Hm Hl Hf fb. subst fb. destruct (take_block_ok s Hi ltac:(lia)) as [_ Hi']. pose proof (im_free _ Hi).
  destruct (take_block_ok _ Hi' ltac:(cbn; lia)) as [_ Hi'']. cbn in Hi''. destruct Hm as [M1 M2 M3 M4 M5 M6].
  assert (Ho : own (bs ++ [free_block s + 1]) (free_block s) = bs ++ [free_block s + 1] ++ [free_block s])
    by (rewrite own_big, <- app_assoc by (rewrite length_app; simpl; lia); done).
  rewrite own_small in M5, M6 by lia.
  assert (Hnf : ∀ k, k ∈ bs → k < free_block s) by (intros k Hk; apply (proj1 (Forall_forall _ _) M5) in Hk; lia).
  split; try done.
  - apply set_sect_ok; [done|cbn; lia|apply length_ind_words].
  - split; cbn [free_block sect set_sect set_free_block di_addrs set_addr].
    + rewrite M1, resize_12_full by lia. rewrite insert_app_r_alt by (by rewrite length_resize). by rewrite length_resize.
    + rewrite length_app; simpl; lia.
    + rewrite length_app; simpl; lia.
    + intros _. by rewrite fn_lookup_insert.
    + rewrite Ho. apply Forall_app. split; [eapply own_range_mono; [|done]; lia|]. repeat constructor; lia.
    + rewrite Ho. apply NoDup_app. split_and!; [done| |].
      * intros k Hk%Hnf [->| ->%list_elem_of_singleton]%elem_of_cons; lia.
      * apply NoDup_cons. split; [|apply NoDup_singleton]. intros ?%list_elem_of_singleton. lia.
  - cbn. lia.
  - cbn. rewrite fn_lookup_insert_ne by lia. apply Hi. lia.
  - split_and!; cbn; [lia|done|]. intros k Hk Hn. by rewrite fn_lookup_insert_ne by lia.
  - cbn. intros k Hk%Hnf. by rewrite fn_lookup_insert_ne by lia.
  - rewrite Ho, own_small by lia. intros k [?|[->| ->%list_elem_of_singleton]%elem_of_cons]%elem_of_app; [by left|right; lia..].
  - cbn. rewrite Hl. cbn. lia.
Qed.

Lemma target_block_new s din bs ind : img_ok s → mapped s din bs ind → (length bs < 140)%nat →
  free_block s + (if (length bs =? 12)%nat then 2 else 1) ≤ FSSIZE →
  wp (target_block din (length bs)) s (λ '(din', b) s', ∃ ind', grown s din bs ind s' din' b ind').
Proof.
  intros Hi Hm Hl Hf. unfold target_block, NDIRECT. destruct (Z.ltb_spec (Z.of_nat (length bs)) 12).
  - rewrite (addr_direct _ _ _ _ _ Hm), nth_resize_out by lia. cbn [Z.eqb]. rewrite (proj2 (Nat.eqb_neq (length bs) 12)) in Hf by lia.
    do 2 wp_step. eapply wp_eq; [apply take_block_ok; [done|lia]|]. do 2 wp_step. exists ind.
    assert (Ea : addr (set_addr (length bs) (free_block s) din) (length bs) = free_block s).
    { unfold addr. cbn. apply nth_lookup_Some, list_lookup_insert_eq. rewrite (mp_addrs _ _ _ _ Hm), length_app, length_resize. lia. }
    rewrite Ea. apply grown_direct; (done || lia).
  - rewrite (addr_indirect _ _ _ _ Hm). destruct (decide (length bs = 12%nat)) as [E|E].
    + assert (ind = 0) as -> by (apply (mp_ind0 _ _ _ _ Hm); lia). cbn [Z.eqb]. rewrite E in Hf at 1. cbn [Nat.eqb] in Hf.
      do 2 wp_step. destruct (take_block_ok s Hi ltac:(lia)) as [Et Hi1]. eapply wp_eq; [exact Et|]. wp_step.
      eapply wp_eq; [apply (indirect_new _ _ bs (free_block s)); try done; try (cbn; lia)|].
      * unfold addr. cbn. apply nth_lookup_Some, list_lookup_insert_eq. rewrite (mp_addrs _ _ _ _ Hm), length_app, length_resize. simpl. lia.
      * cbn. rewrite drop_ge by lia. by rewrite (im_zero _ Hi) by lia.
      * exact (word_range _ _ _ _ Hi Hm).
      * exists (free_block s). exact (grown_first s din bs 0 Hi Hm E Hf).
    + rewrite (proj2 (Nat.eqb_neq (length bs) 12)) in Hf by done. destruct (mapped_ind _ _ _ _ Hm ltac:(lia)) as [Hind _].
      rewrite (proj2 (Z.eqb_neq ind 0)) by mlia. do 2 wp_step.
      eapply wp_eq; [apply (indirect_new _ _ bs ind); try done; try lia|].
      * by eapply addr_indirect.
      * apply (mp_ind _ _ _ _ Hm). lia.
      * exact (word_range _ _ _ _ Hi Hm).
      * exists ind. apply grown_next; (done || lia).
Qed.

(** ** Appending to a file *)

Lemma length_blocks s bs : img_ok s → length (concat (sect s <$> bs)) = (512 * length bs)%nat.
Proof.
  intros Hi. induction bs as [|b bs IH]; [done|]. rewrite fmap_cons. cbn [concat]. rewrite length_app, IH, (im_len _ Hi). simpl. lia.
Qed.
Lemma blocks_ext s s' (bs : list Z) : (∀ k, k ∈ bs → sect s' k = sect s k) → sect s' <$> bs = sect s <$> bs.
Proof. intros H. apply list_fmap_ext. intros i k E. apply H. by eapply list_elem_of_lookup_2. Qed.

Lemma nb_between n k : (512 * k < n ≤ 512 * k + 512)%nat → nb n = S k.
Proof. intros H. unfold nb. symmetry. apply (Nat.div_unique _ _ _ (n + 511 - 512 * S k)); lia. Qed.
Lemma nb_full k : nb (512 * k) = k.
Proof. unfold nb. symmetry. apply (Nat.div_unique _ _ _ 511); lia. Qed.
Lemma nb_mono a b : (a ≤ b)%nat → (nb a ≤ nb b)%nat.
Proof. intros H. unfold nb. apply Nat.Div0.div_le_mono. lia. Qed.
Lemma cost_mono a b : (a ≤ b)%nat → (cost a ≤ cost b)%nat.
Proof.
  intros H%nb_mono. unfold cost. destruct (Nat.ltb_spec 12 (nb a)), (Nat.ltb_spec 12 (nb b)); lia.
Qed.

(** Data written into the last block of a file. *)
Lemma write_block s din bs b ind c d r : img_ok s → mapped s din (bs ++ [b]) ind →
  concat (sect s <$> bs) ++ take r (sect s b) = c → (0 < length d)%nat → (r + length d ≤ 512)%nat →
  let s' := set_sect b (splice r d (sect s b)) s in
  img_ok s' ∧ holds s' din (bs ++ [b]) ind (c ++ d) ∧ frame [b] s s'.
Proof.
  intros Hi Hm Hc Hd Hr s'. pose proof (im_len _ Hi b) as Hlb.
  assert (Hlc : length c = (512 * length bs + r)%nat) by (rewrite <- Hc, length_app, length_blocks, length_take by done; lia).
  pose proof (mapped_bs _ _ _ _ b Hm ltac:(set_solver)) as Hb.
  assert (Hnb : b ∉ bs).
  { pose proof (mp_nodup _ _ _ _ Hm) as Hn. unfold own in Hn. apply NoDup_app in Hn as (Hn & _ & _).
    apply NoDup_app in Hn as (_ & Hn & _). intros H. by apply (Hn b H), list_elem_of_singleton. }
  assert (Hls : length (splice r d (sect s b)) = 512%nat) by (rewrite length_splice; lia).
  split_and!; [apply set_sect_ok; [done|lia|done]| |].
  - split_and!.
    + destruct Hm as [M1 M2 M3 M4 M5 M6]. split; try done. intros Hl. cbn. rewrite fn_lookup_insert_ne; [by apply M4|].
      intros ->. destruct (mapped_ind s din (bs ++ [ind]) ind) as [_ H]; [by split|done|]. set_solver.
    + rewrite !length_app, Hlc. simpl. rewrite (nb_between _ (length bs)) by lia. lia.
    + rewrite fmap_app, concat_app. rewrite (blocks_ext s s') by (intros k Hk; apply fn_lookup_insert_ne; by intros ->).
      cbn [fmap list_fmap concat]. rewrite app_nil_r. cbn. rewrite fn_lookup_insert.
      rewrite length_app, Hlc, take_app_ge by (rewrite length_blocks by done; lia). rewrite length_blocks by done.
      replace (512 * length bs + r + length d - 512 * length bs)%nat with (r + length d)%nat by lia.
      unfold splice. rewrite app_assoc, take_app_length' by (rewrite length_app, length_take; lia). by rewrite app_assoc, Hc.
  - split_and!; cbn; [lia|done|]. intros k _ Hk. rewrite fn_lookup_insert_ne; [done|]. intros ->. set_solver.
Qed.

(** What one round of the loop, and the loop, do to the file. *)
Record advanced (s : mkfs) (din : Dinode) (bs : list Z) (ind : Z) (c d : list Z) (s' : mkfs) (din' : Dinode) (bs' : list Z) (ind' : Z) : Prop := {
  ad_img : img_ok s';
  ad_holds : holds s' din' bs' ind' (c ++ d);
  ad_meta : meta din' = meta din;
  ad_frame : frame (own bs ind) s s';
  ad_own k : k ∈ own bs' ind' → k ∈ own bs ind ∨ free_block s ≤ k;
  ad_count : free_block s' = free_block s + Z.of_nat (cost (length c + length d)) - Z.of_nat (cost (length c));
}.

Lemma advanced_refl s din bs ind c : img_ok s → holds s din bs ind c → advanced s din bs ind c [] s din bs ind.
Proof. intros Hi Hh. split; try done; [by rewrite app_nil_r|by left|rewrite Nat.add_0_r; lia]. Qed.
Lemma advanced_trans s1 d1 b1 i1 c x s2 d2 b2 i2 y s3 d3 b3 i3 :
  advanced s1 d1 b1 i1 c x s2 d2 b2 i2 → advanced s2 d2 b2 i2 (c ++ x) y s3 d3 b3 i3 →
  advanced s1 d1 b1 i1 c (x ++ y) s3 d3 b3 i3.
Proof.
  intros [A1 A2 A3 A4 A5 A6] [B1 B2 B3 B4 B5 B6]. split; try done.
  - by rewrite app_assoc.
  - congruence.
  - by eapply frame_trans.
  - intros k [Hk|Hk]%B5; [by apply A5|]. right. destruct A4. lia.
  - rewrite B6, A6, !length_app. rewrite Nat.add_assoc. lia.
Qed.

(** A block of the file that is full, or none: the next one is new. *)
Lemma step_new s din bs ind c d s1 din1 b ind1 : img_ok s → holds s din bs ind c → grown s din bs ind s1 din1 b ind1 →
  length c = (512 * length bs)%nat → (0 < length d ≤ 512)%nat →
  advanced s din bs ind c d (set_sect b (splice 0 d (sect s1 b)) s1) din1 (bs ++ [b]) ind1.
Proof.
  intros Hi (Hm & Hl & Hc) [G1 G2 G3 G4 G5 G6 G7 G8 G9] Hf Hd.
  destruct (write_block s1 din1 bs b ind1 c d 0) as (W1 & W2 & W3); [done|done| |lia|lia|].
  { cbn [take]. rewrite app_nil_r, (blocks_ext s s1) by done. etrans; [|exact Hc]. symmetry. apply take_ge. rewrite length_blocks by done. lia. }
  split; try done.
  - eapply frame_trans; [done|done|]. intros k ->%list_elem_of_singleton. right. lia.
  - cbn [free_block set_sect]. rewrite G9. unfold cost. rewrite Hf, nb_full, (nb_between _ (length bs)) by lia.
    destruct (Nat.eqb_spec (length bs) 12), (Nat.ltb_spec 12 (length bs)), (Nat.ltb_spec 12 (S (length bs))); lia.
Qed.

(** The last block of the file has room. *)
Lemma step_old s din bs b ind c d r : img_ok s → holds s din (bs ++ [b]) ind c →
  length c = (512 * length bs + r)%nat → (0 < r)%nat → (0 < length d)%nat → (r + length d ≤ 512)%nat →
  advanced s din (bs ++ [b]) ind c d (set_sect b (splice r d (sect s b)) s) din (bs ++ [b]) ind.
Proof.
  intros Hi (Hm & Hl & Hc) Hlc Hr Hd Hrd. destruct (write_block s din bs b ind c d r) as (W1 & W2 & W3); [done..| |done|done|].
  { etrans; [|exact Hc]. rewrite fmap_app, concat_app. cbn [fmap list_fmap concat]. rewrite app_nil_r, Hlc.
    rewrite take_app_ge by (rewrite length_blocks by done; lia). rewrite length_blocks by done. do 2 f_equal. lia. }
  split; try done.
  - destruct W3 as (F1 & F2 & F3). split_and!; [done..|]. intros k Hk Hn. apply F3; [done|]. unfold own in Hn. set_solver.
  - by left.
  - cbn [free_block set_sect]. unfold cost. rewrite (nb_between (length c + length d) (length bs)), (nb_between (length c) (length bs)) by lia. lia.
Qed.

Lemma iappend_loop_spec fuel data din p s bs ind c : img_ok s → holds s din bs ind c →
  (p ≤ length data)%nat → (length data - p < fuel)%nat → (length c + (length data - p) ≤ 140 * 512)%nat →
  free_block s + Z.of_nat (cost (length c + (length data - p))) - Z.of_nat (cost (length c)) ≤ FSSIZE →
  wp (iappend_loop fuel data din (length c) p) s (λ '(din', off) s', ∃ bs' ind',
    advanced s din bs ind c (drop p data) s' din' bs' ind' ∧ off = (length c + (length data - p))%nat).
Proof.
  revert din p s bs ind c. induction fuel as [|fuel IH]; intros din p s bs ind c Hi Hh Hp Hfu Hmax Hcap; [lia|].
  cbn [iappend_loop]. destruct (Nat.ltb_spec p (length data)).
  2: { wp_step. exists bs, ind. rewrite drop_ge by lia. split; [by apply advanced_refl|lia]. }
  pose proof (Nat.div_mod (length c) 512 ltac:(lia)) as Hdm. pose proof (Nat.mod_upper_bound (length c) 512 ltac:(lia)) as Hmb.
  set (fbn := (length c / 512)%nat) in *. set (r := (length c mod 512)%nat) in *. cbv zeta.
  assert (Hfb : (fbn < 140)%nat) by lia. rewrite (proj2 (Z.leb_gt MAXFILE (Z.of_nat fbn))) by (change MAXFILE with 140; lia).
  set (n1 := Nat.min (length data - p) ((fbn + 1) * 512 - length c)). set (d := slice p n1 data).
  assert (Hd : length d = n1) by (apply length_slice; lia).
  assert (Hsplit : drop p data = d ++ drop (p + n1) data) by (unfold d, slice; rewrite <- drop_drop; by rewrite take_drop).
  assert (Hr : (length c - fbn * 512)%nat = r) by lia. rewrite Hr.
  assert (Hcost : (cost (length c + n1) ≤ cost (length c + (length data - p)))%nat) by (apply cost_mono; lia).
  (* the rest of the loop after one round *)
  assert (Hnext : ∀ s2 din2 bs2 ind2, advanced s din bs ind c d s2 din2 bs2 ind2 →
    wp (iappend_loop fuel data din2 (length c + n1) (p + n1)) s2 (λ '(din', off) s', ∃ bs' ind',
      advanced s din bs ind c (drop p data) s' din' bs' ind' ∧ off = (length c + (length data - p))%nat)).
  { intros s2 din2 bs2 ind2 Ha. pose proof Ha as [A1 A2 _ _ _ A6]. rewrite Hd in A6.
    replace (length c + n1)%nat with (length (c ++ d)) by (rewrite length_app; lia).
    eapply wp_mono; [apply (IH din2 (p + n1)%nat s2 bs2 ind2 (c ++ d)); [done|done|lia|lia|rewrite length_app; lia|]|].
    - rewrite length_app, Hd. replace (length c + n1 + (length data - (p + n1)))%nat with (length c + (length data - p))%nat by lia. lia.
    - intros [din3 off] s3 (bs3 & ind3 & Ha3 & ->). exists bs3, ind3. rewrite Hsplit. split; [by eapply advanced_trans|].
      rewrite length_app. lia. }
  destruct Hh as (Hm & Hl & Hc). wp_step. destruct (decide (r = 0%nat)) as [Hr0|Hr0].
  - assert (length bs = fbn) as Hlb by (rewrite Hl, <- (nb_full fbn); f_equal; lia). rewrite <- Hlb.
    eapply wp_mono; [eapply target_block_new; [done|done|lia|]|].
    { unfold cost in Hcap, Hcost. rewrite <- Hl, (nb_between (length c + n1) fbn) in * by lia.
      destruct (Nat.eqb_spec (length bs) 12), (Nat.ltb_spec 12 (length bs)), (Nat.ltb_spec 12 (S fbn)), (Nat.ltb_spec 12 (nb (length c + (length data - p)))); lia. }
    intros [din1 b] s1 (ind1 & Hg). pose proof (im_free _ (gr_img _ _ _ _ _ _ _ _ Hg)) as Hfs. pose proof (gr_new _ _ _ _ _ _ _ _ Hg).
    wp_step. eapply wp_eq; [apply read_sector_ok; [apply Hg|lia]|]. wp_step.
    eapply wp_eq; [apply write_sector_ok; rewrite length_splice; rewrite ?(im_len _ (gr_img _ _ _ _ _ _ _ _ Hg)); lia|].
    eapply Hnext. rewrite Hr0. eapply step_new; [done|by split_and!|done|lia|lia].
  - assert (length bs = S fbn) as Hlb by (rewrite Hl; apply nb_between; lia).
    destruct (exists_last (l := bs)) as (bs0 & b & ->); [by destruct bs|]. rewrite length_app in Hlb. simpl in Hlb.
    assert (fbn = length bs0) as Hf0 by lia. rewrite Hf0 at 1.
    eapply wp_eq; [eapply target_block_old; [done|done|by rewrite lookup_app_r, Nat.sub_diag]|]. cbv beta iota.
    pose proof (mapped_bs _ _ _ _ b Hm ltac:(apply elem_of_app; right; constructor)). pose proof (im_free _ Hi).
    wp_step. eapply wp_eq; [apply read_sector_ok; [done|lia]|]. wp_step.
    eapply wp_eq; [apply write_sector_ok; rewrite length_splice; rewrite ?(im_len _ Hi); lia|].
    eapply Hnext. apply step_old; [done|by split_and!|lia|lia|lia|lia].
Qed.

(** ** Inodes *)

Definition inode (s : mkfs) (inum : Z) : Dinode := get_dinode (Z.to_nat (inum mod IPB)) (sect s (inum / IPB + (2 + LOGSIZE))).

Lemma read_inode_ok s inum : img_ok s → 0 ≤ inum < 208 → read_inode inum s = Ok (inode s inum, s).
Proof.
  intros Hi Hn. unfold read_inode, iblock. rewrite (bind_ok _ _ s (inum / IPB + (2 + LOGSIZE)) s).
  2: { unfold bind, get, ret. by rewrite (im_sb _ Hi). }
  erewrite bind_ok; [done|]. apply read_sector_ok; [done|].
  change IPB with 8; change LOGSIZE with 30; change FSSIZE with 2000; Z.to_euclidean_division_equations; lia.
Qed.

(** Writing an inode changes that inode and nothing else. *)
Record inode_set (s : mkfs) (inum : Z) (di : Dinode) (s' : mkfs) : Prop := {
  is_img : img_ok s';
  is_this : inode s' inum = di;
  is_other j : j ≠ inum → 0 ≤ j < 208 → inode s' j = inode s j;
  is_sect k : ¬ (32 ≤ k < 58) → sect s' k = sect s k;
  is_fb : free_block s' = free_block s;
  is_fi : free_inode s' = free_inode s;
}.
Lemma ipb_slot j : (Z.to_nat (j mod IPB) < Z.to_nat IPB)%nat.
Proof. change IPB with 8. pose proof (Z.mod_pos_bound j 8). lia. Qed.
Lemma write_inode_ok s inum di : img_ok s → dinode_ok di → 0 ≤ inum < 208 →
  wp (write_inode inum di) s (λ _ s', inode_set s inum di s').
Proof.
  intros Hi Hd Hn. unfold write_inode, iblock.
  assert (Hb : ∀ s0, sb s0 = mkfs_sb → (let* s := get in ret (inum / IPB + sb_inodestart (sb s))) s0 = Ok (inum / IPB + (2 + LOGSIZE), s0))
    by (intros s0 E; unfold bind, get, ret; by rewrite E).
  assert (Hk : 32 ≤ inum / IPB + (2 + LOGSIZE) < 58) by (change IPB with 8; change LOGSIZE with 30; Z.to_euclidean_division_equations; lia).
  wp_step. eapply wp_eq; [apply Hb, Hi|]. wp_step. eapply wp_eq; [apply read_sector_ok; [done|mlia]|].
  wp_step. eapply wp_eq; [apply Hb, Hi|]. pose proof (im_free _ Hi).
  set (blk := inum / IPB + (2 + LOGSIZE)) in *.
  assert (Hslot : ∀ j, (j < Z.to_nat IPB)%nat → length (put_dinode (Z.to_nat (inum mod IPB)) di (sect s blk)) = 512%nat ∧
    get_dinode j (put_dinode (Z.to_nat (inum mod IPB)) di (sect s blk)) =
      if decide (Z.to_nat (inum mod IPB) = j) then di else get_dinode j (sect s blk)).
  { intros j Hj. destruct (dinode_slots_independent di (sect s blk) (Z.to_nat (inum mod IPB)) j Hd) as [H1 H2]; [apply Hi|apply ipb_slot|done|].
    by rewrite H1, (im_len _ Hi). }
  eapply wp_eq; [apply write_sector_ok, (Hslot 0%nat); change (Z.to_nat IPB) with 8%nat; lia|]. cbv beta.
  split; try done.
  - apply set_sect_ok; [done|mlia|]. apply (Hslot 0%nat). change (Z.to_nat IPB) with 8%nat. lia.
  - unfold inode. cbn [sect set_sect]. fold blk. rewrite fn_lookup_insert.
    rewrite (proj2 (Hslot _ (ipb_slot inum))). by rewrite decide_True.
  - intros j Hne Hj. unfold inode. cbn [sect set_sect]. destruct (decide (blk = j / IPB + (2 + LOGSIZE))) as [E|E].
    + rewrite <- E, fn_lookup_insert. rewrite (proj2 (Hslot _ (ipb_slot j))).
      rewrite decide_False; [done|]. unfold blk in E. change IPB with 8 in *. intros E2.
      pose proof (Z.mod_pos_bound inum 8). pose proof (Z.mod_pos_bound j 8). apply Hne. Z.to_euclidean_division_equations; lia.
    + by rewrite fn_lookup_insert_ne.
  - intros k Hk'. cbn. rewrite fn_lookup_insert_ne; [done|]. intros <-. lia.
Qed.

Lemma mapped_addrs_ok s din bs ind : img_ok s → mapped s din bs ind →
  length (di_addrs din) = 13%nat ∧ Forall is_u32 (di_addrs din).
Proof.
  intros Hi Hm. pose proof (im_free _ Hi). rewrite (mp_addrs _ _ _ _ Hm). split; [by rewrite length_app, length_resize|].
  apply Forall_app. split.
  - apply Forall_resize; [mlia|]. apply Forall_forall. intros b Hb. pose proof (mapped_bs _ _ _ _ _ Hm Hb). mlia.
  - constructor; [|constructor]. destruct (decide (12 < length bs)%nat) as [Hl|Hl].
    + destruct (mapped_ind _ _ _ _ Hm Hl). mlia.
    + rewrite (mp_ind0 _ _ _ _ Hm) by lia. mlia.
Qed.

(** ** The image *)

Record file := mkFile {
  f_di : Dinode;
  f_bs : list Z;
  f_ind : Z;
  f_c : list Z;
}.
Definition f_own (f : file) : list Z := own (f_bs f) (f_ind f).
Record file_ok (s : mkfs) (inum : Z) (f : file) : Prop := {
  fo_inode : inode s inum = f_di f;
  fo_holds : holds s (f_di f) (f_bs f) (f_ind f) (f_c f);
  fo_size : di_size (f_di f) = Z.of_nat (length (f_c f));
  fo_link : di_major (f_di f) = 0 ∧ di_minor (f_di f) = 0 ∧ di_nlink (f_di f) = 1;
  fo_type : is_i16 (di_type (f_di f));
}.

(** The files [fs] have the inodes from 1 on, with disjoint blocks; the other
    inodes are free, and the boot block and the log are empty. *)
Record inv (s : mkfs) (fs : list file) : Prop := {
  in_img : img_ok s;
  in_count : free_inode s = Z.of_nat (length fs) + 1;
  in_room : Z.of_nat (length fs) < 208;
  in_file k f : fs !! k = Some f → file_ok s (Z.of_nat k + 1) f;
  in_disj j k f g b : j ≠ k → fs !! j = Some f → fs !! k = Some g → b ∈ f_own f → b ∈ f_own g → False;
  in_unused i : free_inode s ≤ i < 208 → inode s i = default_dinode;
  in_sb : sect s 1 = splice 0 (enc_sb mkfs_sb) zeroes;
  in_log k : 2 ≤ k < 32 → sect s k = zeroes;
}.

Lemma mapped_frame s s' din bs ind : mapped s din bs ind → free_block s ≤ free_block s' →
  (∀ k, k ∈ own bs ind → sect s' k = sect s k) → mapped s' din bs ind.
Proof.
  intros [M1 M2 M3 M4 M5 M6] Hf Hs. split; try done.
  - intros Hl. rewrite Hs; [by apply M4|]. rewrite own_big by done. set_solver.
  - by eapply own_range_mono.
Qed.
Lemma file_ok_frame s s' inum f : file_ok s inum f → free_block s ≤ free_block s' → inode s' inum = inode s inum →
  (∀ k, k ∈ f_own f → sect s' k = sect s k) → file_ok s' inum f.
Proof.
  intros [F1 (Hm & Hl & Hc) F3 F4 F5] Hf Hi Hs. split; try done; [congruence|]. split_and!; [by eapply mapped_frame|done|].
  rewrite (blocks_ext s s'); [done|]. intros k Hk. apply Hs. unfold f_own, own. set_solver.
Qed.
Lemma file_own_range s inum f b : file_ok s inum f → b ∈ f_own f → n_meta ≤ b < free_block s.
Proof. intros [_ (Hm & _ & _) _ _ _] Hb. by apply (proj1 (Forall_forall _ _) (mp_own _ _ _ _ Hm)). Qed.

(** An operation on the blocks of file [k], followed by its inode. *)
Lemma inv_update s s1 s2 fs k f f' : inv s fs → fs !! k = Some f → img_ok s1 → frame (f_own f) s s1 →
  (∀ b, b ∈ f_own f' → b ∈ f_own f ∨ free_block s ≤ b) →
  inode_set s1 (Z.of_nat k + 1) (f_di f') s2 → Z.of_nat k + 1 < 208 →
  file_ok s2 (Z.of_nat k + 1) f' → inv s2 (<[k := f']> fs).
Proof.
  intros [I1 I2 I0 I3 I4 I5 I6 I7] Ek Hi1 (Fr1 & Fr2 & Fr3) Hown [S1 S2 S3 S4 S5 S6] Hk Hf'.
  pose proof (im_free _ I1) as Hfree.
  assert (Hlow : ∀ b, b < n_meta → ¬ (32 ≤ b < 58) → sect s2 b = sect s b).
  { intros b Hb Hn. rewrite S4 by done. apply Fr3; [lia|]. intros Ho. apply (file_own_range s _ f b (I3 _ _ Ek)) in Ho. lia. }
  assert (Hino : ∀ j, j ≠ Z.of_nat k + 1 → 0 ≤ j < 208 → inode s2 j = inode s j).
  { intros j Hj Hr. rewrite S3 by done. unfold inode. rewrite Fr3; [done|change IPB with 8; change LOGSIZE with 30; Z.to_euclidean_division_equations; mlia|].
    intros Ho. apply (file_own_range s _ f _ (I3 _ _ Ek)) in Ho. revert Ho. change IPB with 8. change LOGSIZE with 30.
    Z.to_euclidean_division_equations; mlia. }
  assert (Hlt : (k < length fs)%nat) by (by eapply lookup_lt_Some).
  split; try done.
  - rewrite S6, Fr2, length_insert. done.
  - by rewrite length_insert.
  - intros j g Hg. apply list_lookup_insert_Some in Hg as [(-> & <- & _)|[Hne Hg]]; [done|].
    assert (Hjl : (j < length fs)%nat) by (by eapply lookup_lt_Some).
    apply (file_ok_frame s); [by apply I3|lia|apply Hino; lia|]. intros b Hb.
    pose proof (file_own_range s _ g b (I3 _ _ Hg) Hb). rewrite S4 by mlia. apply Fr3; [lia|]. intros Ho. by apply (I4 k j f g b).
  - intros i j g h b Hne Hg Hh Hb1 Hb2. apply list_lookup_insert_Some in Hg as [(-> & <- & _)|[Hne1 Hg]];
      apply list_lookup_insert_Some in Hh as [(-> & <- & _)|[Hne2 Hh]]; [done| | |by apply (I4 i j g h b)].
    + apply Hown in Hb1 as [Hb1|Hb1]; [by apply (I4 i j f h b)|]. pose proof (file_own_range s _ h b (I3 _ _ Hh) Hb2). lia.
    + apply Hown in Hb2 as [Hb2|Hb2]; [by apply (I4 i j g f b)|]. pose proof (file_own_range s _ g b (I3 _ _ Hg) Hb1). lia.
  - intros i Hr. rewrite Hino; [apply I5; lia|lia|lia].
  - rewrite Hlow; [done|mlia|lia].
  - intros b Hb. rewrite Hlow; [by apply I7|mlia|lia].
Qed.

Lemma meta_set_size din din' v : meta din' = meta din →
  di_type (set_size v din') = di_type din ∧ di_major (set_size v din') = di_major din ∧
  di_minor (set_size v din') = di_minor din ∧ di_nlink (set_size v din') = di_nlink din.
Proof. unfold meta. intros [= H1 H2 H3 H4 _]. done. Qed.

Lemma iappend_spec s fs k f data : inv s fs → fs !! k = Some f →
  Z.of_nat (length (f_c f) + length data) ≤ MAXFILE * BSIZE →
  free_block s + Z.of_nat (cost (length (f_c f) + length data)) - Z.of_nat (cost (length (f_c f))) ≤ FSSIZE →
  wp (iappend (Z.of_nat k + 1) data) s (λ _ s', ∃ f', inv s' (<[k := f']> fs) ∧ f_c f' = f_c f ++ data ∧
    di_type (f_di f') = di_type (f_di f) ∧
    free_block s' = free_block s + Z.of_nat (cost (length (f_c f) + length data)) - Z.of_nat (cost (length (f_c f)))).
Proof.
  intros Hinv Ek Hmax Hcap. pose proof (in_img _ _ Hinv) as Hi. pose proof (in_file _ _ Hinv _ _ Ek) as [F1 F2 F3 F4 F5].
  assert (Hk : 0 ≤ Z.of_nat k + 1 < 208 ∧ Z.of_nat k + 1 < 209).
  { pose proof (in_room _ _ Hinv). apply lookup_lt_Some in Ek. lia. }
  change (MAXFILE * BSIZE) with 71680 in Hmax.
  unfold iappend. wp_step. eapply wp_eq; [apply read_inode_ok; [done|lia]|]. rewrite F1, F3, Nat2Z.id. wp_step.
  eapply wp_mono; [apply (iappend_loop_spec _ data _ 0 s _ _ _ Hi F2); [lia|lia|lia|by rewrite Nat.sub_0_r]|].
  intros [din off] s1 (bs & ind & [A1 A2 A3 A4 A5 A6] & ->). rewrite Nat.sub_0_r in *. rewrite drop_0 in *.
  set (din' := set_size (as_u32 (Z.of_nat (length (f_c f) + length data))) din).
  assert (Hsz : as_u32 (Z.of_nat (length (f_c f) + length data)) = Z.of_nat (length (f_c f) + length data))
    by (apply Z.mod_small; unfold u32_max; lia).
  destruct (meta_set_size _ _ (as_u32 (Z.of_nat (length (f_c f) + length data))) A3) as (T1 & T2 & T3 & T4).
  destruct F4 as (L1 & L2 & L3). pose proof A2 as (Hm & Hl & Hc). destruct (mapped_addrs_ok _ _ _ _ A1 Hm) as [Had1 Had2].
  assert (Hdo : dinode_ok din').
  { split; fold din' in T1, T2, T3, T4; rewrite ?T1, ?T2, ?T3, ?T4, ?L1, ?L2, ?L3; try done; cbn.
    rewrite Hsz. unfold is_u32, u32_max. lia. }
  eapply wp_mono; [apply write_inode_ok; [done|done|lia]|]. intros ? s2 Hset.
  exists (mkFile din' bs ind (f_c f ++ data)). split_and!; [|done|exact T1|].
  - eapply inv_update; [done|done|exact A1|done|done|exact Hset|lia|]. pose proof (im_free _ A1).
    split; cbn.
    + apply Hset.
    + split_and!; [|done|].
      * destruct Hm as [M1 M2 M3 M4 M5 M6]. split; try done.
        { intros Hb. rewrite (is_sect _ _ _ _ Hset); [by apply M4|]. rewrite own_big in M5 by done.
          apply Forall_app in M5 as [_ [M5 _]%Forall_cons]. mlia. }
        by rewrite (is_fb _ _ _ _ Hset).
      * rewrite (blocks_ext s1); [done|]. intros b Hb. apply (is_sect _ _ _ _ Hset). pose proof (mapped_bs _ _ _ _ b Hm Hb). mlia.
    + by rewrite Hsz, length_app.
    + by rewrite L1, L2, L3 in *.
    + by rewrite <- T1 in F5.
  - rewrite (is_fb _ _ _ _ Hset), A6. done.
Qed.

Definition new_file (itype : Z) : file := mkFile (mkDinode itype 0 0 1 0 (replicate 13 0)) [] 0 [].

Lemma ialloc_spec s fs itype : inv s fs → Z.of_nat (length fs) < 207 → is_i16 itype →
  wp (ialloc itype) s (λ i s', i = Z.of_nat (length fs) + 1 ∧ inv s' (fs ++ [new_file itype]) ∧ free_block s' = free_block s).
Proof.
  intros [I1 I2 I0 I3 I4 I5 I6 I7] Hn Hty. unfold ialloc. do 5 wp_step. rewrite I2.
  assert (as_u32 (Z.of_nat (length fs) + 1 + 1) = Z.of_nat (length fs) + 2) as -> by (unfold as_u32, u32_max; rewrite Z.mod_small; lia).
  set (s1 := set_free_inode _ s).
  assert (Hi1 : img_ok s1) by (destruct I1; by split).
  assert (Hdo : dinode_ok (f_di (new_file itype))) by (split; [exact Hty|done..|apply Forall_replicate; mlia]).
  eapply wp_mono; [apply (write_inode_ok s1 _ (f_di (new_file itype))); [done|done|lia]|]. intros ? s2 [S1 S2 S3 S4 S5 S6].
  wp_step. pose proof (im_free _ I1). split_and!; [done| |done].
  assert (Hfr : ∀ b, n_meta ≤ b → sect s2 b = sect s b) by (intros b Hb; apply S4; mlia).
  split; try done.
  - rewrite S6, length_app. cbn. lia.
  - rewrite length_app. simpl. lia.
  - intros k f Hf. apply lookup_app_Some in Hf as [Hf|[Hl Hf]].
    + assert (k < length fs)%nat by (by eapply lookup_lt_Some). apply (file_ok_frame s); [by apply I3|rewrite S5; done|apply S3; lia|].
      intros b Hb. apply Hfr. by apply (file_own_range s _ f b (I3 _ _ Hf)).
    + apply list_lookup_singleton_Some in Hf as [Hk <-]. replace k with (length fs) by lia. split; try done.
      split_and!; [|done|done]. split; cbn [f_bs f_ind f_di new_file]; [reflexivity|simpl; lia|done|simpl; lia|constructor|constructor].
  - intros i j f g b Hne Hf Hg Hb1 Hb2. apply lookup_app_Some in Hf as [Hf|[Hl Hf]]; apply lookup_app_Some in Hg as [Hg|[Hl' Hg]].
    + by apply (I4 i j f g b).
    + apply list_lookup_singleton_Some in Hg as [_ <-]. by apply not_elem_of_nil in Hb2.
    + apply list_lookup_singleton_Some in Hf as [_ <-]. by apply not_elem_of_nil in Hb1.
    + apply list_lookup_singleton_Some in Hf as [? _]. apply list_lookup_singleton_Some in Hg as [? _]. lia.
  - intros i Hr. rewrite S6 in Hr. cbn in Hr. rewrite S3 by lia. apply I5. lia.
  - rewrite S4 by lia. done.
  - intros k Hk. rewrite S4; [by apply I7|]. lia.
Qed.

(** ** The program *)

(** The directory entries of the files, whose inodes start at [i]. *)
Fixpoint dirents (i : Z) (files : list (list Z * list Z)) : list Z :=
  match files with
  | [] => []
  | f :: files' => enc_dirent (mkDirent (as_u16 i) (set_name (display_name f.1))) ++ dirents (i + 1) files'
  end.
Definition file_costs (files : list (list Z * list Z)) : Z := foldr (λ f n, Z.of_nat (cost (length f.2)) + n) 0 files.

Lemma length_set_name n : length (set_name n) = 14%nat.
Proof. unfold set_name. rewrite length_app, length_replicate, length_take. lia. Qed.
Lemma length_dirent i n : length (enc_dirent (mkDirent i (set_name n))) = 16%nat.
Proof. unfold enc_dirent. cbn [de_inum de_name]. by rewrite length_app, length_le_bytes, length_set_name. Qed.
Lemma length_dirents i files : length (dirents i files) = (16 * length files)%nat.
Proof.
  revert i. induction files as [|f files IH]; intros i; [done|]. cbn [dirents]. rewrite length_app, length_dirent, IH. simpl. lia.
Qed.
Lemma file_costs_pos files : 0 ≤ file_costs files.
Proof. induction files as [|f files IH]; cbn [file_costs foldr]; [done|]. unfold file_costs in IH. lia. Qed.

Definition loaded (f : list Z * list Z) (g : file) : Prop := f_c g = f.2 ∧ di_type (f_di g) = T_FILE.

Lemma add_file_spec s root rest f : inv s (root :: rest) → Z.of_nat (length rest) < 206 →
  Z.of_nat (length (f_c root) + 16) ≤ MAXFILE * BSIZE → Z.of_nat (length f.2) ≤ MAXFILE * BSIZE →
  let n := free_block s + Z.of_nat (cost (length (f_c root) + 16)) - Z.of_nat (cost (length (f_c root))) + Z.of_nat (cost (length f.2)) in
  n ≤ FSSIZE →
  wp (add_file 1 f) s (λ _ s', ∃ root' g, inv s' (root' :: rest ++ [g]) ∧ loaded f g ∧ di_type (f_di root') = di_type (f_di root) ∧
    f_c root' = f_c root ++ dirents (Z.of_nat (length rest) + 2) [f] ∧ free_block s' = n).
Proof.
  intros Hinv Hl Hr Hf n Hn. unfold add_file. wp_step.
  eapply wp_mono; [apply (ialloc_spec s (root :: rest) T_FILE Hinv); [cbn [length]; lia|done]|].
  intros i s1 (-> & Hinv1 & Hfb1). cbn [length] in *. replace (Z.of_nat (S (length rest)) + 1) with (Z.of_nat (length rest) + 2) by lia.
  wp_step. pose proof (length_dirent (as_u16 (Z.of_nat (length rest) + 2)) (display_name f.1)) as Hld.
  eapply wp_mono; [apply (iappend_spec s1 _ 0 root _ Hinv1); [done|by rewrite Hld|rewrite Hld, Hfb1; subst n; lia]|].
  rewrite Hld. intros ? s2 (root' & Hinv2 & Hc2 & Ht2 & Hfb2). cbn [app insert list_insert] in Hinv2.
  replace (Z.of_nat (length rest) + 2) with (Z.of_nat (S (length rest)) + 1) at 1 by lia.
  assert (Hlk : (root' :: rest ++ [new_file T_FILE]) !! S (length rest) = Some (new_file T_FILE))
    by (change ((rest ++ [new_file T_FILE]) !! length rest = Some (new_file T_FILE)); by rewrite lookup_app_r, Nat.sub_diag by lia).
  eapply wp_mono; [apply (iappend_spec s2 _ _ _ f.2 Hinv2 Hlk); [done|cbn [f_c new_file length Nat.add]; subst n; change (cost 0) with 0%nat; lia]|].
  intros ? s3 (g & Hinv3 & Hc3 & Ht3 & Hfb3). exists root', g. split_and!; [|done|exact Ht2| |].
  - change (inv s3 (root' :: <[length rest := g]> (rest ++ [new_file T_FILE]))) in Hinv3.
    by rewrite insert_app_r_alt, Nat.sub_diag in Hinv3 by lia.
  - rewrite Hc2. cbn [dirents]. by rewrite app_nil_r.
  - rewrite Hfb3, Hfb2, Hfb1. cbn [f_c new_file length Nat.add]. change (cost 0) with 0%nat. subst n. lia.
Qed.

Lemma add_files_spec files : ∀ s root rest, inv s (root :: rest) → Z.of_nat (length rest + length files) < 207 →
  Z.of_nat (length (f_c root) + 16 * length files) ≤ MAXFILE * BSIZE →
  Forall (λ f, Z.of_nat (length f.2) ≤ MAXFILE * BSIZE) files →
  let n := free_block s + Z.of_nat (cost (length (f_c root) + 16 * length files)) - Z.of_nat (cost (length (f_c root))) + file_costs files in
  n ≤ FSSIZE →
  wp (forM files (add_file 1)) s (λ _ s', ∃ root' gs, inv s' (root' :: rest ++ gs) ∧ Forall2 loaded files gs ∧
    di_type (f_di root') = di_type (f_di root) ∧
    f_c root' = f_c root ++ dirents (Z.of_nat (length rest) + 2) files ∧ free_block s' = n).
Proof.
  induction files as [|f files IH]; intros s root rest Hinv Hl Hr Hf n Hn; cbn [forM].
  { wp_step. exists root, []. cbn [dirents]. rewrite !app_nil_r. split_and!; try done.
    subst n. cbn [length file_costs foldr]. rewrite Nat.mul_0_r, Nat.add_0_r. lia. }
  apply Forall_cons in Hf as [Hf Hfs]. cbn [length] in *.
  assert (Hcm : (cost (length (f_c root) + 16) ≤ cost (length (f_c root) + 16 * S (length files)))%nat) by (apply cost_mono; lia).
  pose proof (file_costs_pos files). subst n. cbn [file_costs foldr] in *. fold (file_costs files) in *.
  wp_step. eapply wp_mono; [apply (add_file_spec s root rest f Hinv); lia|].
  intros ? s1 (root1 & g & Hinv1 & Hg & Ht1 & Hc1 & Hfb1). cbn [app] in Hc1.
  assert (Hl1 : length (f_c root1) = (length (f_c root) + 16)%nat) by (rewrite Hc1, length_app, length_dirents; done).
  assert (Hadd : (length (f_c root) + 16 + 16 * length files = length (f_c root) + 16 * S (length files))%nat) by lia.
  eapply wp_mono; [apply (IH s1 root1 (rest ++ [g]) Hinv1); rewrite ?length_app, ?Hl1, ?Hadd; cbn [length]; try done; lia|].
  intros ? s2 (root2 & gs & Hinv2 & Hgs & Ht2 & Hc2 & Hfb2). exists root2, (g :: gs).
  rewrite Hl1, Hadd in Hfb2. split_and!.
  - rewrite <- app_assoc in Hinv2. exact Hinv2.
  - by constructor.
  - congruence.
  - rewrite Hc2, Hc1, <- app_assoc, length_app. f_equal. cbn [dirents length]. rewrite app_nil_r.
    do 2 f_equal. lia.
  - rewrite Hfb2, Hfb1. lia.
Qed.

(** ** Reading the image *)

Definition block_of (s : mkfs) (di : Dinode) (k : nat) : Z :=
  if (k <? 12)%nat then addr di k else rd_u32 ((k - 12) * 4) (sect s (addr di 12)).
Definition blocks_of (s : mkfs) (inum : Z) : list Z :=
  block_of s (inode s inum) <$> seq 0 (nb (Z.to_nat (di_size (inode s inum)))).
Definition contents (s : mkfs) (inum : Z) : list Z :=
  take (Z.to_nat (di_size (inode s inum))) (concat (sect s <$> blocks_of s inum)).
Definition used (s : mkfs) (inum : Z) : list Z := own (blocks_of s inum) (addr (inode s inum) 12).
Definition bit (bitmap : list Z) (b : Z) : bool := Z.testbit (nth (Z.to_nat (b / 8)) bitmap 0) (b mod 8).

Lemma file_ok_blocks s inum f : img_ok s → file_ok s inum f →
  blocks_of s inum = f_bs f ∧ contents s inum = f_c f ∧ used s inum = f_own f.
Proof.
  intros Hi [F1 (Hm & Hl & Hc) F3 _ _]. assert (Hb : blocks_of s inum = f_bs f).
  { unfold blocks_of. rewrite F1, F3, Nat2Z.id, <- Hl. apply list_eq. intros k. rewrite list_lookup_fmap.
    destruct (decide (k < length (f_bs f))%nat) as [Hk|Hk].
    2: { rewrite lookup_seq_ge by lia. cbn. symmetry. apply lookup_ge_None. lia. }
    rewrite lookup_seq_lt by done. cbn [fmap option_fmap option_map Nat.add]. destruct (lookup_lt_is_Some_2 _ _ Hk) as [b E].
    rewrite E. f_equal. unfold block_of. pose proof (mp_max _ _ _ _ Hm). destruct (Nat.ltb_spec k 12).
    - rewrite (addr_direct _ _ _ _ _ Hm) by done. by apply nth_resize_in.
    - rewrite (addr_indirect _ _ _ _ Hm), (mp_ind _ _ _ _ Hm) by lia. rewrite rd_words; [|by eapply word_range|rewrite length_resize; lia].
      apply nth_resize_in; [lia|]. rewrite lookup_drop, <- E. f_equal. lia. }
  split_and!; [done| |].
  - unfold contents. rewrite Hb, F1, F3, Nat2Z.id. done.
  - unfold used. rewrite Hb, F1, (addr_indirect _ _ _ _ Hm). done.
Qed.

(** ** The bitmap *)

Lemma bits_set_spec l bm s : length bm = 512%nat → Forall (λ i, 0 ≤ i < 4096) l →
  wp (bits_set l bm) s (λ bm' s', s' = s ∧ length bm' = 512%nat ∧
    ∀ b, 0 ≤ b < 4096 → bit bm' b = bit bm b || bool_decide (b ∈ l)).
Proof.
  revert bm. induction l as [|i l IH]; intros bm Hl Hb; cbn [bits_set].
  { wp_step. split_and!; [done..|]. intros b _. rewrite bool_decide_eq_false_2 by apply not_elem_of_nil. by rewrite orb_false_r. }
  apply Forall_cons in Hb as [Hi Hb]. wp_step.
  assert (Hlt : (Z.to_nat (i / 8) < length bm)%nat) by (rewrite Hl; Z.to_euclidean_division_equations; lia).
  destruct (lookup_lt_is_Some_2 _ _ Hlt) as [x Ex].
  eapply wp_eq; [unfold bit_set, bind, expect; rewrite Ex; reflexivity|]. cbv beta.
  eapply wp_mono; [apply IH; [by rewrite length_insert|done]|]. intros bm' s' (-> & Hl' & Hbit). split_and!; [done..|].
  intros b Hbr. rewrite Hbit by done.
  assert (Hset : bit (<[Z.to_nat (i / 8) := Z.lor x (Z.shiftl 1 (i mod 8))]> bm) b = bit bm b || bool_decide (b = i)).
  { unfold bit. rewrite !nth_lookup. destruct (decide (b / 8 = i / 8)) as [E|E].
    - rewrite E, list_lookup_insert_eq by done. rewrite Ex. cbn [default from_option id]. rewrite Z.lor_spec. f_equal.
      rewrite Z.shiftl_1_l. destruct (decide (b = i)) as [->|Hne].
      + rewrite bool_decide_eq_true_2 by done. apply Z.pow2_bits_true. apply Z.mod_pos_bound. lia.
      + rewrite bool_decide_eq_false_2 by done. apply Z.pow2_bits_false. intros E2. apply Hne. Z.to_euclidean_division_equations; lia.
    - rewrite list_lookup_insert_ne by (Z.to_euclidean_division_equations; lia).
      rewrite bool_decide_eq_false_2 by (intros ->; done). by rewrite orb_false_r. }
  rewrite Hset, <- orb_assoc. f_equal. apply Bool.eq_iff_eq_true. rewrite orb_true_iff, !bool_decide_eq_true. set_solver.
Qed.

(** ** The initial image *)

Lemma zero_image n a s : nsec s = a → 0 ≤ a → (∀ k, sect s k = zeroes) →
  wp (forM (seqZ a (Z.of_nat n)) (λ i, write_sector i zeroes)) s (λ _ s', nsec s' = a + Z.of_nat n ∧ (∀ k, sect s' k = zeroes) ∧
    sb s' = sb s ∧ free_inode s' = free_inode s ∧ free_block s' = free_block s).
Proof.
  revert a s. induction n as [|n IH]; intros a s Ha H0 Hz.
  { change (seqZ a (Z.of_nat 0)) with (@nil Z). cbn [forM]. wp_step. split_and!; (done || lia). }
  rewrite seqZ_cons by lia. cbn [forM]. wp_step. eapply wp_eq; [by apply write_sector_ok|].
  replace (Z.pred (Z.of_nat (S n))) with (Z.of_nat n) by lia.
  eapply wp_mono; [apply (IH (Z.succ a)); cbn; [lia|lia|]|].
  - intros k. destruct (decide (a = k)) as [<-|]; [by rewrite fn_lookup_insert|by rewrite fn_lookup_insert_ne].
  - cbn. intros ? s' (H1 & H2 & H3 & H4 & H5). split_and!; [lia|done..].
Qed.
Lemma zero_inode k : (k < 8)%nat → get_dinode k zeroes = default_dinode.
Proof. intros H. do 8 (destruct k as [|k]; [reflexivity|]). lia. Qed.

Lemma inv_init s : nsec s = FSSIZE → (∀ k, sect s k = zeroes) → sb s = mkfs_sb → free_inode s = 1 → free_block s = n_meta →
  inv (set_sect 1 (splice 0 (enc_sb mkfs_sb) zeroes) s) [].
Proof.
  intros H1 H2 H3 H4 H5.
  assert (Hs : ∀ k, k ≠ 1 → sect (set_sect 1 (splice 0 (enc_sb mkfs_sb) zeroes) s) k = zeroes).
  { intros k Hk. cbn [sect set_sect]. rewrite fn_lookup_insert_ne; [done|]. by intros <-. }
  split; try done.
  - split; try done; [| |cbn; rewrite H5; split; mlia|].
    + cbn. rewrite H1. done.
    + intros k. destruct (decide (k = 1)) as [->|Hk]; [|by rewrite Hs]. cbn [sect set_sect]. rewrite fn_lookup_insert. reflexivity.
    + intros k Hk. apply Hs. cbn in Hk. rewrite H5 in Hk. mlia.
  - intros i Hi. cbn in Hi. unfold inode. rewrite Hs; [apply zero_inode, ipb_slot|].
    change IPB with 8. change LOGSIZE with 30. Z.to_euclidean_division_equations; lia.
  - intros k Hk. apply Hs. lia.
Qed.

(** What an image with its bitmap is for the kernel: [total] blocks in use,
    [n] files and the root directory. *)
Definition dot_entries : list Z :=
  enc_dirent (mkDirent 1 (set_name [46])) ++ enc_dirent (mkDirent 1 (set_name [46; 46])).
Record image (files : list (list Z * list Z)) (total : Z) (s : mkfs) : Prop := {
  ig_sb : dec_sb (sect s 1) = mkfs_sb;
  ig_root : di_type (inode s ROOTINO) = T_DIR ∧ contents s ROOTINO = dot_entries ++ dirents 2 files;
  ig_file k name c : files !! k = Some (name, c) →
    di_type (inode s (Z.of_nat k + 2)) = T_FILE ∧ contents s (Z.of_nat k + 2) = c;
  ig_free i : Z.of_nat (length files) + 2 ≤ i < 208 → di_type (inode s i) = 0;
  ig_disjoint i j b : 1 ≤ i ≤ Z.of_nat (length files) + 1 → 1 ≤ j ≤ Z.of_nat (length files) + 1 → i ≠ j →
    b ∈ used s i → b ∉ used s j;
  ig_used i : 1 ≤ i ≤ Z.of_nat (length files) + 1 → NoDup (used s i) ∧ Forall (λ b, n_meta ≤ b < total) (used s i);
  ig_map i : 1 ≤ i ≤ Z.of_nat (length files) + 1 → length (di_addrs (inode s i)) = 13%nat ∧ (length (blocks_of s i) ≤ 140)%nat ∧
    di_size (inode s i) = Z.of_nat (length (contents s i)) ∧ length (blocks_of s i) = nb (length (contents s i));
  ig_bitmap b : 0 ≤ b < FSSIZE → bit (sect s (sb_bmapstart mkfs_sb)) b = bool_decide (b < total);
  ig_log k : 2 ≤ k < 32 → sect s k = zeroes;
  ig_len k : length (sect s k) = 512%nat;
}.

Lemma inv_image s bm root gs files : inv s (root :: gs) → Forall2 loaded files gs →
  f_c root = dot_entries ++ dirents 2 files → di_type (f_di root) = T_DIR → length bm = 512%nat →
  (∀ b, 0 ≤ b < FSSIZE → bit bm b = bool_decide (b < free_block s)) →
  image files (free_block s) (set_sect (sb_bmapstart mkfs_sb) bm s).
Proof.
  intros [I1 I2 I0 I3 I4 I5 I6 I7] Hgs Hroot Htr Hbm Hbits. set (s' := set_sect (sb_bmapstart mkfs_sb) bm s).
  pose proof (Forall2_length _ _ _ Hgs) as Hlen. pose proof (im_free _ I1) as Hfree. cbn [length] in *.
  assert (Hs : ∀ k, k ≠ 58 → sect s' k = sect s k) by (intros k Hk; apply fn_lookup_insert_ne; by intros <-).
  assert (Hi' : img_ok s') by (apply set_sect_ok; [done|change (sb_bmapstart mkfs_sb) with 58; mlia|done]).
  assert (Hino : ∀ i, 0 ≤ i < 208 → inode s' i = inode s i).
  { intros i Hi. unfold inode. rewrite Hs; [done|]. change IPB with 8. change LOGSIZE with 30. Z.to_euclidean_division_equations; lia. }
  assert (Hf : ∀ k f, (root :: gs) !! k = Some f → file_ok s' (Z.of_nat k + 1) f).
  { intros k f Ek. assert (k < S (length gs))%nat by (by apply lookup_lt_Some in Ek). apply (file_ok_frame s); [by apply I3|done|apply Hino; lia|].
    intros b Hb. apply Hs. pose proof (file_own_range s _ f b (I3 _ _ Ek) Hb). mlia. }
  assert (Hat : ∀ i, 1 ≤ i ≤ Z.of_nat (length files) + 1 → ∃ f, (root :: gs) !! Z.to_nat (i - 1) = Some f ∧ file_ok s' i f).
  { intros i Hi. destruct (lookup_lt_is_Some_2 (root :: gs) (Z.to_nat (i - 1))) as [f Ef]; [cbn [length]; lia|].
    exists f. split; [done|]. apply Hf in Ef. by replace (Z.of_nat (Z.to_nat (i - 1)) + 1) with i in Ef by lia. }
  split.
  - rewrite Hs, I6 by lia. reflexivity.
  - pose proof (Hf 0%nat root eq_refl) as Hr. destruct (file_ok_blocks s' 1 root Hi' Hr) as (_ & Hc & _).
    split; [|by rewrite <- Hroot]. change (inode s' ROOTINO) with (inode s' (Z.of_nat 0 + 1)). by rewrite (fo_inode _ _ _ Hr).
  - intros k name c Ek. destruct (Forall2_lookup_l _ _ _ _ _ Hgs Ek) as (g & Eg & [Hg1 Hg2]).
    pose proof (Hf (S k) g Eg) as Hg. replace (Z.of_nat (S k) + 1) with (Z.of_nat k + 2) in Hg by lia.
    destruct (file_ok_blocks s' _ g Hi' Hg) as (_ & Hc & _). by rewrite (fo_inode _ _ _ Hg), Hc.
  - intros i Hi. rewrite Hino, I5 by lia. done.
  - intros i j b Hi Hj Hne Hb1 Hb2. destruct (Hat i Hi) as (f & Ef & Hfi). destruct (Hat j Hj) as (g & Eg & Hgj).
    destruct (file_ok_blocks s' i f Hi' Hfi) as (_ & _ & Hu1). destruct (file_ok_blocks s' j g Hi' Hgj) as (_ & _ & Hu2).
    rewrite Hu1 in Hb1. rewrite Hu2 in Hb2. apply (I4 (Z.to_nat (i - 1)) (Z.to_nat (j - 1)) f g b); (done || lia).
  - intros i Hi. destruct (Hat i Hi) as (f & Ef & Hfi). destruct (file_ok_blocks s' i f Hi' Hfi) as (_ & _ & ->).
    destruct Hfi as [_ (Hm & _ & _) _ _ _]. split; [apply Hm|]. exact (mp_own _ _ _ _ Hm).
  - intros i Hi. destruct (Hat i Hi) as (f & Ef & Hfi). destruct (file_ok_blocks s' i f Hi' Hfi) as (Hb1 & Hb2 & _).
    rewrite Hb1, Hb2. destruct Hfi as [F1 (Hm & Hl & _) F3 _ _]. rewrite F1, F3. split_and!; [|apply Hm|done|done].
    by destruct (mapped_addrs_ok _ _ _ _ Hi' Hm).
  - intros b Hb. unfold s'. cbn [sect set_sect]. rewrite fn_lookup_insert. by apply Hbits.
  - intros k Hk. rewrite Hs by lia. by apply I7.
  - apply Hi'.
Qed.

Lemma main_spec (files : list (list Z * list Z)) (Hn : Z.of_nat (length files) ≤ 198)
    (Hsize : Forall (λ f, Z.of_nat (length f.2) ≤ MAXFILE * BSIZE) files)
    (Hfit : n_meta + Z.of_nat (cost (32 + 16 * length files)) + file_costs files ≤ FSSIZE) :
  wp (main files) new
    (λ _ s, image files (n_meta + Z.of_nat (cost (32 + 16 * length files)) + file_costs files) s).
Proof.
  unfold main. change FSSIZE with (Z.of_nat 2000) at 1. wp_step.
  eapply wp_mono; [apply (zero_image 2000 0); cbn; (done || lia)|]. cbn [sb free_inode free_block new].
  intros ? s0 (Z1 & Z2 & Z3 & Z4 & Z5). do 2 wp_step. rewrite Z3. wp_step. eapply wp_eq; [by apply write_sector_ok|].
  pose proof (inv_init s0 Z1 Z2 Z3 Z4 Z5) as I0. set (s1 := set_sect 1 _ s0) in *.
  assert (Hfb1 : free_block s1 = n_meta) by exact Z5. clearbody s1.
  wp_step. eapply wp_mono; [apply (ialloc_spec s1 [] T_DIR I0); done|]. intros ? s2 (-> & I2 & Hfb2). cbn [app length] in *.
  change (Z.of_nat 0 + 1 =? ROOTINO) with true. change (as_u16 (Z.of_nat 0 + 1)) with 1. cbn [negb]. pose proof (file_costs_pos files) as Hpos.
  assert (Hcm : (1 ≤ cost (32 + 16 * length files))%nat) by (apply (cost_mono 32); lia).
  assert (Hd1 := length_dirent 1 [46]). assert (Hd2 := length_dirent 1 [46; 46]).
  wp_step. eapply wp_mono; [apply (iappend_spec s2 _ 0 (new_file T_DIR) _ I2); [done|by rewrite Hd1|]|].
  { rewrite Hd1. change (cost _) with 1%nat at 1. change (cost _) with 0%nat. mlia. }
  rewrite Hd1. intros ? s3 (r3 & I3 & Hc3 & Ht3 & Hfb3). cbn [insert list_insert f_c new_file app length] in *.
  change (cost (0 + 16)) with 1%nat in Hfb3. change (cost 0) with 0%nat in Hfb3.
  wp_step. eapply wp_mono; [apply (iappend_spec s3 _ 0 r3 _ I3); [done|by rewrite Hc3, Hd1, Hd2|]|].
  { rewrite Hc3, Hd1, Hd2. change (cost _) with 1%nat at 1. change (cost _) with 1%nat. mlia. }
  rewrite Hd2, Hc3, Hd1. intros ? s4 (r4 & I4 & Hc4 & Ht4 & Hfb4). cbn [insert list_insert] in *.
  change (cost (16 + 16)) with 1%nat in Hfb4. change (cost 16) with 1%nat in Hfb4.
  assert (Hl4 : length (f_c r4) = 32%nat) by (by rewrite Hc4, length_app, Hd1, Hd2).
  wp_step. eapply wp_mono; [apply (add_files_spec files s4 r4 [] I4); rewrite ?Hl4; cbn [length]; [lia|change (MAXFILE * BSIZE) with 71680; lia|done|change (cost 32) with 1%nat; mlia]|].
  rewrite Hl4. change (cost 32) with 1%nat. intros ? s5 (r5 & gs & I5 & Hgs & Ht5 & Hc5 & Hfb5). cbn [app length] in *.
  pose proof (im_free _ (in_img _ _ I5)) as Hfree5. do 3 wp_step.
  eapply wp_mono; [apply bits_set_spec; [done|]|].
  { apply Forall_forall. intros i ?%elem_of_seqZ. mlia. }
  intros bm s6 (-> & Hbl & Hbits). rewrite (im_sb _ (in_img _ _ I5)). eapply wp_eq; [by apply write_sector_ok|].
  replace (n_meta + _ + _) with (free_block s5) by lia. eapply inv_image; [done|done| | |done|].
  - rewrite Hc5, Hc4. done.
  - by rewrite Ht5, Ht4, Ht3.
  - intros b Hb. rewrite Hbits by mlia. unfold bit at 1. rewrite nth_lookup. unfold zeroes.
    assert (default 0 (replicate 512 0 !! Z.to_nat (b / 8)) = 0) as ->
      by (destruct (replicate 512 0 !! _) eqn:E; [by apply lookup_replicate in E as [-> _]|done]).
    rewrite Z.testbit_0_l. cbn [orb]. apply bool_decide_ext. rewrite elem_of_seqZ. lia.
Qed.

(** C10: The image [mkfs] makes holds the files it was given. When they fit -
    at most 198 files, none larger than an inode can map, and no more blocks
    than the disk has - the program ends without an error, and the image has
    the super block, a root directory with the entries of all files in order
    and, through the block maps of the inodes, direct and indirect, exactly
    the bytes of each file; no two files share a block, the bitmap marks
    exactly the blocks in use, every other inode is free and the log is
    empty. *)
Theorem mkfs_image (files : list (list Z * list Z)) (Hn : Z.of_nat (length files) ≤ 198)
    (Hsize : Forall (λ f, Z.of_nat (length f.2) ≤ MAXFILE * BSIZE) files)
    (Hfit : n_meta + Z.of_nat (cost (32 + 16 * length files)) + file_costs files ≤ FSSIZE) :
  wp (main files) new
    (λ _ s, image files (n_meta + Z.of_nat (cost (32 + 16 * length files)) + file_costs files) s).
Proof. by apply main_spec. Qed.

(** One small file. *)
Lemma mkfs_image_witness : wp (main [([95; 97], [1; 2; 3])]) new (λ _ s, image [([95; 97], [1; 2; 3])] 61 s).
Proof.
  apply (mkfs_image [([95; 97], [1; 2; 3])]); [simpl; lia| |vm_compute; discriminate].
  constructor; [change (MAXFILE * BSIZE) with 71680; simpl; lia|constructor].
Defined.

End Mkfs.
