(* ===== verification/FsData.v ===== *)
(** * Inode contents

    [bmap], [readi], [writei] and [dirlookup] of crates/fs/src/fs.rs against
    the bytes of a file: the blocks of the file, direct and indirect, in
    order. *)

From S2P Require Import Prelude Param Sync Mem Disk Ring Bio Fsh Log Fs Txn FsBlocks Icache.
Import Sync Bio Fsh Log Fs Txn FsBlocks Icache.

Module FsData.

(** ** The bytes of a file *)

(** The number of block [k] of a file, as its inode has it. *)
Definition block_addr (T : tview) (ip : Inode) (k : nat) : Z :=
  if (k <? 12)%nat then nth k (i_addrs ip) 0
  else rd_u32 (4 * (k - 12)) (tv_v T (tv_dev T, nth 12 (i_addrs ip) 0)).

(** A block the file system may use: on the disk, not held, with a number that
    fits a log entry. *)
Definition usable (T : tview) (b : Z) : Prop := b ≠ 0 ∧ 0 ≤ b < i32_hi ∧ t_free T (tv_dev T, b).

(** The file has the blocks [bs], all different. *)
Record has_blocks (T : tview) (ip : Inode) (bs : list Z) : Prop := {
  hb_dev : i_dev ip = tv_dev T;
  hb_addrs : length (i_addrs ip) = 13%nat;
  hb_max : (length bs ≤ 140)%nat;
  hb_block k b : bs !! k = Some b → block_addr T ip k = b;
  hb_usable : Forall (usable T) bs;
  hb_nodup : NoDup bs;
  hb_ind : (12 < length bs)%nat → usable T (nth 12 (i_addrs ip) 0) ∧ nth 12 (i_addrs ip) 0 ∉ bs;
}.
Definition bytes (T : tview) (bs : list Z) : list Z := concat ((λ b, tv_v T (tv_dev T, b)) <$> bs).

Section data.
Context {D : Type} `{!BlockDev D}.
Implicit Types s : fstate (D := D).

Lemma length_bytes s T bs : fs_abs s T → Forall (usable T) bs → length (bytes T bs) = (512 * length bs)%nat.
Proof.
  intros Ha. induction 1 as [|b bs (_ & _ & Hb & _) _ IH]; [done|]. unfold bytes in *. rewrite fmap_cons. cbn [concat].
  rewrite length_app, IH, (txn_view_length _ _ _ Ha Hb). change (Z.to_nat BSIZE) with 512%nat. simpl. lia.
Qed.

(** The bytes of one block. *)
Lemma bytes_block s T bs k b : fs_abs s T → Forall (usable T) bs → bs !! k = Some b →
  slice (512 * k) 512 (bytes T bs) = tv_v T (tv_dev T, b).
Proof.
  intros Ha Hu E. rewrite <- (take_drop_middle _ _ _ E) in Hu |- *. unfold bytes. rewrite fmap_app, fmap_cons, concat_app. cbn [concat].
  apply Forall_app in Hu as [Hu1 [(_ & _ & Hb & _) Hu2]%Forall_cons].
  assert (Hl : length (bytes T (take k bs)) = (512 * k)%nat).
  { rewrite (length_bytes s) by done. rewrite length_take. apply lookup_lt_Some in E. lia. }
  unfold slice. rewrite drop_app_length' by done.
  rewrite take_app_length' by (by rewrite (txn_view_length _ _ _ Ha Hb)). done.
Qed.

(** ** [bmap] of a block the file has *)

Lemma bmap_old s T i ip bs k b : fs_abs s T → tv_open T = ∅ → (size (tv_held T) ≤ 2)%nat →
  inodes s !! i = Some ip → has_blocks T ip bs → bs !! k = Some b →
  wp (bmap i (Z.of_nat k)) s (λ r s', r = b ∧ ∃ l, s' = set_fl l s ∧ txn_abs l T).
Proof.
  intros Ha Ho Hh Ei [B1 B2 B3 B4 B5 B6 B7] E. assert (Hk : (k < length bs)%nat) by (by eapply lookup_lt_Some).
  assert (Hb : usable T b) by (by eapply Forall_lookup_1). destruct Hb as (Hb0 & _). pose proof (B4 _ _ E) as Hadr.
  unfold bmap. wp_step. eapply wp_inode_at; [exact Ei|]. cbv beta. unfold block_addr in Hadr.
  change NDIRECT with 12. destruct (Nat.ltb_spec k 12) as [H12|H12].
  - rewrite (proj2 (Z.ltb_lt (Z.of_nat k) 12)) by lia. rewrite Nat2Z.id.
    destruct (lookup_lt_is_Some_2 (i_addrs ip) k) as [a Ea]; [lia|]. rewrite (nth_lookup_Some _ _ _ _ Ea) in Hadr. subst a.
    wp_step. eapply wp_eq; [by rewrite Ea|]. rewrite (proj2 (Z.eqb_neq b 0)) by done. wp_step.
    split; [done|]. exists (fl s). by rewrite set_fl_same.
  - rewrite (proj2 (Z.ltb_ge (Z.of_nat k) 12)) by lia. cbv zeta. change NINDIRECT with 128.
    rewrite (proj2 (Z.ltb_lt (Z.of_nat k - 12) 128)) by lia. change (Z.to_nat 12) with 12%nat.
    destruct (B7 ltac:(lia)) as [(Hi0 & Hir & Hif) _]. destruct (lookup_lt_is_Some_2 (i_addrs ip) 12) as [ind Eind]; [lia|].
    rewrite (nth_lookup_Some _ _ _ _ Eind) in *. wp_step. eapply wp_eq; [by rewrite Eind|]. cbv beta.
    rewrite (proj2 (Z.eqb_neq ind 0)) by done. do 2 wp_step. rewrite B1. wp_step.
    eapply fs_read; [exact Ha|exact Hif|done|]. intros j l Hl Hj.
    assert (Hjk : tv_held (t_hold j (tv_dev T, ind) T) !! j = Some (tv_dev T, ind)) by apply lookup_insert_eq.
    wp_step. eapply fs_data; [exact Hl|exact Hjk|]. intros x Hx Hd. cbv zeta. rewrite Hd. cbn [tv_v t_hold].
    replace (Z.to_nat (Z.of_nat k - 12)) with (k - 12)%nat by lia. rewrite Hadr, (proj2 (Z.eqb_neq b 0)) by done.
    do 3 wp_step. eapply fs_data; [exact Hl|exact Hjk|]. intros y Hy Hd'. cbv zeta. rewrite Hd'. cbn [tv_v t_hold]. rewrite Hadr.
    wp_step. eapply fs_release; [exact Hl|done|done|]. intros l' Hl'. wp_step. split; [done|]. by exists l'.
Qed.

(** ** [readi] *)

Lemma slice_slice {A} a n r m (l : list A) : (r + m ≤ n)%nat → slice r m (slice a n l) = slice (a + r) m l.
Proof.
  intros H. unfold slice. rewrite skipn_firstn_comm, take_take, drop_drop. f_equal. lia.
Qed.
Lemma slice_add {A} a n m (l : list A) : slice a n l ++ slice (a + n) m l = slice a (n + m) l.
Proof. unfold slice. rewrite <- drop_drop. by rewrite take_take_drop. Qed.

(** The bytes one round takes from a block. *)
Lemma block_slice s T bs b off m : fs_abs s T → Forall (usable T) bs → bs !! Z.to_nat (off / 512) = Some b → 0 ≤ off →
  0 ≤ m ≤ 512 - off mod 512 →
  slice (Z.to_nat (off mod 512)) (Z.to_nat m) (tv_v T (tv_dev T, b)) = slice (Z.to_nat off) (Z.to_nat m) (bytes T bs).
Proof.
  intros Ha Hu E H0 Hm. rewrite <- (bytes_block _ _ _ _ _ Ha Hu E). pose proof (Z.mod_pos_bound off 512).
  rewrite slice_slice by lia. f_equal. Z.to_euclidean_division_equations; lia.
Qed.

(** The blocks that [n] bytes from [off] are in. *)
Definition rounds (off n : Z) : Z := if n =? 0 then 0 else (off + n + 511) / 512 - off / 512.
Lemma rounds_pos off n : 0 ≤ n → 0 ≤ rounds off n.
Proof.
  intros Hn. unfold rounds. destruct (n =? 0); [done|].
  assert (off / 512 ≤ (off + n + 511) / 512) by (apply Z.div_le_mono; lia). lia.
Qed.
Lemma rounds_step off n : 0 ≤ off → 0 < n → let m := Z.min n (512 - off mod 512) in rounds (off + m) (n - m) < rounds off n.
Proof.
  intros H0 Hn m. unfold rounds. rewrite (proj2 (Z.eqb_neq n 0)) by lia.
  pose proof (Z.mod_pos_bound off 512 ltac:(lia)). pose proof (Z.div_mod off 512 ltac:(lia)) as Hdm.
  destruct (Z.eqb_spec (n - m) 0) as [E|E].
  - assert (off / 512 + 1 ≤ (off + n + 511) / 512); [|lia]. apply Z.div_le_lower_bound; lia.
  - replace (off + m + (n - m)) with (off + n) by lia. replace (off + m) with ((off / 512 + 1) * 512) by lia. rewrite Z.div_mul by lia. lia.
Qed.
Lemma rounds_bound off n : 0 ≤ off → 0 ≤ n → rounds off n ≤ n / 512 + 2.
Proof. intros H0 Hn. unfold rounds. destruct (n =? 0); Z.to_euclidean_division_equations; lia. Qed.

Lemma readi_loop_spec fuel i ip bs n : ∀ s T tot off acc, fs_abs s T → tv_open T = ∅ → (size (tv_held T) ≤ 2)%nat →
  inodes s !! i = Some ip → has_blocks T ip bs →
  0 ≤ tot ≤ n → 0 ≤ off → off + (n - tot) ≤ Z.of_nat (512 * length bs) → off + (n - tot) < u32_max → n < u32_max →
  rounds off (n - tot) < Z.of_nat fuel →
  wp (readi_loop fuel i n tot off acc) s (λ r s', r = acc ++ slice (Z.to_nat off) (Z.to_nat (n - tot)) (bytes T bs) ∧
    ∃ l, s' = set_fl l s ∧ txn_abs l T).
Proof.
  induction fuel as [|fuel IH]; intros s T tot off acc Ha Ho Hh Ei Hb Ht H0 Hl Hu Hn Hf.
  { pose proof (rounds_pos off (n - tot)). lia. }
  cbn [readi_loop]. destruct (Z.ltb_spec tot n).
  2: { wp_step. replace (n - tot) with 0 by lia. cbn [Z.to_nat]. unfold slice. cbn [take]. rewrite app_nil_r.
       split; [done|]. exists (fl s). by rewrite set_fl_same. }
  change BSIZE with 512. pose proof (Z.mod_pos_bound off 512 ltac:(lia)) as Hmod. pose proof (Z.div_mod off 512 ltac:(lia)) as Hdm.
  wp_step. eapply wp_inode_at; [exact Ei|]. cbv beta.
  destruct (lookup_lt_is_Some_2 bs (Z.to_nat (off / 512))) as [b E].
  { assert (off / 512 < Z.of_nat (length bs)) by (apply Z.div_lt_upper_bound; lia). pose proof (Z.div_pos off 512). lia. }
  wp_step. replace (off / 512) with (Z.of_nat (Z.to_nat (off / 512))) at 1 by (pose proof (Z.div_pos off 512); lia).
  eapply wp_mono; [by eapply bmap_old|]. intros ? s1 (-> & l1 & -> & Hl1).
  assert (Hub : usable T b) by (eapply Forall_lookup_1; [apply Hb|done]). rewrite (hb_dev _ _ _ Hb).
  wp_step. eapply fs_read; [exact Hl1|apply Hub|done|]. intros j l2 Hl2 Hj.
  set (m := Z.min (n - tot) (512 - off mod 512)). wp_step. eapply fs_data; [exact Hl2|apply lookup_insert_eq|]. intros x Hx Hd. cbv zeta.
  wp_step. eapply fs_release; [exact Hl2|done|done|]. intros l3 Hl3. rewrite Hd. cbn [tv_v t_hold].
  rewrite (block_slice s T bs b off m Ha (hb_usable _ _ _ Hb) E) by lia.
  wp_step. eapply wp_eq; [apply chk_u32_ok; lia|]. wp_step. eapply wp_eq; [apply chk_u32_ok; lia|].
  eapply wp_mono; [apply (IH _ T (tot + m) (off + m)); try done; try lia|].
  - pose proof (rounds_step off (n - tot) ltac:(lia) ltac:(lia)) as Hstep. cbv zeta in Hstep. fold m in Hstep. replace (n - (tot + m)) with (n - tot - m) by lia. lia.
  - intros r s' (-> & l & -> & Hl'). split; [|by exists l]. rewrite <- app_assoc. f_equal.
    replace (Z.to_nat (off + m)) with (Z.to_nat off + Z.to_nat m)%nat by lia. rewrite slice_add. f_equal. lia.
Qed.

Lemma readi_spec (devsw : Z → option (nat → Z → Z → M (fstate (D := D)) (Z * list Z)))
    (s : fstate (D := D)) (T : tview) (i : nat) (ip : Inode) (bs : list Z) (off n : Z)
    (Ha : fs_abs s T) (Ho : tv_open T = ∅) (Hh : (size (tv_held T) ≤ 2)%nat)
    (Ei : inodes s !! i = Some ip) (Hdev : is_dev ip = false) (Hb : has_blocks T ip bs)
    (Hsz : 0 ≤ i_size ip ≤ Z.of_nat (512 * length bs)) (Hoff : 0 ≤ off < u32_max) (Hn : 0 ≤ n < u32_max) :
  wp (readi devsw i off n) s (λ '(r, dst) s', ∃ l, s' = set_fl l s ∧ fs_abs s' T ∧
    if (i_size ip <? off) || (u32_max <=? off + n) then r = -1 ∧ dst = []
    else r = Z.min n (i_size ip - off) ∧ dst = slice (Z.to_nat off) (Z.to_nat r) (take (Z.to_nat (i_size ip)) (bytes T bs))).
Proof.
  pose proof (hb_max _ _ _ Hb) as Hmax. unfold readi. wp_step. eapply wp_inode_at; [exact Ei|]. cbv beta. rewrite Hdev.
  assert (Hov : (as_u32 (off + n) <? off) = (u32_max <=? off + n)).
  { unfold as_u32, u32_max in *. destruct (Z.leb_spec 4294967296 (off + n)) as [H|H].
    - apply Z.ltb_lt. Z.to_euclidean_division_equations; lia.
    - rewrite Z.mod_small by lia. apply Z.ltb_ge. lia. }
  rewrite Hov. destruct ((i_size ip <? off) || (u32_max <=? off + n)) eqn:Ec.
  { wp_step. exists (fl s). by rewrite set_fl_same. }
  apply orb_false_iff in Ec as [Ec1 Ec2]. b2p. set (m := Z.min n (i_size ip - off)). wp_step.
  eapply wp_mono; [apply (readi_loop_spec _ i ip bs m s T 0 off []); try done; rewrite ?Z.sub_0_r; try lia|].
  { pose proof (rounds_bound off m ltac:(lia) ltac:(lia)). pose proof (Z.div_pos m 512 ltac:(lia) ltac:(lia)). change BSIZE with 512. lia. }
  intros r s' (-> & l & -> & Hl). wp_step. exists l. split_and!; [done|done| |].
  - unfold as_i32, as_u32. rewrite Z.mod_small by (unfold u32_max; lia). rewrite (proj2 (Z.ltb_lt m i32_hi)); [done|unfold i32_hi; lia].
  - rewrite Z.sub_0_r. cbn [app].
    assert (as_i32 m = m) as ->.
    { unfold as_i32, as_u32. rewrite Z.mod_small by (unfold u32_max; lia). rewrite (proj2 (Z.ltb_lt m i32_hi)); [done|unfold i32_hi; lia]. }
    unfold slice. rewrite skipn_firstn_comm, take_take. f_equal. lia.
Qed.

(** C7: Reading a file gives its bytes. [readi] of a file that is not a device
    returns the bytes from [off] on, as many as were asked for and are before
    the end of the file, through direct and indirect blocks alike, and it
    changes neither the blocks nor the inodes; an offset past the end, or one
    whose sum with the length does not fit 32 bits, returns -1. *)
Theorem readi_reads (devsw : Z → option (nat → Z → Z → M (fstate (D := D)) (Z * list Z)))
    (s : fstate (D := D)) (T : tview) (i : nat) (ip : Inode) (bs : list Z) (off n : Z)
    (Ha : fs_abs s T) (Ho : tv_open T = ∅) (Hh : (size (tv_held T) ≤ 2)%nat)
    (Ei : inodes s !! i = Some ip) (Hdev : is_dev ip = false) (Hb : has_blocks T ip bs)
    (Hsz : 0 ≤ i_size ip ≤ Z.of_nat (512 * length bs)) (Hoff : 0 ≤ off < u32_max) (Hn : 0 ≤ n < u32_max) :
  wp (readi devsw i off n) s (λ '(r, dst) s', ∃ l, s' = set_fl l s ∧ fs_abs s' T ∧
    if (i_size ip <? off) || (u32_max <=? off + n) then r = -1 ∧ dst = []
    else r = Z.min n (i_size ip - off) ∧ dst = slice (Z.to_nat off) (Z.to_nat r) (take (Z.to_nat (i_size ip)) (bytes T bs))).
Proof. by apply readi_spec. Qed.

(** ** [writei] over the blocks of the file *)

Lemma splice_app {A} off (x y l : list A) : (off + length x + length y ≤ length l)%nat →
  splice (off + length x) y (splice off x l) = splice off (x ++ y) l.
Proof.
  intros H. apply list_eq. intros k.
  assert (Hl : length (splice off x l) = length l) by (apply length_splice; lia).
  destruct (decide (off ≤ k < off + length x + length y)%nat) as [Hk|Hk].
  - rewrite (splice_lookup_in off (x ++ y)) by (rewrite length_app; lia).
    destruct (decide (k < off + length x)%nat).
    + rewrite splice_lookup_out by lia. rewrite splice_lookup_in by lia. by rewrite lookup_app_l by lia.
    + rewrite splice_lookup_in by lia. rewrite lookup_app_r by lia. f_equal. lia.
  - rewrite (splice_lookup_out off (x ++ y)) by (rewrite length_app; lia). rewrite !splice_lookup_out by lia. done.
Qed.
Lemma splice_nil {A} off (l : list A) : splice off [] l = l.
Proof. unfold splice. simpl. by rewrite Nat.add_0_r, take_drop. Qed.
(** A splice into a part of the list. *)
Lemma splice_slice {A} a n r (x l : list A) : (r + length x ≤ n)%nat → (a + n ≤ length l)%nat →
  splice a (splice r x (slice a n l)) l = splice (a + r) x l.
Proof.
  intros Hr Ha. assert (Hs : length (slice a n l) = n) by (by apply length_slice).
  assert (Hl : length (splice r x (slice a n l)) = n) by (rewrite length_splice; lia).
  apply list_eq. intros k. destruct (decide (a ≤ k < a + n)%nat) as [Hk|Hk].
  - rewrite splice_lookup_in by lia. destruct (decide (a + r ≤ k < a + r + length x)%nat).
    + rewrite !splice_lookup_in by lia. f_equal. lia.
    + rewrite !splice_lookup_out by lia. rewrite slice_lookup by lia. f_equal. lia.
  - by rewrite !splice_lookup_out by lia.
Qed.

Lemma bytes_upd s T bs k b d : fs_abs s T → Forall (usable T) bs → NoDup bs → bs !! k = Some b → length d = 512%nat →
  bytes (t_upd (tv_dev T, b) d T) bs = splice (512 * k) d (bytes T bs).
Proof.
  intros Ha Hu Hn E Hd. pose proof (take_drop_middle _ _ _ E) as Ebs.
  assert (Hext : ∀ l, b ∉ l → bytes (t_upd (tv_dev T, b) d T) l = bytes T l).
  { intros l Hl. unfold bytes. f_equal. apply list_fmap_ext. intros j c Ec. apply fn_lookup_insert_ne. intros [= ->].
    by apply list_elem_of_lookup_2 in Ec. }
  assert (Happ : ∀ T' l1 l2, bytes T' (l1 ++ l2) = bytes T' l1 ++ bytes T' l2)
    by (intros; unfold bytes; by rewrite fmap_app, concat_app).
  assert (Hk : (k < length bs)%nat) by (by eapply lookup_lt_Some).
  assert (Hl1 : length (bytes T (take k bs)) = (512 * k)%nat).
  { rewrite (length_bytes s) by (done || by apply Forall_take). rewrite length_take. lia. }
  rewrite <- Ebs in Hn. apply NoDup_app in Hn as (_ & Hn1 & Hn2). apply NoDup_cons in Hn2 as [Hn2 _].
  assert (Hub : usable T b) by (by eapply Forall_lookup_1). destruct Hub as (_ & _ & Hok & _).
  rewrite <- Ebs at 1. rewrite Happ, Hext by (intros H; apply (Hn1 b H); by left).
  change (b :: drop (S k) bs) with ([b] ++ drop (S k) bs). rewrite Happ, (Hext (drop _ _)) by done.
  replace (bytes (t_upd (tv_dev T, b) d T) [b]) with d by (unfold bytes; simpl; by rewrite fn_lookup_insert, app_nil_r).
  rewrite <- Ebs at 3. change (b :: drop (S k) bs) with ([b] ++ drop (S k) bs). rewrite !Happ. unfold splice.
  rewrite take_app_length' by done. f_equal. f_equal.
  rewrite app_assoc, drop_app_length'; [done|]. rewrite length_app, Hl1, Hd. f_equal.
  unfold bytes. simpl. rewrite app_nil_r. by rewrite (txn_view_length _ _ _ Ha Hok).
Qed.

(** Only the contents of the blocks [bs] differ. *)
Record over (bs : list Z) (T T' : tview) : Prop := {
  ov_dev : tv_dev T' = tv_dev T;
  ov_ok : tv_ok T' = tv_ok T;
  ov_held : tv_held T' = tv_held T;
  ov_open : tv_open T' = tv_open T;
  ov_v k : (∀ b, b ∈ bs → k ≠ (tv_dev T, b)) → tv_v T' k = tv_v T k;
}.
Lemma over_refl bs T : over bs T T.
Proof. by split. Qed.
Lemma over_trans bs T1 T2 T3 : over bs T1 T2 → over bs T2 T3 → over bs T1 T3.
Proof.
  intros [A1 A2 A3 A4 A5] [B1 B2 B3 B4 B5]. split; try congruence.
  intros k Hk. rewrite B5, A5; [done|done|]. rewrite A1. done.
Qed.
Lemma over_upd bs T b d : b ∈ bs → over bs T (t_upd (tv_dev T, b) d T).
Proof. intros Hb. split; try done. intros k Hk. apply fn_lookup_insert_ne. intros <-. by apply (Hk b). Qed.
Lemma over_usable bs T T' b : over bs T T' → usable T b → usable T' b.
Proof. intros [O1 O2 O3 _ _] (H1 & H2 & H3 & H4). unfold usable, t_free. by rewrite O1, O2, O3. Qed.
Lemma over_blocks xs T T' ip bs : over xs T T' → ((12 < length bs)%nat → nth 12 (i_addrs ip) 0 ∉ xs) →
  has_blocks T ip bs → has_blocks T' ip bs.
Proof.
  intros Ho Hx [B1 B2 B3 B4 B5 B6 B7]. split; try done.
  - by rewrite (ov_dev _ _ _ Ho).
  - intros k b E. rewrite <- (B4 k b E). unfold block_addr. destruct (Nat.ltb_spec k 12); [done|].
    rewrite (ov_dev _ _ _ Ho), (ov_v _ _ _ Ho); [done|]. intros b' Hb' [= E'].
    apply Hx; [apply lookup_lt_Some in E; lia|]. by rewrite E'.
  - eapply Forall_impl; [exact B5|]. intros b. by apply (over_usable xs).
  - intros H. destruct (B7 H) as [H1 H2]. split; [by eapply over_usable|done].
Qed.

Lemma writei_loop_spec fuel i ip bs src n : ∀ s T tot off, fs_abs s T → tv_open T = ∅ → (size (tv_held T) ≤ 2)%nat →
  inodes s !! i = Some ip → has_blocks T ip bs → Z.of_nat (length src) = n → n < u32_max →
  0 ≤ tot ≤ n → 0 ≤ off → off + (n - tot) ≤ Z.of_nat (512 * length bs) →
  rounds off (n - tot) < Z.of_nat fuel → rounds off (n - tot) ≤ Z.of_nat (tv_left T) →
  wp (writei_loop fuel i src n tot off) s (λ r s', r = off + (n - tot) ∧ ∃ l T', s' = set_fl l s ∧ txn_abs l T' ∧ over bs T T' ∧
    bytes T' bs = splice (Z.to_nat off) (slice (Z.to_nat tot) (Z.to_nat (n - tot)) src) (bytes T bs) ∧
    Z.of_nat (tv_left T) - rounds off (n - tot) ≤ Z.of_nat (tv_left T')).
Proof.
  induction fuel as [|fuel IH]; intros s T tot off Ha Ho Hh Ei Hb Hsrc Hn Ht H0 Hl Hf Hleft.
  { pose proof (rounds_pos off (n - tot)). lia. }
  pose proof (hb_max _ _ _ Hb) as Hmax. pose proof (length_bytes s T bs Ha (hb_usable _ _ _ Hb)) as Hlb.
  cbn [writei_loop]. destruct (Z.ltb_spec tot n).
  2: { wp_step. split; [lia|]. exists (fl s), T. rewrite set_fl_same. split_and!; [done|done|apply over_refl| |].
       - replace (n - tot) with 0 by lia. change (slice _ (Z.to_nat 0) src) with (@nil Z). by rewrite splice_nil.
       - pose proof (rounds_pos off (n - tot)). lia. }
  change BSIZE with 512. pose proof (Z.mod_pos_bound off 512 ltac:(lia)) as Hmod. pose proof (Z.div_mod off 512 ltac:(lia)) as Hdm.
  pose proof (Z.div_pos off 512 ltac:(lia) ltac:(lia)) as Hdp. set (k := Z.to_nat (off / 512)).
  wp_step. eapply wp_inode_at; [exact Ei|]. cbv beta.
  destruct (lookup_lt_is_Some_2 bs k) as [b E].
  { assert (off / 512 < Z.of_nat (length bs)) by (apply Z.div_lt_upper_bound; lia). lia. }
  wp_step. replace (off / 512) with (Z.of_nat k) at 1 by lia.
  eapply wp_mono; [by eapply bmap_old|]. intros ? s1 (-> & l1 & -> & Hl1).
  assert (Hub : usable T b) by (eapply Forall_lookup_1; [apply Hb|done]). pose proof Hub as (_ & Hbr & Hbf). rewrite (hb_dev _ _ _ Hb).
  wp_step. eapply fs_read; [exact Hl1|done|done|]. intros j l2 Hl2 Hj.
  set (m := Z.min (n - tot) (512 - off mod 512)). cbv zeta. set (x := slice (Z.to_nat tot) (Z.to_nat m) src).
  assert (Hx : length x = Z.to_nat m) by (apply length_slice; lia).
  assert (Hblk : length (tv_v T (tv_dev T, b)) = 512%nat) by (rewrite (txn_view_length _ _ _ Ha); [done|apply Hbf]).
  pose proof (rounds_step off (n - tot) ltac:(lia) ltac:(lia)) as Hstep. cbv zeta in Hstep. fold m in Hstep.
  pose proof (rounds_pos (off + m) (n - tot - m) ltac:(lia)).
  set (d := splice (Z.to_nat (off mod 512)) x (tv_v T (tv_dev T, b))). assert (Hd : length d = 512%nat) by (unfold d; rewrite length_splice; lia).
  eapply (fs_update_then _ T j b (splice (Z.to_nat (off mod 512)) x)); [exact Hl2|done|done|done|lia|exact Hd|].
  intros l3 Hl3. fold d in Hl3. set (T1 := t_upd (tv_dev T, b) d T) in *.
  assert (Hov : over bs T T1) by (apply over_upd; by eapply list_elem_of_lookup_2).
  assert (Hby : bytes T1 bs = splice (Z.to_nat off) x (bytes T bs)).
  { unfold T1. rewrite (bytes_upd s T bs k b d Ha (hb_usable _ _ _ Hb) (hb_nodup _ _ _ Hb) E Hd). unfold d.
    rewrite <- (bytes_block s T bs k b Ha (hb_usable _ _ _ Hb) E). rewrite splice_slice; [f_equal; lia|lia|]. apply lookup_lt_Some in E. lia. }
  wp_step. eapply wp_eq; [apply chk_u32_ok; unfold u32_max in *; lia|]. wp_step. eapply wp_eq; [apply chk_u32_ok; unfold u32_max in *; lia|].
  eapply wp_mono; [apply (IH _ T1 (tot + m) (off + m)); try done; try lia; [by apply (over_blocks bs T); [|apply Hb|]|..]|].
  - replace (n - (tot + m)) with (n - tot - m) by lia. lia.
  - replace (n - (tot + m)) with (n - tot - m) by lia. unfold T1. cbn [tv_left t_upd]. lia.
  - intros r s' (-> & l & T' & -> & Hl' & Hov' & Hby' & Hle). split; [lia|]. exists l, T'. split_and!; try done.
    + by eapply over_trans.
    + rewrite Hby', Hby. replace (Z.to_nat (off + m)) with (Z.to_nat off + length x)%nat by lia.
      rewrite splice_app by (rewrite length_slice by lia; lia). f_equal.
      unfold x. replace (Z.to_nat (tot + m)) with (Z.to_nat tot + Z.to_nat m)%nat by lia. rewrite slice_add. f_equal. lia.
    + replace (n - (tot + m)) with (n - tot - m) in Hle by lia. unfold T1 in Hle. cbn [tv_left t_upd] in Hle. lia.
Qed.

(** ** [iupdate] *)

(** Where the inode is on the disk: a usable block apart from those of its
    file. *)
Definition home (sb : Superblock) (ip : Inode) : Z := i_inum ip / IPB + sb_inodestart sb.
Definition slot (ip : Inode) : nat := Z.to_nat (i_inum ip mod IPB).
Record housed (sb : Superblock) (T : tview) (ip : Inode) (bs : list Z) : Prop := {
  ho_usable : usable T (home sb ip);
  ho_apart : home sb ip ∉ bs;
  ho_ind : (12 < length bs)%nat → nth 12 (i_addrs ip) 0 ≠ home sb ip;
}.

Lemma slot_range ip : (slot ip < Z.to_nat IPB)%nat.
Proof. unfold slot. change IPB with 8. pose proof (Z.mod_pos_bound (i_inum ip) 8). lia. Qed.

Lemma iupdate_spec s T i ip : fs_abs s T → tv_open T = ∅ → (size (tv_held T) ≤ 2)%nat → (0 < tv_left T)%nat →
  inodes s !! i = Some ip → i_dev ip = tv_dev T → length (i_addrs ip) = 13%nat → usable T (home (SB s) ip) →
  wp (iupdate i) s (λ _ s', ∃ l, s' = set_fl l s ∧ txn_abs l (t_upd (tv_dev T, home (SB s) ip)
    (put_dinode (slot ip) (to_dinode ip) (tv_v T (tv_dev T, home (SB s) ip))) T)).
Proof.
  intros Ha Ho Hh Hleft Ei Hdev Hlen (_ & Hr & Hf). unfold iupdate. wp_step. eapply wp_inode_at; [exact Ei|]. cbv beta.
  do 2 wp_step. wp_step. eapply wp_eq; [apply chk_u32_ok; unfold home, i32_hi, u32_max in *; lia|]. cbv beta. fold (home (SB s) ip). rewrite Hdev.
  wp_step. eapply fs_read; [exact Ha|exact Hf|done|]. intros j l Hl Hj.
  eapply (fs_update _ T j _ (put_dinode (slot ip) (to_dinode ip))); [exact Hl|done|done|done|done| |].
  - unfold put_dinode. rewrite length_splice; [by eapply txn_view_length; [exact Ha|apply Hf]|].
    rewrite length_enc_dinode by done. rewrite (txn_view_length _ _ _ Ha (proj1 Hf)). pose proof (slot_range ip).
    change (Z.to_nat IPB) with 8%nat in *. change (Z.to_nat BSIZE) with 512%nat. unfold sizeof_dinode. lia.
  - intros l' Hl'. by exists l'.
Qed.

Lemma bytes_over xs T T' bs : over xs T T' → (∀ b, b ∈ xs → b ∉ bs) → bytes T' bs = bytes T bs.
Proof.
  intros Ho Hx. unfold bytes. f_equal. apply list_fmap_ext. intros k b E. rewrite (ov_dev _ _ _ Ho). apply (ov_v _ _ _ Ho).
  intros c Hc [= ->]. apply (Hx c Hc). by eapply list_elem_of_lookup_2.
Qed.

Lemma i32_small x : 0 ≤ x < i32_hi → as_i32 x = x.
Proof.
  intros H. unfold as_i32. rewrite Z.mod_small by (unfold i32_hi, u32_max in *; lia). cbv zeta.
  by rewrite (proj2 (Z.ltb_lt x i32_hi)) by lia.
Qed.

Lemma writei_spec (devsw : Z → option (nat → Z → list Z → Z → M (fstate (D := D)) Z))
    (s : fstate (D := D)) (T : tview) (i : nat) (ip : Inode) (bs src : list Z) (off n : Z) :
  fs_abs s T → tv_open T = ∅ → (size (tv_held T) ≤ 2)%nat →
  inodes s !! i = Some ip → is_dev ip = false → has_blocks T ip bs → housed (SB s) T ip bs →
  0 ≤ off ≤ i_size ip → n = Z.of_nat (length src) → off + n ≤ Z.of_nat (512 * length bs) →
  rounds off n + 1 ≤ Z.of_nat (tv_left T) →
  let ip' := set_size (Z.max (i_size ip) (off + n)) ip in
  wp (writei devsw i src off n) s (λ r s', r = n ∧ ∃ l T', s' = set_inodes (<[i := ip']> (inodes s)) (set_fl l s) ∧ fs_abs s' T' ∧
    tv_open T' = ∅ ∧ tv_held T' = tv_held T ∧
    has_blocks T' ip' bs ∧ bytes T' bs = splice (Z.to_nat off) src (bytes T bs) ∧ over (home (SB s) ip :: bs) T T' ∧
    (i_size ip < off + n → tv_v T' (tv_dev T, home (SB s) ip) =
       put_dinode (slot ip) (to_dinode ip') (tv_v T (tv_dev T, home (SB s) ip))) ∧
    (off + n ≤ i_size ip → tv_v T' (tv_dev T, home (SB s) ip) = tv_v T (tv_dev T, home (SB s) ip))).
Proof.
  intros Ha Ho Hh Ei Hdev Hb Hho Hoff Hn Hfit Hleft ip'. pose proof (hb_max _ _ _ Hb) as Hmax. pose proof Hho as [Hu Hap Hai].
  unfold writei. wp_step. eapply wp_inode_at; [exact Ei|]. cbv beta. rewrite Hdev.
  rewrite (proj2 (Z.ltb_ge (i_size ip) off)) by lia. unfold as_u32. rewrite Z.mod_small by (unfold u32_max; lia).
  rewrite (proj2 (Z.ltb_ge (off + n) off)) by lia. cbn [orb]. wp_step. eapply wp_eq; [apply chk_u32_ok; unfold u32_max; lia|]. cbv beta.
  change (MAXFILE * BSIZE) with 71680. rewrite (proj2 (Z.ltb_ge 71680 (off + n))) by lia. wp_step.
  eapply wp_mono; [apply (writei_loop_spec _ i ip bs src n s T 0 off); rewrite ?Z.sub_0_r; try done; try lia; [unfold u32_max; lia|]|].
  { pose proof (rounds_bound off n ltac:(lia) ltac:(lia)). pose proof (Z.div_pos n 512 ltac:(lia) ltac:(lia)). change BSIZE with 512. lia. }
  rewrite Z.sub_0_r. intros ? s1 (-> & l1 & T1 & -> & Hl1 & Hov1 & Hby1 & Hle1).
  assert (Hsl : slice (Z.to_nat 0) (Z.to_nat n) src = src) by (unfold slice; rewrite drop_0; apply take_ge; lia). rewrite Hsl in Hby1.
  assert (Hb1 : has_blocks T1 ip bs) by (apply (over_blocks bs T); [done|apply Hb|done]).
  wp_step. eapply wp_inode_at; [exact Ei|]. cbv beta. rewrite i32_small by (unfold i32_hi; lia).
  assert (Hv1 : tv_v T1 (tv_dev T, home (SB s) ip) = tv_v T (tv_dev T, home (SB s) ip)).
  { apply (ov_v _ _ _ Hov1). intros b Hbb [= E]. by rewrite E in Hap. }
  assert (Hov1' : over (home (SB s) ip :: bs) T T1).
  { destruct Hov1 as [O1 O2 O3 O4 O5]. split; try done. intros k Hk. apply O5. intros b Hbb. apply Hk. by right. }
  destruct (Z.ltb_spec (i_size ip) (off + n)) as [Hg|Hg].
  - rewrite (proj2 (Z.ltb_lt 0 n)) by lia. cbn [andb]. do 2 wp_step. eapply wp_on_inode; [exact Ei|].
    assert (ip' = set_size (off + n) ip) as Eip by (unfold ip'; f_equal; lia). rewrite <- Eip.
    assert (Ei' : <[i := ip']> (inodes s) !! i = Some ip') by (apply list_lookup_insert_eq; by eapply lookup_lt_Some).
    pose proof (rounds_pos off n ltac:(lia)).
    eapply wp_mono; [apply (iupdate_spec _ T1 i ip')|].
    + exact Hl1.
    + by rewrite (ov_open _ _ _ Hov1).
    + by rewrite (ov_held _ _ _ Hov1).
    + lia.
    + exact Ei'.
    + rewrite (ov_dev _ _ _ Hov1). apply Hb.
    + apply Hb.
    + eapply over_usable; [exact Hov1|exact Hu].
    + cbn [SB set_inodes set_fl]. change (home (SB s) ip') with (home (SB s) ip). change (slot ip') with (slot ip).
      rewrite (ov_dev _ _ _ Hov1), Hv1. intros ? s2 (l2 & -> & Hl2). wp_step. split; [done|]. exists l2. eexists. split; [done|].
      split; [exact Hl2|]. assert (Hup : over [home (SB s) ip] T1 (t_upd (tv_dev T, home (SB s) ip) (put_dinode (slot ip) (to_dinode ip') (tv_v T (tv_dev T, home (SB s) ip))) T1)).
      { rewrite <- (ov_dev _ _ _ Hov1). apply over_upd. by left. }
      split_and!.
      * by rewrite (ov_open _ _ _ Hup), (ov_open _ _ _ Hov1).
      * by rewrite (ov_held _ _ _ Hup), (ov_held _ _ _ Hov1).
      * destruct (over_blocks _ _ _ ip bs Hup) as [B1 B2 B3 B4 B5 B6 B7]; [|done|by split].
        intros Hl E12%list_elem_of_singleton. by apply Hai.
      * rewrite (bytes_over _ _ _ bs Hup); [done|]. by intros b ->%list_elem_of_singleton.
      * eapply over_trans; [exact Hov1'|]. destruct Hup as [O1 O2 O3 O4 O5]. split; try done. intros k Hk. apply O5.
        intros b ->%list_elem_of_singleton. apply Hk. by left.
      * intros _. cbn [tv_v t_upd]. by rewrite fn_lookup_insert.
      * lia.
  - rewrite andb_false_r. do 3 wp_step. split; [done|]. exists l1, T1.
    assert (ip' = ip) as Eip by (unfold ip'; rewrite Z.max_l by lia; by destruct ip). rewrite Eip.
    split_and!; try done; [|by rewrite (ov_open _ _ _ Hov1)|by rewrite (ov_held _ _ _ Hov1)|lia].
    rewrite list_insert_id by done. by destruct s.
Qed.

(** C6: Writing into the blocks a file has changes exactly the bytes written.
    [writei] returns the length, the bytes of the file are those before with
    the source spliced in at [off], the size is the end of the write if that is
    larger, in the inode in memory and then also in the inode on the disk, and
    no block but those of the file and that of its inode changes. A write that
    starts past the end of the file, whose end does not fit 32 bits or is past
    the largest file, returns -1 and changes nothing. *)
Theorem writei_writes (devsw : Z → option (nat → Z → list Z → Z → M (fstate (D := D)) Z))
    (s : fstate (D := D)) (T : tview) (i : nat) (ip : Inode) (bs : list Z)
    (Ha : fs_abs s T) (Ho : tv_open T = ∅) (Hh : (size (tv_held T) ≤ 2)%nat)
    (Ei : inodes s !! i = Some ip) (Hdev : is_dev ip = false) (Hb : has_blocks T ip bs) (Hho : housed (SB s) T ip bs) :
  (∀ src off n, 0 ≤ off ≤ i_size ip → n = Z.of_nat (length src) → off + n ≤ Z.of_nat (512 * length bs) →
     rounds off n + 1 ≤ Z.of_nat (tv_left T) →
     let ip' := set_size (Z.max (i_size ip) (off + n)) ip in
     wp (writei devsw i src off n) s (λ r s', r = n ∧ ∃ l T', s' = set_inodes (<[i := ip']> (inodes s)) (set_fl l s) ∧ fs_abs s' T' ∧
       tv_open T' = ∅ ∧ tv_held T' = tv_held T ∧
       has_blocks T' ip' bs ∧ bytes T' bs = splice (Z.to_nat off) src (bytes T bs) ∧ over (home (SB s) ip :: bs) T T' ∧
       (i_size ip < off + n → tv_v T' (tv_dev T, home (SB s) ip) =
          put_dinode (slot ip) (to_dinode ip') (tv_v T (tv_dev T, home (SB s) ip))) ∧
       (off + n ≤ i_size ip → tv_v T' (tv_dev T, home (SB s) ip) = tv_v T (tv_dev T, home (SB s) ip)))) ∧
  (∀ src off n, 0 ≤ off < u32_max → 0 ≤ n < u32_max →
     i_size ip < off ∨ u32_max ≤ off + n ∨ MAXFILE * BSIZE < off + n → writei devsw i src off n s = Ok (-1, s)).
Proof.
  split; [intros src off n; by apply writei_spec|]. intros src off n Hoff Hn Hbad.
  unfold writei. rewrite (bind_ok _ _ s ip s) by (unfold inode_at, bind, get; by rewrite Ei). rewrite Hdev.
  destruct (Z.ltb_spec (i_size ip) off); [done|]. destruct (Z.le_gt_cases u32_max (off + n)) as [H32|H32].
  - rewrite (proj2 (Z.ltb_lt (as_u32 (off + n)) off)); [done|]. unfold as_u32, u32_max in *. Z.to_euclidean_division_equations; lia.
  - unfold as_u32. rewrite Z.mod_small by lia. rewrite (proj2 (Z.ltb_ge (off + n) off)) by lia. cbn [orb].
    erewrite bind_ok; [|apply chk_u32_ok; lia]. by rewrite (proj2 (Z.ltb_lt (MAXFILE * BSIZE) (off + n))) by lia.
Qed.

(** What is written is what is read: a [readi] of the same range after a
    [writei] returns the bytes that were written, across block boundaries and
    through the indirect block. *)
Theorem writei_then_readi (rd : Z → option (nat → Z → Z → M (fstate (D := D)) (Z * list Z)))
    (wr : Z → option (nat → Z → list Z → Z → M (fstate (D := D)) Z))
    (s : fstate (D := D)) (T : tview) (i : nat) (ip : Inode) (bs src : list Z) (off n : Z)
    (Ha : fs_abs s T) (Ho : tv_open T = ∅) (Hh : (size (tv_held T) ≤ 2)%nat)
    (Ei : inodes s !! i = Some ip) (Hdev : is_dev ip = false) (Hb : has_blocks T ip bs) (Hho : housed (SB s) T ip bs)
    (Hsz : i_size ip ≤ Z.of_nat (512 * length bs))
    (Hoff : 0 ≤ off ≤ i_size ip) (Hn : n = Z.of_nat (length src)) (Hfit : off + n ≤ Z.of_nat (512 * length bs))
    (Hleft : rounds off n + 1 ≤ Z.of_nat (tv_left T)) :
  wp (writei wr i src off n ;;; readi rd i off n) s (λ '(r, dst) s', r = n ∧ dst = src).
Proof.
  pose proof (hb_max _ _ _ Hb) as Hmax. pose proof (length_bytes s T bs Ha (hb_usable _ _ _ Hb)) as Hlb. wp_step.
  eapply wp_mono; [by apply (writei_spec wr s T i ip bs src off n)|]. cbv zeta. set (ip' := set_size _ ip).
  intros ? s1 (-> & l & T' & -> & Ha' & Ho' & Hh' & Hb' & Hby & _).
  assert (Ei' : <[i := ip']> (inodes s) !! i = Some ip') by (apply list_lookup_insert_eq; by eapply lookup_lt_Some).
  eapply wp_mono; [apply (readi_spec rd _ T' i ip' bs off n); try done; [by rewrite Hh'|cbn; lia|unfold u32_max; lia|unfold u32_max; lia]|].
  intros [r dst] s2 (l2 & -> & _ & Hr). cbn [i_size ip' set_size] in Hr.
  rewrite (proj2 (Z.ltb_ge (Z.max (i_size ip) (off + n)) off)), (proj2 (Z.leb_gt u32_max (off + n))) in Hr by (unfold u32_max; lia).
  cbn [orb] in Hr. destruct Hr as [-> ->]. split; [lia|]. rewrite Hby.
  replace (Z.to_nat (Z.min n _)) with (length src) by lia. unfold slice. rewrite skipn_firstn_comm, take_take.
  replace (Nat.min _ _) with (length src) by lia. apply slice_splice_same. lia.
Qed.

(** ** [dirlookup] *)

(** The entries of a directory, and the first one that the lookup accepts,
    with its index. *)
Definition matches (name : list Z) (de : Dirent) : bool :=
  negb (de_inum de =? 0) && namecmp (take (name_len name) name) (de_name de).
Fixpoint first_match (name : list Z) (j : nat) (des : list Dirent) : option (nat * Dirent) :=
  match des with
  | [] => None
  | de :: des' => if matches name de then Some (j, de) else first_match name (S j) des'
  end.

Lemma length_entries des : Forall rd_dirent_ok des → length (concat (enc_dirent <$> des)) = (16 * length des)%nat.
Proof.
  induction 1 as [|de des [_ Hn] _ IH]; [done|]. rewrite fmap_cons. cbn [concat]. rewrite length_app, IH.
  unfold enc_dirent. rewrite length_app, length_le_bytes, Hn. simpl. lia.
Qed.
Lemma entry_slice des j de : Forall rd_dirent_ok des → des !! j = Some de →
  slice (16 * j) 16 (concat (enc_dirent <$> des)) = enc_dirent de.
Proof.
  intros Ho E. rewrite <- (take_drop_middle _ _ _ E). rewrite fmap_app, fmap_cons, concat_app. cbn [concat]. unfold slice.
  assert (rd_dirent_ok de) as [_ Hn] by (by eapply Forall_lookup_1).
  rewrite drop_app_length'.
  - rewrite take_app_length'; [done|]. unfold enc_dirent. by rewrite length_app, length_le_bytes, Hn.
  - rewrite length_entries by (by apply Forall_take). rewrite length_take. apply lookup_lt_Some in E. lia.
Qed.

Lemma dirlookup_from_spec (devsw : Z → option (nat → Z → Z → M (fstate (D := D)) (Z * list Z))) fuel dp ip bs name des :
  ∀ s T j, fs_abs s T → tv_open T = ∅ → (size (tv_held T) ≤ 2)%nat →
  inodes s !! dp = Some ip → is_dev ip = false → has_blocks T ip bs → Forall rd_dirent_ok des →
  i_size ip = Z.of_nat (16 * length des) → take (16 * length des) (bytes T bs) = concat (enc_dirent <$> des) →
  (j ≤ length des)%nat → (length des - j < fuel)%nat →
  ∃ l, txn_abs l T ∧ dirlookup_from devsw fuel dp name (Z.of_nat (16 * j)) s =
    match first_match name j (drop j des) with
    | Some (k, de) => (let* i := iget (i_dev ip) (de_inum de) in ret (Some (i, Z.of_nat (16 * k)))) (set_fl l s)
    | None => Ok (None, set_fl l s)
    end.
Proof.
  induction fuel as [|fuel IH]; intros s T j Ha Ho Hh Ei Hdev Hb Hd Hsz Hby Hj Hf; [lia|].
  pose proof (hb_max _ _ _ Hb) as Hmax. pose proof (length_bytes s T bs Ha (hb_usable _ _ _ Hb)) as Hlb.
  assert (Hlen : (16 * length des ≤ 512 * length bs)%nat).
  { apply (f_equal length) in Hby. rewrite length_entries, length_take in Hby by done. lia. }
  cbn [dirlookup_from]. rewrite (bind_ok _ _ s ip s) by (unfold inode_at, bind, get; by rewrite Ei). rewrite Hsz.
  destruct (Z.ltb_spec (Z.of_nat (16 * j)) (Z.of_nat (16 * length des))) as [Hlt|Hge].
  2: { exists (fl s). split; [done|]. rewrite drop_ge by lia. by rewrite set_fl_same. }
  destruct (lookup_lt_is_Some_2 des j) as [de Ede]; [lia|]. change de_size with 16.
  pose proof (readi_spec devsw s T dp ip bs (Z.of_nat (16 * j)) 16 Ha Ho Hh Ei Hdev Hb ltac:(lia) ltac:(unfold u32_max; lia) ltac:(unfold u32_max; lia)) as W.
  apply wp_ok in W as ([r dst] & s1 & E & l1 & -> & Hl1 & Hr). rewrite (bind_ok _ _ _ _ _ E). rewrite Hsz in Hr.
  rewrite (proj2 (Z.ltb_ge _ _)), (proj2 (Z.leb_gt _ _)) in Hr by (unfold u32_max; lia). cbn [orb] in Hr. destruct Hr as [Hr ->].
  assert (r = 16) as -> by lia. cbn [Z.eqb Pos.eqb negb]. cbv zeta.
  rewrite !Nat2Z.id, Hby. change (Z.to_nat 16) with 16%nat. rewrite (entry_slice des j de Hd Ede).
  rewrite dec_enc_dirent by (by eapply Forall_lookup_1). fold (matches name de).
  rewrite (drop_S _ _ _ Ede). cbn [first_match]. destruct (matches name de).
  - by exists l1.
  - erewrite bind_ok; [|apply chk_u32_ok; unfold u32_max; lia].
    replace (Z.of_nat (16 * j) + 16) with (Z.of_nat (16 * S j)) by lia.
    apply (IH (set_fl l1 s) T (S j)); try done; lia.
Qed.

(** C28: A lookup finds the first entry in use that [namecmp] accepts for the
    name, in the order of the directory, and returns the inode of that entry
    by [iget] with the offset of the entry; with no such entry it returns
    none. The directory and the disk stay as they are. *)
Theorem dirlookup_first (devsw : Z → option (nat → Z → Z → M (fstate (D := D)) (Z * list Z)))
    (s : fstate (D := D)) (T : tview) (dp : nat) (ip : Inode) (bs name : list Z) (des : list Dirent)
    (Ha : fs_abs s T) (Ho : tv_open T = ∅) (Hh : (size (tv_held T) ≤ 2)%nat)
    (Ei : inodes s !! dp = Some ip) (Hdir : i_type ip = T_DIR) (Hb : has_blocks T ip bs) (Hd : Forall rd_dirent_ok des)
    (Hsz : i_size ip = Z.of_nat (16 * length des)) (Hby : take (16 * length des) (bytes T bs) = concat (enc_dirent <$> des)) :
  ∃ l, txn_abs l T ∧ dirlookup devsw dp name s =
    match first_match name 0 des with
    | Some (k, de) => (let* i := iget (i_dev ip) (de_inum de) in ret (Some (i, Z.of_nat (16 * k)))) (set_fl l s)
    | None => Ok (None, set_fl l s)
    end.
Proof.
  unfold dirlookup. rewrite (bind_ok _ _ s ip s) by (unfold inode_at, bind, get; by rewrite Ei).
  unfold is_dir. rewrite Hdir. change (T_DIR =? T_DIR) with true. cbn [negb].
  apply (dirlookup_from_spec devsw _ dp ip bs name des s T 0); try done; [unfold is_dev; by rewrite Hdir|lia|].
  unfold dir_fuel. rewrite Hsz. change de_size with 16. Z.to_euclidean_division_equations; lia.
Qed.

End data.

(** ** Witnesses: a file of 600 bytes in blocks 100 and 101 *)

Definition ino3 : Inode := mkInode 1 1 1 zero_lock I_VALID T_FILE 0 0 1 600 ([100; 101] ++ replicate 11 0).
Definition fs3 (b : bio (D := Memide.memdisk)) : fstate (D := Memide.memdisk) :=
  mkFs (mkL log0 b []) sb0 (mkSpin 0 EmptyString None) [ino3] [] None.
Lemma fs3_abs : ∃ b, fs_abs (fs3 b) T2.
Proof. destruct fs2_abs as [b Ha]. by exists b. Qed.
Lemma ino3_blocks : has_blocks T2 ino3 [100; 101].
Proof.
  split; try done; [simpl; lia| | | |simpl; lia].
  - intros k b E. destruct k as [|[|k]]; simpl in E; by simplify_eq.
  - repeat constructor; try done; by apply disk2_ok.
  - repeat constructor; set_solver.
Qed.
Lemma ino3_housed : housed sb0 T2 ino3 [100; 101].
Proof. split; [|by vm_compute; set_solver|simpl; lia]. by split_and!. Qed.

Lemma readi_reads_witness : ∃ s : fstate (D := Memide.memdisk), fs_abs s T2 ∧
  wp (readi (λ _, None) 0 590 100) s (λ '(r, dst) _, r = 10 ∧ dst = replicate 10 0).
Proof.
  destruct fs3_abs as [b Ha]. exists (fs3 b). split; [exact Ha|].
  eapply wp_mono; [apply (readi_reads (λ _, None) (fs3 b) T2 0 ino3 [100; 101] 590 100 Ha eq_refl ltac:(vm_compute; lia) eq_refl eq_refl ino3_blocks);
    [simpl; lia|unfold u32_max; lia|unfold u32_max; lia]|].
  intros [r dst] s' (l & _ & _ & H). cbn in H. destruct H as [-> ->]. split; [done|]. vm_compute. reflexivity.
Defined.

Lemma writei_writes_witness : ∃ s : fstate (D := Memide.memdisk), fs_abs s T2 ∧
  wp (writei (λ _, None) 0 (replicate 20 7) 500 20) s (λ r s', r = 20 ∧ ∃ T', fs_abs s' T' ∧
    bytes T' [100; 101] = splice 500 (replicate 20 7) (bytes T2 [100; 101])) ∧
  writei (λ _, None) 0 [] 601 0 s = Ok (-1, s).
Proof.
  destruct fs3_abs as [b Ha]. exists (fs3 b). split; [exact Ha|].
  destruct (writei_writes (λ _, None) (fs3 b) T2 0 ino3 [100; 101] Ha eq_refl ltac:(vm_compute; lia) eq_refl eq_refl ino3_blocks ino3_housed) as [H1 H2].
  split.
  - eapply wp_mono; [apply (H1 (replicate 20 7) 500 20); [simpl; lia|done|simpl; lia|vm_compute; discriminate]|].
    intros r s' (-> & l & T' & -> & Ha' & _ & _ & _ & Hby & _). split; [done|]. by exists T'.
  - apply H2; [unfold u32_max; lia|unfold u32_max; lia|left; done].
Defined.

Lemma writei_then_readi_witness : ∃ s : fstate (D := Memide.memdisk), fs_abs s T2 ∧
  wp (writei (λ _, None) 0 (replicate 20 7) 500 20 ;;; readi (λ _, None) 0 500 20) s (λ '(r, dst) _, r = 20 ∧ dst = replicate 20 7).
Proof.
  destruct fs3_abs as [b Ha]. exists (fs3 b). split; [exact Ha|].
  apply (writei_then_readi (λ _, None) (λ _, None) (fs3 b) T2 0 ino3 [100; 101] (replicate 20 7) 500 20 Ha eq_refl ltac:(vm_compute; lia)
    eq_refl eq_refl ino3_blocks ino3_housed); [simpl; lia|simpl; lia|done|simpl; lia|vm_compute; discriminate].
Defined.

(** A directory of two entries in block 100: a free one and file [a]. *)
Definition des4 : list Dirent := [EMPTY; mkDirent 5 (97 :: replicate 13 0)].
Definition disk4 : Memide.memdisk :=
  Memide.ideinit (Mem.store_bytes (100 * 512) (concat (enc_dirent <$> des4)) (Mem.store_bytes 512 (enc_sb sb0) (λ _, 0))) (2000 * BSIZE).
Definition T4 : tview := mkT 1 (c_ok (cache_empty disk4)) (c_view (cache_empty disk4)) ∅ ∅ 5.
Definition ino4 : Inode := mkInode 1 1 1 zero_lock I_VALID T_DIR 0 0 1 32 ([100] ++ replicate 12 0).
Definition fs4 (b : bio (D := Memide.memdisk)) : fstate (D := Memide.memdisk) :=
  mkFs (mkL log0 b []) sb0 (mkSpin 0 EmptyString None) [ino4] [] None.
Lemma fs4_abs : ∃ b, fs_abs (fs4 b) T4.
Proof.
  destruct (proj1 (wp_ok _ _ _) (binit_abs disk4 1)) as (u0 & b & _ & Ha & _).
  exists b, (cache_empty disk4), 0%nat. split; try done.
  - split; [done|done|intros; lia| |intros; lia]. intros k. split; [set_solver|]. intros (i & ? & _). lia.
  - vm_compute. lia.
Qed.
Lemma ino4_blocks : has_blocks T4 ino4 [100].
Proof.
  split; try done; [simpl; lia| | |apply NoDup_singleton|simpl; lia].
  - intros k b E. destruct k as [|k]; simpl in E; by simplify_eq.
  - repeat constructor; done.
Qed.

Lemma dirlookup_first_witness : ∃ s l, txn_abs l T4 ∧
  dirlookup (λ _, None) 0 [97] s = (let* i := iget 1 5 in ret (Some (i, 16))) (set_fl l s).
Proof.
  destruct fs4_abs as [b Ha]. exists (fs4 b).
  destruct (dirlookup_first (λ _, None) (fs4 b) T4 0 ino4 [100] [97] des4 Ha eq_refl ltac:(vm_compute; lia) eq_refl eq_refl ino4_blocks)
    as (l & Hl & E).
  - repeat constructor; vm_compute; congruence.
  - reflexivity.
  - vm_compute. reflexivity.
  - exists l. split; [exact Hl|]. etransitivity; [exact E|]. reflexivity.
Defined.

End FsData.
