(* ===== verification/FsImage.v ===== *)
(** * The kernel on the image of mkfs

    The composition of mkfs/src/main.rs with crates/fs/src/fs.rs: what [ilock]
    and [readi] give for the inodes of an image that [mkfs] has made. *)

From S2P Require Import Prelude Param Sync Mem Disk Ring Bio Fsh Log Fs Txn FsBlocks Icache FsData Mkfs.
Import Sync Bio Fsh Log Fs Txn FsBlocks Icache FsData.

Module FsImage.

(** The blocks of the image are those of the disk. *)
Definition on_disk (img : Mkfs.mkfs) (T : tview) : Prop :=
  tv_dev T = 1 ∧ ∀ b, 0 ≤ b < FSSIZE → tv_ok T (1, b) ∧ tv_v T (1, b) = Mkfs.sect img b.

Section image.
Context {D : Type} `{!BlockDev D}.
Implicit Types s : fstate (D := D).

(** [ilock] of an inode that has not been read yet. *)
Lemma ilock_spec s T i ip : fs_abs s T → tv_open T = ∅ → (size (tv_held T) ≤ 2)%nat →
  inodes s !! i = Some ip → 1 ≤ i_ref ip → sl_locked (i_lock ip) = 0 → Fs.is_valid ip = false → i_dev ip = tv_dev T →
  usable T (home (SB s) ip) →
  let di := get_dinode (slot ip) (tv_v T (tv_dev T, home (SB s) ip)) in
  di_type di ≠ 0 →
  wp (ilock i) s (λ _ s', ∃ l lk, s' = set_inodes (<[i := mark_valid (from_dinode di (set_ilock lk ip))]> (inodes s)) (set_fl l s) ∧
    txn_abs l T).
Proof.
  intros Ha Ho Hh Ei Href Hlk Hv Hdev (_ & Hr & Hf) di Hty. assert (Hi : (i < length (inodes s))%nat) by (by eapply lookup_lt_Some).
  unfold ilock. wp_step. eapply wp_inode_at; [exact Ei|]. cbv beta. rewrite (proj2 (Z.ltb_ge (i_ref ip) 1)) by done. do 2 wp_step.
  set (lk := mkSleep 1 (set_locked 0 (sl_lk (i_lock ip))) (sl_name (i_lock ip)) (cur_pid (lb (fl s)))).
  set (s1 := set_inodes (<[i := set_ilock lk ip]> (inodes s)) s).
  wp_step. eapply (wp_eq _ _ tt s1).
  { unfold with_ilock. rewrite Ei. rewrite acquiresleep_free by done. unfold s1. by rewrite (alter_is_insert _ _ _ _ Ei). }
  assert (E1 : inodes s1 !! i = Some (set_ilock lk ip)) by (by apply list_lookup_insert_eq).
  wp_step. eapply wp_inode_at; [exact E1|]. cbv beta.
  change (Fs.is_valid (set_ilock lk ip)) with (Fs.is_valid ip). rewrite Hv. cbn [negb]. do 2 wp_step.
  change (i_inum (set_ilock lk ip)) with (i_inum ip). change (i_dev (set_ilock lk ip)) with (i_dev ip). change (SB s1) with (SB s).
  wp_step. eapply wp_eq; [apply chk_u32_ok; unfold home, i32_hi, u32_max in *; lia|]. cbv beta. fold (home (SB s) ip). rewrite Hdev.
  wp_step. eapply fs_read; [exact Ha|exact Hf|done|]. intros j l Hl Hj.
  wp_step. eapply fs_data; [exact Hl|apply lookup_insert_eq|]. intros x Hx Hd. rewrite Hd. cbn [tv_v t_hold]. fold (slot ip). fold di.
  wp_step. eapply wp_on_inode; [exact E1|]. wp_step. eapply wp_on_inode; [apply list_lookup_insert_eq; cbn; by rewrite length_insert|].
  wp_step. eapply wp_inode_at; [apply list_lookup_insert_eq; cbn; by rewrite !length_insert|]. cbv beta.
  change (i_type (mark_valid (from_dinode di (set_ilock lk ip)))) with (di_type di). rewrite (proj2 (Z.eqb_neq _ 0)) by done.
  do 2 wp_step. eapply fs_release; [exact Hl|done|done|]. intros l' Hl'. exists l', lk. split; [|done].
  unfold s1. cbn. by rewrite !list_insert_insert_eq.
Qed.

(** The blocks of an inode of the image, for the inode the kernel has read. *)
Lemma image_blocks files total img T ip i : Mkfs.image files total img → total ≤ FSSIZE → on_disk img T → tv_held T = ∅ →
  1 ≤ i ≤ Z.of_nat (length files) + 1 → i_dev ip = 1 → i_addrs ip = di_addrs (Mkfs.inode img i) →
  has_blocks T ip (Mkfs.blocks_of img i) ∧
  bytes T (Mkfs.blocks_of img i) = concat (Mkfs.sect img <$> Mkfs.blocks_of img i).
Proof.
  intros Him Htot [Hdv Hdisk] Hheld Hi Hdev Haddr. destruct (Mkfs.ig_used _ _ _ Him i Hi) as [Hnd Hrange].
  destruct (Mkfs.ig_map _ _ _ Him i Hi) as (Hlen & Hmax & _ & Hl). set (bs := Mkfs.blocks_of img i) in *.
  change Mkfs.n_meta with 59 in *. unfold Mkfs.used in Hnd, Hrange. fold bs in Hnd, Hrange.
  assert (Hus : ∀ b, 59 ≤ b < total → usable T b).
  { intros b Hb. unfold usable, t_free. rewrite Hdv, Hheld. split; [lia|]. split; [unfold i32_hi, FSSIZE in *; lia|]. split; [|done]. apply Hdisk. lia. }
  assert (Hin : Forall (λ b, 59 ≤ b < total) bs) by (by apply Forall_app in Hrange as [H _]).
  assert (Hind : (12 < length bs)%nat → 59 ≤ nth 12 (i_addrs ip) 0 < total ∧ nth 12 (i_addrs ip) 0 ∉ bs).
  { intros H12. rewrite Mkfs.own_big in Hnd, Hrange by done. rewrite Haddr. fold (Mkfs.addr (Mkfs.inode img i) 12).
    apply Forall_app in Hrange as [_ [Hr _]%Forall_cons]. split; [exact Hr|].
    apply NoDup_app in Hnd as (_ & Hd & _). intros H. by apply (Hd _ H), list_elem_of_singleton. }
  split.
  - split.
    + by rewrite Hdv.
    + by rewrite Haddr.
    + done.
    + intros k b E. assert (Hk : (k < length bs)%nat) by (by eapply lookup_lt_Some).
      unfold bs, Mkfs.blocks_of in E. rewrite list_lookup_fmap in E. apply fmap_Some in E as (k' & Ek & ->).
      apply lookup_seq in Ek as [-> _]. unfold block_addr, Mkfs.block_of. cbn [Nat.add]. rewrite Haddr.
      destruct (Nat.ltb_spec k 12); [done|]. destruct (Hind ltac:(lia)) as [Hr _]. rewrite Haddr in Hr.
      rewrite Hdv. unfold Mkfs.addr. rewrite (proj2 (Hdisk (nth 12 (di_addrs (Mkfs.inode img i)) 0) ltac:(lia))). f_equal. lia.
    + eapply Forall_impl; [exact Hin|]. intros b Hb. by apply Hus.
    + unfold Mkfs.own in Hnd. by apply NoDup_app in Hnd as [H _].
    + intros H12. destruct (Hind H12) as [Hr Hn]. split; [by apply Hus|done].
  - unfold bytes. f_equal. apply list_fmap_ext. intros k b E. rewrite Hdv. apply Hdisk.
    apply (Forall_lookup_1 _ _ _ _ Hin) in E. simpl in E. lia.
Qed.

(** C5: The kernel reads back the files [mkfs] was given. On a disk with the
    image that [mkfs] makes of files that fit, locking the inode of a file -
    which reads it from its inode block - and reading from offset 0 returns
    exactly the bytes of the file, for every file, through direct and indirect
    blocks. *)
Theorem mkfs_files_readable (files : list (list Z * list Z)) (Hn : Z.of_nat (length files) ≤ 198)
    (Hsize : Forall (λ f, Z.of_nat (length f.2) ≤ MAXFILE * BSIZE) files)
    (Hfit : Mkfs.n_meta + Z.of_nat (Mkfs.cost (32 + 16 * length files)) + Mkfs.file_costs files ≤ FSSIZE) :
  wp (Mkfs.main files) Mkfs.new (λ _ img, ∀ (s : fstate (D := D)) (T : tview) (i k : nat) (ip : Inode) (name c : list Z)
      (rd : Z → option (nat → Z → Z → M (fstate (D := D)) (Z * list Z))),
    on_disk img T → fs_abs s T → tv_open T = ∅ → tv_held T = ∅ → SB s = Mkfs.mkfs_sb → files !! k = Some (name, c) →
    inodes s !! i = Some ip → i_dev ip = 1 → i_inum ip = Z.of_nat k + 2 → 1 ≤ i_ref ip → sl_locked (i_lock ip) = 0 →
    Fs.is_valid ip = false →
    wp (ilock i ;;; readi rd i 0 (Z.of_nat (length c))) s (λ '(r, dst) _, r = Z.of_nat (length c) ∧ dst = c)).
Proof.
  eapply wp_mono; [by apply Mkfs.main_spec|]. cbv beta. set (total := Mkfs.n_meta + _ + _) in *.
  intros ? img Him s T i k ip name c rd Hdisk Ha Ho Hheld Hsb Ek Ei Hdev Hinum Href Hlk Hv.
  assert (Hkl : (k < length files)%nat) by (by eapply lookup_lt_Some). destruct (Mkfs.ig_file _ _ _ Him k name c Ek) as [Hty Hc].
  set (inum := Z.of_nat k + 2) in *. assert (Hir : 1 ≤ inum ≤ Z.of_nat (length files) + 1) by lia.
  destruct (Mkfs.ig_map _ _ _ Him inum Hir) as (Hlen & Hmax & Hsz & Hbl). rewrite Hc in Hsz, Hbl.
  pose proof Hdisk as [Hdv Hd]. assert (Hh : (size (tv_held T) ≤ 2)%nat) by (rewrite Hheld; by vm_compute; lia).
  assert (Hhome : 32 ≤ home (SB s) ip < 58).
  { unfold home. rewrite Hsb, Hinum. change (sb_inodestart Mkfs.mkfs_sb) with 32. change IPB with 8. Z.to_euclidean_division_equations; lia. }
  assert (Husable : usable T (home (SB s) ip)).
  { unfold usable, t_free. rewrite Hdv, Hheld. split; [lia|]. split; [unfold i32_hi; lia|]. split; [|done]. apply Hd. unfold FSSIZE. lia. }
  assert (Hdi : get_dinode (slot ip) (tv_v T (tv_dev T, home (SB s) ip)) = Mkfs.inode img inum).
  { rewrite Hdv, (proj2 (Hd (home (SB s) ip) ltac:(unfold FSSIZE; lia))). unfold slot, home, Mkfs.inode. by rewrite Hsb, Hinum. }
  wp_step. eapply wp_mono; [apply (ilock_spec s T i ip); try done; [by rewrite Hdv|by rewrite Hdi, Hty]|].
  rewrite Hdi. intros ? s1 (l & lk & -> & Hl). set (ip' := mark_valid _).
  assert (Ei' : <[i := ip']> (inodes s) !! i = Some ip') by (apply list_lookup_insert_eq; by eapply lookup_lt_Some).
  destruct (image_blocks files total img T ip' inum Him Hfit Hdisk Hheld Hir) as [Hb Hby]; [done|done|].
  assert (Hsz' : i_size ip' = Z.of_nat (length c)) by exact Hsz.
  assert (Hcl : (length c ≤ 512 * length (Mkfs.blocks_of img inum))%nat).
  { rewrite Hbl. unfold Mkfs.nb. pose proof (Nat.div_mod (length c + 511) 512 ltac:(lia)). pose proof (Nat.mod_upper_bound (length c + 511) 512 ltac:(lia)). lia. }
  eapply wp_mono; [apply (readi_spec rd _ T i ip' (Mkfs.blocks_of img inum) 0 (Z.of_nat (length c))); try done|].
  - change (is_dev ip') with (di_type (Mkfs.inode img inum) =? T_DEV). by rewrite Hty.
  - rewrite Hsz'. lia.
  - unfold u32_max. lia.
  - intros [r dst] s2 (l2 & _ & _ & Hr). rewrite Hsz' in Hr.
    rewrite (proj2 (Z.ltb_ge _ _)), (proj2 (Z.leb_gt _ _)) in Hr by (unfold u32_max; lia). cbn [orb] in Hr. destruct Hr as [-> ->].
    split; [lia|]. rewrite Hby, Z.sub_0_r, Z.min_id, !Nat2Z.id. unfold slice. rewrite drop_0, take_take, Nat.min_id.
    unfold Mkfs.contents in Hc. by rewrite Hsz, Nat2Z.id in Hc.
Qed.

End image.

(** ** The image as the memory disk *)

Definition image_disk (img : Mkfs.mkfs) : Memide.memdisk :=
  Memide.mkMemdisk FSSIZE (λ a, nth (Z.to_nat (a mod 512)) (Mkfs.sect img (a / 512)) 0).
Definition image_view (img : Mkfs.mkfs) : tview :=
  mkT 1 (c_ok (cache_empty (image_disk img))) (c_view (cache_empty (image_disk img))) ∅ ∅ 0.

Lemma image_on_disk img : (∀ k, length (Mkfs.sect img k) = 512%nat) → on_disk img (image_view img).
Proof.
  intros Hl. split; [done|]. intros b Hb. split; [by split|]. cbn. unfold Memide.blk.
  apply list_eq. intros i. change (Z.to_nat BSIZE) with 512%nat. change BSIZE with 512. destruct (decide (i < 512)%nat) as [Hi|Hi].
  - rewrite Mem.load_bytes_lookup by done. cbn [Memide.MEMDISK image_disk].
    replace ((b * 512 + Z.of_nat i) mod 512) with (Z.of_nat i) by (Z.to_euclidean_division_equations; lia).
    replace ((b * 512 + Z.of_nat i) / 512) with b by (Z.to_euclidean_division_equations; lia). rewrite Nat2Z.id.
    destruct (lookup_lt_is_Some_2 (Mkfs.sect img b) i) as [x E]; [by rewrite Hl|]. by rewrite (nth_lookup_Some _ _ _ _ E), E.
  - rewrite !lookup_ge_None_2; [done|rewrite Hl; lia|rewrite Mem.length_load_bytes; lia].
Qed.

(** A kernel with one free slot of the inode cache taken for inode [inum]. *)
Definition ino5 (inum : Z) : Inode := mkInode 1 inum 1 zero_lock 0 0 0 0 0 0 [].
Definition fs5 (inum : Z) (b : bio (D := Memide.memdisk)) : fstate (D := Memide.memdisk) :=
  mkFs (mkL log0 b []) Mkfs.mkfs_sb (mkSpin 0 EmptyString None) [ino5 inum] [] None.
Lemma fs5_abs inum img : ∃ b, fs_abs (fs5 inum b) (image_view img).
Proof.
  destruct (proj1 (wp_ok _ _ _) (binit_abs (image_disk img) 1)) as (u0 & b & _ & Ha & _).
  exists b, (cache_empty (image_disk img)), 0%nat. split; try done.
  - split; [done|done|intros; lia| |intros; lia]. intros k. split; [set_solver|]. intros (i & ? & _). lia.
  - cbn. lia.
Qed.

Lemma mkfs_files_readable_witness :
  wp (Mkfs.main [([97], [1; 2; 3])]) Mkfs.new (λ _ img, (∀ k, length (Mkfs.sect img k) = 512%nat) →
    ∃ s : fstate (D := Memide.memdisk), fs_abs s (image_view img) ∧
      wp (ilock 0 ;;; readi (λ _, None) 0 0 3) s (λ '(r, dst) _, r = 3 ∧ dst = [1; 2; 3])).
Proof.
  assert (Hs : Forall (λ f : list Z * list Z, Z.of_nat (length f.2) ≤ MAXFILE * BSIZE) [([97], [1; 2; 3])])
    by (constructor; [change (MAXFILE * BSIZE) with 71680; simpl; lia|constructor]).
  eapply wp_mono; [apply (mkfs_files_readable [([97], [1; 2; 3])] ltac:(simpl; lia) Hs); vm_compute; discriminate|].
  cbv beta. intros ? img H Hl. destruct (fs5_abs 2 img) as [b Ha]. exists (fs5 2 b). split; [exact Ha|].
  exact (H (fs5 2 b) (image_view img) 0%nat 0%nat (ino5 2) [97] [1; 2; 3] (λ _, None) (image_on_disk img Hl) Ha eq_refl eq_refl
    eq_refl eq_refl eq_refl eq_refl eq_refl ltac:(simpl; lia) eq_refl eq_refl).
Defined.

End FsImage.
