(* ===== verification/Boot.v ===== *)
(** * The boot loader

    crates/bootblock/src/main.rs: reads the kernel image that follows the boot
    sector on the first disk, looks for a Multiboot header in its first 8 KiB,
    loads what the header says and jumps to the entry point. The memory is that
    of [Mem]; the disk is the [Ata] disk of the driver. The profile is the one
    of the kernel: arithmetic that overflows panics, and pointer arithmetic
    wraps. The jump and the final loop are the two results of [bootmain]. *)

From S2P Require Import Prelude Mem Disk Ide.
Import Mem Ide.

Module Boot.

Definition SECTSIZE : Z := 512.
Definition MAGIC : Z := 0x1BADB002.
Definition scratch_space : Z := 0x10000.

Definition load32 (m : mem) (a : Z) : Z := le_val (load_bytes m a 4).

Inductive booted := Entry (a : Z) | Hang.
#[export] Instance booted_eq_dec : EqDecision booted.
Proof. solve_decision. Defined.

Section boot.
Context {D : Type} `{!Ata D}.

Record boot := mkBoot {
  ram : mem;
  disk : D;
}.
Definition set_ram (m : mem) (s : boot) : boot := mkBoot m (disk s).
Definition set_bdisk (d : D) (s : boot) : boot := mkBoot (ram s) d.

Definition b_inb : M boot Z := λ s, Ok ((inb (disk s)).1, set_bdisk (inb (disk s)).2 s).
Definition b_outb (p v : Z) : M boot unit := modify (λ s, set_bdisk (outb p v (disk s)) s).
Definition b_insl (dst : Z) : M boot unit :=
  modify (λ s, mkBoot (store_bytes dst (insl (disk s)).1 (ram s)) (insl (disk s)).2).
Definition word (a : Z) : M boot Z := gets (λ s, load32 (ram s) a).

Fixpoint waitdisk_loop (fuel : nat) : M boot unit :=
  match fuel with
  | O => nofuel
  | S fuel' =>
      let* r := b_inb in
      if negb (Z.land r 0xC0 =? 0x40) then waitdisk_loop fuel' else ret tt
  end.
(** As many rounds as the disk stays busy. *)
Definition waitdisk : M boot unit :=
  let* s := get in
  waitdisk_loop (S (busy (disk s))).

Definition readsect (dst offset : Z) : M boot unit :=
  waitdisk ;;;
  b_outb 0x1F2 1 ;;;
  b_outb 0x1F3 (as_u8 offset) ;;;
  b_outb 0x1F4 (as_u8 (Z.shiftr offset 8)) ;;;
  b_outb 0x1F5 (as_u8 (Z.shiftr offset 16)) ;;;
  b_outb 0x1F6 (as_u8 (Z.lor (Z.shiftr offset 24) 0xE0)) ;;;
  b_outb 0x1F7 0x20 ;;;
  waitdisk ;;;
  b_insl dst.

Fixpoint readseg_loop (fuel : nat) (pa epa sector : Z) : M boot unit :=
  if pa <? epa then
    match fuel with
    | O => nofuel
    | S fuel' =>
        readsect pa sector ;;;
        let* sector := chk_u32 (sector + 1) in
        readseg_loop fuel' (as_u64 (pa + SECTSIZE)) epa sector
    end
  else ret tt.
(** [count / 512 + 2] sectors hold [count] bytes at any offset. *)
Definition readseg (pa count offset : Z) : M boot unit :=
  let epa := as_u64 (pa + count) in
  let pa := as_u64 (pa - offset mod SECTSIZE) in
  let* sector := chk_u32 (offset / SECTSIZE + 1) in
  readseg_loop (Z.to_nat (count / SECTSIZE + 2)) pa epa sector.

(** The body of the loop over the words of the scratch space. The fields of
    the header are magic, flags, checksum, header_addr, load_addr,
    load_end_addr, bss_end_addr and entry_addr. *)
Definition try_header (n : Z) : M boot (option booted) :=
  let p := scratch_space + 4 * n in
  let* w0 := word p in
  if w0 =? MAGIC then
    let* w1 := word (p + 4) in
    let* w2 := word (p + 8) in
    if as_u32 (as_u32 (w0 + w1) + w2) =? 0 then
      let* flags := word (p + 4) in
      if negb (Z.land flags 0x10000 =? 0) then
        let* header_addr := word (p + 12) in
        let* load_addr := word (p + 16) in
        let* load_end_addr := word (p + 20) in
        let* count := chk_u32 (load_end_addr - load_addr) in
        let* n4 := chk_u32 (n * 4) in
        let* d := chk_u32 (header_addr - load_addr) in
        let* offset := chk_u32 (n4 - d) in
        readseg load_addr count offset ;;;
        let* bss_end_addr := word (p + 24) in
        let* load_end_addr := word (p + 20) in
        (if load_end_addr <? bss_end_addr then
           let* bss_size := chk_u32 (bss_end_addr - load_end_addr) in
           modify (λ s, set_ram (memset load_end_addr 0 bss_size (ram s)) s)
         else ret tt) ;;;
        let* entry_addr := word (p + 28) in
        ret (Some (Entry entry_addr))
      else ret None
    else ret None
  else ret None.

Definition bootmain : M boot booted :=
  readseg scratch_space 8192 0 ;;;
  let* r := for_find (seqZ 0 (8192 / 4)) try_header in
  ret (default Hang r).

(** ** The image on the disk *)

(** Byte [k] of the image after the boot sector, and its words. *)
Definition image (a : ata) (k : Z) : Z := nth (Z.to_nat (k mod 512)) (sector a (0, k / 512 + 1)) 0.
Definition iword (a : ata) (k : Z) : Z := le_val ((λ i : nat, image a (k + Z.of_nat i)) <$> seq 0 4).

(** A disk that can be read where its 28-bit sector numbers reach. *)
Record readable (a : ata) : Prop := {
  rb_present : present a = true;
  rb_sector k : 0 ≤ k < 2 ^ 28 → bad a (0, k) = false ∧ length (sector a (0, k)) = 512%nat ∧ Forall is_byte (sector a (0, k));
}.
(** What stays of the disk while it is read. *)
Record same_disk (a a' : ata) : Prop := {
  sd_sector : sector a' = sector a;
  sd_bad : bad a' = bad a;
  sd_disk1 : disk1 a' = disk1 a;
  sd_present : present a' = true;
}.

Lemma same_readable a a' : readable a → same_disk a a' → readable a'.
Proof. intros [H1 H2] [E1 E2 E3 E4]. split; [done|]. rewrite E1, E2. done. Qed.
Lemma same_trans a b c : same_disk a b → same_disk b c → same_disk a c.
Proof. intros [] []. split; congruence. Qed.
Lemma same_image a a' k : same_disk a a' → image a' k = image a k.
Proof. intros [E _ _ _]. unfold image. by rewrite E. Qed.

(** ** Reading *)

Lemma waitdisk_loop_spec fuel s : present (obs (disk s)) = true → (busy (disk s) < fuel)%nat →
  wp (waitdisk_loop fuel) s (λ _ s', ∃ d, s' = set_bdisk d s ∧ obs d = obs (disk s) ∧ busy d = 0%nat).
Proof.
  revert s. induction fuel as [|fuel IH]; intros s Hp Hf; [lia|]. cbn [waitdisk_loop]. wp_step.
  eapply wp_eq; [reflexivity|]. destruct (decide (busy (disk s) = 0%nat)) as [Hb|Hb].
  - destruct (inb_ready (disk s) Hp Hb) as (Hr & Hb' & _). change (Z.lor IDE_BSY IDE_DRDY) with 0xC0 in Hr. rewrite Hr. change (IDE_DRDY =? 0x40) with true. cbn [negb].
    wp_step. exists (inb (disk s)).2. by rewrite inb_obs.
  - destruct (inb_busy (disk s) Hp Hb) as [Hr Hd]. destruct (Z.eqb_spec (Z.land (inb (disk s)).1 0xC0) 0x40) as [E|_].
    { exfalso. apply Hr. apply (f_equal (λ z, Z.land z IDE_BSY)) in E. rewrite <- Z.land_assoc in E. exact E. }
    eapply wp_mono; [apply IH; simpl; [by rewrite inb_obs|lia]|].
    intros r s' (d & -> & Ho & Hb'). exists d. simpl in Ho. rewrite inb_obs in Ho. done.
Qed.
Lemma waitdisk_spec s : present (obs (disk s)) = true →
  wp waitdisk s (λ _ s', ∃ d, s' = set_bdisk d s ∧ obs d = obs (disk s) ∧ busy d = 0%nat).
Proof. intros Hp. unfold waitdisk. do 2 wp_step. apply waitdisk_loop_spec; [done|lia]. Qed.

Lemma lor_E0 x : 0 ≤ x < 16 → let h := as_u8 (Z.lor x 0xE0) in Z.land (Z.shiftr h 4) 1 = 0 ∧ Z.land h 0x0F = x.
Proof.
  intros H. assert (∃ k : nat, (k < 16)%nat ∧ x = Z.of_nat k) as (k & Hk & ->) by (exists (Z.to_nat x); lia).
  do 16 (destruct k as [|k]; [done|]). lia.
Qed.

(** The registers [readsect] writes select the sector of the first drive. *)
Lemma lba_regs n : 0 ≤ n < 2 ^ 28 →
  as_u8 n + 2 ^ 8 * as_u8 (Z.shiftr n 8) + 2 ^ 16 * as_u8 (Z.shiftr n 16) + 2 ^ 24 * Z.shiftr n 24 = n ∧ 0 ≤ Z.shiftr n 24 < 16.
Proof.
  intros H. rewrite !Z.shiftr_div_pow2 by lia. unfold as_u8, u8_max. change (2 ^ 28) with 268435456 in H.
  change (2 ^ 8) with 256. change (2 ^ 16) with 65536. change (2 ^ 24) with 16777216. split; Z.to_euclidean_division_equations; lia.
Qed.

Definition selected (n : Z) (a : ata) : ata :=
  ata_out 0x1F6 (as_u8 (Z.lor (Z.shiftr n 24) 0xE0)) (ata_out 0x1F5 (as_u8 (Z.shiftr n 16))
    (ata_out 0x1F4 (as_u8 (Z.shiftr n 8)) (ata_out 0x1F3 (as_u8 n) (ata_out 0x1F2 1 a)))).
Lemma selected_spec n a : 0 ≤ n < 2 ^ 28 → (sel (selected n a), lba (selected n a)) = (0, n).
Proof.
  intros H. destruct (lba_regs n H) as [E Hr]. destruct (lor_E0 _ Hr) as [E1 E2]. f_equal; [exact E1|].
  unfold lba. etrans; [|exact E]. f_equal. f_equal. exact E2.
Qed.

Lemma readsect_spec dst n s : readable (obs (disk s)) → 0 ≤ n < 2 ^ 28 →
  wp (readsect dst n) s (λ _ s', ram s' = store_bytes dst (sector (obs (disk s)) (0, n)) (ram s) ∧
    same_disk (obs (disk s)) (obs (disk s'))).
Proof.
  intros Hr Hn. unfold readsect. wp_step. eapply wp_mono; [apply waitdisk_spec, Hr|]. intros _ s1 (d1 & -> & Ho1 & _).
  unfold b_outb. do 12 wp_step. set (d2 := outb _ _ _).
  pose proof (selected_spec n (obs (disk s)) Hn) as Hsel.
  assert (Ho2 : obs d2 = mkAta (reg (selected n (obs (disk s)))) (Some (false, (0, n))) (sector (obs (disk s)))
    (bad (obs (disk s))) (disk1 (obs (disk s)))).
  { unfold d2. cbn [disk set_bdisk]. rewrite !outb_obs, Ho1. fold (selected n (obs (disk s))). unfold ata_out at 1.
    cbn [Z.eqb Pos.eqb]. rewrite Hsel. reflexivity. }
  assert (Hp2 : present (obs d2) = true).
  { rewrite Ho2. injection Hsel as Hs _. change (((sel (selected n (obs (disk s))) =? 0) || disk1 (obs (disk s))) = true). by rewrite Hs. }
  wp_step. eapply wp_mono; [by apply waitdisk_spec|]. intros _ s3 (d3 & -> & Ho3 & Hb3). unfold b_insl. wp_step. cbn [ram disk set_bdisk] in *.
  destruct (rb_sector _ Hr n Hn) as [Hbad _]. rewrite insl_obs, Ho3, Ho2. split.
  - f_equal. rewrite (insl_data d3 (0, n)); [by rewrite Ho3, Ho2|done|by rewrite Ho3, Ho2|by rewrite Ho3, Ho2].
  - split; try done. by rewrite <- Ho2.
Qed.
Lemma image_sector a n x : readable a → 1 ≤ n < 2 ^ 28 → 0 ≤ x < 512 →
  sector a (0, n) !! Z.to_nat x = Some (image a (512 * (n - 1) + x)).
Proof.
  intros Hr Hn Hx. unfold image. replace ((512 * (n - 1) + x) mod 512) with x by (Z.to_euclidean_division_equations; lia).
  replace ((512 * (n - 1) + x) / 512 + 1) with n by (Z.to_euclidean_division_equations; lia).
  apply nth_lookup_lt. destruct (rb_sector _ Hr n ltac:(lia)) as (_ & Hl & _). rewrite Hl. lia.
Qed.

Lemma readseg_loop_spec fuel pa epa n s : readable (obs (disk s)) → 0 ≤ pa → epa + 512 ≤ u64_max →
  1 ≤ n → n + (epa - pa) / 512 + 1 < 2 ^ 28 → epa - pa ≤ 512 * Z.of_nat fuel →
  wp (readseg_loop fuel pa epa n) s (λ _ s', same_disk (obs (disk s)) (obs (disk s')) ∧
    (∀ x, pa ≤ x < epa → ram s' x = image (obs (disk s)) (512 * (n - 1) + (x - pa))) ∧
    (∀ x, x < pa ∨ epa + 512 ≤ x → ram s' x = ram s x)).
Proof.
  revert pa n s. induction fuel as [|fuel IH]; intros pa n s Hr Hpa Hepa Hn Hlast Hf; cbn [readseg_loop];
    destruct (Z.ltb_spec pa epa) as [Hlt|Hge]; try lia.
  1,3: wp_step; split_and!; [split; done || apply Hr|intros; lia|done].
  assert (Hn' : n < 2 ^ 28) by (Z.to_euclidean_division_equations; lia).
  wp_step. eapply wp_mono; [apply readsect_spec; [done|lia]|]. intros _ s1 [Hm Hd].
  wp_step. eapply wp_eq; [apply chk_u32_ok; unfold u32_max; lia|]. cbv beta.
  unfold as_u64, SECTSIZE. rewrite Z.mod_small by (unfold u64_max in *; lia).
  destruct (rb_sector _ Hr n ltac:(lia)) as (_ & Hl & _).
  eapply wp_mono; [apply IH; try lia; [by eapply same_readable|]|].
  { replace (epa - pa) with ((epa - (pa + 512)) + 1 * 512) in Hlast by lia. rewrite Z.div_add in Hlast by lia. lia. }
  intros _ s' (Hd' & Hin & Hout). split_and!; [by eapply same_trans| |].
  - intros x Hx. destruct (Z.lt_ge_cases x (pa + 512)) as [Hs|Hs].
    + rewrite Hout, Hm by lia. replace x with (pa + Z.of_nat (Z.to_nat (x - pa))) at 1 by lia.
      apply store_bytes_in. apply image_sector; [done|lia|lia].
    + rewrite Hin, (same_image _ _ _ Hd) by lia. f_equal. lia.
  - intros x Hx. rewrite Hout, Hm by lia. apply store_bytes_out. rewrite Hl. lia.
Qed.

Lemma readseg_spec pa count off s : readable (obs (disk s)) → 0 ≤ off → off mod 512 ≤ pa → 0 ≤ count →
  pa + count + 512 ≤ u64_max → off + count < 2 ^ 36 →
  wp (readseg pa count off) s (λ _ s', same_disk (obs (disk s)) (obs (disk s')) ∧
    (∀ x, pa ≤ x < pa + count → ram s' x = image (obs (disk s)) (off + (x - pa))) ∧
    (∀ x, x < pa - off mod 512 ∨ pa + count + 512 ≤ x → ram s' x = ram s x)).
Proof.
  intros Hr Ho Hpa Hc Hend Hsz. unfold readseg, SECTSIZE. cbv zeta. change (2 ^ 36) with 68719476736 in *.
  pose proof (Z.mod_pos_bound off 512 ltac:(lia)).
  wp_step. eapply wp_eq; [apply chk_u32_ok; unfold u32_max; Z.to_euclidean_division_equations; lia|]. cbv beta.
  unfold as_u64. rewrite (Z.mod_small (pa + count)), (Z.mod_small (pa - off mod 512)) by (unfold u64_max in *; lia).
  eapply wp_mono; [apply readseg_loop_spec; try done; try lia|].
  - Z.to_euclidean_division_equations; lia.
  - change (2 ^ 28) with 268435456 in *. Z.to_euclidean_division_equations; lia.
  - rewrite Z2Nat.id by (Z.to_euclidean_division_equations; lia). Z.to_euclidean_division_equations; lia.
  - intros _ s' (Hd & Hin & Hout). split_and!; [done| |intros x Hx; apply Hout; lia].
    intros x Hx. rewrite Hin by lia. f_equal. Z.to_euclidean_division_equations; lia.
Qed.

(** ** The header *)

Definition header (a : ata) (n : Z) : bool :=
  (iword a (4 * n) =? MAGIC) &&
  (as_u32 (as_u32 (iword a (4 * n) + iword a (4 * n + 4)) + iword a (4 * n + 8)) =? 0) &&
  negb (Z.land (iword a (4 * n + 4)) 0x10000 =? 0).

(** The memory holds the first 8 KiB of the image in the scratch space. *)
Definition scanned (a : ata) (m : mem) : Prop := ∀ x, 0 ≤ x < 8192 → m (scratch_space + x) = image a x.

Lemma scanned_word a m k : scanned a m → 0 ≤ k → k + 4 ≤ 8192 → load32 m (scratch_space + k) = iword a k.
Proof.
  intros Hm H0 H1. unfold load32, iword, load_bytes. f_equal. apply list_fmap_ext. intros i x Hx.
  apply lookup_seq in Hx as [-> Hi]. rewrite <- Z.add_assoc. apply Hm. lia.
Qed.

Lemma image_byte a k : readable a → 0 ≤ k < 2 ^ 36 → is_byte (image a k).
Proof.
  intros Hr Hk. change (2 ^ 36) with (2 ^ 28 * 256) in Hk.
  destruct (rb_sector _ Hr (k / 512 + 1) ltac:(change (2 ^ 28) with 268435456 in *; Z.to_euclidean_division_equations; lia)) as (_ & Hl & Hb).
  eapply (Forall_lookup_1 _ _ (Z.to_nat (k mod 512)) _ Hb). apply nth_lookup_lt. rewrite Hl.
  pose proof (Z.mod_pos_bound k 512). lia.
Qed.
Lemma iword_u32 a k : readable a → 0 ≤ k ≤ 8192 → 0 ≤ iword a k < u32_max.
Proof.
  intros Hr Hk. unfold iword. match goal with |- context [le_val ?l] => assert (H : Forall is_byte l); [|exact (le_val_bound _ H)] end. apply Forall_fmap, Forall_forall. intros i Hi%elem_of_seq.
  apply image_byte; [done|]. change (2 ^ 36) with 68719476736. lia.
Qed.

Lemma try_header_none a n s : scanned a (ram s) → 0 ≤ n → 4 * n + 12 ≤ 8192 → header a n = false →
  try_header n s = Ok (None, s).
Proof.
  intros Hm H0 Hn Hh. unfold try_header. cbv zeta.
  assert (Hw : ∀ j, 0 ≤ j → j ≤ 8 → load32 (ram s) (scratch_space + 4 * n + j) = iword a (4 * n + j))
    by (intros j Hj1 Hj2; rewrite <- Z.add_assoc; apply scanned_word; [done|lia|lia]).
  pose proof (Hw 0 ltac:(lia) ltac:(lia)) as W0. rewrite !Z.add_0_r in W0.
  assert (Hget : ∀ {B} j (k : Z → M boot B), 0 ≤ j → j ≤ 8 →
    bind (word (scratch_space + 4 * n + j)) k s = k (iword a (4 * n + j)) s)
    by (intros B j k Hj1 Hj2; apply bind_ok; unfold word, gets; by rewrite Hw).
  rewrite (bind_ok _ _ s (iword a (4 * n)) s) by (unfold word, gets; by rewrite W0). unfold header in Hh.
  destruct (_ =? MAGIC); [|done]. rewrite (Hget _ 4), (Hget _ 8) by lia.
  destruct (as_u32 (as_u32 _ + _) =? 0); [|done]. rewrite (Hget _ 4) by lia. cbn [andb] in Hh. by rewrite Hh.
Qed.

(** What a header says of the kernel: its place in the image and in memory. *)
Record kernel_hdr (a : ata) (n la le be ea off : Z) : Prop := {
  kh_header : header a n = true;
  kh_la : iword a (4 * n + 16) = la;
  kh_le : iword a (4 * n + 20) = le;
  kh_be : iword a (4 * n + 24) = be;
  kh_ea : iword a (4 * n + 28) = ea;
  kh_range : la ≤ le;
  kh_off : la ≤ iword a (4 * n + 12);
  kh_off_eq : off = 4 * n - (iword a (4 * n + 12) - la);
  kh_off_pos : 0 ≤ off;
}.

(** The part of memory the loader writes does not meet the header in the
    scratch space. *)
Definition clear_of_header (n la le be off : Z) : Prop :=
  off mod 512 ≤ la ∧ (Z.max (le + 512) be ≤ scratch_space + 4 * n ∨ scratch_space + 4 * n + 32 ≤ la - off mod 512).

Lemma try_header_loads a n la le be ea off s : scanned a (ram s) → readable a → same_disk a (obs (disk s)) →
  0 ≤ n → 4 * n + 32 ≤ 8192 → kernel_hdr a n la le be ea off → clear_of_header n la le be off →
  wp (try_header n) s (λ r s', r = Some (Entry ea) ∧
    (∀ x, la ≤ x < le → ram s' x = image a (off + (x - la))) ∧ (∀ x, le ≤ x < be → ram s' x = 0)).
Proof.
  intros Hm Hr Hd H0 Hn [Hh Hla Hle Hbe Hea Hrng Hoff1 Hoff Hpos] [Hu Hclear]. unfold try_header. cbv zeta.
  set (p := scratch_space + 4 * n) in *. pose proof (Z.mod_pos_bound off 512 ltac:(lia)).
  assert (Hw : ∀ m' j, (∀ x, p ≤ x < p + 32 → m' x = ram s x) → 0 ≤ j → j ≤ 28 → load32 m' (p + j) = iword a (4 * n + j)).
  { intros m' j Hag Hj1 Hj2. unfold load32. rewrite (load_bytes_agree (ram s) m') by (intros x Hx; apply Hag; lia).
    unfold p. rewrite <- Z.add_assoc. apply scanned_word; [done|lia|lia]. }
  assert (Hu32 : ∀ j, 0 ≤ j → j ≤ 28 → 0 ≤ iword a (4 * n + j) < u32_max) by (intros; apply iword_u32; [done|lia]).
  pose proof (Hw (ram s) 0 ltac:(done) ltac:(lia) ltac:(lia)) as W0. rewrite !Z.add_0_r in W0.
  unfold header in Hh. apply andb_true_iff in Hh as [Hh Hfl]. apply andb_true_iff in Hh as [Hmg Hck].
  unfold word. do 2 wp_step. rewrite W0, Hmg. do 4 wp_step.
  rewrite (Hw _ 4) by (done || lia). rewrite (Hw _ 8) by (done || lia). rewrite Hck. do 2 wp_step. rewrite (Hw _ 4) by (done || lia). rewrite Hfl.
  do 6 wp_step. rewrite (Hw _ 12), (Hw _ 16), (Hw _ 20), Hla, Hle by (done || lia).
  pose proof (Hu32 12 ltac:(lia) ltac:(lia)). pose proof (Hu32 16 ltac:(lia) ltac:(lia)) as U16. pose proof (Hu32 20 ltac:(lia) ltac:(lia)) as U20.
  pose proof (Hu32 24 ltac:(lia) ltac:(lia)) as U24. rewrite Hla in U16. rewrite Hle in U20. rewrite Hbe in U24. unfold u32_max in *.
  wp_step. eapply wp_eq; [apply chk_u32_ok; unfold u32_max; lia|]. cbv beta.
  wp_step. eapply wp_eq; [apply chk_u32_ok; unfold u32_max; lia|]. cbv beta.
  wp_step. eapply wp_eq; [apply chk_u32_ok; unfold u32_max; lia|]. cbv beta.
  wp_step. eapply wp_eq; [apply chk_u32_ok; unfold u32_max; lia|]. cbv beta.
  replace (n * 4 - _) with off by lia.
  wp_step. eapply wp_mono; [apply readseg_spec; try lia; [by eapply same_readable|unfold u64_max; lia]|].
  intros _ s1 (Hd1 & Hin & Hout). replace (la + (le - la)) with le in * by lia.
  assert (Hag : ∀ x, p ≤ x < p + 32 → ram s1 x = ram s x) by (intros x Hx; apply Hout; lia).
  do 4 wp_step. rewrite (Hw _ 24), (Hw _ 20), Hbe, Hle by (done || lia).
  assert (Hload : ∀ x, la ≤ x < le → ram s1 x = image a (off + (x - la))) by (intros x Hx; rewrite Hin by lia; by apply same_image).
  destruct (Z.ltb_spec le be) as [Hb|Hb].
  - do 2 wp_step. eapply wp_eq; [apply chk_u32_ok; unfold u32_max; lia|]. cbv beta. wp_step. do 3 wp_step. cbn [ram set_ram]. split_and!.
    + do 2 f_equal. rewrite <- Hea.
      etrans; [|by apply (Hw (ram s1) 28 Hag)]. unfold load32. f_equal. apply load_bytes_agree. intros x Hx. apply memset_out. lia.
    + intros x Hx. rewrite memset_out by lia. by apply Hload.
    + intros x Hx. apply memset_in. lia.
  - wp_auto. rewrite (Hw _ 28), Hea by (done || lia). split_and!; [done|done|intros; lia].
Qed.

Lemma load_scratch s : readable (obs (disk s)) →
  wp (readseg scratch_space 8192 0) s (λ _ s', same_disk (obs (disk s)) (obs (disk s')) ∧ scanned (obs (disk s)) (ram s')).
Proof.
  intros Hr. eapply wp_mono; [apply readseg_spec; done || (unfold scratch_space, u64_max; lia)|].
  intros _ s' (Hd & Hin & _). split; [done|]. intros x Hx. rewrite Hin by lia. f_equal. lia.
Qed.

(** C14: The boot loader loads the kernel. When the first Multiboot header in
    the first 8 KiB of the image is at word [n], and what it says is
    consistent and clear of the header itself, the loader ends in a jump to
    the entry point with every byte of the kernel from the disk in its place
    in memory and the uninitialised data cleared, for any offset of the kernel
    in its first sector; with no magic number in the 8 KiB it hangs. *)
Theorem boot_loads_kernel (s : boot) (Hr : readable (obs (disk s))) :
  (∀ n la le be ea off, 0 ≤ n → 4 * n + 32 ≤ 8192 → (∀ m, 0 ≤ m < n → header (obs (disk s)) m = false) →
     kernel_hdr (obs (disk s)) n la le be ea off → clear_of_header n la le be off →
     wp bootmain s (λ r s', r = Entry ea ∧
       (∀ x, la ≤ x < le → ram s' x = image (obs (disk s)) (off + (x - la))) ∧ (∀ x, le ≤ x < be → ram s' x = 0))) ∧
  ((∀ m, 0 ≤ m < 2048 → iword (obs (disk s)) (4 * m) ≠ MAGIC) → wp bootmain s (λ r _, r = Hang)).
Proof.
  split.
  - intros n la le be ea off H0 Hn Hfirst Hk Hcl. unfold bootmain. wp_step. eapply wp_mono; [by apply load_scratch|].
    intros _ s1 [Hd Hm]. wp_step. rewrite (seqZ_split n) by (change (8192 / 4) with 2048; lia). unfold wp. rewrite for_find_skip.
    2:{ intros m Hm'%elem_of_seqZ. apply (try_header_none (obs (disk s))); [done|lia|lia|apply Hfirst; lia]. }
    pose proof (try_header_loads _ n la le be ea off s1 Hm Hr Hd H0 Hn Hk Hcl) as Ht. cbn [for_find]. unfold bind. unfold wp in Ht.
    destruct (try_header n s1) as [[r s2]| | |]; [|done..]. by destruct Ht as (-> & ? & ?).
  - intros Hno. unfold bootmain. wp_step. eapply wp_mono; [by apply load_scratch|]. intros _ s1 [Hd Hm]. wp_step.
    unfold wp. rewrite <- (app_nil_r (seqZ 0 (8192 / 4))), for_find_skip; [done|].
    intros m Hm'%elem_of_seqZ. change (8192 / 4) with 2048 in *. unfold try_header. cbv zeta.
    rewrite (bind_ok _ _ s1 (iword (obs (disk s)) (4 * m)) s1).
    2:{ unfold word, gets. do 2 f_equal. apply scanned_word; [done|lia|lia]. }
    by rewrite (proj2 (Z.eqb_neq _ _)) by (apply Hno; lia).
Qed.

End boot.
Arguments boot : clear implicits.

(** ** Witness: a kernel of 700 bytes that starts with its header *)

Definition hdr0 : list Z :=
  concat (le_bytes 4 <$> [MAGIC; 0x10000; 0xE4514FFE; 0x100000; 0x100000; 0x1002BC; 0x100400; 0x100020]).
Definition ata0 : ata :=
  mkAta (λ _, 0) None (λ k, if bool_decide (k = (0, 1)) then hdr0 ++ replicate 480 7 else replicate 512 7) (λ _, false) false.
Definition boot0 : boot sim := mkBoot (λ _, 0) (ata0, 0%nat).

Lemma ata0_readable : readable ata0.
Proof.
  split; [reflexivity|]. intros k _. split; [done|]. cbn [sector ata0]. case_bool_decide.
  - split; [reflexivity|]. apply Forall_app. split; [|apply Forall_replicate; unfold is_byte; lia].
    unfold hdr0. repeat (apply Forall_app; split; [apply le_bytes_is_byte|]). constructor.
  - rewrite length_replicate. split; [done|]. apply Forall_replicate. unfold is_byte. lia.
Qed.

Lemma boot_loads_kernel_witness : wp bootmain boot0 (λ r s', r = Entry 0x100020 ∧
  (∀ x, 0x100000 ≤ x < 0x1002BC → ram s' x = image ata0 (0 + (x - 0x100000))) ∧ (∀ x, 0x1002BC ≤ x < 0x100400 → ram s' x = 0)).
Proof.
  apply (proj1 (boot_loads_kernel (Ata0 := sim_ata) boot0 ata0_readable) 0 0x100000 0x1002BC 0x100400 0x100020 0); try lia.
  - split; vm_compute; (reflexivity || discriminate).
  - split; [vm_compute; discriminate|]. right. vm_compute. discriminate.
Defined.

End Boot.
