(* ===== verification/Mp.v ===== *)
(** * The multiprocessor tables

    crates/arch/src/mp.rs: the search for the floating pointer structure the
    firmware leaves in low memory, the check of the configuration table it
    points to, and the walk over the entries of the table. The memory is that
    of [Mem], at the addresses of the direct map. *)

From S2P Require Import Prelude Param Mmu Mem.
Import Mmu Mem.

Module Mp.

Abbreviation MPPROC := 0x00 (only parsing).
Abbreviation MPBUS := 0x01 (only parsing).
Abbreviation MPIOAPIC := 0x02 (only parsing).
Abbreviation MPIOINTR := 0x03 (only parsing).
Abbreviation MPLINTR := 0x04 (only parsing).

(** The sizes of the packed structures [mp], [mpconf], [mpproc], [mpioapic]. *)
Definition sizeof_mp : Z := 16.
Definition sizeof_mpconf : Z := 44.
Definition sizeof_mpproc : Z := 20.
Definition sizeof_mpioapic : Z := 8.

(** The static variables [cpus] (their [apicid]s), [ncpu], [ioapicid] and
    [lapic::lapic], null at first; the memory; and the interrupt mode
    configuration registers behind ports 0x22 and 0x23. *)
Record mps := mkMps {
  m_mem : mem;
  cpus : list Z;
  ncpu : Z;
  ioapicid : Z;
  lapic : Z;
  imcr_sel : Z;
  imcr : Z → Z;
}.
Definition set_cpus (c : list Z) (n : Z) (s : mps) : mps :=
  mkMps (m_mem s) c n (ioapicid s) (lapic s) (imcr_sel s) (imcr s).
Definition set_ioapicid (v : Z) (s : mps) : mps :=
  mkMps (m_mem s) (cpus s) (ncpu s) v (lapic s) (imcr_sel s) (imcr s).
Definition set_lapic (v : Z) (s : mps) : mps :=
  mkMps (m_mem s) (cpus s) (ncpu s) (ioapicid s) v (imcr_sel s) (imcr s).
Definition set_imcr (sel : Z) (r : Z → Z) (s : mps) : mps :=
  mkMps (m_mem s) (cpus s) (ncpu s) (ioapicid s) (lapic s) sel r.

Definition outb (p v : Z) : M mps unit :=
  modify (λ s, if p =? 0x22 then set_imcr v (imcr s) s
               else if p =? 0x23 then set_imcr (imcr_sel s) (λ r, if r =? imcr_sel s then v else imcr s r) s else s).
Definition inb23 : M mps Z := gets (λ s, imcr s (imcr_sel s)).

Definition byte (a : Z) : M mps Z := gets (λ s, m_mem s a).
Definition u16_at (a : Z) : M mps Z := gets (λ s, le_val (load_bytes (m_mem s) a 2)).
Definition u32_at (a : Z) : M mps Z := gets (λ s, le_val (load_bytes (m_mem s) a 4)).

(** ** Helpers *)

Definition sum (m : mem) (addr : Z) (len : nat) : Z :=
  as_u8 (fold_left (λ s b, as_u32 (s + b)) (load_bytes m addr len) 0).
Definition memcmp (m : mem) (a : Z) (b : list Z) : Z :=
  if bool_decide (load_bytes m a (length b) = b) then 0 else 1.
Definition p2v (pa : Z) : M mps Z := chk_u64 (pa + KERNBASE).

Definition MP_SIG : list Z := [95; 77; 80; 95].
Definition PCMP_SIG : list Z := [80; 67; 77; 80].

(** ** The search *)

Fixpoint mpsearch1_loop (fuel : nat) (p e : Z) : M mps (option Z) :=
  if p <? e then
    match fuel with
    | O => nofuel
    | S fuel' =>
        let* s := get in
        if (memcmp (m_mem s) p MP_SIG =? 0) && (sum (m_mem s) p (Z.to_nat sizeof_mp) =? 0) then ret (Some p)
        else mpsearch1_loop fuel' (p + sizeof_mp) e
    end
  else ret None.
Definition mpsearch1 (a len : Z) : M mps (option Z) :=
  let* addr := p2v a in
  mpsearch1_loop (Z.to_nat (len / sizeof_mp + 1)) addr (addr + len).

Definition mpsearch : M mps (option Z) :=
  let* bda := p2v 0x400 in
  let* h := byte (bda + 0x0F) in
  let* l := byte (bda + 0x0E) in
  let ebda_seg := Z.lor (as_u32 (Z.shiftl h 8)) l in
  let p := as_u32 (Z.shiftl ebda_seg 4) in
  let* m :=
    (if negb (p =? 0) then mpsearch1 p 1024
     else
       let* h := byte (bda + 0x14) in
       let* l := byte (bda + 0x13) in
       let* p := chk_u32 (Z.lor (as_u32 (Z.shiftl h 8)) l * 1024) in
       let* a := chk_u32 (p - 1024) in
       mpsearch1 a 1024) in
  match m with
  | Some m => ret (Some m)
  | None => mpsearch1 0xF0000 0x10000
  end.

(** The floating pointer structure and the table, when both are valid. *)
Definition mpconfig : M mps (option (Z * Z)) :=
  let* m := mpsearch in
  match m with
  | None => ret None
  | Some m =>
      let* physaddr := u32_at (m + 4) in
      if physaddr =? 0 then ret None
      else
        let* conf := p2v physaddr in
        let* s := get in
        if negb (memcmp (m_mem s) conf PCMP_SIG =? 0) then ret None
        else
          let* version := byte (conf + 6) in
          if negb (version =? 1) && negb (version =? 4) then ret None
          else
            let* len := u16_at (conf + 4) in
            let* s := get in
            if negb (sum (m_mem s) conf (Z.to_nat len) =? 0) then ret None
            else ret (Some (m, conf))
  end.

(** ** The walk over the table *)

Fixpoint mpinit_loop (fuel : nat) (p conf_end : Z) : M mps unit :=
  if p <? conf_end then
    match fuel with
    | O => nofuel
    | S fuel' =>
        let* t := byte p in
        if t =? MPPROC then
          let* s := get in
          (if as_u64 (ncpu s) <? NCPU then
             let* apicid := byte (p + 1) in
             let* n := chk_i32 (ncpu s + 1) in
             modify (set_cpus (<[Z.to_nat (ncpu s) := apicid]> (cpus s)) n)
           else ret tt) ;;;
          mpinit_loop fuel' (p + sizeof_mpproc) conf_end
        else if t =? MPIOAPIC then
          let* apicno := byte (p + 1) in
          modify (set_ioapicid apicno) ;;;
          mpinit_loop fuel' (p + sizeof_mpioapic) conf_end
        else if (t =? MPBUS) || (t =? MPIOINTR) || (t =? MPLINTR) then mpinit_loop fuel' (p + 8) conf_end
        else ret tt
    end
  else ret tt.

Definition mpinit : M mps unit :=
  let* c := mpconfig in
  match c with
  | None => ret tt
  | Some (m, conf) =>
      let* lapicaddr_p := u32_at (conf + 36) in
      let* l := p2v lapicaddr_p in
      modify (set_lapic l) ;;;
      let* len := u16_at (conf + 4) in
      let conf_end := conf + len in
      mpinit_loop (Z.to_nat len) (conf + sizeof_mpconf) conf_end ;;;
      let* imcrp := byte (m + 12) in
      if negb (imcrp =? 0) then
        outb 0x22 0x70 ;;;
        let* v := inb23 in
        outb 0x23 (Z.lor v 1)
      else ret tt
  end.

(** ** What the search finds *)

Definition valid_mp (m : mem) (p : Z) : bool :=
  (memcmp m p MP_SIG =? 0) && (sum m p (Z.to_nat sizeof_mp) =? 0).

(** The places looked at in an area of [n] structures, and all of them. *)
Definition places (a n : Z) : list Z := (λ i, a + KERNBASE + sizeof_mp * i) <$> seqZ 0 n.
Definition ebda (m : mem) : Z := (m (KERNBASE + 0x40F) * 256 + m (KERNBASE + 0x40E)) * 16.
Definition basemem (m : mem) : Z := m (KERNBASE + 0x414) * 256 + m (KERNBASE + 0x413).
Definition searched (m : mem) : list Z :=
  places (if ebda m =? 0 then basemem m * 1024 - 1024 else ebda m) 64 ++ places 0xF0000 4096.

Lemma places_cons a n : 0 < n → places a n = (a + KERNBASE) :: places (a + sizeof_mp) (n - 1).
Proof.
  intros H. unfold places. rewrite seqZ_cons by done. cbn [fmap list_fmap]. rewrite Z.mul_0_r, Z.add_0_r. f_equal.
  assert (seqZ (Z.succ 0) (Z.pred n) = Z.add 1 <$> seqZ 0 (n - 1)) as -> by (rewrite fmap_add_seqZ; f_equal; lia).
  rewrite <- list_fmap_compose. apply list_fmap_ext. intros i x _. cbn. unfold sizeof_mp. lia.
Qed.

Lemma mpsearch1_loop_spec fuel a n s : (Z.to_nat n ≤ fuel)%nat → 0 ≤ n →
  mpsearch1_loop fuel (a + KERNBASE) (a + KERNBASE + sizeof_mp * n) s = Ok (List.find (valid_mp (m_mem s)) (places a n), s).
Proof.
  revert a n. induction fuel as [|fuel IH]; intros a n Hf Hn; cbn [mpsearch1_loop]; unfold sizeof_mp in *.
  - replace n with 0 by lia. by rewrite (proj2 (Z.ltb_ge _ _)) by lia.
  - destruct (Z.ltb_spec (a + KERNBASE) (a + KERNBASE + 16 * n)) as [Hlt|Hge]; [|by replace n with 0 by lia].
    rewrite places_cons by lia. cbn [List.find]. rewrite (bind_ok _ _ s s s) by done. unfold valid_mp at 1, sizeof_mp.
    destruct (_ && _); [done|]. rewrite <- (IH (a + 16) (n - 1)) by lia. f_equal; lia.
Qed.
Lemma mpsearch1_spec a n s : 0 ≤ a → 0 ≤ n → a + KERNBASE < u64_max →
  mpsearch1 a (sizeof_mp * n) s = Ok (List.find (valid_mp (m_mem s)) (places a n), s).
Proof.
  intros Ha Hn Hu. unfold mpsearch1, p2v. rewrite (bind_ok _ _ s (a + KERNBASE) s) by (apply chk_u64_ok; unfold KERNBASE in *; lia).
  apply mpsearch1_loop_spec; [|done]. unfold sizeof_mp. rewrite Z.mul_comm, Z.div_mul by lia. lia.
Qed.

Lemma find_app {A} (f : A → bool) l1 l2 :
  List.find f (l1 ++ l2) = match List.find f l1 with Some x => Some x | None => List.find f l2 end.
Proof. induction l1 as [|x l1 IH]; [done|]. cbn [List.find app]. by destruct (f x). Qed.

Lemma two_bytes h l : is_byte h → is_byte l → Z.lor (as_u32 (Z.shiftl h 8)) l = h * 256 + l.
Proof.
  intros Hh Hl. unfold is_byte in *. rewrite Z.shiftl_mul_pow2 by lia. change (2 ^ 8) with 256. unfold as_u32. rewrite Z.mod_small by (unfold u32_max; lia).
  rewrite Z.lor_comm, (Z.mul_comm h). change 256 with (2 ^ 8). rewrite lor_low_high by lia. lia.
Qed.

Lemma mpsearch1_count a n len s : len = sizeof_mp * n → 0 ≤ a → 0 ≤ n → a + KERNBASE < u64_max →
  mpsearch1 a len s = Ok (List.find (valid_mp (m_mem s)) (places a n), s).
Proof. intros ->. apply mpsearch1_spec. Qed.

Lemma mpsearch_spec s : (∀ x, is_byte (m_mem s x)) → ebda (m_mem s) ≠ 0 ∨ basemem (m_mem s) ≠ 0 →
  mpsearch s = Ok (List.find (valid_mp (m_mem s)) (searched (m_mem s)), s).
Proof.
  intros Hb Hne. unfold mpsearch, p2v. rewrite (bind_ok _ _ s (0x400 + KERNBASE) s) by done.
  assert (Hget : ∀ {B} a (k : Z → M mps B), bind (byte a) k s = k (m_mem s a) s) by done. rewrite !Hget. cbv zeta.
  change (0x400 + KERNBASE + 0x0F) with (KERNBASE + 0x40F). change (0x400 + KERNBASE + 0x0E) with (KERNBASE + 0x40E).
  rewrite two_bytes by apply Hb. pose proof (Hb (KERNBASE + 0x40F)). pose proof (Hb (KERNBASE + 0x40E)).
  pose proof (Hb (KERNBASE + 0x414)). pose proof (Hb (KERNBASE + 0x413)). unfold is_byte in *.
  rewrite Z.shiftl_mul_pow2 by lia. change (2 ^ 4) with 16. fold (ebda (m_mem s)).
  assert (as_u32 (ebda (m_mem s)) = ebda (m_mem s)) as -> by (apply Z.mod_small; unfold ebda, u32_max; lia).
  unfold searched. rewrite find_app.
  destruct (Z.eqb_spec (ebda (m_mem s)) 0) as [E|E]; cbn [negb]; cbv iota.
  - rewrite bind_assoc, Hget. rewrite bind_assoc, Hget.
    change (0x400 + KERNBASE + 0x14) with (KERNBASE + 0x414). change (0x400 + KERNBASE + 0x13) with (KERNBASE + 0x413).
    rewrite two_bytes by apply Hb. fold (basemem (m_mem s)). assert (1 ≤ basemem (m_mem s) < 65536) by (unfold basemem in *; lia).
    rewrite bind_assoc, (bind_ok _ _ s (basemem (m_mem s) * 1024) s) by (apply chk_u32_ok; unfold u32_max; lia).
    rewrite bind_assoc, (bind_ok _ _ s (basemem (m_mem s) * 1024 - 1024) s) by (apply chk_u32_ok; unfold u32_max; lia).
    rewrite (bind_ok _ _ s _ s (mpsearch1_count (basemem (m_mem s) * 1024 - 1024) 64 1024 s eq_refl ltac:(lia) ltac:(lia) ltac:(unfold u64_max, KERNBASE; lia))).
    generalize (List.find (valid_mp (m_mem s)) (places (basemem (m_mem s) * 1024 - 1024) 64)). intros [p|]; cbv iota beta; [reflexivity|]. apply (mpsearch1_count 0xF0000 4096 0x10000); [reflexivity|lia|lia|unfold u64_max, KERNBASE; lia].
  - rewrite (bind_ok _ _ s _ s (mpsearch1_count (ebda (m_mem s)) 64 1024 s eq_refl ltac:(unfold ebda; lia) ltac:(lia) ltac:(unfold u64_max, KERNBASE, ebda; lia))).
    generalize (List.find (valid_mp (m_mem s)) (places (ebda (m_mem s)) 64)). intros [p|]; cbv iota beta; [reflexivity|]. apply (mpsearch1_count 0xF0000 4096 0x10000); [reflexivity|lia|lia|unfold u64_max, KERNBASE; lia].
Qed.

(** ** The entries of a table *)

Inductive entry :=
| EProc (apicid : Z) (rest : list Z)
| EIoapic (apicno : Z) (rest : list Z)
| EOther (ty : Z) (rest : list Z).

Definition enc_entry (e : entry) : list Z :=
  match e with
  | EProc i r => MPPROC :: i :: r
  | EIoapic i r => MPIOAPIC :: i :: r
  | EOther t r => t :: r
  end.
Definition entry_ok (e : entry) : Prop :=
  match e with
  | EProc _ r => length r = 18%nat
  | EIoapic _ r => length r = 6%nat
  | EOther t r => (t = MPBUS ∨ t = MPIOINTR ∨ t = MPLINTR) ∧ length r = 7%nat
  end.
Definition enc_entries (es : list entry) : list Z := concat (enc_entry <$> es).
Definition procs (es : list entry) : list Z := omap (λ e, match e with EProc i _ => Some i | _ => None end) es.
Definition ioapics (es : list entry) : list Z := omap (λ e, match e with EIoapic i _ => Some i | _ => None end) es.

(** The state in which the processors [ids] and the I/O APICs [ios] have been
    published, over [s0]. *)
Record published (s0 : mps) (ids ios : list Z) (s : mps) : Prop := {
  pb_cpus : cpus s = resize 8 0 ids;
  pb_ncpu : ncpu s = Z.min NCPU (Z.of_nat (length ids));
  pb_ioapicid : ioapicid s = default (ioapicid s0) (last ios);
  pb_mem : m_mem s = m_mem s0;
  pb_lapic : lapic s = lapic s0;
  pb_sel : imcr_sel s = imcr_sel s0;
  pb_imcr : imcr s = imcr s0;
}.

Lemma publish_cpu s0 ids ios s i : published s0 ids ios s → (length ids < 8)%nat →
  published s0 (ids ++ [i]) ios (set_cpus (<[Z.to_nat (ncpu s) := i]> (cpus s)) (ncpu s + 1) s).
Proof.
  intros [H1 H2 H3 H4 H5 H6 H7] Hl. split; try done; cbn.
  - rewrite H1, H2. replace (Z.to_nat _) with (length ids) by (unfold NCPU; lia). by apply resize_snoc.
  - rewrite H2, length_app. cbn. unfold NCPU. lia.
Qed.
Lemma publish_full s0 ids ios s i : published s0 ids ios s → (8 ≤ length ids)%nat → published s0 (ids ++ [i]) ios s.
Proof.
  intros [H1 H2 H3 H4 H5 H6 H7] Hl. split; try done.
  - rewrite H1, !resize_le by (rewrite ?length_app; lia). by rewrite take_app_le.
  - rewrite H2, length_app. unfold NCPU. lia.
Qed.
Lemma publish_io s0 ids ios s i : published s0 ids ios s → published s0 ids (ios ++ [i]) (set_ioapicid i s).
Proof. intros [H1 H2 H3 H4 H5 H6 H7]. split; try done. cbn. by rewrite last_snoc. Qed.

Lemma load_app m p l1 l2 : load_bytes m p (length (l1 ++ l2)) = l1 ++ l2 →
  load_bytes m p (length l1) = l1 ∧ load_bytes m (p + Z.of_nat (length l1)) (length l2) = l2.
Proof.
  intros H. split; apply list_eq; intros k.
  - destruct (decide (k < length l1)%nat).
    + rewrite load_bytes_lookup by done. apply (f_equal (lookup k)) in H. rewrite load_bytes_lookup in H by (rewrite length_app; lia).
      by rewrite H, lookup_app_l.
    + by rewrite !lookup_ge_None_2 by (rewrite ?length_load_bytes; lia).
  - destruct (decide (k < length l2)%nat).
    + rewrite load_bytes_lookup by done. apply (f_equal (lookup (length l1 + k)%nat)) in H.
      rewrite load_bytes_lookup in H by (rewrite length_app; lia). rewrite lookup_app_r in H by lia.
      replace (length l1 + k - length l1)%nat with k in H by lia. rewrite <- H. do 2 f_equal. lia.
    + by rewrite !lookup_ge_None_2 by (rewrite ?length_load_bytes; lia).
Qed.
Lemma load_at m p n l k x : load_bytes m p n = l → l !! k = Some x → m (p + Z.of_nat k) = x.
Proof.
  intros <- H. pose proof (lookup_lt_Some _ _ _ H) as Hk. rewrite length_load_bytes in Hk. rewrite load_bytes_lookup in H by done. by injection H.
Qed.
Lemma load_head m p n x l : load_bytes m p n = x :: l → m p = x.
Proof. intros H. rewrite <- (Z.add_0_r p). exact (load_at m p n _ 0 x H eq_refl). Qed.
Lemma load_second m p n x y l : load_bytes m p n = x :: y :: l → m (p + 1) = y.
Proof. intros H. exact (load_at m p n _ 1 y H eq_refl). Qed.

Lemma mpinit_loop_spec s0 es : Forall entry_ok es → ∀ fuel p s ids ios, published s0 ids ios s →
  load_bytes (m_mem s0) p (length (enc_entries es)) = enc_entries es → (length (enc_entries es) ≤ fuel)%nat →
  wp (mpinit_loop fuel p (p + Z.of_nat (length (enc_entries es)))) s (λ _ s', published s0 (ids ++ procs es) (ios ++ ioapics es) s').
Proof.
  induction 1 as [|e es Hok _ IH]; intros fuel p s ids ios Hp Hb Hf.
  - cbn. rewrite Z.add_0_r. destruct fuel; cbn [mpinit_loop]; rewrite (proj2 (Z.ltb_ge p p)) by lia; wp_step; by rewrite !app_nil_r.
  - change (enc_entries (e :: es)) with (enc_entry e ++ enc_entries es) in *. apply load_app in Hb as [He Hes]. rewrite length_app in *.
    assert (Hlen : 8 ≤ Z.of_nat (length (enc_entry e))) by (destruct e; cbn in *; lia).
    destruct fuel as [|fuel]; [lia|]. cbn [mpinit_loop]. rewrite (proj2 (Z.ltb_lt _ _)) by lia.
    unfold byte. do 2 wp_step. rewrite (pb_mem _ _ _ _ Hp). replace (p + Z.of_nat (length (enc_entry e) + length (enc_entries es)))
      with (p + Z.of_nat (length (enc_entry e)) + Z.of_nat (length (enc_entries es))) by lia.
    destruct e as [i r|i r|ty r]; cbn [enc_entry entry_ok length] in *.
    + rewrite (load_head _ _ _ _ _ He). cbn [Z.eqb]. do 3 wp_step.
      replace (p + Z.of_nat (S (S (length r)))) with (p + sizeof_mpproc) in * by (unfold sizeof_mpproc; lia).
      cbn [procs ioapics omap list_omap]. rewrite (cons_middle i), app_assoc.
      assert (Hn : as_u64 (ncpu s) = ncpu s) by (rewrite (pb_ncpu _ _ _ _ Hp); apply Z.mod_small; unfold NCPU, u64_max; lia).
      rewrite Hn. destruct (Z.ltb_spec (ncpu s) NCPU) as [Hlt|Hge]; pose proof (pb_ncpu _ _ _ _ Hp) as Hnc; unfold NCPU in *.
      * do 3 wp_step. rewrite (pb_mem _ _ _ _ Hp), (load_second _ _ _ _ _ _ He).
        eapply wp_eq; [apply chk_i32_ok; unfold i32_lo, i32_hi; lia|]. cbv beta. wp_step.
        apply IH; [|done|lia]. apply publish_cpu; [done|lia].
      * wp_step. apply IH; [|done|lia]. apply publish_full; [done|lia].
    + rewrite (load_head _ _ _ _ _ He). cbn [Z.eqb Pos.eqb]. do 4 wp_step. rewrite (pb_mem _ _ _ _ Hp), (load_second _ _ _ _ _ _ He).
      replace (p + Z.of_nat (S (S (length r)))) with (p + sizeof_mpioapic) in * by (unfold sizeof_mpioapic; lia).
      cbn [procs ioapics omap list_omap]. rewrite (cons_middle i ios), (app_assoc ios). apply IH; [by apply publish_io|done|lia].
    + rewrite (load_head _ _ _ _ _ He). destruct Hok as [Hty Hl]. replace (p + Z.of_nat (S (length r))) with (p + 8) in * by lia.
      cbn [procs ioapics omap list_omap].
      destruct Hty as [->|[->| ->]]; cbn [Z.eqb Pos.eqb orb]; (apply IH; [done|done|lia]).
Qed.

(** ** The configuration table *)

Definition table_of (m : mem) (mp : Z) : Z := le_val (load_bytes m (mp + 4) 4).
Definition table_len (m : mem) (conf : Z) : Z := le_val (load_bytes m (conf + 4) 2).

Record table_at (m : mem) (conf : Z) (es : list entry) : Prop := {
  ta_sig : load_bytes m conf 4 = PCMP_SIG;
  ta_version : m (conf + 6) = 1 ∨ m (conf + 6) = 4;
  ta_len : table_len m conf = sizeof_mpconf + Z.of_nat (length (enc_entries es));
  ta_sum : sum m conf (Z.to_nat (table_len m conf)) = 0;
  ta_ok : Forall entry_ok es;
  ta_bytes : load_bytes m (conf + sizeof_mpconf) (length (enc_entries es)) = enc_entries es;
}.
Definition table_bad (m : mem) (conf : Z) : Prop :=
  load_bytes m conf 4 ≠ PCMP_SIG ∨ (m (conf + 6) ≠ 1 ∧ m (conf + 6) ≠ 4) ∨ sum m conf (Z.to_nat (table_len m conf)) ≠ 0.

Lemma word_bound m a n : (∀ x, is_byte (m x)) → 0 ≤ le_val (load_bytes m a n) < 256 ^ Z.of_nat n.
Proof.
  intros Hb. rewrite <- (length_load_bytes m a n) at 3. apply le_val_bound. apply Forall_forall. intros x Hx.
  unfold load_bytes in Hx. apply list_elem_of_fmap in Hx as (i & -> & _). apply Hb.
Qed.

Lemma conf_addr m mp : (∀ x, is_byte (m x)) → 0 ≤ table_of m mp + KERNBASE < u64_max.
Proof. intros Hb. pose proof (word_bound m (mp + 4) 4 Hb). unfold table_of, KERNBASE, u64_max. change (256 ^ Z.of_nat 4) with 4294967296 in *. lia. Qed.

Lemma mpconfig_found s mp : (∀ x, is_byte (m_mem s x)) → mpsearch s = Ok (Some mp, s) → table_of (m_mem s) mp ≠ 0 →
  let conf := table_of (m_mem s) mp + KERNBASE in
  (∀ es, table_at (m_mem s) conf es → mpconfig s = Ok (Some (mp, conf), s)) ∧
  (table_bad (m_mem s) conf → mpconfig s = Ok (None, s)).
Proof.
  intros Hb Hs Hpa conf. unfold mpconfig. rewrite (bind_ok _ _ _ _ _ Hs). cbv iota beta.
  rewrite (bind_ok _ _ s (table_of (m_mem s) mp) s) by done. rewrite (proj2 (Z.eqb_neq _ _) Hpa).
  rewrite (bind_ok _ _ s conf s) by (apply chk_u64_ok, conf_addr, Hb). rewrite (bind_ok _ _ s s s) by done.
  unfold memcmp. change (length PCMP_SIG) with 4%nat. split.
  - intros es [Hsig Hv Hl Hsum Hok Hby]. rewrite bool_decide_eq_true_2 by done. cbn [Z.eqb negb].
    rewrite (bind_ok _ _ s (m_mem s (conf + 6)) s) by done.
    assert (negb (m_mem s (conf + 6) =? 1) && negb (m_mem s (conf + 6) =? 4) = false) as -> by (by destruct Hv as [-> | ->]).
    rewrite (bind_ok _ _ s (table_len (m_mem s) conf) s), (bind_ok _ _ s s s) by done. by rewrite Hsum.
  - intros Hbad. case_bool_decide as Hsig; cbn [Z.eqb negb Pos.eqb]; [|done].
    rewrite (bind_ok _ _ s (m_mem s (conf + 6)) s) by done. destruct (_ && _) eqn:Ev; [done|].
    rewrite (bind_ok _ _ s (table_len (m_mem s) conf) s), (bind_ok _ _ s s s) by done.
    destruct Hbad as [?|[[H1 H4]|H]]; [done| |by rewrite (proj2 (Z.eqb_neq _ _) H)].
    by rewrite (proj2 (Z.eqb_neq _ _) H1), (proj2 (Z.eqb_neq _ _) H4) in Ev.
Qed.

(** Whatever the tables hold, the walk and [mpinit] come to an end and write
    no memory. *)
Lemma mpinit_loop_total fuel : ∀ p conf_end s, conf_end - p ≤ Z.of_nat fuel → 0 ≤ ncpu s ≤ 8 →
  wp (mpinit_loop fuel p conf_end) s (λ _ s', m_mem s' = m_mem s).
Proof.
  induction fuel as [|fuel IH]; intros p e s Hf Hn.
  { cbn [mpinit_loop]. destruct (Z.ltb_spec p e); [lia|by wp_step]. }
  cbn [mpinit_loop]. destruct (Z.ltb_spec p e); [|by wp_step]. unfold byte. do 2 wp_step. cbv beta.
  destruct (_ =? MPPROC).
  { do 2 wp_step. wp_step. unfold as_u64, NCPU, u64_max. rewrite Z.mod_small by lia. destruct (Z.ltb_spec (ncpu s) 8).
    - do 2 wp_step. wp_step. eapply wp_eq; [apply chk_i32_ok; unfold i32_lo, i32_hi; lia|]. cbv beta. wp_step.
      eapply wp_mono; [apply IH; unfold sizeof_mpproc; cbn; lia|]. done.
    - wp_step. eapply wp_mono; [apply IH; unfold sizeof_mpproc; cbn; lia|]. done. }
  destruct (_ =? MPIOAPIC).
  { do 4 wp_step. eapply wp_mono; [apply IH; unfold sizeof_mpioapic; cbn; lia|]. done. }
  destruct (_ || _); [|by wp_step]. eapply wp_mono; [apply IH; cbn; lia|]. done.
Qed.

Lemma mpinit_total s : (∀ x, is_byte (m_mem s x)) → ebda (m_mem s) ≠ 0 ∨ basemem (m_mem s) ≠ 0 → 0 ≤ ncpu s ≤ 8 →
  wp mpinit s (λ _ s', m_mem s' = m_mem s).
Proof.
  intros Hb Hne Hn. pose proof (mpsearch_spec s Hb Hne) as Hs. generalize dependent (List.find (valid_mp (m_mem s)) (searched (m_mem s))).
  intros r Hs. unfold mpinit, mpconfig. wp_step. wp_step. eapply wp_eq; [exact Hs|]. cbv beta. destruct r as [mp|]; [|by wp_auto].
  unfold u32_at, u16_at, byte, p2v, outb, inb23. do 2 wp_step. cbv beta. destruct (_ =? 0); [by wp_auto|].
  wp_step. eapply wp_eq; [apply chk_u64_ok, conf_addr, Hb|]. cbv beta. do 2 wp_step. destruct (negb _); [by wp_auto|].
  do 2 wp_step. destruct (negb _ && _); [by wp_auto|]. do 4 wp_step. destruct (negb _); [by wp_auto|]. wp_step. cbv iota beta.
  set (conf := le_val _ + KERNBASE). pose proof (word_bound (m_mem s) (conf + 36) 4 Hb) as Hw. change (256 ^ Z.of_nat 4) with 4294967296 in Hw.
  pose proof (word_bound (m_mem s) (conf + 4) 2 Hb) as Hl.
  do 2 wp_step. wp_step. eapply wp_eq; [apply chk_u64_ok; unfold KERNBASE, u64_max; lia|]. cbv beta. do 4 wp_step. wp_step. cbv zeta.
  eapply wp_mono; [apply mpinit_loop_total; [unfold sizeof_mpconf; cbn [m_mem set_lapic] in *; lia|exact Hn]|].
  intros ? s2 E2. do 2 wp_step. destruct (negb _); wp_auto; exact E2.
Qed.

(** The interrupt mode register after [mpinit], for a floating pointer
    structure that has or has not its [imcrp] set. *)
Definition imcr_after (m : mem) (mp : Z) (r : Z → Z) : Z → Z :=
  if m (mp + 12) =? 0 then r else λ i, if i =? 0x70 then Z.lor (r 0x70) 1 else r i.

(** C29: The processors of the machine are found. With the first valid floating
    pointer structure, in the order of the search, leading to a valid table,
    [mpinit] publishes the APIC numbers of its processor entries in order, of
    the first 8 if there are more, their number, the last I/O APIC and the
    address of the local APIC, and masks external interrupts exactly if the
    structure says so. Without such a structure, with no table, or with a
    table whose signature, version or checksum is wrong, it changes nothing;
    without any extended BIOS area and base memory it panics. *)
Theorem mpinit_finds_cpus (s : mps) (Hb : ∀ x, is_byte (m_mem s x)) (Hc : cpus s = replicate 8 0) (Hn : ncpu s = 0) :
  (ebda (m_mem s) ≠ 0 ∨ basemem (m_mem s) ≠ 0 →
   match List.find (valid_mp (m_mem s)) (searched (m_mem s)) with
   | None => mpinit s = Ok (tt, s)
   | Some mp =>
       let conf := table_of (m_mem s) mp + KERNBASE in
       (table_of (m_mem s) mp = 0 ∨ table_bad (m_mem s) conf → mpinit s = Ok (tt, s)) ∧
       (∀ es, table_of (m_mem s) mp ≠ 0 → table_at (m_mem s) conf es →
          wp mpinit s (λ _ s', cpus s' = resize 8 0 (procs es) ∧ ncpu s' = Z.min 8 (Z.of_nat (length (procs es))) ∧
            ioapicid s' = default (ioapicid s) (last (ioapics es)) ∧
            lapic s' = le_val (load_bytes (m_mem s) (conf + 36) 4) + KERNBASE ∧
            m_mem s' = m_mem s ∧ ∀ i, imcr s' i = imcr_after (m_mem s) mp (imcr s) i))
   end) ∧
  (ebda (m_mem s) = 0 → basemem (m_mem s) = 0 → ∃ e, mpinit s = Panic e).
Proof.
  split.
  - intros Hne. pose proof (mpsearch_spec s Hb Hne) as Hs. destruct (List.find _ _) as [mp|].
    2:{ unfold mpinit, mpconfig. by rewrite bind_assoc, (bind_ok _ _ _ _ _ Hs). }
    cbv zeta. split.
    + intros Hbad. destruct (decide (table_of (m_mem s) mp = 0)) as [E|E].
      * unfold mpinit, mpconfig. rewrite bind_assoc, (bind_ok _ _ _ _ _ Hs). cbv iota beta.
        rewrite bind_assoc, (bind_ok _ _ s (table_of (m_mem s) mp) s) by done. by rewrite E.
      * unfold mpinit. rewrite (bind_ok _ _ s None s); [done|]. apply (mpconfig_found s mp Hb Hs E). by destruct Hbad.
    + intros es Hpa Ht. set (conf := table_of (m_mem s) mp + KERNBASE) in *. unfold mpinit. wp_step.
      eapply wp_eq; [by apply (mpconfig_found s mp Hb Hs Hpa) with es|]. cbv iota beta. fold conf. unfold u32_at, u16_at, byte, p2v, outb, inb23.
      pose proof (word_bound (m_mem s) (conf + 36) 4 Hb) as Hw. change (256 ^ Z.of_nat 4) with 4294967296 in Hw.
      do 3 wp_step. eapply wp_eq; [apply chk_u64_ok; unfold KERNBASE, u64_max; lia|]. cbv beta.
      do 5 wp_step. cbn [m_mem set_lapic]. fold (table_len (m_mem s) conf). rewrite (ta_len _ _ _ Ht).
      set (s1 := set_lapic _ s). rewrite Z.add_assoc.
      eapply wp_mono; [apply (mpinit_loop_spec s1 es (ta_ok _ _ _ Ht) _ _ s1 [] []); [|by apply Ht|unfold sizeof_mpconf; lia]|].
      { by split. }
      cbn [app]. intros _ s2 [P1 P2 P3 P4 P5 P6 P7]. do 2 wp_step. rewrite P4. cbn [m_mem s1 set_lapic]. unfold imcr_after.
      destruct (m_mem s (mp + 12) =? 0) eqn:Ei; cbn [negb]; wp_auto; cbn; rewrite ?P1, ?P2, ?P3, ?P4, ?P5, ?P7; split_and!; try done.
  - intros E B. assert (∃ e, mpsearch s = Panic e) as [e He]; [|exists e; unfold mpinit, mpconfig, bind; by rewrite He].
    pose proof (Hb (KERNBASE + 0x40F)). pose proof (Hb (KERNBASE + 0x40E)).
    pose proof (Hb (KERNBASE + 0x414)). pose proof (Hb (KERNBASE + 0x413)). unfold is_byte, ebda, basemem in *.
    assert (m_mem s (KERNBASE + 0x40F) = 0 ∧ m_mem s (KERNBASE + 0x40E) = 0 ∧ m_mem s (KERNBASE + 0x414) = 0 ∧ m_mem s (KERNBASE + 0x413) = 0)
      as (E1 & E2 & E3 & E4) by lia.
    unfold mpsearch, p2v. rewrite (bind_ok _ _ s (0x400 + KERNBASE) s) by done.
    rewrite (bind_ok _ _ s 0 s) by (unfold byte, gets; by rewrite <- E1). rewrite (bind_ok _ _ s 0 s) by (unfold byte, gets; by rewrite <- E2).
    cbv zeta. change (negb _) with false. cbv iota.
    rewrite bind_assoc, (bind_ok _ _ s 0 s) by (unfold byte, gets; by rewrite <- E3). rewrite bind_assoc, (bind_ok _ _ s 0 s) by (unfold byte, gets; by rewrite <- E4).
    eexists. reflexivity.
Qed.

(** ** Witness: two processors and an I/O APIC, in the extended BIOS area *)

Definition es0 : list entry := [EProc 0 (replicate 18 0); EProc 1 (replicate 18 0); EIoapic 2 (replicate 6 0)].
Definition firmware0 : list Z :=
  MP_SIG ++ [0x10; 0xFC; 0x09; 0; 1; 4; 11; 0; 0x80; 0; 0; 0] ++
  PCMP_SIG ++ [92; 0; 4; 138] ++ replicate 26 0 ++ [3; 0] ++ [0; 0; 0xE0; 0xFE; 0; 0; 0; 0] ++ enc_entries es0.
Definition mem0 : mem :=
  store_bytes (KERNBASE + 0x9FC00) firmware0 (store_bytes (KERNBASE + 0x40E) [0xC0; 0x9F] (λ _, 0)).
Definition mps0 : mps := mkMps mem0 (replicate 8 0) 0 0 0 0 (λ _, 0).

Lemma mem0_bytes x : is_byte (mem0 x).
Proof.
  apply store_bytes_byte; [|apply store_bytes_byte; [|done]].
  - change (Forall (λ b, 0 ≤ b < 256) firmware0). apply (bool_decide_eq_true_1 _). vm_compute. reflexivity.
  - repeat constructor; done.
Qed.

Lemma mpinit_finds_cpus_witness : wp mpinit mps0 (λ _ s', cpus s' = [0; 1; 0; 0; 0; 0; 0; 0] ∧ ncpu s' = 2 ∧ ioapicid s' = 2 ∧
  lapic s' = 0xFEE00000 + KERNBASE ∧ imcr s' 0x70 = 1).
Proof.
  pose proof (proj1 (mpinit_finds_cpus mps0 mem0_bytes eq_refl eq_refl) ltac:(left; vm_compute; discriminate)) as H.
  assert (List.find (valid_mp mem0) (searched mem0) = Some (KERNBASE + 0x9FC00)) as E by (vm_compute; reflexivity).
  change (m_mem mps0) with mem0 in H. rewrite E in H.
  eapply wp_mono; [apply (proj2 H es0); [vm_compute; discriminate|]|].
  - split; try (vm_compute; reflexivity); [right; vm_compute; reflexivity|]. repeat constructor.
  - intros [] s' (-> & -> & -> & -> & _ & Hi). rewrite Hi. split_and!; vm_compute; reflexivity.
Defined.

End Mp.
