(* ===== verification/Traps.v ===== *)
(** * Traps and interrupts

    crates/arch/src/traps.rs: the interrupt descriptor table [tvinit] builds in
    a page of its own, and [trap], which the entry code of every vector calls.
    [trap] runs the handlers of the disk, the console and the timer over the
    states of these components, and delivers the [wakeup] calls they make to
    the process table, as the functions of the kernel do. *)

From S2P Require Import Prelude Param Mmu Mem Kalloc Sync Disk Ring Bio Fsh Log Fs Pipe File Vm Proc ProcTable Kbd Console Ide.
Import Mmu Mem.

Module Traps.

Definition T_GPFLT : Z := 13.
Definition T_IRQ0 : Z := 32.
Definition IRQ_TIMER : Z := 0.
Definition IRQ_KBD : Z := 1.
Definition IRQ_COM1 : Z := 4.
Definition IRQ_IDE : Z := 14.
Definition IRQ_SPURIOUS : Z := 31.

(** ** The descriptor table *)

Section idt.
(** The entry points of vectors.S. *)
Variable vectors : Z → Z.

Definition store32 (a v : Z) (m : mem) : mem := store_bytes a (le_bytes 4 v) m.
Definition load32 (m : mem) (a : Z) : Z := le_val (load_bytes m a 4).
Definition put_word (idt_ptr : Z) (i v : Z) : M Kalloc.kmem_t unit :=
  modify (λ k, Kalloc.set_mem (store32 (idt_ptr + 4 * i) v (Kalloc.kmem_mem k)) k).

Definition mkgate (idt_ptr n kva pl : Z) : M Kalloc.kmem_t unit :=
  let* n := chk_u32 (n * 4) in
  put_word idt_ptr (n + 0) (Z.lor (as_u32 (Z.land kva 0xFFFF)) (as_u32 (Z.shiftl Vm.KERNEL_CS 16))) ;;;
  put_word idt_ptr (n + 1) (Z.lor (Z.lor (as_u32 (Z.land kva 0xFFFF0000)) 0x8E00) (as_u32 (Z.shiftl (Z.land pl 3) 13))) ;;;
  put_word idt_ptr (n + 2) (as_u32 (Z.shiftr kva 32)) ;;;
  put_word idt_ptr (n + 3) 0.

(** Returns the new value of [idtt]. *)
Definition tvinit : M Kalloc.kmem_t Z :=
  let* idtt := Kalloc.kalloc in
  if idtt =? 0 then panic "tvinit: kalloc failed"
  else
    modify (λ k, Kalloc.set_mem (memset idtt 0 PGSIZE (Kalloc.kmem_mem k)) k) ;;;
    forM (seqZ 0 256) (λ n, mkgate idtt n (vectors n) 0) ;;;
    ret idtt.

Definition idtinit (idtt : Z) : list Vm.hwop := [Vm.Lidt idtt PGSIZE].

(** The fields of a gate as the processor reads them. *)
Record gate := mkGate {
  g_offset : Z; g_selector : Z; g_ist : Z; g_type : Z; g_dpl : Z; g_present : Z;
}.
Definition gate_at (m : mem) (idtt n : Z) : gate :=
  let w i := load32 m (idtt + 16 * n + 4 * i) in
  mkGate (w 0 mod 2 ^ 16 + 2 ^ 16 * (w 1 / 2 ^ 16) + 2 ^ 32 * w 2) (w 0 / 2 ^ 16)
    (w 1 mod 8) (w 1 / 2 ^ 8 mod 16) (w 1 / 2 ^ 13 mod 4) (w 1 / 2 ^ 15 mod 2).

(** The vector at which [int n] executed at privilege level [cpl] arrives: a
    gate of a lower level gives a general protection fault. *)
Definition int_vector (m : mem) (idtt cpl n : Z) : Z := if g_dpl (gate_at m idtt n) <? cpl then T_GPFLT else n.

(** *** Words of a gate *)

Lemma load32_store32 a v m : 0 ≤ v < u32_max → load32 (store32 a v m) a = v.
Proof.
  intros Hv. unfold load32, store32. rewrite <- (length_le_bytes 4 v) at 2. rewrite load_store_bytes, le_val_bytes_small; [done|exact Hv].
Qed.
Lemma load32_store32_other a b v m : a + 4 ≤ b ∨ b + 4 ≤ a → load32 (store32 a v m) b = load32 m b.
Proof.
  intros H. unfold load32. f_equal. apply load_bytes_agree. intros x Hx. apply store_bytes_out. rewrite length_le_bytes. lia.
Qed.

Lemma low_word kva :
  Z.lor (as_u32 (Z.land kva 0xFFFF)) (as_u32 (Z.shiftl Vm.KERNEL_CS 16)) = kva mod 2 ^ 16 + 2 ^ 16 * Vm.KERNEL_CS.
Proof.
  change 0xFFFF with (2 ^ 16 - 1). rewrite land_mask by lia. pose proof (Z.mod_pos_bound kva (2 ^ 16) ltac:(lia)).
  change (as_u32 (Z.shiftl Vm.KERNEL_CS 16)) with (2 ^ 16 * Vm.KERNEL_CS). unfold as_u32.
  rewrite (Z.mod_small (kva mod 2 ^ 16)) by (unfold u32_max; lia). by apply lor_low_high.
Qed.

Lemma mid_word kva : Z.land kva 0xFFFF0000 = 2 ^ 16 * (kva / 2 ^ 16 mod 2 ^ 16).
Proof.
  change 0xFFFF0000 with (Z.shiftl (Z.ones 16) 16). rewrite Z.mul_comm, <- Z.shiftl_mul_pow2, <- Z.shiftr_div_pow2, <- Z.land_ones by lia.
  apply Z.bits_inj'. intros i Hi. rewrite Z.land_spec. destruct (Z.lt_ge_cases i 16).
  - rewrite !Z.shiftl_spec_low by lia. apply andb_false_r.
  - rewrite !Z.shiftl_spec, Z.land_spec, Z.shiftr_spec by lia. by replace (i - 16 + 16) with i by lia.
Qed.
Lemma flag_word kva :
  Z.lor (Z.lor (as_u32 (Z.land kva 0xFFFF0000)) 0x8E00) (as_u32 (Z.shiftl (Z.land 0 3) 13)) =
  0x8E00 + 2 ^ 16 * (kva / 2 ^ 16 mod 2 ^ 16).
Proof.
  change (as_u32 (Z.shiftl (Z.land 0 3) 13)) with 0. rewrite Z.lor_0_r, mid_word. pose proof (Z.mod_pos_bound (kva / 2 ^ 16) (2 ^ 16) ltac:(lia)).
  unfold as_u32. rewrite (Z.mod_small (2 ^ 16 * _)) by (unfold u32_max; lia). rewrite Z.lor_comm. apply lor_low_high; lia.
Qed.

(** The gate of a handler: a present 64-bit interrupt gate of level 0. *)
Definition kernel_gate (kva : Z) : gate := mkGate kva Vm.KERNEL_CS 0 0xE 0 1.

Definition gate_words (kva : Z) : list Z :=
  [kva mod 2 ^ 16 + 2 ^ 16 * Vm.KERNEL_CS; 0x8E00 + 2 ^ 16 * (kva / 2 ^ 16 mod 2 ^ 16); kva / 2 ^ 32 mod 2 ^ 32; 0].
Definition has_words (m : mem) (a : Z) (l : list Z) : Prop := ∀ i x, l !! i = Some x → load32 m (a + 4 * Z.of_nat i) = x.

Lemma gate_of_words m idtt n kva : 0 ≤ kva < u64_max → has_words m (idtt + 16 * n) (gate_words kva) →
  gate_at m idtt n = kernel_gate kva.
Proof.
  intros Hk Hw. pose proof (Hw 0%nat _ eq_refl) as W0. pose proof (Hw 1%nat _ eq_refl) as W1. pose proof (Hw 2%nat _ eq_refl) as W2.
  unfold gate_at. cbv zeta. change (4 * Z.of_nat 0) with (4 * 0) in W0. change (4 * Z.of_nat 1) with (4 * 1) in W1. change (4 * Z.of_nat 2) with (4 * 2) in W2.
  rewrite W0, W1, W2. unfold kernel_gate. change Vm.KERNEL_CS with 8. unfold u64_max in Hk.
  change (2 ^ 16) with 65536. change (2 ^ 32) with 4294967296. change (2 ^ 8) with 256. change (2 ^ 13) with 8192. change (2 ^ 15) with 32768.
  f_equal; Z.to_euclidean_division_equations; lia.
Qed.

(** What [mkgate] writes, and nothing else. *)
Lemma mkgate_spec idtt n kva k : 0 ≤ n < 256 → 0 ≤ kva < u64_max →
  wp (mkgate idtt n kva 0) k (λ _ k', ∃ m', k' = Kalloc.set_mem m' k ∧ has_words m' (idtt + 16 * n) (gate_words kva) ∧
    ∀ x, x < idtt + 16 * n ∨ idtt + 16 * n + 16 ≤ x → m' x = Kalloc.kmem_mem k x).
Proof.
  intros Hn Hk. unfold mkgate, put_word. wp_step. eapply wp_eq; [apply chk_u32_ok; unfold u32_max; lia|]. cbv beta.
  rewrite low_word, flag_word. do 7 wp_step.
  assert (H2 : as_u32 (Z.shiftr kva 32) = kva / 2 ^ 32 mod 2 ^ 32) by (by rewrite Z.shiftr_div_pow2 by lia). rewrite H2.
  pose proof (Z.mod_pos_bound kva (2 ^ 16) ltac:(lia)). pose proof (Z.mod_pos_bound (kva / 2 ^ 16) (2 ^ 16) ltac:(lia)).
  pose proof (Z.mod_pos_bound (kva / 2 ^ 32) (2 ^ 32) ltac:(lia)). change Vm.KERNEL_CS with 8 in *.
  eexists. split; [reflexivity|]. cbn [Kalloc.kmem_mem Kalloc.set_mem]. split.
  - intros i x Hi. destruct i as [|[|[|[|i]]]]; [injection Hi as <-..|done].
    all: rewrite ?load32_store32_other by lia.
    all: match goal with |- load32 (store32 ?b _ _) ?a = _ => replace a with b by lia end.
    all: apply load32_store32; unfold u32_max; change Vm.KERNEL_CS with 8; lia.
  - intros x Hx. unfold store32. by rewrite !store_bytes_out by (rewrite length_le_bytes; lia).
Qed.

Lemma has_words_agree m m' a l : (∀ x, a ≤ x < a + 4 * Z.of_nat (length l) → m' x = m x) → has_words m a l → has_words m' a l.
Proof.
  intros Hm H i x Hi. rewrite <- (H i x Hi). pose proof (lookup_lt_Some _ _ _ Hi). unfold load32. f_equal.
  apply load_bytes_agree. intros y Hy. apply Hm. lia.
Qed.

Lemma gates_spec idtt N k : (∀ n, 0 ≤ n < 256 → 0 ≤ vectors n < u64_max) → 0 ≤ N ≤ 256 →
  wp (forM (seqZ 0 N) (λ n, mkgate idtt n (vectors n) 0)) k (λ _ k', ∃ m', k' = Kalloc.set_mem m' k ∧
    (∀ n, 0 ≤ n < N → has_words m' (idtt + 16 * n) (gate_words (vectors n))) ∧
    ∀ x, x < idtt ∨ idtt + 16 * N ≤ x → m' x = Kalloc.kmem_mem k x).
Proof.
  intros Hv HN.
  apply (wp_forM_seqZ _ (λ N k', ∃ m', k' = Kalloc.set_mem m' k ∧
    (∀ n, 0 ≤ n < N → has_words m' (idtt + 16 * n) (gate_words (vectors n))) ∧
    ∀ x, x < idtt ∨ idtt + 16 * N ≤ x → m' x = Kalloc.kmem_mem k x)); [lia| |].
  - exists (Kalloc.kmem_mem k). split_and!; [by destruct k|intros; lia|done].
  - intros j k1 Hj (m1 & -> & Hw & Hout). eapply wp_mono; [apply mkgate_spec; [lia|apply Hv; lia]|].
    intros _ k2 (m2 & -> & Hw2 & Hout2). exists m2. cbn [Kalloc.kmem_mem Kalloc.set_mem] in Hout2. split_and!; [done| |].
    + intros n Hn. destruct (decide (n = j)) as [->|Hne]; [done|]. apply (has_words_agree m1); [|apply Hw; lia].
      intros x Hx. apply Hout2. change (length (gate_words (vectors n))) with 4%nat in Hx. lia.
    + intros x Hx. rewrite Hout2, Hout by lia. done.
Qed.

Lemma tvinit_spec kernel_end k p l : Kalloc.kinv kernel_end k (p :: l) → (∀ n, 0 ≤ n < 256 → 0 ≤ vectors n < u64_max) →
  wp tvinit k (λ idtt k', idtt = p ∧ Kalloc.kinv kernel_end k' l ∧
    (∀ n, 0 ≤ n < 256 → gate_at (Kalloc.kmem_mem k') idtt n = kernel_gate (vectors n)) ∧
    ∀ x, x < idtt ∨ idtt + PGSIZE ≤ x → Kalloc.kmem_mem k' x = Kalloc.kmem_mem k x).
Proof.
  intros Hk Hv. destruct (Kalloc.kalloc_inv kernel_end k p l Hk) as [Ha Hi]. destruct Hk as (_ & Hnd & Hok).
  apply NoDup_cons in Hnd as [Hp _]. apply Forall_cons in Hok as [Hpk Hok]. pose proof (Kalloc.page_ok_nonzero _ p Hpk).
  unfold tvinit. wp_step. eapply wp_eq; [exact Ha|]. cbv beta. rewrite (proj2 (Z.eqb_neq p 0)) by lia. do 3 wp_step.
  set (k1 := Kalloc.set_freelist _ k) in *.
  eapply wp_mono; [apply (gates_spec p 256 _ Hv); lia|]. intros _ k2 (m2 & -> & Hw & Hout). cbn [Kalloc.kmem_mem Kalloc.set_mem] in Hout. wp_step.
  assert (Hmem : ∀ x, x < p ∨ p + PGSIZE ≤ x → m2 x = Kalloc.kmem_mem k1 x).
  { intros x Hx. rewrite Hout by (unfold PGSIZE in Hx; lia). by apply memset_out. }
  split_and!; [done| |intros n Hn; apply gate_of_words; [by apply Hv|by apply Hw]|exact Hmem].
  change (Kalloc.set_mem m2 (Kalloc.set_mem (memset p 0 PGSIZE (Kalloc.kmem_mem k1)) k1)) with (Kalloc.set_mem m2 k1).
  by apply (Kalloc.kinv_page _ _ _ _ p).
Qed.

(** The descriptor table sends every vector to its entry point. [tvinit]
    takes a page from the allocator, which keeps its other pages, and fills it
    with 256 gates that the processor reads as present interrupt gates of
    privilege level 0 into the kernel code segment at the entry points of
    vectors.S; no other memory changes. *)
Theorem tvinit_installs_vectors (kernel_end : Z) (k : Kalloc.kmem_t) (p : Z) (l : list Z)
    (Hk : Kalloc.kinv kernel_end k (p :: l)) (Hv : ∀ n, 0 ≤ n < 256 → 0 ≤ vectors n < u64_max) :
  wp tvinit k (λ idtt k', idtt = p ∧ Kalloc.kinv kernel_end k' l ∧
    (∀ n, 0 ≤ n < 256 → gate_at (Kalloc.kmem_mem k') idtt n = kernel_gate (vectors n)) ∧
    ∀ x, x < idtt ∨ idtt + PGSIZE ≤ x → Kalloc.kmem_mem k' x = Kalloc.kmem_mem k x).
Proof. by apply tvinit_spec. Qed.

End idt.

(** ** The dispatcher *)

Section trap.
Context {B : Type} {BD : BlockDev B} {D : Type} {ATA : Ide.Ata D}.

(** The process table with the components it runs over, the disk driver, the
    console, the tick counter with its lock and the interrupt nesting, whether
    the local APIC has been found, and the end-of-interrupt writes to it. *)
Record tst := mkTst {
  t_proc : Proc.pst (D := B);
  t_ide : Ide.ide D;
  t_cons : Console.cons;
  ticks : Z;
  tickslock : Sync.spin_state;
  lapic : bool;
  eois : nat;
}.

Definition on_proc {A} (m : M (Proc.pst (D := B)) A) : M tst A :=
  zoom t_proc (λ p s, mkTst p (t_ide s) (t_cons s) (ticks s) (tickslock s) (lapic s) (eois s)) m.
Definition on_ide {A} (m : M (Ide.ide D) A) : M tst A :=
  zoom t_ide (λ d s, mkTst (t_proc s) d (t_cons s) (ticks s) (tickslock s) (lapic s) (eois s)) m.
Definition on_cons {A} (m : M Console.cons A) : M tst A :=
  zoom t_cons (λ c s, mkTst (t_proc s) (t_ide s) c (ticks s) (tickslock s) (lapic s) (eois s)) m.
Definition on_ticks {A} (m : M Sync.spin_state A) : M tst A :=
  zoom tickslock (λ l s, mkTst (t_proc s) (t_ide s) (t_cons s) (ticks s) l (lapic s) (eois s)) m.
Definition set_ticks (v : Z) (s : tst) : tst :=
  mkTst (t_proc s) (t_ide s) (t_cons s) v (tickslock s) (lapic s) (eois s).

Definition lapiceoi : M tst unit :=
  modify (λ s, if lapic s then mkTst (t_proc s) (t_ide s) (t_cons s) (ticks s) (tickslock s) (lapic s) (S (eois s)) else s).

(** The handlers of the drivers, followed by the calls of [wakeup] they made. *)
Definition wakeups (l : list chan) : M tst unit := forM l (λ c, on_proc (Proc.wakeup c)).
Definition ideintr : M tst unit :=
  on_ide (modify (λ d, Ide.mkIde (Ide.IDE_QUEUE d) (Ide.HAVE_DISK1 d) (Ide.bufs d) (Ide.dev d) []) ;;; Ide.ideintr) ;;;
  let* d := gets t_ide in
  wakeups (ChBuf <$> Ide.iwakes d).
Definition no_wakes (c : Console.cons) : Console.cons :=
  Console.mkCons (Console.CRT c) (Console.cursor c) (Console.UART_EXISTS c) (Console.tx c) (Console.rx c) (Console.INPUT c) []
    (Console.SHIFT_STATE c) (Console.codes c).
Definition cons_intr (handler : M Console.cons unit) : M tst unit :=
  on_cons (modify no_wakes ;;; handler) ;;;
  let* c := gets t_cons in
  wakeups (Console.cwakes c).

Definition trap (tf : Proc.trapframe) : M tst unit :=
  let trapno := as_u32 (Proc.trapno tf) in
  if trapno =? T_IRQ0 + IRQ_TIMER then
    on_ticks Sync.acquire ;;;
    modify (λ s, set_ticks (as_u32 (ticks s + 1)) s) ;;;
    on_proc (Proc.wakeup ChTicks) ;;;
    on_ticks Sync.release ;;;
    lapiceoi
  else if trapno =? T_IRQ0 + IRQ_IDE then
    ideintr ;;;
    lapiceoi
  else if trapno =? T_IRQ0 + IRQ_IDE + 1 then ret tt
  else if trapno =? T_IRQ0 + IRQ_KBD then
    cons_intr Console.kbdintr ;;;
    lapiceoi
  else if trapno =? T_IRQ0 + IRQ_COM1 then
    cons_intr Console.uartintr ;;;
    lapiceoi
  else if (trapno =? T_IRQ0 + 7) || (trapno =? T_IRQ0 + IRQ_SPURIOUS) then lapiceoi
  else if Z.land (Proc.cs tf) 3 =? 0 then panic "trap"
  else ret tt.

(** What a [wakeup] does to the process table. *)
Definition woken (c : chan) (p p' : Proc.pst (D := B)) : Prop :=
  Proc.ptable p' = Proc.wake (Some c) <$> Proc.ptable p ∧ Proc.pk p' = Proc.pk p ∧ Proc.cur p' = Proc.cur p.
Definition eoi_after (s : tst) : nat := if lapic s then S (eois s) else eois s.

Lemma wp_eoi s (Q : unit → tst → Prop) :
  Q tt (mkTst (t_proc s) (t_ide s) (t_cons s) (ticks s) (tickslock s) (lapic s) (eoi_after s)) → wp lapiceoi s Q.
Proof. intros H. unfold lapiceoi. wp_step. unfold eoi_after in H. by destruct s as [? ? ? ? ? []]. Qed.

(** The lock of the tick counter, around something that leaves it alone. *)
Lemma tick_section l c : Sync.cli_ok c → Sync.CLI_DEPTH c + 1 < i32_hi →
  ∃ c1 l1, Sync.acquire (l, c) = Ok (tt, (l1, c1)) ∧ Sync.cpu_if c1 = false ∧
  ∃ c2, Sync.release (l1, c1) = Ok (tt, (Sync.set_locked 0 l, c2)) ∧
    Sync.CLI_DEPTH c2 = Sync.CLI_DEPTH c ∧ Sync.cpu_if c2 = Sync.cpu_if c.
Proof.
  intros Hc Hd. pose proof Hc as [[H0 H1] H2]. do 2 eexists. split; [|split].
  - unfold Sync.acquire, Sync.on_cli, bind, zoom. cbn [fst snd]. rewrite Sync.pushcli_spec by done. reflexivity.
  - reflexivity.
  - eexists. split; [|split].
    + unfold Sync.release, Sync.on_cli, bind, zoom, modify. cbn [fst snd].
      rewrite Sync.popcli_spec; [reflexivity| |cbn; lia]. split; cbn; [lia|done].
    + cbn. lia.
    + cbn. replace (Sync.CLI_DEPTH c + 1 - 1) with (Sync.CLI_DEPTH c) by lia. destruct (Z.eqb_spec (Sync.CLI_DEPTH c) 0); [done|].
      cbn. symmetry. apply H2. lia.
Qed.

Lemma trap_timer tf s : Proc.trapno tf = T_IRQ0 + IRQ_TIMER →
  Sync.cli_ok (tickslock s).2 → Sync.CLI_DEPTH (tickslock s).2 + 1 < i32_hi →
  wp (trap tf) s (λ _ s', ticks s' = (ticks s + 1) mod 2 ^ 32 ∧ woken ChTicks (t_proc s) (t_proc s') ∧
    Sync.locked (tickslock s').1 = 0 ∧ Sync.CLI_DEPTH (tickslock s').2 = Sync.CLI_DEPTH (tickslock s).2 ∧
    Sync.cpu_if (tickslock s').2 = Sync.cpu_if (tickslock s).2 ∧
    t_ide s' = t_ide s ∧ t_cons s' = t_cons s ∧ eois s' = eoi_after s).
Proof.
  intros Htf Hc Hd. unfold trap. rewrite Htf. cbv zeta.
  change (as_u32 (T_IRQ0 + IRQ_TIMER) =? T_IRQ0 + IRQ_TIMER) with true. cbv iota.
  destruct (tickslock s) as [l c] eqn:El. destruct (tick_section l c Hc Hd) as (c1 & l1 & Ha & _ & c2 & Hr & H1 & H2).
  wp_step. eapply wp_eq; [unfold on_ticks, zoom; rewrite El, Ha; reflexivity|]. do 2 wp_step.
  wp_step. eapply wp_eq; [reflexivity|]. wp_step. eapply wp_eq; [unfold on_ticks, zoom; cbn [tickslock set_ticks]; rewrite Hr; reflexivity|].
  cbv beta. apply wp_eoi. cbn. unfold eoi_after. cbn. by rewrite H1, H2.
Qed.

Lemma trap_disk tf s bd A i q b : Proc.trapno tf = T_IRQ0 + IRQ_IDE → Ide.repr bd A (i :: q) (t_ide s) →
  Ide.bufs (t_ide s) !! i = Some b →
  wp (trap tf) s (λ _ s', Ide.repr bd (Ide.perform A b) q (t_ide s') ∧
    Ide.bufs (t_ide s') = <[i := Ide.completed bd A b]> (Ide.bufs (t_ide s)) ∧ woken (ChBuf i) (t_proc s) (t_proc s') ∧
    ticks s' = ticks s ∧ t_cons s' = t_cons s ∧ tickslock s' = tickslock s ∧ eois s' = eoi_after s).
Proof.
  intros Htf Hr Hb. unfold trap. rewrite Htf. cbv zeta.
  change (as_u32 (T_IRQ0 + IRQ_IDE) =? T_IRQ0 + IRQ_TIMER) with false. change (as_u32 (T_IRQ0 + IRQ_IDE) =? T_IRQ0 + IRQ_IDE) with true. cbv iota.
  unfold ideintr. do 2 wp_step. apply wp_zoom. wp_step. wp_step.
  eapply wp_mono; [apply (Ide.ideintr_spec bd A i q _ b); [|done]|].
  { destruct Hr as [H1 H2 H3 H4 H5 H6 H7]. by split. }
  intros _ d (R & W & _ & Hbufs). cbn [Ide.iwakes app] in W. do 2 wp_step. cbn [t_ide]. rewrite W. cbn [fmap list_fmap wakeups forM].
  wp_step. eapply wp_eq; [reflexivity|]. wp_step. by apply wp_eoi.
Qed.

(** The vectors of the hardware that [trap] knows. *)
Definition irq (n : Z) : bool :=
  bool_decide (n ∈ [T_IRQ0 + IRQ_TIMER; T_IRQ0 + IRQ_IDE; T_IRQ0 + IRQ_IDE + 1; T_IRQ0 + IRQ_KBD; T_IRQ0 + IRQ_COM1; T_IRQ0 + 7; T_IRQ0 + IRQ_SPURIOUS]).

Lemma trap_fault tf s : 0 ≤ Proc.trapno tf < u32_max → irq (Proc.trapno tf) = false →
  trap tf s = if Z.land (Proc.cs tf) 3 =? 0 then Panic "trap" else Ok (tt, s).
Proof.
  intros Hn Hirq. unfold irq in Hirq. apply bool_decide_eq_false_1 in Hirq. unfold trap. unfold as_u32. rewrite Z.mod_small by done. cbv zeta.
  repeat match goal with |- context [Proc.trapno tf =? ?v] =>
    destruct (Z.eqb_spec (Proc.trapno tf) v) as [E|_]; [exfalso; apply Hirq; rewrite E; set_solver|] end.
  cbn [orb]. by destruct (_ =? 0).
Qed.

Lemma wakeups_spec l s : wp (wakeups l) s (λ _ s',
  Proc.ptable (t_proc s') = foldl (λ t c, Proc.wake (Some c) <$> t) (Proc.ptable (t_proc s)) l ∧
  t_ide s' = t_ide s ∧ t_cons s' = t_cons s ∧ ticks s' = ticks s ∧ lapic s' = lapic s ∧ eois s' = eois s).
Proof.
  unfold wakeups. revert s. induction l as [|c l IH]; intros s; cbn [forM foldl]; [by wp_step|].
  wp_step. eapply wp_eq; [reflexivity|]. eapply wp_mono; [apply IH|]. done.
Qed.

Lemma trap_console tf s handler c' : as_u32 (Proc.trapno tf) = T_IRQ0 + IRQ_KBD ∧ handler = Console.kbdintr ∨
    as_u32 (Proc.trapno tf) = T_IRQ0 + IRQ_COM1 ∧ handler = Console.uartintr →
  handler (no_wakes (t_cons s)) = Ok (tt, c') →
  wp (trap tf) s (λ _ s', t_cons s' = c' ∧
    Proc.ptable (t_proc s') = foldl (λ t c, Proc.wake (Some c) <$> t) (Proc.ptable (t_proc s)) (Console.cwakes c') ∧
    t_ide s' = t_ide s ∧ ticks s' = ticks s ∧ eois s' = eoi_after s).
Proof.
  intros Hn Hc. assert (Hrun : wp (cons_intr handler ;;; lapiceoi) s (λ _ s', t_cons s' = c' ∧
    Proc.ptable (t_proc s') = foldl (λ t c, Proc.wake (Some c) <$> t) (Proc.ptable (t_proc s)) (Console.cwakes c') ∧
    t_ide s' = t_ide s ∧ ticks s' = ticks s ∧ eois s' = eoi_after s)).
  { unfold cons_intr. do 2 wp_step. apply wp_zoom. do 2 wp_step. eapply wp_eq; [exact Hc|]. do 2 wp_step. cbn [t_cons].
    eapply wp_mono; [apply wakeups_spec|]. intros _ s' (H1 & H2 & H3 & H4 & H5 & H6). apply wp_eoi. cbn. unfold eoi_after. by rewrite H5, H6. }
  unfold trap. by destruct Hn as [[-> ->]|[-> ->]].
Qed.


(** C38: No process can make a system call with the instruction the user
    library uses. All gates have privilege level 0, so [int 0x40], like any
    software interrupt of a process, arrives as a general protection fault,
    from which [trap] returns with nothing changed: the process executes the
    same instruction again, forever. *)
Theorem user_interrupts_fault (vectors : Z → Z) (kernel_end : Z) (k : Kalloc.kmem_t) (p : Z) (l : list Z)
    (Hk : Kalloc.kinv kernel_end k (p :: l)) (Hv : ∀ n, 0 ≤ n < 256 → 0 ≤ vectors n < u64_max) :
  wp (tvinit vectors) k (λ idtt k', ∀ n (tf : Proc.trapframe) (s : tst), 0 ≤ n < 256 →
    Proc.trapno tf = int_vector (Kalloc.kmem_mem k') idtt 3 n → Z.land (Proc.cs tf) 3 = 3 →
    Proc.trapno tf = T_GPFLT ∧ trap tf s = Ok (tt, s)).
Proof.
  eapply wp_mono; [by apply (tvinit_spec vectors kernel_end k p l)|]. intros idtt k' (-> & _ & Hg & _) n tf s Hn Ht Hcs.
  assert (E : Proc.trapno tf = T_GPFLT) by (rewrite Ht; unfold int_vector; by rewrite Hg).
  split; [done|]. rewrite trap_fault; [by rewrite Hcs|rewrite E; unfold T_GPFLT, u32_max; lia|by rewrite E].
Qed.

End trap.

(** ** Witnesses *)

Definition vectors0 (n : Z) : Z := KERNBASE + 0x100000 + 16 * n.

Lemma vectors0_ok n : 0 ≤ n < 256 → 0 ≤ vectors0 n < u64_max.
Proof. unfold vectors0, KERNBASE, u64_max. lia. Qed.

Lemma tvinit_installs_vectors_witness :
  wp (tvinit vectors0) Kalloc.boot3 (λ idtt k', g_offset (gate_at (Kalloc.kmem_mem k') idtt 46) = KERNBASE + 0x1002E0).
Proof.
  eapply wp_mono; [exact (tvinit_installs_vectors vectors0 Kalloc.end0 Kalloc.boot3 _ _ Kalloc.boot3_inv vectors0_ok)|].
  intros idtt k' (_ & _ & Hg & _). rewrite Hg by lia. reflexivity.
Defined.

(** A process that sleeps on the tick counter, at the last value of the
    counter. *)
Definition sleeper : Proc.proc := Proc.set_chan (Some ChTicks) (Proc.set_state Proc.SLEEPING ProcTable.child_proc).
Definition tst0 : tst (B := Memide.memdisk) (D := Ide.sim) :=
  mkTst (Proc.mkPst File.k0 (ProcTable.init_proc :: sleeper :: replicate 62 ProcTable.zero_proc) (Sync.mkSpin 0 EmptyString None)
           (Some 0%nat) 3 false 0 0 false)
    Ide.ide0 Console.boot (2 ^ 32 - 1) (Sync.mkSpin 0 EmptyString None, Sync.mkCli 0 false true) true 0.
Definition frame (n cs : Z) : Proc.trapframe := Proc.mkTf 0 0 0 0 0 0 0 0 0 0 0 0 0 0 0 n 0 0 cs 0 0 0.


Lemma user_interrupts_fault_witness :
  wp (tvinit vectors0) Kalloc.boot3 (λ idtt k', trap (frame (int_vector (Kalloc.kmem_mem k') idtt 3 0x40) 3) tst0 = Ok (tt, tst0)).
Proof.
  eapply wp_mono; [exact (user_interrupts_fault (B := Memide.memdisk) (D := Ide.sim) vectors0 Kalloc.end0 Kalloc.boot3 _ _ Kalloc.boot3_inv vectors0_ok)|].
  intros idtt k' H. by apply (H 0x40).
Defined.

End Traps.
