(* ===== verification/Apic.v ===== *)
(** * The interrupt controllers

    crates/arch/src/lapic.rs and ioapic.rs: the local APIC of a processor, with
    the sequence that starts another one, and the I/O APIC that routes the
    interrupt lines. The registers of both are state; the local APIC shows an
    interrupt command as pending for some reads after it was given. The clock
    of the CMOS is in [Cmos]. *)

From S2P Require Import Prelude Mmu Mem Traps.
Import Mmu Mem Traps.

Module Apic.

(** The registers and their bits, src/crates/arch/src/lapic.rs lines 20 to 51. *)
Abbreviation ID := (0x0020 / 4) (only parsing).
Abbreviation VER := (0x0030 / 4) (only parsing).
Abbreviation TPR := (0x0080 / 4) (only parsing).
Abbreviation EOI := (0x00B0 / 4) (only parsing).
Abbreviation SVR := (0x00F0 / 4) (only parsing).
Abbreviation ESR := (0x0280 / 4) (only parsing).
Abbreviation ICRLO := (0x0300 / 4) (only parsing).
Abbreviation ICRHI := (0x0310 / 4) (only parsing).
Abbreviation TIMER := (0x0320 / 4) (only parsing).
Abbreviation PCINT := (0x0340 / 4) (only parsing).
Abbreviation LINT0 := (0x0350 / 4) (only parsing).
Abbreviation LINT1 := (0x0360 / 4) (only parsing).
Abbreviation ERROR := (0x0370 / 4) (only parsing).
Abbreviation TICR := (0x0380 / 4) (only parsing).
Abbreviation TDCR := (0x03E0 / 4) (only parsing).
Abbreviation ENABLE := (0x100) (only parsing).
Abbreviation INIT := (0x500) (only parsing).
Abbreviation STARTUP := (0x600) (only parsing).
Abbreviation DELIVS := (0x1000) (only parsing).
Abbreviation ASSERT := (0x4000) (only parsing).
Abbreviation LEVEL := (0x8000) (only parsing).
Abbreviation BCAST := (0x80000) (only parsing).
Abbreviation X1 := (0xB) (only parsing).
Abbreviation PERIODIC := (0x20000) (only parsing).
Abbreviation MASKED := (0x10000) (only parsing).
Definition IRQ_ERROR : Z := 19.

(** ** The local APIC

    Its registers, whether the kernel has its address, the commands given with
    their destination, oldest first, and for how many reads the last one is
    pending; the CMOS bytes and the memory [lapicstartap] writes. *)
Record lapic_t := mkLapic {
  found : bool;
  lreg : Z → Z;
  commands : list (Z * Z);
  pending : nat;
  cmos_sel : Z;
  cmos : Z → Z;
  lmem : mem;
}.

Section lapic.
(** The reads after which a command is no longer pending. *)
Variable latency : nat.

Definition write_reg (i v : Z) (s : lapic_t) : lapic_t :=
  mkLapic (found s) (λ j, if j =? i then v else lreg s j)
    (if i =? ICRLO then commands s ++ [(lreg s ICRHI, v)] else commands s)
    (if i =? ICRLO then latency else pending s) (cmos_sel s) (cmos s) (lmem s).
Definition lapicw (i v : Z) : M lapic_t unit :=
  modify (λ s, if found s then write_reg i v s else s).
Definition lapicr (i : Z) : M lapic_t Z := λ s,
  if found s then
    if i =? ICRLO then
      match pending s with
      | O => Ok (Z.ldiff (lreg s i) DELIVS, s)
      | S n => Ok (Z.lor (lreg s i) DELIVS, mkLapic (found s) (lreg s) (commands s) n (cmos_sel s) (cmos s) (lmem s))
      end
    else Ok (lreg s i, s)
  else Ok (0, s).

Fixpoint wait_ipi (fuel : nat) : M lapic_t unit :=
  match fuel with
  | O => nofuel
  | S fuel' =>
      let* r := lapicr ICRLO in
      if negb (Z.land r DELIVS =? 0) then wait_ipi fuel' else ret tt
  end.

Definition lapicinit : M lapic_t unit :=
  let* s := get in
  if negb (found s) then ret tt
  else
    lapicw SVR (Z.lor ENABLE (T_IRQ0 + IRQ_SPURIOUS)) ;;;
    lapicw TDCR X1 ;;;
    lapicw TIMER (Z.lor PERIODIC (T_IRQ0 + IRQ_TIMER)) ;;;
    lapicw TICR 10000000 ;;;
    lapicw LINT0 MASKED ;;;
    lapicw LINT1 MASKED ;;;
    let* v := lapicr VER in
    (if 4 <=? Z.land (Z.shiftr v 16) 0xFF then lapicw PCINT MASKED else ret tt) ;;;
    lapicw ERROR (T_IRQ0 + IRQ_ERROR) ;;;
    lapicw ESR 0 ;;;
    lapicw ESR 0 ;;;
    lapicw EOI 0 ;;;
    lapicw ICRHI 0 ;;;
    lapicw ICRLO (Z.lor (Z.lor BCAST INIT) LEVEL) ;;;
    let* s := get in
    wait_ipi (S (pending s)) ;;;
    lapicw TPR 0.

Definition outb (p v : Z) : M lapic_t unit :=
  modify (λ s, if p =? 0x70 then mkLapic (found s) (lreg s) (commands s) (pending s) v (cmos s) (lmem s)
               else if p =? 0x71 then mkLapic (found s) (lreg s) (commands s) (pending s) (cmos_sel s)
                                        (λ r, if r =? cmos_sel s then v else cmos s r) (lmem s)
               else s).
Definition store16 (a v : Z) : M lapic_t unit :=
  modify (λ s, mkLapic (found s) (lreg s) (commands s) (pending s) (cmos_sel s) (cmos s) (store_bytes a (le_bytes 2 v) (lmem s))).

Definition lapicstartap (apicid addr : Z) : M lapic_t unit :=
  outb 0x70 0xF ;;;
  outb (0x70 + 1) 0x0A ;;;
  let wrv := KERNBASE + Z.lor (Z.shiftl 0x40 4) 0x67 in
  store16 wrv 0 ;;;
  store16 (wrv + 2) (as_u16 (Z.shiftr addr 4)) ;;;
  lapicw ICRHI (as_u32 (Z.shiftl apicid 24)) ;;;
  lapicw ICRLO (Z.lor (Z.lor INIT LEVEL) ASSERT) ;;;
  lapicw ICRLO (Z.lor INIT LEVEL) ;;;
  forM (seqZ 0 2) (λ _,
    lapicw ICRHI (as_u32 (Z.shiftl apicid 24)) ;;;
    lapicw ICRLO (Z.lor STARTUP (Z.shiftr addr 12))).

Definition cpunum : M lapic_t Z :=
  let* s := get in
  if negb (found s) then ret 0
  else
    let* v := lapicr ID in
    ret (as_i32 (Z.shiftr v 24)).

End lapic.

(** ** The I/O APIC

    Its registers behind the index and the data window. *)
Definition REG_ID : Z := 0x00.
Definition REG_VER : Z := 0x01.
Definition REG_TABLE : Z := 0x10.
Definition INT_DISABLED : Z := 0x10000.

Record ioapic := mkIoapic {
  io_reg : Z;
  io_data : Z → Z;
}.

Definition ioapicread (r : Z) : M ioapic Z :=
  modify (λ s, mkIoapic r (io_data s)) ;;;
  gets (λ s, io_data s (io_reg s)).
Definition ioapicwrite (r v : Z) : M ioapic unit :=
  modify (λ s, mkIoapic r (io_data s)) ;;;
  modify (λ s, mkIoapic (io_reg s) (λ j, if j =? io_reg s then v else io_data s j)).

(** The comparison of the identifier with that of the tables has no effect. *)
Definition ioapicinit : M ioapic unit :=
  let* v := ioapicread REG_VER in
  let maxintr := Z.land (Z.shiftr v 16) 0xFF in
  let* id := ioapicread REG_ID in
  forM (seqZ 0 (maxintr + 1)) (λ i,
    ioapicwrite (REG_TABLE + 2 * i) (Z.lor INT_DISABLED (T_IRQ0 + i)) ;;;
    ioapicwrite (REG_TABLE + 2 * i + 1) 0).

Definition ioapicenable (irq cpunum : Z) : M ioapic unit :=
  let* i := chk_u32 (2 * as_u32 irq) in
  let* r := chk_u32 (REG_TABLE + i) in
  let* v := chk_u32 (T_IRQ0 + as_u32 irq) in
  ioapicwrite r v ;;;
  let* r1 := chk_u32 (r + 1) in
  ioapicwrite r1 (as_u32 (Z.shiftl (as_u32 cpunum) 24)).

(** An entry of the redirection table: whether it is masked, its vector and
    the processor it goes to. *)
Definition masked (s : ioapic) (i : Z) : bool := Z.testbit (io_data s (REG_TABLE + 2 * i)) 16.
Definition vector (s : ioapic) (i : Z) : Z := io_data s (REG_TABLE + 2 * i) mod 256.
Definition dest (s : ioapic) (i : Z) : Z := io_data s (REG_TABLE + 2 * i + 1) / 2 ^ 24.
Definition lines (s : ioapic) : Z := Z.land (Z.shiftr (io_data s REG_VER) 16) 0xFF + 1.

(** ** Routing *)

Definition redirected (s : ioapic) (i lo hi : Z) : Prop :=
  io_data s (REG_TABLE + 2 * i) = lo ∧ io_data s (REG_TABLE + 2 * i + 1) = hi.

Lemma ioapicwrite_ok r v s : ioapicwrite r v s = Ok (tt, mkIoapic r (λ j, if j =? r then v else io_data s j)).
Proof. reflexivity. Qed.

Lemma disabled_word i : 0 ≤ i < 224 → let w := Z.lor INT_DISABLED (T_IRQ0 + i) in Z.testbit w 16 = true ∧ w mod 256 = 32 + i.
Proof.
  intros H. cbv zeta. rewrite Z.lor_comm. change INT_DISABLED with (2 ^ 16 * 1). unfold T_IRQ0. split; [by rewrite Z.lor_spec, orb_true_r|].
  rewrite lor_low_high by lia. change (2 ^ 16) with 65536. Z.to_euclidean_division_equations; lia.
Qed.

Lemma ioapicinit_spec s : wp ioapicinit s (λ _ s', io_data s' REG_VER = io_data s REG_VER ∧
  ∀ i, 0 ≤ i < lines s → redirected s' i (Z.lor INT_DISABLED (T_IRQ0 + i)) 0).
Proof.
  unfold ioapicinit. wp_step. eapply wp_eq; [reflexivity|]. cbv beta zeta. cbn [io_data io_reg]. wp_step. eapply wp_eq; [reflexivity|]. cbv beta.
  fold (lines s). set (s1 := mkIoapic _ _).
  assert (0 ≤ lines s) by (unfold lines; change 0xFF with (Z.ones 8); rewrite Z.land_ones by lia; pose proof (Z.mod_pos_bound (Z.shiftr (io_data s REG_VER) 16) (2 ^ 8)); lia).
  apply (wp_forM_seqZ _ (λ n s', io_data s' REG_VER = io_data s REG_VER ∧
    ∀ i, 0 ≤ i < n → redirected s' i (Z.lor INT_DISABLED (T_IRQ0 + i)) 0)); [done|split; [done|intros; lia]|].
  intros j s2 Hj [Hv Hi]. wp_step. eapply wp_eq; [apply ioapicwrite_ok|]. eapply wp_eq; [apply ioapicwrite_ok|]. unfold redirected, REG_TABLE, REG_VER in *. cbn [io_data].
  split; [by rewrite !(proj2 (Z.eqb_neq _ _)) by lia|]. intros i Hin. destruct (decide (i = j)) as [->|Hne].
  - rewrite Z.eqb_refl. rewrite (proj2 (Z.eqb_neq _ _)) by lia. by rewrite Z.eqb_refl.
  - rewrite !(proj2 (Z.eqb_neq _ _)) by lia. apply Hi. lia.
Qed.

(** C30: The I/O APIC delivers nothing until a line is enabled, and then only
    that line. After [ioapicinit] every entry of the redirection table is
    masked, with the vector of its line; [ioapicenable] unmasks one line,
    routes it to the vector [trap] expects and the processor given, and leaves
    every other entry as it is. *)
Theorem ioapic_routes (s : ioapic) (Hl : lines s ≤ 224) :
  wp ioapicinit s (λ _ s', lines s' = lines s ∧
    (∀ i, 0 ≤ i < lines s → masked s' i = true ∧ vector s' i = T_IRQ0 + i) ∧
    ∀ irq cpu, 0 ≤ irq < lines s → 0 ≤ cpu < 256 →
      wp (ioapicenable irq cpu) s' (λ _ s'', masked s'' irq = false ∧ vector s'' irq = T_IRQ0 + irq ∧ dest s'' irq = cpu ∧
        ∀ i, 0 ≤ i < lines s → i ≠ irq → masked s'' i = true)).
Proof.
  eapply wp_mono; [apply ioapicinit_spec|]. intros _ s' [Hv Hi]. split_and!; [unfold lines; by rewrite Hv| |].
  - intros i Hin. destruct (Hi i Hin) as [E _]. unfold masked, vector. rewrite E. apply disabled_word. lia.
  - intros irq cpu Hin Hcpu. unfold ioapicenable, T_IRQ0, REG_TABLE.
    assert (as_u32 irq = irq) as -> by (apply Z.mod_small; unfold u32_max; lia).
    assert (as_u32 cpu = cpu) as -> by (apply Z.mod_small; unfold u32_max; lia).
    do 3 (wp_step; eapply wp_eq; [apply chk_u32_ok; unfold u32_max; lia|]; cbv beta).
    wp_step. eapply wp_eq; [apply ioapicwrite_ok|]. wp_step. eapply wp_eq; [apply chk_u32_ok; unfold u32_max; lia|]. cbv beta.
    eapply wp_eq; [apply ioapicwrite_ok|]. unfold masked, vector, dest, REG_TABLE. cbn [io_data].
    rewrite !Z.eqb_refl, (proj2 (Z.eqb_neq (16 + 2 * irq) (16 + 2 * irq + 1))) by lia.
    rewrite Z.shiftl_mul_pow2 by lia. unfold as_u32. rewrite (Z.mod_small (cpu * _)) by (unfold u32_max; change (2 ^ 24) with 16777216; lia).
    split_and!.
    + apply Z.bits_above_log2; [lia|]. apply Z.log2_lt_pow2; [lia|]. change (2 ^ 16) with 65536. lia.
    + apply Z.mod_small. lia.
    + by apply Z.div_mul.
    + intros i Hi2 Hne. rewrite !(proj2 (Z.eqb_neq _ _)) by lia. destruct (Hi i Hi2) as [E _]. unfold REG_TABLE in E. rewrite E. apply disabled_word. lia.
Qed.

(** 24 lines, as the I/O APIC of a PC has. *)
Definition io24 : ioapic := mkIoapic 0 (λ r, if r =? REG_VER then 0x170020 else 0).
Lemma ioapic_routes_witness : wp (ioapicinit ;;; ioapicenable 14 1) io24 (λ _ s', vector s' 14 = 46 ∧ dest s' 14 = 1 ∧ masked s' 1 = true).
Proof.
  wp_step. eapply wp_mono; [apply (ioapic_routes io24); vm_compute; discriminate|]. intros _ s1 (_ & _ & H).
  eapply wp_mono; [apply (H 14 1); (vm_compute; split; discriminate || reflexivity)|].
  intros _ s2 (_ & -> & -> & Hm). split_and!; [done|done|]. apply Hm; [vm_compute; split; discriminate || reflexivity|done].
Defined.

(** ** Starting a processor *)

(** The fields of an interrupt command. *)
Definition cmd_dest (c : Z * Z) : Z := c.1 / 2 ^ 24.
Definition cmd_mode (c : Z * Z) : Z := c.2 / 2 ^ 8 mod 8.
Definition cmd_vector (c : Z * Z) : Z := c.2 mod 2 ^ 8.

Lemma lapicw_ok latency i v s : found s = true → lapicw latency i v s = Ok (tt, write_reg latency i v s).
Proof. intros H. unfold lapicw, modify. by rewrite H. Qed.

(** The steps of the sequence: a destination, and a command. *)
Lemma wp_dest latency d s (Q : unit → lapic_t → Prop) : found s = true →
  (∀ s', found s' = true → commands s' = commands s → lreg s' ICRHI = d → cmos s' = cmos s → lmem s' = lmem s → Q tt s') →
  wp (lapicw latency ICRHI d) s Q.
Proof. intros H HQ. eapply wp_eq; [by apply lapicw_ok|]. by apply HQ. Qed.
Lemma wp_command latency v s (Q : unit → lapic_t → Prop) : found s = true →
  (∀ s', found s' = true → commands s' = commands s ++ [(lreg s ICRHI, v)] → lreg s' ICRHI = lreg s ICRHI →
     cmos s' = cmos s → lmem s' = lmem s → Q tt s') →
  wp (lapicw latency ICRLO v) s Q.
Proof. intros H HQ. eapply wp_eq; [by apply lapicw_ok|]. by apply HQ. Qed.

Lemma startup_word v : 0 ≤ v < 256 → Z.lor STARTUP v = 0x600 + v.
Proof. intros H. rewrite Z.lor_comm. change STARTUP with (2 ^ 8 * 6). rewrite lor_low_high by lia. lia. Qed.

(** Another processor is started where it should be. For a page of the
    first megabyte [lapicstartap] sends exactly INIT, its deassertion and two
    STARTUP commands, all to the processor given, with the start vector that
    is the number of the page, and leaves the warm reset vector and the
    shutdown code pointing to the same address. *)
Theorem startap_commands (latency : nat) (apicid addr : Z) (s : lapic_t) (Hf : found s = true) (Ha : 0 ≤ apicid < 256)
    (Hr : 0 ≤ addr < 2 ^ 20) (Hp : addr mod PGSIZE = 0) :
  wp (lapicstartap latency apicid addr) s (λ _ s', ∃ c1 c2 c3 c4, commands s' = commands s ++ [c1; c2; c3; c4] ∧
    Forall (λ c, cmd_dest c = apicid) [c1; c2; c3; c4] ∧ map cmd_mode [c1; c2; c3; c4] = [5; 5; 6; 6] ∧
    Z.testbit c1.2 14 = true ∧ Z.testbit c2.2 14 = false ∧ PGSIZE * cmd_vector c3 = addr ∧ PGSIZE * cmd_vector c4 = addr ∧
    cmos s' 0xF = 0x0A ∧ le_val (load_bytes (lmem s') (KERNBASE + 0x467) 2) = 0 ∧
    16 * le_val (load_bytes (lmem s') (KERNBASE + 0x469) 2) = addr).
Proof.
  unfold lapicstartap, outb, store16. cbv zeta. change (KERNBASE + Z.lor (Z.shiftl 0x40 4) 0x67) with (KERNBASE + 0x467).
  rewrite !Z.shiftr_div_pow2, Z.shiftl_mul_pow2 by lia. change (2 ^ 12) with 4096. change (2 ^ 4) with 16. change (2 ^ 24) with 16777216. change (2 ^ 20) with 1048576 in Hr. unfold PGSIZE in *.
  assert (as_u32 (apicid * 16777216) = apicid * 16777216) as -> by (apply Z.mod_small; unfold u32_max; lia).
  assert (as_u16 (addr / 16) = addr / 16) as -> by (apply Z.mod_small; unfold u16_max; Z.to_euclidean_division_equations; lia).
  rewrite (startup_word (addr / 4096)) by (Z.to_euclidean_division_equations; lia).
  do 8 wp_step. cbn [found lreg commands pending cmos_sel cmos lmem]. set (s0 := mkLapic _ _ _ _ _ _ _).
  change (seqZ 0 2) with [0; 1]. cbn [forM].
  wp_step. apply wp_dest; [done|]. intros s1 F1 C1 L1 O1 M1. wp_step. apply wp_command; [done|]. intros s2 F2 C2 L2 O2 M2.
  wp_step. apply wp_command; [done|]. intros s3 F3 C3 L3 O3 M3.
  do 2 wp_step. apply wp_dest; [done|]. intros s4 F4 C4 L4 O4 M4. apply wp_command; [done|]. intros s5 F5 C5 L5 O5 M5.
  do 2 wp_step. apply wp_dest; [done|]. intros s6 F6 C6 L6 O6 M6. apply wp_command; [done|]. intros s7 F7 C7 L7 O7 M7. wp_step.
  rewrite C7, C6, C5, C4, C3, C2, C1, L6, L4, L2, L1, O7, O6, O5, O4, O3, O2, O1, M7, M6, M5, M4, M3, M2, M1.
  cbn [commands cmos lmem s0]. rewrite <- !app_assoc. cbn [app]. do 4 eexists. split; [reflexivity|].
  assert (Hd : ∀ v, cmd_dest (apicid * 16777216, v) = apicid) by (intros v; by apply Z.div_mul).
  assert (Hv : PGSIZE * (addr / 4096) = addr) by (unfold PGSIZE; Z.to_euclidean_division_equations; lia).
  assert (Hw : cmd_vector (apicid * 16777216, 0x600 + addr / 4096) = addr / 4096 ∧ cmd_mode (apicid * 16777216, 0x600 + addr / 4096) = 6).
  { unfold cmd_vector, cmd_mode. cbn [snd]. change (2 ^ 8) with 256. split; Z.to_euclidean_division_equations; lia. }
  destruct Hw as [Hw1 Hw2]. split_and!.
  - repeat (constructor; [apply Hd|]). constructor.
  - cbn [map]. by rewrite Hw2.
  - reflexivity.
  - reflexivity.
  - by rewrite Hw1.
  - by rewrite Hw1.
  - reflexivity.
  - rewrite (load_bytes_agree (store_bytes (KERNBASE + 0x467) (le_bytes 2 0) (lmem s))) by (intros x Hx; apply store_bytes_out; lia).
    by rewrite (load_store_bytes _ (le_bytes 2 0)).
  - replace (KERNBASE + 0x469) with (KERNBASE + 0x467 + 2) by lia. rewrite (load_store_bytes _ (le_bytes 2 (addr / 16))), le_val_bytes_small.
    + Z.to_euclidean_division_equations; lia.
    + change (256 ^ Z.of_nat 2) with 65536. Z.to_euclidean_division_equations; lia.
Qed.

Definition lapic0 : lapic_t := mkLapic true (λ _, 0) [] 0 0 (λ _, 0) (λ _, 0).
Lemma startap_commands_witness : wp (lapicstartap 3 1 0x7000) lapic0 (λ _ s', length (commands s') = 4%nat).
Proof.
  eapply wp_mono; [apply (startap_commands 3 1 0x7000 lapic0); [reflexivity|lia|lia|reflexivity]|].
  intros _ s' (c1 & c2 & c3 & c4 & -> & _). reflexivity.
Defined.

(** ** The local APIC at boot *)

Lemma wait_ipi_spec fuel s : (pending s < fuel)%nat →
  wp (wait_ipi fuel) s (λ _ s', found s' = found s ∧ lreg s' = lreg s ∧ commands s' = commands s).
Proof.
  revert s. induction fuel as [|fuel IH]; intros s Hf; [lia|]. cbn [wait_ipi]. wp_step.
  assert (Hoff : ∀ x, Z.land (Z.ldiff x DELIVS) DELIVS = 0).
  { intros x. apply Z.bits_inj'. intros i Hi. rewrite Z.land_spec, Z.ldiff_spec, Z.bits_0. by destruct (Z.testbit x i), (Z.testbit DELIVS i). }
  unfold lapicr. destruct (found s) eqn:Ef; [|eapply wp_eq; [by rewrite Ef|]; change (negb (Z.land 0 DELIVS =? 0)) with false; cbv iota; by wp_step].
  change (ICRLO =? ICRLO) with true. destruct (pending s) as [|n] eqn:Ep.
  - eapply wp_eq; [by rewrite Ef, Ep|]. rewrite Hoff. cbn [negb Z.eqb]. by wp_step.
  - eapply wp_eq; [by rewrite Ef, Ep|]. destruct (negb _); [|by wp_step]. eapply wp_mono; [apply IH; cbn; lia|]. by rewrite <- Ef.
Qed.

(** [lapicinit] ends, with the timer periodic and unmasked on its vector, the
    error and spurious vectors set, the other local lines masked, the task
    priority open and the arbitration command sent once. *)
Theorem lapicinit_ready (latency : nat) (s : lapic_t) : found s = true →
  wp (lapicinit latency) s (λ _ s', lreg s' TIMER = Z.lor PERIODIC (T_IRQ0 + IRQ_TIMER) ∧
    lreg s' ERROR = T_IRQ0 + IRQ_ERROR ∧ lreg s' SVR = Z.lor ENABLE (T_IRQ0 + IRQ_SPURIOUS) ∧
    lreg s' LINT0 = MASKED ∧ lreg s' LINT1 = MASKED ∧ lreg s' TPR = 0 ∧
    (4 ≤ Z.land (Z.shiftr (lreg s VER) 16) 0xFF → lreg s' PCINT = MASKED) ∧
    commands s' = commands s ++ [(0, Z.lor (Z.lor BCAST INIT) LEVEL)]).
Proof.
  intros Hf. unfold lapicinit. do 2 wp_step. rewrite Hf. cbn [negb].
  do 6 (wp_step; eapply wp_eq; [by apply lapicw_ok|]; cbv beta). set (s6 := write_reg _ LINT1 _ _).
  assert (F6 : found s6 = true) by exact Hf. assert (V6 : lreg s6 VER = lreg s VER) by reflexivity.
  wp_step. eapply wp_eq; [unfold lapicr; rewrite F6; reflexivity|]. cbv beta. rewrite V6.
  assert (R6 : lreg s6 TIMER = Z.lor PERIODIC (T_IRQ0 + IRQ_TIMER) ∧ lreg s6 SVR = Z.lor ENABLE (T_IRQ0 + IRQ_SPURIOUS) ∧
    lreg s6 LINT0 = MASKED ∧ lreg s6 LINT1 = MASKED ∧ commands s6 = commands s) by done.
  destruct R6 as (R1 & R2 & R3 & R4 & R5). clearbody s6.
  wp_step. eapply (wp_mono _ _ (λ _ s7, found s7 = true ∧ lreg s7 TIMER = lreg s6 TIMER ∧ lreg s7 SVR = lreg s6 SVR ∧ lreg s7 LINT0 = lreg s6 LINT0 ∧
    lreg s7 LINT1 = lreg s6 LINT1 ∧ commands s7 = commands s6 ∧ (4 ≤ Z.land (Z.shiftr (lreg s VER) 16) 0xFF → lreg s7 PCINT = MASKED))).
  { destruct (Z.leb_spec 4 (Z.land (Z.shiftr (lreg s VER) 16) 0xFF)); [eapply wp_eq; [by apply lapicw_ok|]; done|]. wp_step. split_and!; try done. lia. }
  intros _ s7 (F7 & T1 & T2 & T3 & T4 & T5 & T6).
  do 6 (wp_step; eapply wp_eq; [by apply lapicw_ok|]; cbv beta). do 2 wp_step. set (s13 := write_reg _ ICRLO _ _).
  wp_step. eapply wp_mono; [apply wait_ipi_spec; lia|]. intros _ s14 (F14 & L14 & C14). eapply wp_eq; [apply lapicw_ok; by rewrite F14|].
  unfold write_reg at 1 2 3 4 5 6 7 8. cbn [lreg commands]. rewrite L14, C14. split_and!; try done.
  all: cbn; rewrite ?T1, ?T2, ?T3, ?T4, ?T5, ?R5; done.
Qed.

End Apic.
