(* ===== verification/Cmos.v ===== *)
(** * The clock

    crates/arch/src/lapic.rs: [cmostime] reads the date from the clock of the
    CMOS, which advances while it is read. The registers are a parameter: their
    values at each read. The code reads the date twice and starts over until
    both agree; the theorem is that the result is a date the clock showed at one
    instant, never a mixture of two. *)

From S2P Require Import Prelude.

Module Cmos.

(** [rtcdate] of types/date.rs. *)
Record rtcdate := mkDate {
  second : Z;
  minute : Z;
  hour : Z;
  day : Z;
  month : Z;
  year : Z;
}.

#[global] Instance rtcdate_eq_dec : EqDecision rtcdate.
Proof. solve_decision. Defined.

Abbreviation CMOS_STATA := 0x0A (only parsing).
Abbreviation CMOS_STATB := 0x0B (only parsing).
Abbreviation CMOS_UIP := (Z.shiftl 1 7) (only parsing).
Abbreviation SECS := 0x00 (only parsing).
Abbreviation MINS := 0x02 (only parsing).
Abbreviation HOURS := 0x04 (only parsing).
Abbreviation DAY := 0x07 (only parsing).
Abbreviation MONTH := 0x08 (only parsing).
Abbreviation YEAR := 0x09 (only parsing).

(** The register selected through the first port, and the reads made so far. *)
Record clk := mkClk { sel : Z; now : nat }.

Section clock.
(** The byte in a register at a read. *)
Variable reg : nat → Z → Z.

Definition cmos_read (r : Z) : M clk Z :=
  modify (λ s, mkClk (as_u8 r) (now s)) ;;;
  let* s := get in
  put (mkClk (sel s) (S (now s))) ;;;
  ret (reg (now s) (sel s)).

Definition fill_rtcdate : M clk rtcdate :=
  let* second := cmos_read SECS in
  let* minute := cmos_read MINS in
  let* hour := cmos_read HOURS in
  let* day := cmos_read DAY in
  let* month := cmos_read MONTH in
  let* year := cmos_read YEAR in
  ret (mkDate second minute hour day month year).

Fixpoint read_twice (fuel : nat) : M clk rtcdate :=
  match fuel with
  | O => nofuel
  | S fuel' =>
      let* t1 := fill_rtcdate in
      let* st := cmos_read CMOS_STATA in
      if negb (Z.land st CMOS_UIP =? 0) then read_twice fuel'
      else
        let* t2 := fill_rtcdate in
        if (second t1 =? second t2) && (minute t1 =? minute t2) && (hour t1 =? hour t2) &&
           (day t1 =? day t2) && (month t1 =? month t2) && (year t1 =? year t2)
        then ret t1
        else read_twice fuel'
  end.

Definition conv (x : Z) : M clk Z :=
  let* t := chk_u32 (Z.shiftr x 4 * 10) in
  chk_u32 (t + Z.land x 0xF).

Definition cmostime (fuel : nat) : M clk rtcdate :=
  let* sb := cmos_read CMOS_STATB in
  let bcd := Z.land sb (Z.shiftl 1 2) =? 0 in
  let* t1 := read_twice fuel in
  let* t1 :=
    (if bcd then
       let* second := conv (second t1) in
       let* minute := conv (minute t1) in
       let* hour := conv (hour t1) in
       let* day := conv (day t1) in
       let* month := conv (month t1) in
       let* year := conv (year t1) in
       ret (mkDate second minute hour day month year)
     else ret t1) in
  let* y := chk_u32 (year t1 + 2000) in
  ret (mkDate (second t1) (minute t1) (hour t1) (day t1) (month t1) y).

(** ** What the clock shows *)

Definition map_date (f : Z → Z) (d : rtcdate) : rtcdate :=
  mkDate (f (second d)) (f (minute d)) (f (hour d)) (f (day d)) (f (month d)) (f (year d)).

(** The registers of the date at an instant, and the date they stand for. *)
Definition shown (k : nat) : rtcdate := mkDate (reg k SECS) (reg k MINS) (reg k HOURS) (reg k DAY) (reg k MONTH) (reg k YEAR).
Definition of_bcd (x : Z) : Z := x / 16 * 10 + x mod 16.
Definition decoded (bcd : bool) (d : rtcdate) : rtcdate :=
  let d := if bcd then map_date of_bcd d else d in
  mkDate (second d) (minute d) (hour d) (day d) (month d) (year d + 2000).

(** The date changes at most once in thirteen reads. *)
Definition ticks_apart : Prop :=
  ∀ k, ∃ c, ∀ j, (k ≤ j ≤ k + 12)%nat → shown j = if decide (j < c)%nat then shown k else shown (k + 12).
(** From read [m] on, for two rounds, no update happens or is announced. *)
Definition quiet (m : nat) : Prop :=
  ∀ j, (m ≤ j ≤ m + 25)%nat → shown j = shown m ∧ Z.land (reg j CMOS_STATA) CMOS_UIP = 0.

Lemma cmos_read_ok r s : 0 ≤ r < 256 → cmos_read r s = Ok (reg (now s) r, mkClk r (S (now s))).
Proof. intros Hr. unfold cmos_read, bind, modify, get, put, ret. cbn. unfold as_u8, u8_max. by rewrite Z.mod_small by lia. Qed.

(** The date read field by field from read [k] on. *)
Definition swept (k : nat) : rtcdate :=
  mkDate (reg k SECS) (reg (k + 1) MINS) (reg (k + 2) HOURS) (reg (k + 3) DAY) (reg (k + 4) MONTH) (reg (k + 5) YEAR).

Lemma fill_ok s : fill_rtcdate s = Ok (swept (now s), mkClk YEAR (now s + 6)).
Proof.
  unfold fill_rtcdate.
  do 6 (match goal with |- bind (cmos_read ?r) _ ?s = _ => rewrite (bind_ok _ _ _ _ _ (cmos_read_ok r s ltac:(lia))) end; cbn [now]).
  unfold ret, swept. repeat f_equal; lia.
Qed.

(** A sweep of a date that does not change is that date. *)
Lemma swept_shown k d : (∀ j, (k ≤ j ≤ k + 5)%nat → shown j = d) → swept k = d.
Proof.
  intros H. pose proof (H k ltac:(lia)) as H0. pose proof (H (k + 1)%nat ltac:(lia)) as H1. pose proof (H (k + 2)%nat ltac:(lia)) as H2.
  pose proof (H (k + 3)%nat ltac:(lia)) as H3. pose proof (H (k + 4)%nat ltac:(lia)) as H4. pose proof (H (k + 5)%nat ltac:(lia)) as H5.
  unfold swept. destruct d. unfold shown in *. simplify_eq. by f_equal.
Qed.

Lemma same_fields t1 t2 :
  (second t1 =? second t2) && (minute t1 =? minute t2) && (hour t1 =? hour t2) &&
  (day t1 =? day t2) && (month t1 =? month t2) && (year t1 =? year t2) = bool_decide (t1 = t2).
Proof.
  apply eq_bool_prop_intro. rewrite bool_decide_spec, !andb_True, !Is_true_true, !Z.eqb_eq. destruct t1, t2; cbn. naive_solver.
Qed.

(** Two sweeps that agree were made of one date. *)
Lemma agreed k : ticks_apart → swept k = swept (k + 7) → ∃ j, (k ≤ j ≤ k + 12)%nat ∧ swept k = shown j.
Proof.
  intros Ht E. destruct (Ht k) as [c Hc]. destruct (decide (c ≤ k + 6)%nat) as [H|H].
  - exists (k + 12)%nat. split; [lia|]. rewrite E. apply swept_shown. intros j Hj. rewrite Hc by lia. by rewrite decide_False by lia.
  - exists k. split; [lia|]. apply swept_shown. intros j Hj. rewrite Hc by lia. by rewrite decide_True by lia.
Qed.

Lemma read_twice_spec fuel : ∀ m s, ticks_apart → quiet m → (now s ≤ m + 12)%nat → (m - now s < fuel)%nat →
  wp (read_twice fuel) s (λ d s', ∃ j, (now s ≤ j < now s')%nat ∧ d = shown j).
Proof.
  induction fuel as [|fuel IH]; intros m s Ht Hq Hn Hf; [lia|]. cbn [read_twice]. set (k := now s) in *.
  wp_step. eapply wp_eq; [apply fill_ok|]. cbv beta. wp_step. eapply wp_eq; [apply cmos_read_ok; lia|]. cbv beta. cbn [now]. fold k.
  assert (Hagain : ∀ s', (k + 7 ≤ now s' ≤ k + 13)%nat → (k < m)%nat →
    wp (read_twice fuel) s' (λ d s', ∃ j, (k ≤ j < now s')%nat ∧ d = shown j)).
  { intros s' Hs Hk. eapply wp_mono; [apply (IH m); (done || lia)|]. intros d s2 (j & Hj & ->). exists j. split; [lia|done]. }
  destruct (Z.eqb_spec (Z.land (reg (k + 6) CMOS_STATA) CMOS_UIP) 0) as [Eu|Eu]; cbn [negb].
  2:{ apply Hagain; cbn [now]; [lia|]. destruct (decide (m ≤ k)%nat); [|lia]. destruct (Hq (k + 6)%nat ltac:(lia)) as [_ ?]. done. }
  wp_step. eapply wp_eq; [apply fill_ok|]. cbv beta. cbn [now]. rewrite same_fields. replace (S (k + 6)) with (k + 7)%nat by lia.
  case_bool_decide as E.
  - wp_step. destruct (agreed k Ht E) as (j & Hj & ->). exists j. cbn [now]. split; [lia|done].
  - apply Hagain; cbn [now]; [lia|]. destruct (decide (m ≤ k)%nat); [|lia]. exfalso. apply E.
    rewrite (swept_shown k (shown m)), (swept_shown (k + 7) (shown m)); [done|intros j Hj; apply Hq; lia..].
Qed.

Lemma conv_ok x s : is_byte x → conv x s = Ok (of_bcd x, s).
Proof.
  intros Hx. unfold is_byte in Hx. unfold conv, of_bcd. rewrite Z.shiftr_div_pow2 by lia. change (2 ^ 4) with 16.
  rewrite (bind_ok _ _ _ (x / 16 * 10) s) by (apply chk_u32_ok; unfold u32_max; Z.to_euclidean_division_equations; lia).
  change 0xF with (Z.ones 4). rewrite Z.land_ones by lia. change (2 ^ 4) with 16.
  apply chk_u32_ok. unfold u32_max. Z.to_euclidean_division_equations; lia.
Qed.

(** C34: The clock is never read torn. If the date changes at most once in the
    thirteen reads of a round and the clock is quiet for two rounds from some
    read on, [cmostime] returns, within as many rounds as there are reads up to
    that point, and its result is the date the registers stood for at one
    instant during the call, decoded as the clock's mode says, with the year
    from 2000 on. *)
Theorem cmostime_untorn (fuel m : nat) (s : clk) (Hb : ∀ k r, is_byte (reg k r)) (Ht : ticks_apart) (Hq : quiet m)
    (Hm : (now s < m)%nat) (Hf : (m - now s ≤ fuel)%nat) :
  wp (cmostime fuel) s (λ d s', ∃ j, (now s < j < now s')%nat ∧ d = decoded (Z.land (reg (now s) CMOS_STATB) 4 =? 0) (shown j)).
Proof.
  unfold cmostime. wp_step. eapply wp_eq; [apply cmos_read_ok; lia|]. cbv beta zeta. wp_step.
  eapply wp_mono; [apply (read_twice_spec fuel m); cbn [now]; (done || lia)|]. cbn [now]. intros ? s1 (j & Hj & ->).
  change (Z.shiftl 1 2) with 4. wp_step. destruct (_ =? 0); cbn [shown second minute hour day month year].
  - do 6 (wp_step; eapply wp_eq; [apply conv_ok, Hb|]; cbv beta). wp_step. wp_step. cbn [year].
    pose proof (Hb j YEAR) as Hy. unfold is_byte in Hy.
    eapply wp_eq; [apply chk_u32_ok; unfold of_bcd, u32_max; Z.to_euclidean_division_equations; lia|]. cbv beta. wp_step.
    exists j. split; [lia|done].
  - wp_step. wp_step. cbn [shown year]. pose proof (Hb j YEAR) as Hy. unfold is_byte in Hy.
    eapply wp_eq; [apply chk_u32_ok; unfold u32_max; lia|]. cbv beta. wp_step. exists j. split; [lia|done].
Qed.

End clock.

(** ** Witness: the turn of a year after the third read *)

Definition turn (k : nat) (r : Z) : Z :=
  if r =? 0x0A then 0 else if r =? 0x0B then 0
  else if decide (k < 3)%nat then
    if r =? 0 then 0x59 else if r =? 2 then 0x59 else if r =? 4 then 0x23 else if r =? 7 then 0x31 else if r =? 8 then 0x12 else 0x25
  else if r =? 7 then 1 else if r =? 8 then 1 else if r =? 9 then 0x26 else 0.

Lemma turn_apart : ticks_apart turn.
Proof.
  intros k. exists 3%nat. intros j Hj. destruct (decide (j < 3)%nat) as [H|H].
  - unfold shown, turn. by rewrite !decide_True by lia.
  - unfold shown, turn. by rewrite !decide_False by lia.
Qed.

Lemma cmostime_untorn_witness : wp (cmostime turn 4) (mkClk 0 0) (λ d _, year d = 2025 ∨ d = mkDate 0 0 0 1 1 2026).
Proof.
  eapply wp_mono; [apply (cmostime_untorn turn 4 3 (mkClk 0 0)); [|exact turn_apart| |cbn; lia|cbn; lia]|].
  - intros k r. unfold turn, is_byte. repeat case_match; lia.
  - intros j Hj. unfold shown, turn. by rewrite !decide_False by lia.
  - intros d s' (j & _ & ->). destruct (decide (j < 3)%nat) as [H|H]; [left|right].
    + assert (shown turn j = shown turn 0) as -> by (unfold shown, turn; by rewrite !decide_True by lia). reflexivity.
    + assert (shown turn j = shown turn 3) as -> by (unfold shown, turn; by rewrite !decide_False by lia). reflexivity.
Defined.

End Cmos.
