(* ===== verification/Main.v ===== *)
(** * The boot of the kernel

    kernel/src/main.rs: [main], which initialises the components in order on
    the boot processor, starts the other processors and creates the first
    process, and [mpmain], which enters the scheduler; with the functions of
    kernel/src/glue.rs that only boot calls. The state is the product of the
    states of the components over one memory, that of the page allocator. *)

From S2P Require Import Prelude Param Mmu Mem Kalloc Sync Disk Ring Bio Fsh Log Fs Icache Pipe File Vm VmTree Proc ProcTable Kbd Console Ide Mp Traps Apic.
Import Mmu Mem.

Module Main.
Import Sync Disk Bio Fsh Log Fs Pipe File Proc.

(** The roots of the kernel's page tables, the descriptor table, the page of
    the boot processor in [cpus[0].local], whether the console is in the device
    switch, the privileged instructions and the writes to ports (of the early
    output and the old interrupt controller), oldest first. *)
Record globals := mkG {
  kpml4 : Z;
  kpdpt : Z;
  idtt : Z;
  local : Z;
  console_dev : bool;
  hw : list Vm.hwop;
  ports : list (Z * Z);
}.
Definition set_tables (r d : Z) (g : globals) : globals := mkG r d (idtt g) (local g) (console_dev g) (hw g) (ports g).
Definition set_idtt (v : Z) (g : globals) : globals := mkG (kpml4 g) (kpdpt g) v (local g) (console_dev g) (hw g) (ports g).
Definition set_local (v : Z) (g : globals) : globals := mkG (kpml4 g) (kpdpt g) (idtt g) v (console_dev g) (hw g) (ports g).
Definition set_console (g : globals) : globals := mkG (kpml4 g) (kpdpt g) (idtt g) (local g) true (hw g) (ports g).
Definition add_hw (l : list Vm.hwop) (g : globals) : globals :=
  mkG (kpml4 g) (kpdpt g) (idtt g) (local g) (console_dev g) (hw g ++ l) (ports g).
Definition add_port (p v : Z) (g : globals) : globals :=
  mkG (kpml4 g) (kpdpt g) (idtt g) (local g) (console_dev g) (hw g) (ports g ++ [(p, v)]).

(** The base of [fs]: the last value written to its register. *)
Definition fs_base (l : list Vm.hwop) : Z :=
  default 0 (last (omap (λ o, match o with Vm.Wrmsr r v => if r =? Vm.MSR_FS_BASE then Some v else None | _ => None end) l)).

Section main.
Context {B : Type} {BD : BlockDev B} {D : Type} {ATA : Ide.Ata D}.

Record mst := mkMst {
  m_proc : pst (D := B);
  m_ide : Ide.ide D;
  m_cons : Console.cons;
  m_mp : Mp.mps;
  m_lapic : Apic.lapic_t;
  m_ioapic : Apic.ioapic;
  m_g : globals;
}.

Definition on_p {A} (m : M pst A) : M mst A :=
  zoom m_proc (λ p s, mkMst p (m_ide s) (m_cons s) (m_mp s) (m_lapic s) (m_ioapic s) (m_g s)) m.
Definition on_kmem {A} (m : M Kalloc.kmem_t A) : M mst A := on_p (on_vm m).
Definition on_ide {A} (m : M (Ide.ide D) A) : M mst A :=
  zoom m_ide (λ d s, mkMst (m_proc s) d (m_cons s) (m_mp s) (m_lapic s) (m_ioapic s) (m_g s)) m.
Definition on_cons {A} (m : M Console.cons A) : M mst A :=
  zoom m_cons (λ c s, mkMst (m_proc s) (m_ide s) c (m_mp s) (m_lapic s) (m_ioapic s) (m_g s)) m.
Definition on_ioapic {A} (m : M Apic.ioapic A) : M mst A :=
  zoom m_ioapic (λ i s, mkMst (m_proc s) (m_ide s) (m_cons s) (m_mp s) (m_lapic s) i (m_g s)) m.
Definition on_g (f : globals → globals) : M mst unit :=
  modify (λ s, mkMst (m_proc s) (m_ide s) (m_cons s) (m_mp s) (m_lapic s) (m_ioapic s) (f (m_g s))).

Definition kmem (s : mst) : Kalloc.kmem_t := k_mem (pk (m_proc s)).
Definition memory (s : mst) : mem := Kalloc.kmem_mem (kmem s).

(** The tables and the local APIC are seen through the one memory. [mpinit]
    does not write it; the local APIC is found when [mpinit] gave its address. *)
Definition mp_view (s : mst) : Mp.mps :=
  Mp.mkMps (memory s) (Mp.cpus (m_mp s)) (Mp.ncpu (m_mp s)) (Mp.ioapicid (m_mp s)) (Mp.lapic (m_mp s))
    (Mp.imcr_sel (m_mp s)) (Mp.imcr (m_mp s)).
Definition on_mp {A} (m : M Mp.mps A) : M mst A :=
  zoom mp_view (λ v s, mkMst (m_proc s) (m_ide s) (m_cons s) v (m_lapic s) (m_ioapic s) (m_g s)) m.
Definition lapic_view (s : mst) : Apic.lapic_t :=
  let l := m_lapic s in
  Apic.mkLapic (negb (Mp.lapic (m_mp s) =? 0)) (Apic.lreg l) (Apic.commands l) (Apic.pending l) (Apic.cmos_sel l) (Apic.cmos l) (memory s).
Definition set_memory (m : mem) : M mst unit := on_kmem (modify (Kalloc.set_mem m)).
Definition on_lapic {A} (m : M Apic.lapic_t A) : M mst A :=
  let* a := zoom lapic_view (λ l s, mkMst (m_proc s) (m_ide s) (m_cons s) (m_mp s) l (m_ioapic s) (m_g s)) m in
  let* s := get in
  set_memory (Apic.lmem (m_lapic s)) ;;;
  ret a.

(** ** The functions of glue.rs *)

Definition outb (p v : Z) : M mst unit := on_g (add_port p v).
Definition picinit : M mst unit :=
  outb 0x21 0xFF ;;;
  outb 0xA1 0xFF.
Definition consoleinit : M mst unit := on_g set_console.
Definition dbg_uart (c : Z) : M mst unit := outb 0x3F8 c.

(** ** Processors *)

(** The linker symbols: the end of the image, the code the other processors
    start with and its size, and the addresses of functions; how long the local
    APIC shows a command as pending; the interrupt entry points; what follows the
    [cpus] array in memory, its address, and which processors set the flag
    [main] waits for. *)
Context (kernel_end : Z) (entryother : list Z) (mpenter_addr syscall_entry ignore_sysret : Z) (vectors : Z → Z) (latency : nat)
        (cpus_addr : Z) (beyond : Z → Z) (ap_started : Z → bool) (initcode : list Z)
        (devsw_read : Z → option (nat → Z → Z → M (fstate (D := B)) (Z * list Z))).

(** [my_cpu] makes a reference of the pointer at [fs:[-16]]; there is none to
    the null pointer. *)
Definition my_cpu : M mst Z :=
  let* s := get in
  let ptr := load64 (memory s) (fs_base (hw (m_g s)) - 16) in
  if ptr =? 0 then panic "null pointer dereference" else ret ptr.

(** The storage of [cpus] is [NCPU] entries of eight bytes, made by mp.rs, of
    which the first is the number of the processor; vm.rs stores [cpus[0].local]
    eight bytes into it. proch.rs declares an entry as 40 bytes, with [apicid]
    in the second and [started] in four from the seventeenth on. *)
Definition cpu_byte (s : mst) (off : Z) : Z :=
  if (8 <=? off) && (off <? 16) then nth (Z.to_nat (off - 8)) (le_bytes 8 (local (m_g s))) 0
  else if off <? 64 then (if off mod 8 =? 0 then nth (Z.to_nat (off / 8)) (Mp.cpus (m_mp s)) 0 else 0)
  else beyond off.
Definition started (s : mst) (i : Z) : bool :=
  ap_started i || negb (le_val (cpu_byte s <$> seqZ (40 * i + 16) 4) =? 0).

(** The wait for a processor that does not start has no end. *)
Definition startothers : M mst unit :=
  let code := P2V 0x7000 in
  let* s := get in
  set_memory (store_bytes code entryother (memory s)) ;;;
  let* me := my_cpu in
  forM (seqZ 0 (Mp.ncpu (m_mp s))) (λ i,
    if cpus_addr + 40 * i =? me then ret tt
    else
      let* stack := on_kmem Kalloc.kalloc in
      let* top := chk_u64 (stack + KSTACKSIZE) in
      on_kmem (modify (λ k, Kalloc.set_mem (store64 (code - 8) top (Kalloc.kmem_mem k)) k)) ;;;
      on_kmem (modify (λ k, Kalloc.set_mem (store64 (code - 16) mpenter_addr (Kalloc.kmem_mem k)) k)) ;;;
      on_kmem (modify (λ k, Kalloc.set_mem (store64 (code - 24) 0x1000 (Kalloc.kmem_mem k)) k)) ;;;
      let* s := get in
      on_lapic (Apic.lapicstartap latency (cpu_byte s (40 * i + 1)) (as_u32 code)) ;;;
      let* s := get in
      if started s i then ret tt else nofuel).

(** Ends where the scheduler is entered. *)
Definition mpmain : M mst unit :=
  let* s := get in
  on_g (add_hw (Traps.idtinit (idtt (m_g s)))) ;;;
  let* cpu := my_cpu in
  on_kmem (modify (λ k, Kalloc.set_mem (store_bytes (cpu + 16) (le_bytes 4 1) (Kalloc.kmem_mem k)) k)).

(** The page of a processor and its segments; [cpunum] of glue.rs is 0. *)
Definition seginit : M mst unit :=
  let* '(l, ops) := on_kmem Vm.seginit in
  on_g (λ g, add_hw ops (set_local l g)).

Definition mpenter : M mst unit :=
  let* s := get in
  on_g (add_hw (Vm.switchkvm (kpml4 (m_g s)))) ;;;
  seginit ;;;
  on_lapic (Apic.lapicinit latency) ;;;
  on_g (add_hw (Vm.syscallinit syscall_entry ignore_sysret)) ;;;
  mpmain.

(** ** The boot processor *)

(** [main] up to the start of the other processors, in two parts. *)
Definition boot_memory : M mst unit :=
  dbg_uart 65 ;;;
  on_kmem (Kalloc.kinit1 kernel_end kernel_end (P2V (4 * 1024 * 1024))) ;;;
  dbg_uart 66 ;;;
  (let* '(r, d, ops) := on_kmem Vm.kvmalloc in on_g (λ g, add_hw ops (set_tables r d g))) ;;;
  dbg_uart 67 ;;;
  on_mp Mp.mpinit ;;;
  dbg_uart 68 ;;;
  on_lapic (Apic.lapicinit latency) ;;;
  dbg_uart 69 ;;;
  seginit ;;;
  dbg_uart 70.
Definition boot_devices : M mst unit :=
  picinit ;;;
  on_ioapic Apic.ioapicinit ;;;
  consoleinit ;;;
  on_cons Console.uartinit ;;;
  dbg_uart 71 ;;;
  on_p pinit ;;;
  (let* i := on_kmem (Traps.tvinit vectors) in on_g (set_idtt i)) ;;;
  dbg_uart 72 ;;;
  on_p (with_k (on_fs (on_b binit))) ;;;
  on_p (with_k fileinit) ;;;
  on_ide Ide.ideinit ;;;
  dbg_uart 73.

Definition main : M mst unit :=
  boot_memory ;;;
  boot_devices ;;;
  startothers ;;;
  dbg_uart 74 ;;;
  on_kmem (Kalloc.freerange kernel_end (P2V (4 * 1024 * 1024)) (P2V PHYSTOP)) ;;;
  on_kmem Kalloc.kinit2 ;;;
  dbg_uart 75 ;;;
  on_g (add_hw (Vm.syscallinit syscall_entry ignore_sysret)) ;;;
  let* s := get in
  on_p (userinit (kpdpt (m_g s)) devsw_read initcode) ;;;
  dbg_uart 76 ;;;
  mpmain.

(** ** Running the components *)

Definition set_kmem (k : Kalloc.kmem_t) (s : mst) : mst :=
  let p := m_proc s in
  let q := pk p in
  mkMst (mkPst (mkK (k_fs q) (ft_lock q) (files q) (pipes q) k (k_wakes q) (k_killed q)) (ptable p) (pt_lock p) (INITPROC p)
           (NEXTPID p) (FORKRET_FIRST p) (cur p) (ncli p) (eflags_if p))
    (m_ide s) (m_cons s) (m_mp s) (m_lapic s) (m_ioapic s) (m_g s).
Definition set_g (g : globals) (s : mst) : mst := mkMst (m_proc s) (m_ide s) (m_cons s) (m_mp s) (m_lapic s) (m_ioapic s) g.
Definition set_mp (v : Mp.mps) (s : mst) : mst := mkMst (m_proc s) (m_ide s) (m_cons s) v (m_lapic s) (m_ioapic s) (m_g s).
Definition set_lapic (l : Apic.lapic_t) (s : mst) : mst := mkMst (m_proc s) (m_ide s) (m_cons s) (m_mp s) l (m_ioapic s) (m_g s).

Lemma wp_on_kmem {A} (m : M Kalloc.kmem_t A) s (Q : A → mst → Prop) :
  wp m (kmem s) (λ a k, Q a (set_kmem k s)) → wp (on_kmem m) s Q.
Proof. intros H. unfold on_kmem, on_p, on_vm, with_k, on_mem. by do 3 apply wp_zoom. Qed.

Lemma wp_on_g f s (Q : unit → mst → Prop) : Q tt (set_g (f (m_g s)) s) → wp (on_g f) s Q.
Proof. apply wp_modify. Qed.

Lemma wp_on_mp {A} (m : M Mp.mps A) s (Q : A → mst → Prop) : wp m (mp_view s) (λ a v, Q a (set_mp v s)) → wp (on_mp m) s Q.
Proof. intros H. by apply wp_zoom. Qed.

Lemma set_memory_same s : set_kmem (Kalloc.set_mem (memory s) (kmem s)) s = s.
Proof using Type. by destruct s as [[[? ? ? ? [] ? ?] ? ? ? ? ? ? ? ?] ? ? ? ? ? ?]. Qed.

(** A function of the local APIC that does not write memory. *)
Lemma wp_on_lapic {A} (m : M Apic.lapic_t A) s (Q : A → mst → Prop) : keeps Apic.lmem m →
  wp m (lapic_view s) (λ a l, Q a (set_lapic l s)) → wp (on_lapic m) s Q.
Proof.
  intros Hk (a & l & E & HQ)%wp_ok. pose proof (Hk _ _ _ E) as Em. unfold on_lapic. wp_step. apply wp_zoom. eapply wp_eq; [exact E|].
  cbv beta. do 3 wp_step. unfold set_memory. apply wp_on_kmem. wp_step. wp_step. cbn [m_lapic]. rewrite Em.
  change (Apic.lmem (lapic_view s)) with (memory s). by rewrite <- (set_memory_same s) in HQ at 1.
Qed.

Lemma lapicinit_memory : keeps Apic.lmem (Apic.lapicinit latency).
Proof using Type.
  assert (Hw : ∀ i v, keeps Apic.lmem (Apic.lapicw latency i v)).
  { intros i v. apply keeps_modify. intros s. by destruct (Apic.found s). }
  assert (Hr : ∀ i, keeps Apic.lmem (Apic.lapicr i)).
  { intros i s r s' E. unfold Apic.lapicr in E. repeat case_match; by simplify_eq. }
  assert (Hwait : ∀ fuel, keeps Apic.lmem (Apic.wait_ipi fuel)).
  { induction fuel as [|fuel IH]; [apply keeps_nofuel|]. cbn [Apic.wait_ipi]. apply keeps_bind; [apply Hr|].
    intros r. destruct (negb _); [done|apply keeps_ret]. }
  unfold Apic.lapicinit. apply keeps_bind; [apply keeps_get|]. intros s. destruct (negb _); [apply keeps_ret|].
  repeat (apply keeps_bind; [first [apply Hw|apply Hr|apply keeps_get|apply Hwait|destruct (4 <=? _); [apply Hw|apply keeps_ret]]|intros ?]).
  apply Hw.
Qed.

(** ** Power on

    [n] is the number of whole pages between the kernel and 4 MiB, [d] the
    disk under the buffer cache. *)
Record power_on (n : nat) (d : B) (pid : Z) (s : mst) : Prop := {
  po_end : kernel_end mod PGSIZE = 0;
  po_link : KERNLINK ≤ kernel_end;
  po_room : kernel_end + PGSIZE * Z.of_nat n = KERNBASE + 4 * 1024 * 1024;
  po_four : (4 ≤ n)%nat;
  po_bytes : ∀ x, is_byte (memory s x);
  po_bios : Mp.ebda (memory s) ≠ 0 ∨ Mp.basemem (memory s) ≠ 0;
  po_mp : Mp.ncpu (m_mp s) = 0;
  po_vectors : ∀ v, 0 ≤ v < 256 → 0 ≤ vectors v < u64_max;
  po_uart : Console.UART_EXISTS (m_cons s) = false;
  po_ide : Ide.IDE_QUEUE (m_ide s) = None ∧ Ide.HAVE_DISK1 (m_ide s) = false ∧ Ide.present (Ide.obs (Ide.dev (m_ide s))) = true;
  po_cache : lb (fl (k_fs (pk (m_proc s)))) = bcache_storage d pid;
  po_lines : Apic.lines (m_ioapic s) ≤ 224;
  po_hw : hw (m_g s) = [];
}.

(** The kernel's memory, when the allocator has given out [taken]. *)
Record kernel_memory (n : nat) (taken : list Z) (s s' : mst) : Prop := {
  km_pages : ∃ l, Kalloc.pages_rev kernel_end n = taken ++ l ∧ Kalloc.kinv kernel_end (kmem s') l;
  km_kernel : ∀ x, x < kernel_end → memory s' x = memory s x;
  km_map : load64 (memory s') (kpml4 (m_g s') + 8 * 256) = V2P (kpdpt (m_g s')) + 3 ∧
    load64 (memory s') (kpdpt (m_g s')) = 0x83 ∧ load64 (memory s') (kpdpt (m_g s') + 24) = 0xC000009B;
  km_local : ∀ x, local (m_g s') + 1092 ≤ x < local (m_g s') + 4096 → memory s' x = 0;
  km_hw : hw (m_g s') = [Vm.Lcr3 (V2P (kpml4 (m_g s'))); Vm.Wrmsr Vm.MSR_FS_BASE (local (m_g s') + 2048);
    Vm.Lgdt (local (m_g s')) 72; Vm.Ltr 56];
}.

(** What [mpinit] found in the memory below the kernel, and the timer. *)
Record processors (s s' : mst) : Prop := {
  pc_mp : ∃ m, (∀ x, x < kernel_end → m x = memory s x) ∧
    Mp.mpinit (Mp.mkMps m (Mp.cpus (m_mp s)) 0 (Mp.ioapicid (m_mp s)) (Mp.lapic (m_mp s)) (Mp.imcr_sel (m_mp s)) (Mp.imcr (m_mp s)))
      = Ok (tt, m_mp s');
  pc_timer : Mp.lapic (m_mp s') ≠ 0 → Apic.lreg (m_lapic s') Apic.TIMER = Z.lor Apic.PERIODIC (Traps.T_IRQ0 + Traps.IRQ_TIMER) ∧
    Apic.lreg (m_lapic s') Apic.TPR = 0;
}.

(** What holds when the other processors are to be started. *)
Record prepared (n : nat) (d : B) (s s' : mst) : Prop := {
  pr_memory : kernel_memory n [kpml4 (m_g s'); kpdpt (m_g s'); local (m_g s'); idtt (m_g s')] s s';
  pr_processors : processors s s';
  pr_gates : ∀ v, 0 ≤ v < 256 → Traps.gate_at (memory s') (idtt (m_g s')) v = Traps.kernel_gate (vectors v);
  pr_lines : ∀ i, 0 ≤ i < Apic.lines (m_ioapic s') → Apic.masked (m_ioapic s') i = true;
  pr_cache : bio_abs (lb (fl (k_fs (pk (m_proc s'))))) (cache_empty d);
  pr_disk : Ide.repr (Ide.bad (Ide.obs (Ide.dev (m_ide s)))) (Ide.sector (Ide.obs (Ide.dev (m_ide s)))) [] (m_ide s');
  pr_table : ptable (m_proc s') = ptable (m_proc s);
  pr_uart : Console.UART_EXISTS (m_cons s') = false;
}.

Lemma memory_low s : KERNLINK ≤ kernel_end → ∀ m, (∀ x, x < kernel_end → m x = memory s x) →
  Mp.ebda m = Mp.ebda (memory s) ∧ Mp.basemem m = Mp.basemem (memory s).
Proof using Type. unfold KERNLINK, EXTMEM. intros Hl m Hm. unfold Mp.ebda, Mp.basemem. rewrite !Hm by lia. done. Qed.

Lemma lapicinit_timer l : wp (Apic.lapicinit latency) l (λ _ l', Apic.found l = true →
  Apic.lreg l' Apic.TIMER = Z.lor Apic.PERIODIC (Traps.T_IRQ0 + Traps.IRQ_TIMER) ∧ Apic.lreg l' Apic.TPR = 0).
Proof using Type.
  destruct (Apic.found l) eqn:E.
  - eapply wp_mono; [by apply Apic.lapicinit_ready|].
    intros ? l' (H1 & _ & _ & _ & _ & H2 & _) _. by split.
  - unfold Apic.lapicinit. do 2 wp_step. rewrite E. cbn [negb]. by wp_step.
Qed.

Lemma ioapicinit_masked io : Apic.lines io ≤ 224 →
  wp Apic.ioapicinit io (λ _ io', ∀ i, 0 ≤ i < Apic.lines io' → Apic.masked io' i = true).
Proof using Type.
  intros Hl. eapply wp_mono; [apply Apic.ioapicinit_spec|]. intros ? io' [Hv Hr] i Hi.
  assert (Hi' : 0 ≤ i < Apic.lines io) by (unfold Apic.lines in *; by rewrite Hv in Hi).
  destruct (Hr i Hi') as [E _]. unfold Apic.masked. rewrite E. apply Apic.disabled_word. lia.
Qed.

Ltac see := cbn [m_proc m_ide m_cons m_mp m_lapic m_ioapic m_g set_kmem set_g set_mp set_lapic pk ptable k_fs k_mem fl lb].

Lemma boot_memory_spec n d pid s : power_on n d pid s → wp boot_memory s (λ _ s', ∃ k mp la g, s' = set_g g (set_lapic la (set_mp mp (set_kmem k s))) ∧
  kernel_memory n [kpml4 g; kpdpt g; local g] s s' ∧ processors s s').
Proof using Type.
  intros [Hend Hlink Hroom Hfour Hbytes Hbios Hmp _ _ _ _ _ Hhw].
  destruct n as [|[|[|[|n]]]]; [lia..|]. pose proof (memory_low s Hlink) as Hlowm.
  unfold boot_memory, dbg_uart, outb, seginit. wp_step. apply wp_on_g. wp_step. apply wp_on_kmem.
  eapply wp_mono; [apply (Kalloc.kinit1_filled kernel_end kernel_end _ kernel_end (S (S (S (S n)))));
    change (P2V (4 * 1024 * 1024)) with (KERNBASE + 4 * 1024 * 1024); unfold KERNLINK, EXTMEM, KERNBASE, PHYSTOP, PGSIZE in *; lia|].
  intros ? k1 (Hk1 & _ & Hm1 & Hb1). see.
  set (l := Kalloc.pages_rev kernel_end (S n)). set (p1 := kernel_end + PGSIZE * Z.of_nat (S (S (S n)))).
  set (p2 := kernel_end + PGSIZE * Z.of_nat (S (S n))). set (p3 := kernel_end + PGSIZE * Z.of_nat (S n)).
  change (Kalloc.pages_rev kernel_end _) with (p1 :: p2 :: p3 :: l) in Hk1.
  wp_step. apply wp_on_g. see. wp_step. wp_step. apply wp_on_kmem.
  eapply wp_mono; [by apply (VmTree.kvmalloc_spec kernel_end _ p1 p2)|]. intros ? k2 (-> & Hk2 & Hmap1 & Hmap2 & Hmap3 & Hm2 & Hb2). cbv iota beta.
  apply wp_on_g. see. wp_step. apply wp_on_g. see. wp_step.
  assert (Hlow : ∀ x, x < kernel_end → Kalloc.kmem_mem k2 x = memory s x).
  { intros x Hx. rewrite Hm2, Hm1 by (unfold p1, p2, PGSIZE; lia). done. }
  destruct (Hlowm _ Hlow) as [Ee Eb]. apply wp_on_mp. unfold mp_view, memory at 1, kmem at 1. see. rewrite Hmp.
  destruct (proj1 (wp_ok _ _ _) (Mp.mpinit_total (Mp.mkMps (Kalloc.kmem_mem k2) (Mp.cpus (m_mp s)) 0 (Mp.ioapicid (m_mp s)) (Mp.lapic (m_mp s))
    (Mp.imcr_sel (m_mp s)) (Mp.imcr (m_mp s))) ltac:(by apply Hb2, Hb1) ltac:(cbn [Mp.m_mem]; by rewrite Ee, Eb) ltac:(done))) as ([] & mp & Emp & _).
  eapply wp_eq; [exact Emp|]. see. wp_step. apply wp_on_g. see. wp_step. apply wp_on_lapic; [apply lapicinit_memory|].
  eapply wp_mono; [apply lapicinit_timer|]. intros ? la Hla. unfold lapic_view in Hla. cbn [Apic.found m_mp] in Hla. see.
  wp_step. apply wp_on_g. see. wp_step. wp_step. apply wp_on_kmem.
  eapply wp_mono; [by apply (VmTree.seginit_spec kernel_end _ p3 l)|]. intros ? k3 (-> & Hk3 & Hz3 & Hm3). cbv iota beta. see.
  apply wp_on_g. see. apply wp_on_g. see. exists k3, mp, la. eexists. split; [reflexivity|].
  change (kmem (mkMst _ _ _ _ _ _ _)) with k2 in Hm3.
  assert (Hm : ∀ x, x < p3 ∨ p3 + PGSIZE ≤ x → Kalloc.kmem_mem k3 x = Kalloc.kmem_mem k2 x) by exact Hm3.
  split; split; unfold memory, kmem in *; see; cbn [kpml4 kpdpt idtt local hw set_tables set_local add_hw add_port].
  - by exists l.
  - intros x Hx. rewrite Hm by (unfold p3, PGSIZE; lia). by apply Hlow.
  - split_and!; (rewrite (load64_agree (Kalloc.kmem_mem k2)); [done|intros x Hx; apply Hm; unfold p1, p2, p3, PGSIZE in *; lia]).
  - exact Hz3.
  - by rewrite Hhw.
  - by exists (Kalloc.kmem_mem k2).
  - intros Hl. apply Hla. by apply negb_true_iff, Z.eqb_neq.
Qed.

Lemma boot_devices_spec n d pid s0 s : power_on n d pid s0 → (∃ k mp la g, s = set_g g (set_lapic la (set_mp mp (set_kmem k s0)))) →
  kernel_memory n [kpml4 (m_g s); kpdpt (m_g s); local (m_g s)] s0 s → processors s0 s → wp boot_devices s (λ _ s', prepared n d s0 s').
Proof using Type.
  intros [_ _ _ Hfour _ _ _ Hvec Huart (Hq & Hd1 & Hpres) Hcache Hlines _] (k & mp & la & g & E) [(l & El & Hk) Hlow Hmap Hloc Hhw] Hpc.
  destruct n as [|[|[|[|n]]]]; [lia..|].
  change (Kalloc.pages_rev kernel_end (S (S (S (S n))))) with (kernel_end + PGSIZE * Z.of_nat (S (S (S n))) :: kernel_end + PGSIZE * Z.of_nat (S (S n)) ::
    kernel_end + PGSIZE * Z.of_nat (S n) :: kernel_end + PGSIZE * Z.of_nat n :: Kalloc.pages_rev kernel_end n) in El.
  set (p := kernel_end + PGSIZE * Z.of_nat n) in El. set (l' := Kalloc.pages_rev kernel_end n) in El.
  injection El as E1 E2 E3 <-. rename l' into l.
  assert (Eu : Console.UART_EXISTS (m_cons s) = false) by by rewrite E. assert (Ei : m_ide s = m_ide s0) by by rewrite E.
  assert (Eb : lb (fl (k_fs (pk (m_proc s)))) = bcache_storage d pid) by by rewrite E.
  assert (Eio : m_ioapic s = m_ioapic s0) by by rewrite E. assert (Et : ptable (m_proc s) = ptable (m_proc s0)) by by rewrite E. clear E.
  unfold boot_devices, dbg_uart, outb, picinit, consoleinit, outb. do 2 wp_step. apply wp_on_g. see. apply wp_on_g. see. wp_step. apply wp_zoom.
  rewrite <- Eio in Hlines.
  eapply wp_mono; [by apply ioapicinit_masked|]. intros ? io Hio. see. wp_step. apply wp_on_g. see. wp_step. apply wp_zoom.
  unfold Console.uartinit. do 2 wp_step. see. rewrite Eu. cbn [negb]. do 2 wp_step. apply wp_on_g. see.
  wp_step. apply wp_zoom. unfold pinit. wp_step. see. wp_step. wp_step. apply wp_on_kmem.
  eapply wp_mono; [by apply (Traps.tvinit_spec vectors kernel_end _ p l)|]. intros ? k4 (-> & Hk4 & Hg4 & Hm4). see. apply wp_on_g. see.
  wp_step. apply wp_on_g. see. wp_step. unfold on_p, with_k, on_fs, on_b, on_l, on_bio. do 5 apply wp_zoom. see. rewrite Eb.
  eapply wp_mono; [apply binit_abs|]. intros ? bb [Hbio _]. see. wp_step. do 2 apply wp_zoom. unfold fileinit. wp_step. see. wp_step. apply wp_zoom.
  rewrite <- Ei in Hq, Hd1, Hpres. see. eapply wp_mono; [by apply Ide.ideinit_ready|]. intros ? id (_ & _ & Hid). see. apply wp_on_g. see.
  assert (Hm : ∀ x, x < p ∨ p + PGSIZE ≤ x → Kalloc.kmem_mem k4 x = memory s x) by exact Hm4.
  split; [split|destruct Hpc; by split|..]; unfold memory, kmem in *; see; cbn [kpml4 kpdpt idtt local hw set_idtt set_console add_port].
  - exists l. split; [|done]. by rewrite <- E1, <- E2, <- E3.
  - intros x Hx. rewrite Hm by (unfold p, PGSIZE; lia). by apply Hlow.
  - destruct Hmap as (M1 & M2 & M3).
    split_and!; (rewrite (load64_agree (memory s)); [done|intros x Hx; apply Hm; unfold p, PGSIZE in *; lia]).
  - intros x Hx. rewrite Hm by (unfold p, PGSIZE in *; lia). by apply Hloc.
  - done.
  - done.
  - done.
  - done.
  - by rewrite <- Ei.
  - done.
  - done.
Qed.

(** There is no pointer to the boot processor below the base of [fs]. *)
Lemma startothers_null n taken s0 s : KERNLINK ≤ kernel_end → Z.of_nat (length entryother) ≤ 0xF9000 → (3 ≤ length taken)%nat →
  taken !! 2%nat = Some (local (m_g s)) → kernel_memory n taken s0 s → startothers s = Panic "null pointer dereference".
Proof.
  intros Hlink Hlen Hn3 Ht [(l & El & Hk) _ _ Hz Hhw]. unfold startothers. rewrite (bind_ok _ _ s s s) by done.
  rewrite (bind_ok _ _ s tt (set_kmem (Kalloc.set_mem (store_bytes (P2V 0x7000) entryother (memory s)) (kmem s)) s)).
  2:{ destruct (proj1 (wp_ok (set_memory (store_bytes (P2V 0x7000) entryother (memory s))) s (λ _ s', s' = set_kmem (Kalloc.set_mem (store_bytes (P2V 0x7000) entryother (memory s)) (kmem s)) s)))
        as ([] & s' & -> & ->); [|done]. by apply wp_on_kmem, wp_modify. }
  apply bind_panic. unfold my_cpu. rewrite (bind_ok _ _ _ _ _ eq_refl). see. rewrite Hhw. cbn [fs_base omap list_omap last default].
  change (fs_base _) with (local (m_g s) + 2048). unfold memory at 1, kmem at 1. see. cbn [Kalloc.kmem_mem Kalloc.set_mem].
  assert (Hloc : KERNLINK ≤ local (m_g s)).
  { assert (Hin : local (m_g s) ∈ Kalloc.pages_rev kernel_end n).
    { rewrite El. apply elem_of_app. left. by eapply list_elem_of_lookup_2. }
    apply Kalloc.elem_of_pages_rev in Hin as (i & Hi & ->). unfold PGSIZE. lia. }
  rewrite (load64_agree (λ _, 0)); [done|]. intros x Hx. change (P2V 0x7000) with (KERNBASE + 0x7000).
  rewrite store_bytes_out by (unfold KERNLINK, EXTMEM in *; lia). apply Hz. lia.
Qed.

(** ** The first process *)

Lemma iget_fresh (f : fstate (D := B)) ip l dev inum : inodes f = ip :: l → Forall (λ ip, i_ref ip = 0) (inodes f) →
  iget dev inum f = Ok (0%nat, mkFs (fl f) (SB f) (set_locked 0 (set_locked 1 (ic_lock f))) (set_slot dev inum ip :: l) (iwakes f) (cwd f)).
Proof.
  intros E Hf. rewrite E in Hf. apply Forall_cons in Hf as [H0 Hl].
  assert (Hs : ∀ l i, Forall (λ ip, i_ref ip = 0) l → iget_scan dev inum i (Some 0%nat) l = inr (Some 0%nat)).
  { clear. induction l as [|x l IH]; intros i Hl; [done|]. apply Forall_cons in Hl as [Hx Hl]. cbn [iget_scan]. rewrite Hx. cbn. by apply IH. }
  assert (Hscan : iget_scan dev inum 0 None (inodes f) = inr (Some 0%nat)).
  { rewrite E. cbn [iget_scan]. unfold Fs.is_free. rewrite H0. by apply Hs. }
  unfold iget, bind, modify, get. cbn [inodes set_ic_lock]. rewrite Hscan. unfold on_inode, modify. cbn. by rewrite E.
Qed.

Definition p_kmem (s : pst (D := B)) : Kalloc.kmem_t := k_mem (pk s).

(** Zeroed tables, and six free pages. *)
Record fresh (x : proc) (l : list proc) (ks root pg : Z) (fl : list Z) (s : pst (D := B)) : Prop := {
  fr_table : ptable s = x :: l;
  fr_unused : p_state x = UNUSED;
  fr_pid : NEXTPID s = 1;
  fr_cur : cur s = 0%nat;
  fr_inodes : inodes (k_fs (pk s)) ≠ [] ∧ Forall (λ ip, i_ref ip = 0) (inodes (k_fs (pk s)));
  fr_free : Kalloc.kinv kernel_end (p_kmem s) (ks :: root :: pg :: fl);
  fr_three : (3 ≤ length fl)%nat;
  fr_code : Z.of_nat (length initcode) < PGSIZE;
}.

(** The first process is ready to run [initcode]. *)
Record first_process (ks root pg : Z) (fl : list Z) (s s' : pst (D := B)) : Prop := {
  fp_slot : ∃ p l, ptable s' = p :: l ∧ tail (ptable s) = l ∧ INITPROC s' = Some 0%nat ∧ NEXTPID s' = 2 ∧
    p_state p = RUNNABLE ∧ p_pid p = 1 ∧ p_sz p = 2 * PGSIZE ∧ p_pgdir p = root ∧ p_kstack p = ks ∧ p_context p = AtForkret ∧
    rcx (p_tf p) = PGSIZE ∧ rsp (p_tf p) = 2 * PGSIZE ∧ r11 (p_tf p) = FL_IF ∧ p_cwd p = Some 0%nat;
  fp_root : ∃ ip, inodes (k_fs (pk s')) !! 0%nat = Some ip ∧ (i_dev ip, i_inum ip, i_ref ip) = (ROOTDEV, ROOTINO, 1);
  fp_memory : ∃ T fl' new, VmTree.vst kernel_end (p_kmem s') root T fl' ∧ fl = new ++ fl' ∧ (length new ≤ 3)%nat ∧
    (∀ va, VmTree.user_va va → VmTree.pte_of (Kalloc.kmem_mem (p_kmem s')) T va =
       if decide (VmTree.page_of va = PGSIZE) then VmTree.leaf_entry (V2P pg) 6 else 0) ∧
    ∀ i, 0 ≤ i < PGSIZE → Kalloc.kmem_mem (p_kmem s') (pg + i) = nth (Z.to_nat i) initcode 0;
}.

Lemma namei_root (f : fstate (D := B)) ip l : inodes f = ip :: l → Forall (λ ip, i_ref ip = 0) (inodes f) →
  namei devsw_read [47] f = Ok (Some 0%nat, mkFs (fl f) (SB f) (set_locked 0 (set_locked 1 (ic_lock f))) (set_slot ROOTDEV ROOTINO ip :: l) (iwakes f) (cwd f)).
Proof.
  intros E Hf. unfold namei, namex. change (nth 0 [47] 0 =? SLASH) with true. cbv iota.
  by rewrite bind_assoc, (bind_ok _ _ _ _ _ (iget_fresh f ip l ROOTDEV ROOTINO E Hf)).
Qed.

Ltac seep := cbn [pk ptable pt_lock INITPROC NEXTPID FORKRET_FIRST cur ncli eflags_if set_pt_lock set_ptable set_initproc set_nextpid alter list_alter
  find_unused k_fs ft_lock files pipes k_mem k_wakes k_killed].

Lemma userinit_first x l ks root pg fl kd s : fresh x l ks root pg fl s →
  wp (userinit kd devsw_read initcode) s (λ _ s', first_process ks root pg fl s s').
Proof.
  intros [Ht Hu Hp Hc [Hi0 Hi] Hk H3 Hcode].
  destruct s as [[kf ft fi pi km kw kk] pt plk ip np ff cu nc ef]. unfold p_kmem in Hk. cbn in Ht, Hp, Hc, Hi0, Hi, Hk. subst pt np cu.
  pose proof (Kalloc.page_ok_nonzero kernel_end ks ltac:(destruct Hk as (_ & _ & Hok); by apply Forall_cons in Hok as [? _])) as Hks.
  destruct (Kalloc.kalloc_inv _ _ _ _ Hk) as [E1 Hk1].
  unfold userinit, allocproc, on_proc. wp_step. do 4 wp_step. seep. rewrite decide_True by done.
  do 4 wp_step. seep. wp_step. eapply wp_eq; [apply chk_i32_ok; unfold i32_lo, i32_hi; lia|]. do 4 wp_step.
  wp_step. unfold on_vm, with_k, on_mem. do 2 apply wp_zoom. eapply wp_eq; [exact E1|]. cbv beta.
  rewrite (proj2 (Z.eqb_neq ks 0)) by lia. do 5 wp_step. seep. wp_step. wp_step. seep.
  wp_step. do 2 apply wp_zoom. eapply wp_mono; [by apply (VmTree.setupkvm_tree kernel_end)|]. intros ? k2 (-> & Hv2 & Hz2). seep.
  assert (Hr : root ≠ 0) by (destruct Hk as (_ & _ & Hok); apply Forall_cons in Hok as [_ Hok]; apply Forall_cons in Hok as [Hok _];
    apply Kalloc.page_ok_nonzero in Hok; lia).
  rewrite (proj2 (Z.eqb_neq root 0)) by done. cbn [expect]. do 3 wp_step. do 2 apply wp_zoom.
  eapply wp_mono; [exact (VmTree.inituvm_spec kernel_end k2 root _ pg fl initcode Hv2 H3 Hcode Hz2)|]. intros ? k3 (T & fl' & Hv3 & (new & Hf & Hn) & Hpte & Hb). seep.
  destruct (inodes kf) as [|ino il] eqn:Ei; [done|].
  do 6 wp_step. unfold set_ptable. seep. wp_step. unfold on_k, my_proc, proc_at. do 5 wp_step. seep. cbn [lookup list_lookup expect]. wp_step.
  wp_step. apply wp_zoom. wp_step. unfold enter. seep. wp_step. unfold on_fs. do 2 apply wp_zoom. seep.
  eapply wp_eq; [apply (namei_root _ ino il); cbn [inodes]; [done|by rewrite Ei]|]. unfold wakeups. seep.
  do 3 wp_step. seep. cbn [Fs.fl Fs.iwakes Log.lb Log.lwakes bwakes app forM]. do 4 wp_step. seep. split.
  - eexists _, l. cbn [ptable INITPROC NEXTPID tail]. by split_and!.
  - eexists. cbn [pk k_fs inodes]. by split.
  - exists T, fl', new. unfold p_kmem. seep. by split_and!.
Qed.

(** C15: The boot of the kernel prepares every component. From power on, with
    the kernel ending on a page boundary at least four pages below 4 MiB and a
    BIOS data area that is not zero, all of [main] up to the start of the other processors runs without a
    panic. The allocator then has every page between the kernel and 4 MiB but
    four: the two kernel page tables, which map the first and the fourth
    gigabyte, the page of the processor and the interrupt table, all of whose
    gates lead to their entry points. No byte of the kernel or below it has
    changed, the processors are those [mpinit] finds there, the timer runs if
    there is a local APIC, every line of the I/O APIC is masked, the buffer cache
    is empty over its disk and the disk driver is ready. *)
Theorem boot_prepares (n : nat) (d : B) (pid : Z) (s : mst) (Hs : power_on n d pid s) :
  wp (boot_memory ;;; boot_devices) s (λ _ s', prepared n d s s').
Proof using Type.
  apply wp_bind. eapply wp_mono; [by eapply boot_memory_spec|]. intros ? s1 (k & mp & la & g & E & Hm & Hp).
  apply (boot_devices_spec n d pid s s1); [done|by exists k, mp, la, g| |done]. by rewrite E in Hm |- *.
Qed.

(** C37: The kernel as it is does not get past the start of the other processors.
    From every power on state and for any firmware, [main] stops in
    [startothers], before it looks at the number of processors: [seginit] gives
    [fs] the page of the processor, but nothing stores the processor's own
    pointer in it, so that [my_cpu] reads the null pointer there. *)
Theorem main_stops_at_my_cpu (n : nat) (d : B) (pid : Z) (s : mst) (Hs : power_on n d pid s)
    (He : Z.of_nat (length entryother) ≤ 0xF9000) :
  main s = Panic "null pointer dereference".
Proof.
  destruct (proj1 (wp_ok _ _ _) (boot_memory_spec n d pid s Hs)) as ([] & s1 & E1 & k & mp & la & g & E & Hm & Hp).
  assert (Hd : wp boot_devices s1 (λ _ s', prepared n d s s')).
  { apply (boot_devices_spec n d pid s s1); [done|by exists k, mp, la, g| |done]. by rewrite E in Hm |- *. }
  apply wp_ok in Hd as ([] & s2 & E2 & Hpr). unfold main. rewrite (bind_ok _ _ _ _ _ E1), (bind_ok _ _ _ _ _ E2).
  apply bind_panic. eapply startothers_null; [apply Hs|done| | |apply Hpr]; [cbn; lia|done].
Qed.

(** C16: The first process can run. With zeroed tables and six free pages
    [userinit] succeeds, whatever the disk holds: the first slot is a runnable
    process 1 that will start in [forkret] on its own kernel stack and enter
    user mode at the second page with the stack at the end of its two pages. Its
    page table maps exactly that page, writable, to a page with the bytes of
    [initcode] and zeros behind them, and its directory is the one reference to
    the root inode. *)
Theorem userinit_first_process (x : proc) (l : list proc) (ks root pg : Z) (fl : list Z) (kd : Z) (s : pst (D := B))
    (Hs : fresh x l ks root pg fl s) :
  wp (userinit kd devsw_read initcode) s (λ _ s', first_process ks root pg fl s s').
Proof. by eapply userinit_first. Qed.

End main.

(** ** Witnesses: a kernel that ends five pages below 4 MiB *)

Definition end5 : Z := KERNBASE + 0x3FB000.
Definition pst0 : pst (D := Memide.memdisk) :=
  ProcTable.zero_table (mkK Icache.fs0 (mkSpin 0 EmptyString None) (replicate (Z.to_nat NFILE) EMPTY) ∅ (Kalloc.mkKmem true 7 Mp.mem0) [] 0).
Definition mst0 : mst (B := Memide.memdisk) (D := Ide.sim) :=
  mkMst pst0 (Ide.mkIde None false [] Ide.sim0 []) (Console.set_uart false Console.boot) Mp.mps0 Apic.lapic0 Apic.io24
    (mkG 0 0 0 0 false [] []).

Lemma mst0_power_on : power_on end5 Traps.vectors0 5 Bio.disk0 1 mst0.
Proof.
  split.
  - reflexivity.
  - by apply Z.leb_le.
  - reflexivity.
  - lia.
  - exact Mp.mem0_bytes.
  - left. by vm_compute.
  - reflexivity.
  - exact Traps.vectors0_ok.
  - reflexivity.
  - split; [reflexivity|]. split; reflexivity.
  - reflexivity.
  - by apply Z.leb_le.
  - reflexivity.
Qed.

Lemma boot_prepares_witness :
  wp (boot_memory end5 1 ;;; boot_devices Traps.vectors0) mst0 (λ _ s', kpml4 (m_g s') = KERNBASE + 0x3FF000 ∧
    idtt (m_g s') = KERNBASE + 0x3FC000 ∧ Traps.g_offset (Traps.gate_at (memory s') (idtt (m_g s')) 32) = Traps.vectors0 32 ∧
    Kalloc.freelist (kmem s') = end5).
Proof.
  eapply wp_mono; [apply (boot_prepares end5 Traps.vectors0 1 5 Bio.disk0 1 mst0 mst0_power_on)|].
  intros ? s' [[(l & El & (Hl & _)) _ _ _ _] _ Hg _ _ _ _ _]. injection El as E1 E2 E3 E4 <-. split_and!; [done|done| |apply Hl].
  by rewrite Hg.
Defined.

Lemma main_stops_at_my_cpu_witness :
  main end5 [0xFA] 0 0 0 Traps.vectors0 1 0 (λ _, 0) (λ _, true) [] no_dev mst0 = Panic "null pointer dereference".
Proof.
  exact (main_stops_at_my_cpu end5 [0xFA] 0 0 0 Traps.vectors0 1 0 (λ _, 0) (λ _, true) [] no_dev 5 Bio.disk0 1 mst0 mst0_power_on
    (proj1 (Z.leb_le 1 0xF9000) eq_refl)).
Defined.

(** Six pages of the allocator, and the two bytes of a [syscall]. *)
Definition end6 : Z := KERNBASE + 0x3FA000.
Definition mem_fresh (k : Kalloc.kmem_t) : pst (D := Memide.memdisk) :=
  ProcTable.zero_table (mkK Icache.fs0 (mkSpin 0 EmptyString None) (replicate (Z.to_nat NFILE) EMPTY) ∅ k [] 0).

Lemma userinit_first_process_witness : ∃ s : pst (D := Memide.memdisk), wp (userinit 0 no_dev [0x0F; 0x05]) s (λ _ s',
  (∃ p l, ptable s' = p :: l ∧ p_state p = RUNNABLE ∧ p_pid p = 1) ∧ ∃ T,
  VmTree.pte_of (Kalloc.kmem_mem (p_kmem s')) T 0x1234 = 0x3FD007 ∧ Kalloc.kmem_mem (p_kmem s') (KERNBASE + 0x3FD001) = 0x05).
Proof.
  assert (Hb : wp (Kalloc.kinit1 end6 end6 (KERNBASE + 0x400000)) Kalloc.boot0
            (λ _ k, Kalloc.kinv end6 k (Kalloc.pages_rev end6 6) ∧ Kalloc.use_lock k = false)).
  { apply Kalloc.kinit1_inv; unfold end6, KERNBASE, PHYSTOP, PGSIZE; try lia; reflexivity. }
  apply wp_ok in Hb as (_ & k & _ & Hk & _). exists (mem_fresh k).
  assert (Hf : fresh end6 [0x0F; 0x05] ProcTable.zero_proc (replicate 63 ProcTable.zero_proc) (KERNBASE + 0x3FF000) (KERNBASE + 0x3FE000)
    (KERNBASE + 0x3FD000) [KERNBASE + 0x3FC000; KERNBASE + 0x3FB000; KERNBASE + 0x3FA000] (mem_fresh k)).
  { split; [reflexivity..| | |cbn; lia|cbn; unfold PGSIZE; lia]; [|exact Hk]. split; [done|]. by apply Forall_replicate. }
  eapply wp_mono; [apply (userinit_first_process end6 [0x0F; 0x05] no_dev _ _ _ _ _ _ 0 (mem_fresh k) Hf)|].
  intros ? s' [(p & l & E & _ & _ & _ & Hs & Hp & _) _ (T & fl' & new & _ & _ & _ & Hpte & Hbytes)]. split; [by exists p, l|].
  exists T. split.
  - rewrite Hpte by (unfold VmTree.user_va; lia). reflexivity.
  - apply (Hbytes 1). unfold PGSIZE. lia.
Defined.

End Main.
