(* ===== verification/Uprogs.v ===== *)
(** * The small user programs

    user/src: cat, echo, wc, ls, kill, ln, mkdir, rm and init. The programs are
    written over the system calls of [Sys]; what they do is proved for any
    implementation of [Files], which says what the calls mean for files that
    are only read and for output. The arguments are the strings of argv
    without their terminating zeros. The profile is the release one, so the
    counters of wc wrap. *)

From S2P Require Import Prelude Param Ulib.
From stdpp Require Import pretty.
#[local] Open Scope Z_scope.

Module Uprogs.

(** The bytes of a string. *)
Fixpoint str (s : string) : list Z :=
  match s with
  | EmptyString => []
  | String c s' => Z.of_N (Ascii.N_of_ascii c) :: str s'
  end.
(** [{}] of an integer. *)
Definition decimal (n : Z) : list Z := str (pretty n).

Definition DIRSIZ : nat := 14.

(** A function of a program returns, or the program has ended by [exit]. *)
Inductive flow := Returned | Exited.

(** The calls, as functions of the state of the system; [sys_exec] returns only
    when it fails. *)
Class Sys (W : Type) := {
  sys_read : Z → Z → W → (Z * list Z) * W;
  sys_write : Z → list Z → W → Z * W;
  sys_open : list Z → Z → W → Z * W;
  sys_close : Z → W → Z * W;
  sys_fstat : Z → W → (Z * stat) * W;
  sys_unlink : list Z → W → Z * W;
  sys_mkdir : list Z → W → Z * W;
  sys_link : list Z → list Z → W → Z * W;
  sys_kill : Z → W → Z * W;
  sys_mknod : list Z → Z → Z → W → Z * W;
  sys_dup : Z → W → Z * W;
  sys_fork : W → Z * W;
  sys_wait : W → Z * W;
  sys_exec : list Z → list (list Z) → W → Z * W;
}.

Section programs.
Context {W : Type} `{!Sys W}.

Definition call {A} (f : W → A * W) : M W A := λ w, Ok (f w).
Definition read (fd n : Z) : M W (Z * list Z) := call (sys_read fd n).
Definition write (fd : Z) (bs : list Z) : M W Z := call (sys_write fd bs).
Definition open (path : list Z) (omode : Z) : M W Z := call (sys_open path omode).
Definition close (fd : Z) : M W Z := call (sys_close fd).
(** [printf!]: the pieces of the formatted text, each a [write_str]. *)
Definition printf (fd : Z) (pieces : list (list Z)) : M W unit := forM pieces (λ p, write fd p ;;; ret tt).

(** ** cat *)

Fixpoint cat (fuel : nat) (fd : Z) : M W flow :=
  match fuel with
  | O => nofuel
  | S fuel' =>
      let* '(n, buf) := read fd 512 in
      if n <=? 0 then
        if n <? 0 then
          printf 1 [str "cat: read error" ++ [10]] ;;;
          ret Exited
        else ret Returned
      else
        let* r := write 1 (take (Z.to_nat n) buf) in
        if negb (r =? n) then
          printf 1 [str "cat: write error" ++ [10]] ;;;
          ret Exited
        else cat fuel' fd
  end.

Fixpoint cat_files (fuel : nat) (args : list (list Z)) : M W flow :=
  match args with
  | [] => ret Exited
  | name :: args' =>
      let* fd := open name O_RDONLY in
      if fd <? 0 then
        printf 1 [str "cat: cannot open file" ++ [10]] ;;;
        ret Exited
      else
        let* f := cat fuel fd in
        match f with
        | Exited => ret Exited
        | Returned => close fd ;;; cat_files fuel args'
        end
  end.
Definition cat_main (fuel : nat) (argv : list (list Z)) : M W flow :=
  match tail argv with
  | [] => cat fuel 0 ;;; ret Exited
  | args => cat_files fuel args
  end.

(** ** echo *)

Fixpoint echo_args (args : list (list Z)) : M W flow :=
  match args with
  | [] => ret Exited
  | arg :: args' =>
      write 1 arg ;;;
      write 1 (match args' with [] => [10] | _ => [32] end) ;;;
      echo_args args'
  end.
Definition echo_main (argv : list (list Z)) : M W flow := echo_args (tail argv).

(** ** wc *)

Record counts := mkCounts { lines : Z; words : Z; chars : Z; inword : bool }.

Definition is_blank (b : Z) : bool := (b =? 32) || (b =? 13) || (b =? 9) || (b =? 10) || (b =? 0x0B).
Definition wc_byte (s : counts) (b : Z) : counts :=
  let c := as_u32 (chars s + 1) in
  let l := if b =? 10 then as_u32 (lines s + 1) else lines s in
  if is_blank b then mkCounts l (words s) c false
  else if negb (inword s) then mkCounts l (as_u32 (words s + 1)) c true
  else mkCounts l (words s) c (inword s).

Fixpoint wc_loop (fuel : nat) (fd : Z) (s : counts) : M W (option counts) :=
  match fuel with
  | O => nofuel
  | S fuel' =>
      let* '(n, buf) := read fd 512 in
      if n <=? 0 then
        if n <? 0 then
          printf 1 [str "wc: read error" ++ [10]] ;;;
          ret None
        else ret (Some s)
      else wc_loop fuel' fd (foldl wc_byte s (take (Z.to_nat n) buf))
  end.
Definition wc (fuel : nat) (fd : Z) (name : list Z) : M W flow :=
  let* r := wc_loop fuel fd (mkCounts 0 0 0 false) in
  match r with
  | None => ret Exited
  | Some s =>
      printf 1 [decimal (lines s); [32]; decimal (words s); [32]; decimal (chars s); [32]; name; [10]] ;;;
      ret Returned
  end.
Fixpoint wc_files (fuel : nat) (args : list (list Z)) : M W flow :=
  match args with
  | [] => ret Exited
  | name :: args' =>
      let* fd := open name O_RDONLY in
      if fd <? 0 then
        printf 1 [str "wc: cannot open file" ++ [10]] ;;;
        ret Exited
      else
        let* f := wc fuel fd name in
        match f with
        | Exited => ret Exited
        | Returned => close fd ;;; wc_files fuel args'
        end
  end.
Definition wc_main (fuel : nat) (argv : list (list Z)) : M W flow :=
  match tail argv with
  | [] => wc fuel 0 [] ;;; ret Exited
  | args => wc_files fuel args
  end.

(** ** ls *)

(** Index after the last slash of the path. *)
Fixpoint last_slash (path : list Z) (i start : nat) : nat :=
  match path with
  | [] => start
  | b :: path' => last_slash path' (S i) (if b =? 47 then S i else start)
  end.
Definition fmtname (path : list Z) : list Z :=
  let start := last_slash path 0 0 in
  let name_len := (length path - start)%nat in
  let copy_len := if (name_len <? DIRSIZ)%nat then name_len else DIRSIZ in
  splice 0 (slice start copy_len path) (replicate DIRSIZ 32 ++ [0]).

(** The result and, if it is not negative, the metadata. *)
Definition fstat_path (path : list Z) : M W (Z * option stat) :=
  let* fd := open path O_RDONLY in
  if fd <? 0 then ret (-1, None)
  else
    let* '(r, st) := call (sys_fstat fd) in
    close fd ;;;
    ret (r, Some st).

Definition ls_line (name : list Z) (st : stat) : M W unit :=
  printf 1 [take DIRSIZ name; [32]; decimal (st_type st); [32]; decimal (st_ino st); [32]; decimal (st_size st); [10]].

(** Bytes of a name up to its zero. *)
Fixpoint upto0 (l : list Z) : list Z :=
  match l with
  | [] => []
  | b :: l' => if b =? 0 then [] else b :: upto0 l'
  end.

Fixpoint ls_entries (fuel : nat) (path : list Z) (fd : Z) : M W unit :=
  match fuel with
  | O => nofuel
  | S fuel' =>
      let* '(n, de) := read fd 16 in
      if negb (as_u64 n =? 16) then ret tt
      else if le_val (take 2 de) =? 0 then ls_entries fuel' path fd
      else
        let name := upto0 (take DIRSIZ (drop 2 de)) in
        if (512 <=? length path + 1 + length name)%nat then panic "index out of bounds"
        else
          let fullpath := path ++ [47] ++ name in
          let* '(r, st) := fstat_path fullpath in
          match st with
          | Some st =>
              if r <? 0 then printf 1 [str "ls: cannot stat entry" ++ [10]] ;;; ls_entries fuel' path fd
              else ls_line (fmtname fullpath) st ;;; ls_entries fuel' path fd
          | None => printf 1 [str "ls: cannot stat entry" ++ [10]] ;;; ls_entries fuel' path fd
          end
  end.

Definition ls (fuel : nat) (path : list Z) : M W unit :=
  let* fd := open path O_RDONLY in
  if fd <? 0 then printf 2 [str "ls: cannot open path" ++ [10]]
  else
    let* '(r, st) := call (sys_fstat fd) in
    if r <? 0 then
      printf 2 [str "ls: cannot stat path" ++ [10]] ;;;
      close fd ;;;
      ret tt
    else
      (if st_type st =? T_FILE then ls_line (fmtname path) st
       else if st_type st =? T_DIR then ls_entries fuel path fd
       else ret tt) ;;;
      close fd ;;;
      ret tt.
Definition ls_main (fuel : nat) (argv : list (list Z)) : M W flow :=
  match tail argv with
  | [] => ls fuel (str ".") ;;; ret Exited
  | args => forM args (ls fuel) ;;; ret Exited
  end.

(** ** rm, mkdir, ln and kill *)

(** The loop of rm and mkdir, which ends at the first failure. *)
Fixpoint each (op : list Z → W → Z * W) (msg : list Z) (args : list (list Z)) : M W flow :=
  match args with
  | [] => ret Exited
  | name :: args' =>
      let* r := call (op name) in
      if r <? 0 then
        printf 2 [msg] ;;;
        ret Exited
      else each op msg args'
  end.
Definition rm_main (argv : list (list Z)) : M W flow :=
  if (length argv <? 2)%nat then
    printf 2 [str "Usage: rm files..." ++ [10]] ;;;
    ret Exited
  else each sys_unlink (str "rm: failed to delete" ++ [10]) (tail argv).
Definition mkdir_main (argv : list (list Z)) : M W flow :=
  if (length argv <? 2)%nat then
    printf 2 [str "Usage: mkdir files..." ++ [10]] ;;;
    ret Exited
  else each sys_mkdir (str "mkdir: failed to create directory" ++ [10]) (tail argv).

Definition ln_main (argv : list (list Z)) : M W flow :=
  match argv with
  | [_; old; new] =>
      let* r := call (sys_link old new) in
      (if r <? 0 then printf 2 [str "link failed" ++ [10]] else ret tt) ;;;
      ret Exited
  | _ => printf 2 [str "Usage: ln old new" ++ [10]] ;;; ret Exited
  end.

Definition kill_main (argv : list (list Z)) : M W flow :=
  if (length argv <? 2)%nat then
    printf 2 [str "usage: kill pid..." ++ [10]] ;;;
    ret Exited
  else
    forM (tail argv) (λ arg, call (sys_kill (Ulib.atoi_cstr arg)) ;;; ret tt) ;;;
    ret Exited.

(** ** init *)

(** What [init] does before its loop. *)
Definition init_start : M W unit :=
  let* fd := open (str "console") O_RDWR in
  (if fd <? 0 then
     call (sys_mknod (str "console") 1 1) ;;;
     open (str "console") O_RDWR ;;;
     ret tt
   else ret tt) ;;;
  call (sys_dup 0) ;;;
  call (sys_dup 0) ;;;
  ret tt.

Fixpoint init_wait (fuel : nat) (pid : Z) : M W unit :=
  match fuel with
  | O => nofuel
  | S fuel' =>
      let* wpid := call sys_wait in
      if wpid <? 0 then ret tt
      else if wpid =? pid then ret tt
      else printf 1 [str "zombie!" ++ [10]] ;;; init_wait fuel' pid
  end.
(** A round of the loop of [init]: it returns to start another shell, or ends. *)
Definition init_round (fuel : nat) : M W flow :=
  printf 1 [str "init: starting sh" ++ [10]] ;;;
  let* pid := call sys_fork in
  if pid <? 0 then
    printf 1 [str "init: fork failed" ++ [10]] ;;;
    ret Exited
  else if pid =? 0 then
    call (sys_exec (str "sh") [str "sh"]) ;;;
    printf 1 [str "init: exec sh failed" ++ [10]] ;;;
    ret Exited
  else
    init_wait fuel pid ;;;
    ret Returned.

End programs.

(** ** What the calls mean

    The open descriptors with their path and the bytes not yet read, the bytes
    written to the descriptors open for output, and the files. *)
Record view := mkView {
  v_open : gmap Z (list Z * list Z);
  v_out : gmap Z (list Z);
  v_fs : gmap (list Z) (stat * list Z);
}.
Definition with_open (o : gmap Z (list Z * list Z)) (v : view) : view := mkView o (v_out v) (v_fs v).
Definition with_out (o : gmap Z (list Z)) (v : view) : view := mkView (v_open v) o (v_fs v).

(** Reads give at least one byte before the end of the file, in pieces of any
    size; writes to an output write everything. *)
Class Files (W : Type) `{!Sys W} := {
  vw : W → view;
  read_law fd n w p c : 0 < n → v_open (vw w) !! fd = Some (p, c) →
    ∃ bs c' w', sys_read fd n w = ((Z.of_nat (length bs), bs), w') ∧ c = bs ++ c' ∧ Z.of_nat (length bs) ≤ n ∧
      (bs = [] → c = []) ∧ vw w' = with_open (<[fd := (p, c')]> (v_open (vw w))) (vw w);
  write_law fd bs w o : v_out (vw w) !! fd = Some o →
    ∃ w', sys_write fd bs w = (Z.of_nat (length bs), w') ∧ vw w' = with_out (<[fd := o ++ bs]> (v_out (vw w))) (vw w);
  open_law p w st c : v_fs (vw w) !! p = Some (st, c) →
    ∃ fd w', sys_open p O_RDONLY w = (fd, w') ∧ 0 ≤ fd ∧ v_open (vw w) !! fd = None ∧
      vw w' = with_open (<[fd := (p, c)]> (v_open (vw w))) (vw w);
  open_missing p w : v_fs (vw w) !! p = None → ∃ fd w', sys_open p O_RDONLY w = (fd, w') ∧ fd < 0 ∧ vw w' = vw w;
  close_law fd w : ∃ r w', sys_close fd w = (r, w') ∧ vw w' = with_open (delete fd (v_open (vw w))) (vw w);
  fstat_law fd w p c st c0 : v_open (vw w) !! fd = Some (p, c) → v_fs (vw w) !! p = Some (st, c0) →
    ∃ w', sys_fstat fd w = ((0, st), w') ∧ vw w' = vw w;
  unlink_law p w : is_Some (v_fs (vw w) !! p) →
    ∃ w', sys_unlink p w = (0, w') ∧ vw w' = mkView (v_open (vw w)) (v_out (vw w)) (delete p (v_fs (vw w)));
  unlink_missing p w : v_fs (vw w) !! p = None → ∃ r w', sys_unlink p w = (r, w') ∧ r < 0 ∧ vw w' = vw w;
}.

Section correct.
Context {W : Type} `{!Sys W} `{!Files W}.

(** The view after [bs] was written to the standard output. *)
Definition out1 (bs : list Z) (v : view) : view :=
  with_out (match v_out v !! 1 with Some o => <[1 := o ++ bs]> (v_out v) | None => v_out v end) v.

Lemma out1_app a b v : out1 b (out1 a v) = out1 (a ++ b) v.
Proof.
  unfold out1. destruct (v_out v !! 1) as [o|] eqn:E; cbn; [|by rewrite E].
  rewrite lookup_insert_eq. unfold with_out. cbn. by rewrite insert_insert_eq, app_assoc.
Qed.
Lemma out1_nil v : out1 [] v = v.
Proof.
  unfold out1, with_out. destruct (v_out v !! 1) as [o|] eqn:E; [|by destruct v]. rewrite app_nil_r, insert_id by done. by destruct v.
Qed.
Lemma out1_open bs v : v_open (out1 bs v) = v_open v.
Proof. done. Qed.
Lemma out1_fs bs v : v_fs (out1 bs v) = v_fs v.
Proof. done. Qed.
Lemma out1_some bs v : is_Some (v_out v !! 1) → is_Some (v_out (out1 bs v) !! 1).
Proof. intros [o E]. unfold out1. rewrite E. cbn. rewrite lookup_insert_eq. eauto. Qed.

Lemma wp_write1 bs w (Q : Z → W → Prop) : is_Some (v_out (vw w) !! 1) →
  (∀ w', vw w' = out1 bs (vw w) → Q (Z.of_nat (length bs)) w') → wp (write 1 bs) w Q.
Proof.
  intros [o E] H. destruct (write_law 1 bs w o E) as (w' & Ew & Hv). eapply wp_eq; [unfold write, call; by rewrite Ew|]. apply H.
  rewrite Hv. unfold out1. by rewrite E.
Qed.
Lemma wp_printf1 l w (Q : unit → W → Prop) : is_Some (v_out (vw w) !! 1) →
  (∀ w', vw w' = out1 (concat l) (vw w) → Q tt w') → wp (printf 1 l) w Q.
Proof.
  unfold printf. revert w. induction l as [|p l IH]; intros w Ho H; cbn [forM concat].
  - wp_step. apply H. by rewrite out1_nil.
  - do 2 wp_step. apply wp_write1; [done|]. intros w1 H1. wp_step. apply IH; [rewrite H1; by apply out1_some|].
    intros w2 H2. apply H. by rewrite H2, H1, out1_app.
Qed.
Lemma wp_read fd n p c w (Q : Z * list Z → W → Prop) : 0 < n → v_open (vw w) !! fd = Some (p, c) →
  (∀ bs c' w', c = bs ++ c' → Z.of_nat (length bs) ≤ n → (bs = [] → c = []) →
     vw w' = with_open (<[fd := (p, c')]> (v_open (vw w))) (vw w) → Q (Z.of_nat (length bs), bs) w') → wp (read fd n) w Q.
Proof.
  intros Hn Hfd H. destruct (read_law fd n w p c Hn Hfd) as (bs & c' & w' & Er & Hc & Hl & He & Hv).
  eapply wp_eq; [unfold read, call; by rewrite Er|]. by eapply H.
Qed.

(** The view after everything of [fd] was read. *)
Definition drained (fd : Z) (p : list Z) (v : view) : view := with_open (<[fd := (p, [])]> (v_open v)) v.

Lemma cat_spec fuel fd p c w : v_open (vw w) !! fd = Some (p, c) → is_Some (v_out (vw w) !! 1) → (length c < fuel)%nat →
  wp (cat fuel fd) w (λ f w', f = Returned ∧ vw w' = out1 c (drained fd p (vw w))).
Proof.
  revert c w. induction fuel as [|fuel IH]; intros c w Hfd Ho Hf; [lia|]. cbn [cat]. wp_step.
  eapply wp_read; [lia|exact Hfd|]. intros bs c' w1 -> Hl He Hv. rewrite length_app in Hf. cbv beta iota.
  assert (Ho1 : is_Some (v_out (vw w1) !! 1)) by (by rewrite Hv).
  destruct (Z.leb_spec (Z.of_nat (length bs)) 0) as [Hz|Hz].
  - destruct bs; [|cbn in Hz; lia]. assert (c' = []) as -> by (by apply He). cbn [length]. change (Z.of_nat 0 <? 0) with false. cbv iota. wp_step. split; [done|].
    rewrite Hv, out1_nil. done.
  - rewrite Nat2Z.id, firstn_all. wp_step. apply wp_write1; [done|]. intros w2 H2. rewrite Z.eqb_refl. cbn [negb].
    eapply wp_mono; [apply (IH c'); [by rewrite H2, Hv, out1_open; cbn; rewrite lookup_insert_eq|by rewrite H2; apply out1_some|lia]|].
    intros f w' [-> Hw]. split; [done|]. rewrite Hw, H2, Hv.
    assert (∀ a b v, out1 a (drained fd p (out1 b v)) = out1 (b ++ a) (drained fd p v)) as -> by (intros; by rewrite <- out1_app).
    f_equal. unfold drained, with_open. cbn. by rewrite insert_insert_eq.
Qed.

(** ** The loop over the files of the command line *)

Lemma reopen fd p v : v_open v !! fd = None → with_open (delete fd (<[fd := (p, [])]> (v_open v))) v = v.
Proof. intros H. rewrite delete_insert_id by done. by destruct v. Qed.

(** A file is opened, treated and closed again. *)
Lemma wp_file (body : Z → M W flow) (missing k : M W flow) p st c render w (Q : flow → W → Prop) :
  v_fs (vw w) !! p = Some (st, c) →
  (∀ fd w1, v_open (vw w1) !! fd = Some (p, c) → v_out (vw w1) = v_out (vw w) →
     wp (body fd) w1 (λ f w2, f = Returned ∧ vw w2 = out1 render (drained fd p (vw w1)))) →
  (∀ w', vw w' = out1 render (vw w) → wp k w' Q) →
  wp (let* fd := open p O_RDONLY in
      if fd <? 0 then missing
      else let* f := body fd in match f with Exited => ret Exited | Returned => close fd ;;; k end) w Q.
Proof.
  intros Hp Hb Hk. destruct (open_law p w st c Hp) as (fd & w1 & Eo & Hfd & Hnew & Hv). wp_step.
  eapply wp_eq; [unfold open, call; by rewrite Eo|]. cbv beta. rewrite (proj2 (Z.ltb_ge fd 0)) by lia. wp_step.
  eapply wp_mono; [apply Hb; [by rewrite Hv; cbn; rewrite lookup_insert_eq|by rewrite Hv]|].
  intros f w2 [-> H2]. wp_step. destruct (close_law fd w2) as (r & w3 & Ec & H3). eapply wp_eq; [unfold close, call; by rewrite Ec|]. apply Hk.
  rewrite H3, H2, Hv. unfold out1, drained, with_out, with_open. cbn. f_equal. rewrite insert_insert_eq. by apply delete_insert_id.
Qed.

Lemma wp_missing (body : Z → M W flow) (missing k : M W flow) p w (Q : flow → W → Prop) :
  v_fs (vw w) !! p = None → (∀ w', vw w' = vw w → wp missing w' Q) →
  wp (let* fd := open p O_RDONLY in
      if fd <? 0 then missing
      else let* f := body fd in match f with Exited => ret Exited | Returned => close fd ;;; k end) w Q.
Proof.
  intros Hp Hk. destruct (open_missing p w Hp) as (fd & w1 & Eo & Hfd & Hv). wp_step.
  eapply wp_eq; [unfold open, call; by rewrite Eo|]. cbv beta. rewrite (proj2 (Z.ltb_lt fd 0)) by lia. by apply Hk.
Qed.

(** The arguments that are files, with their contents. *)
Definition files_are (v : view) (args cs : list (list Z)) : Prop := Forall2 (λ p c, ∃ st, v_fs v !! p = Some (st, c)) args cs.

Lemma files_are_out v bs args cs : files_are v args cs → files_are (out1 bs v) args cs.
Proof. done. Qed.

Lemma cat_files_spec fuel rest args cs (Q : flow → W → Prop) : ∀ w, files_are (vw w) args cs →
  Forall (λ c, (length c < fuel)%nat) cs → is_Some (v_out (vw w) !! 1) →
  (∀ w', vw w' = out1 (concat cs) (vw w) → wp (cat_files fuel rest) w' Q) → wp (cat_files fuel (args ++ rest)) w Q.
Proof.
  revert cs. induction args as [|p args IH]; intros cs w Hf Hl Ho HQ.
  - inversion Hf; subst. apply HQ. by rewrite out1_nil.
  - inversion Hf as [|? c ? cs' (st & Hst) Hf']; subst. apply Forall_cons in Hl as [Hl Hl']. cbn [cat_files app].
    eapply wp_file; [exact Hst| |].
    + intros fd w1 Hfd Hout. apply cat_spec; [done|by rewrite Hout|done].
    + intros w1 H1. apply (IH cs'); [by rewrite H1; apply files_are_out|done|by rewrite H1; apply out1_some|].
      intros w2 H2. apply HQ. by rewrite H2, H1, out1_app.
Qed.

(** cat copies its input. With file arguments it writes the contents of
    all of them, in order, and nothing else, and every file is closed again;
    at the first argument that cannot be opened it stops with a message; with
    no argument it copies the standard input to its end. This holds whatever
    the pieces in which the reads deliver the bytes. *)
Theorem cat_copies (prog : list Z) (args cs : list (list Z)) (fuel : nat) (w : W)
    (Ho : is_Some (v_out (vw w) !! 1)) (Hl : Forall (λ c, (length c < fuel)%nat) cs) (Hf : files_are (vw w) args cs) :
  (args ≠ [] → wp (cat_main fuel (prog :: args)) w (λ f w', f = Exited ∧ vw w' = out1 (concat cs) (vw w))) ∧
  (∀ x rest, v_fs (vw w) !! x = None →
     wp (cat_main fuel (prog :: args ++ x :: rest)) w (λ f w', f = Exited ∧
       vw w' = out1 (concat cs ++ str "cat: cannot open file" ++ [10]) (vw w))) ∧
  (∀ p c, v_open (vw w) !! 0 = Some (p, c) → (length c < fuel)%nat →
     wp (cat_main fuel [prog]) w (λ f w', f = Exited ∧ vw w' = out1 c (drained 0 p (vw w)))).
Proof.
  split_and!.
  - intros Hne. unfold cat_main. cbn [tail]. destruct args as [|a args]; [done|]. rewrite <- (app_nil_r (a :: args)).
    apply (cat_files_spec fuel [] _ cs); [done..|]. intros w' Hw. cbn [cat_files]. by wp_step.
  - intros x rest Hx. unfold cat_main. cbn [tail].
    assert (∀ l, match l ++ x :: rest with [] => cat fuel 0 ;;; ret Exited | args => cat_files fuel args end = cat_files fuel (l ++ x :: rest))
      as -> by (by intros []).
    apply (cat_files_spec fuel (x :: rest) _ cs); [done..|]. intros w1 H1. cbn [cat_files]. apply wp_missing; [by rewrite H1|].
    intros w2 H2. wp_step. apply wp_printf1; [rewrite H2, H1; by apply out1_some|]. intros w3 H3. wp_step. split; [done|].
    rewrite H3, H2, H1, out1_app. cbn [concat]. by rewrite app_nil_r.
  - intros p c Hfd Hc. unfold cat_main. cbn [tail]. wp_step. eapply wp_mono; [by apply cat_spec|]. intros f w' [_ Hw]. by wp_step.
Qed.

(** ** Counting *)

Definition byte_blank (c : list Z) (i : nat) : bool := from_option is_blank true (c !! i).
(** A word starts at a byte that is not blank and is the first or follows a
    blank. *)
Definition word_start (c : list Z) (i : nat) : Prop := byte_blank c i = false ∧ (i = 0%nat ∨ byte_blank c (i - 1) = true).
#[local] Instance word_start_dec c i : Decision (word_start c i) := _.
Definition nlines (c : list Z) : Z := Z.of_nat (length (filter (λ b, b = 10) c)).
Definition nwords (c : list Z) : Z := Z.of_nat (length (filter (word_start c) (seq 0 (length c)))).

Lemma word_start_snoc c b i : (i < length c)%nat → word_start (c ++ [b]) i ↔ word_start c i.
Proof. intros H. unfold word_start, byte_blank. rewrite !lookup_app_l by lia. done. Qed.
Lemma filter_agree {A} (P Q : A → Prop) `{!∀ x, Decision (P x), !∀ x, Decision (Q x)} (l : list A) :
  (∀ x, x ∈ l → P x ↔ Q x) → filter P l = filter Q l.
Proof.
  induction l as [|x l IH]; intros Hpq; [done|]. rewrite !filter_cons, IH by (intros y Hy; apply Hpq; by right).
  assert (P x ↔ Q x) by (apply Hpq; by left). by repeat case_decide; try naive_solver.
Qed.
Lemma nwords_snoc c b : nwords (c ++ [b]) = nwords c + (if negb (is_blank b) && byte_blank c (length c - 1) then 1 else 0).
Proof.
  unfold nwords. rewrite length_app, Nat.add_1_r, seq_S, filter_app, length_app. cbn [Nat.add].
  rewrite (filter_agree (word_start (c ++ [b])) (word_start c)) by (intros i Hi%elem_of_seq; apply word_start_snoc; lia).
  rewrite Nat2Z.inj_add. f_equal. rewrite filter_cons, filter_nil.
  assert (word_start (c ++ [b]) (length c) ↔ negb (is_blank b) && byte_blank c (length c - 1) = true) as Hw.
  { unfold word_start, byte_blank. rewrite lookup_app_r, Nat.sub_diag by lia. cbn [from_option lookup list_lookup].
    rewrite andb_true_iff, negb_true_iff. destruct c as [|x c]; [cbn; naive_solver|]. rewrite lookup_app_l by (cbn; lia).
    cbn [length]. naive_solver lia. }
  case_decide as Hd; destruct (negb _ && _); naive_solver.
Qed.

(** What [wc] has counted after the bytes [c]. *)
Definition counted (c : list Z) : counts :=
  mkCounts (nlines c mod 2 ^ 32) (nwords c mod 2 ^ 32) (Z.of_nat (length c) mod 2 ^ 32) (negb (byte_blank c (length c - 1))).

Lemma wrap_succ n : as_u32 (n mod 2 ^ 32 + 1) = (n + 1) mod 2 ^ 32.
Proof. unfold as_u32. change u32_max with (2 ^ 32). by rewrite Zplus_mod_idemp_l. Qed.

Lemma wc_byte_counted c b : wc_byte (counted c) b = counted (c ++ [b]).
Proof.
  unfold wc_byte, counted. cbn [lines words chars inword]. rewrite nwords_snoc, length_app. cbn [length].
  assert (byte_blank (c ++ [b]) (length c + 1 - 1) = is_blank b) as ->.
  { unfold byte_blank. rewrite lookup_app_r by lia. by replace (length c + 1 - 1 - length c)%nat with 0%nat by lia. }
  assert ((if b =? 10 then as_u32 (nlines c mod 2 ^ 32 + 1) else nlines c mod 2 ^ 32) = nlines (c ++ [b]) mod 2 ^ 32) as ->.
  { unfold nlines. rewrite filter_app, length_app, filter_cons, filter_nil. destruct (Z.eqb_spec b 10); case_decide; try done; cbn [length].
    - rewrite wrap_succ. f_equal. lia.
    - f_equal. lia. }
  rewrite wrap_succ, Nat2Z.inj_add. change (Z.of_nat 1) with 1.
  destruct (is_blank b); cbn [negb andb]; [by rewrite Z.add_0_r|].
  destruct (byte_blank c (length c - 1)); cbn [negb]; [by rewrite wrap_succ|by rewrite Z.add_0_r].
Qed.
Lemma wc_bytes_counted c d : foldl wc_byte (counted c) d = counted (c ++ d).
Proof.
  revert c. induction d as [|b d IH]; intros c; cbn [foldl]; [by rewrite app_nil_r|]. by rewrite wc_byte_counted, IH, <- app_assoc.
Qed.

Lemma wc_loop_spec fuel fd p : ∀ c c0 w, v_open (vw w) !! fd = Some (p, c) → (length c < fuel)%nat →
  wp (wc_loop fuel fd (counted c0)) w (λ r w', r = Some (counted (c0 ++ c)) ∧ vw w' = drained fd p (vw w)).
Proof.
  induction fuel as [|fuel IH]; intros c c0 w Hfd Hf; [lia|]. cbn [wc_loop]. wp_step.
  eapply wp_read; [lia|exact Hfd|]. intros bs c' w1 -> Hl He Hv. rewrite length_app in Hf. cbv beta iota.
  destruct (Z.leb_spec (Z.of_nat (length bs)) 0) as [Hz|Hz].
  - destruct bs; [|cbn in Hz; lia]. assert (c' = []) as -> by (by apply He). cbn [length]. change (Z.of_nat 0 <? 0) with false. cbv iota. wp_step.
    by rewrite !app_nil_r.
  - rewrite Nat2Z.id, firstn_all, wc_bytes_counted. eapply wp_mono; [apply (IH c'); [by rewrite Hv; cbn; rewrite lookup_insert_eq|lia]|].
    intros r w' [-> Hw]. split; [by rewrite <- app_assoc|]. rewrite Hw, Hv. unfold drained, with_open. cbn. by rewrite insert_insert_eq.
Qed.

(** The line [wc] prints for a file. *)
Definition wc_line (name c : list Z) : list Z :=
  decimal (nlines c mod 2 ^ 32) ++ [32] ++ decimal (nwords c mod 2 ^ 32) ++ [32] ++
  decimal (Z.of_nat (length c) mod 2 ^ 32) ++ [32] ++ name ++ [10].

Lemma wc_spec fuel fd p c name w : v_open (vw w) !! fd = Some (p, c) → is_Some (v_out (vw w) !! 1) → (length c < fuel)%nat →
  wp (wc fuel fd name) w (λ f w', f = Returned ∧ vw w' = out1 (wc_line name c) (drained fd p (vw w))).
Proof.
  intros Hfd Ho Hf. unfold wc. wp_step. change (mkCounts 0 0 0 false) with (counted []).
  eapply wp_mono; [by apply (wc_loop_spec fuel fd p c [])|]. intros r w1 [-> H1]. cbv iota. wp_step.
  apply wp_printf1; [by rewrite H1|]. intros w2 H2. wp_step. split; [done|]. rewrite H2, H1. done.
Qed.

Lemma wc_files_spec fuel args cs : ∀ w, files_are (vw w) args cs →
  Forall (λ c, (length c < fuel)%nat) cs → is_Some (v_out (vw w) !! 1) →
  wp (wc_files fuel args) w (λ f w', f = Exited ∧ vw w' = out1 (concat (zip_with wc_line args cs)) (vw w)).
Proof.
  revert cs. induction args as [|p args IH]; intros cs w Hf Hl Ho; cbn [wc_files].
  - wp_step. by rewrite out1_nil.
  - inversion Hf as [|? c ? cs' (st & Hst) Hf']; subst. apply Forall_cons in Hl as [Hl Hl'].
    eapply wp_file; [exact Hst| |].
    + intros fd w1 Hfd Hout. apply wc_spec; [done|by rewrite Hout|done].
    + intros w1 H1. eapply wp_mono; [apply (IH cs'); [by rewrite H1; apply files_are_out|done|by rewrite H1; apply out1_some]|].
      intros f w2 [-> H2]. split; [done|]. rewrite H2, H1, out1_app. done.
Qed.

(** wc counts. For each file it prints the number of newlines, of words
    and of bytes, modulo 2^32, and the name; a word starts at a byte that is
    not blank and is the first or follows a blank, also when the reads divide
    the file in the middle of a word. *)
Theorem wc_counts (prog : list Z) (args cs : list (list Z)) (fuel : nat) (w : W)
    (Ho : is_Some (v_out (vw w) !! 1)) (Hl : Forall (λ c, (length c < fuel)%nat) cs) (Hf : files_are (vw w) args cs) :
  (args ≠ [] → wp (wc_main fuel (prog :: args)) w (λ f w', f = Exited ∧ vw w' = out1 (concat (zip_with wc_line args cs)) (vw w))) ∧
  (∀ p c, v_open (vw w) !! 0 = Some (p, c) → (length c < fuel)%nat →
     wp (wc_main fuel [prog]) w (λ f w', f = Exited ∧ vw w' = out1 (wc_line [] c) (drained 0 p (vw w)))).
Proof.
  split.
  - intros Hne. unfold wc_main. cbn [tail]. destruct args as [|a args]; [done|]. by apply wc_files_spec.
  - intros p c Hfd Hc. unfold wc_main. cbn [tail]. wp_step. eapply wp_mono; [by apply wc_spec|]. intros f w' [_ Hw]. by wp_step.
Qed.

(** ** echo *)

(** The arguments with a blank between them and a newline at the end. *)
Fixpoint echoed (args : list (list Z)) : list Z :=
  match args with
  | [] => []
  | [a] => a ++ [10]
  | a :: args' => a ++ [32] ++ echoed args'
  end.

(** echo prints its arguments, separated by blanks, and a newline if there are
    any. *)
Theorem echo_prints (prog : list Z) (args : list (list Z)) (w : W) : is_Some (v_out (vw w) !! 1) →
  wp (echo_main (prog :: args)) w (λ f w', f = Exited ∧ vw w' = out1 (echoed args) (vw w)).
Proof.
  unfold echo_main. cbn [tail]. revert w. induction args as [|a args IH]; intros w Ho; cbn [echo_args].
  - wp_step. by rewrite out1_nil.
  - wp_step. apply wp_write1; [done|]. intros w1 H1. wp_step. apply wp_write1; [rewrite H1; by apply out1_some|]. intros w2 H2.
    eapply wp_mono; [apply IH; rewrite H2, H1; by apply out1_some, out1_some|]. intros f w' [-> Hw]. split; [done|].
    rewrite Hw, H2, H1, !out1_app. f_equal. destruct args; cbn [echoed]; [by rewrite app_nil_r|by rewrite app_assoc].
Qed.

(** ** ls *)

Lemma last_slash_none base i s : 47 ∉ base → last_slash base i s = s.
Proof.
  revert i s. induction base as [|b base IH]; intros i s Hb; [done|]. apply not_elem_of_cons in Hb as [Hb Hb']. cbn [last_slash].
  rewrite (proj2 (Z.eqb_neq b 47)) by done. by apply IH.
Qed.
Lemma last_slash_app l1 l2 i s : last_slash (l1 ++ l2) i s = last_slash l2 (i + length l1) (last_slash l1 i s).
Proof.
  revert i s. induction l1 as [|b l1 IH]; intros i s; cbn [last_slash app length]; [by rewrite Nat.add_0_r|]. rewrite IH. f_equal. lia.
Qed.

(** The name [ls] prints is the part of the path after the last slash, cut or
    filled with blanks to 14 bytes. *)
Theorem fmtname_last (pre base : list Z) : 47 ∉ base → pre = [] ∨ last pre = Some 47 →
  fmtname (pre ++ base) = take 14 base ++ replicate (14 - length base) 32 ++ [0].
Proof.
  intros Hb Hp. unfold fmtname, DIRSIZ. assert (last_slash (pre ++ base) 0 0 = length pre) as ->.
  { rewrite last_slash_app, last_slash_none by done. destruct Hp as [->|Hp]; [done|].
    apply last_Some in Hp as [l ->]. rewrite last_slash_app, length_app. cbn. lia. }
  cbv zeta. rewrite length_app. replace (length pre + length base - length pre)%nat with (length base) by lia.
  assert ((if (length base <? 14)%nat then length base else 14%nat) = Nat.min 14 (length base)) as -> by (destruct (Nat.ltb_spec (length base) 14); lia).
  assert (take (Nat.min 14 (length base)) base = take 14 base) as E.
  { destruct (decide (length base ≤ 14)%nat); [|by rewrite Nat.min_l by lia]. by rewrite Nat.min_r, firstn_all, take_ge by lia. }
  unfold splice, slice. rewrite drop_app_length, E. cbn [Nat.add]. rewrite length_take, drop_app_le by (rewrite length_replicate; lia).
  rewrite drop_replicate. change (take 0 (replicate 14 32 ++ [0])) with (@nil Z). cbn [app]. do 2 f_equal. f_equal. lia.
Qed.

(** A directory entry of 16 bytes. *)
Definition de_name (de : list Z) : list Z := upto0 (take DIRSIZ (drop 2 de)).
Definition de_used (de : list Z) : bool := negb (le_val (take 2 de) =? 0).
Definition ls_text (path : list Z) (st : stat) : list Z :=
  take DIRSIZ (fmtname path) ++ [32] ++ decimal (st_type st) ++ [32] ++ decimal (st_ino st) ++ [32] ++ decimal (st_size st) ++ [10].
(** The text [ls] prints for an entry of the directory [path]. *)
Definition entry_text (v : view) (path de text : list Z) : Prop :=
  length de = 16%nat ∧
  if de_used de then
    (length path + 1 + length (de_name de) < 512)%nat ∧
    ∃ st c, v_fs v !! (path ++ [47] ++ de_name de) = Some (st, c) ∧ text = ls_text (path ++ [47] ++ de_name de) st
  else text = [].

(** Reads of a file give all the bytes asked for that there are. *)
Definition full_reads : Prop := ∀ fd n w p c, 0 < n → v_open (vw w) !! fd = Some (p, c) → (sys_read fd n w).1.2 = take (Z.to_nat n) c.

Lemma fstat_path_spec p st c w : v_fs (vw w) !! p = Some (st, c) →
  wp (fstat_path p) w (λ r w', r = (0, Some st) ∧ vw w' = vw w).
Proof.
  intros Hp. destruct (open_law p w st c Hp) as (fd & w1 & Eo & Hfd & Hnew & Hv). unfold fstat_path. wp_step.
  eapply wp_eq; [unfold open, call; by rewrite Eo|]. cbv beta. rewrite (proj2 (Z.ltb_ge fd 0)) by lia. wp_step.
  destruct (fstat_law fd w1 p c st c) as (w2 & Es & H2); [by rewrite Hv; cbn; rewrite lookup_insert_eq|by rewrite Hv|].
  eapply wp_eq; [unfold call; by rewrite Es|]. cbv beta iota. wp_step. destruct (close_law fd w2) as (r & w3 & Ec & H3).
  eapply wp_eq; [unfold close, call; by rewrite Ec|]. wp_step. split; [done|]. rewrite H3, H2, Hv. unfold with_open. cbn.
  rewrite delete_insert_id by done. by destruct (vw w).
Qed.

Lemma ls_line_spec p st w (Q : unit → W → Prop) : is_Some (v_out (vw w) !! 1) →
  (∀ w', vw w' = out1 (ls_text p st) (vw w) → Q tt w') → wp (ls_line (fmtname p) st) w Q.
Proof. intros Ho H. by apply wp_printf1. Qed.

Lemma ls_entries_spec (Hfull : full_reads) path fd fuel : ∀ des ts w, v_open (vw w) !! fd = Some (path, concat des) →
  is_Some (v_out (vw w) !! 1) → Forall2 (entry_text (vw w) path) des ts → (length des < fuel)%nat →
  wp (ls_entries fuel path fd) w (λ _ w', vw w' = out1 (concat ts) (drained fd path (vw w))).
Proof.
  induction fuel as [|fuel IH]; intros des ts w Hfd Ho Hd Hf; [lia|]. cbn [ls_entries]. wp_step.
  destruct (read_law fd 16 w path (concat des) ltac:(lia) Hfd) as (bs & c' & w1 & Er & Hc & Hl & He & Hv).
  pose proof (Hfull fd 16 w path (concat des) ltac:(lia) Hfd) as Hbs. rewrite Er in Hbs. cbn [fst snd] in Hbs.
  eapply wp_eq; [unfold read, call; by rewrite Er|]. cbv beta iota.
  inversion Hd as [|de t des' ts' [Hlen Hde] Hd']; subst des ts.
  - cbn [concat] in *. rewrite take_nil in Hbs. subst bs. cbn [length]. change (negb (as_u64 (Z.of_nat 0) =? 16)) with true. cbv iota. wp_step.
    cbn [app] in Hc. subst c'. by rewrite Hv, out1_nil.
  - cbn [concat] in *. change (Z.to_nat 16) with 16%nat in Hbs. rewrite <- Hlen, take_app_length in Hbs. subst bs.
    apply app_inv_head in Hc. subst c'. rewrite Hlen. change (negb (as_u64 (Z.of_nat 16) =? 16)) with false. cbv iota.
    assert (Hfd1 : v_open (vw w1) !! fd = Some (path, concat des')) by (by rewrite Hv; cbn; rewrite lookup_insert_eq).
    assert (Ho1 : is_Some (v_out (vw w1) !! 1)) by (by rewrite Hv). cbn [length] in Hf.
    assert (Hdr : drained fd path (vw w1) = drained fd path (vw w)) by (rewrite Hv; unfold drained, with_open; cbn; by rewrite insert_insert_eq).
    unfold de_used in Hde. destruct (le_val (take 2 de) =? 0); cbn [negb] in Hde.
    + subst t. eapply wp_mono; [apply (IH des' ts'); [done|done|by rewrite Hv|lia]|]. intros ? w' Hw. by rewrite Hw, Hdr.
    + destruct Hde as (Hbound & st & c & Hst & Ht). subst t. fold (de_name de). rewrite (proj2 (Nat.leb_gt _ _)) by lia.
      wp_step. eapply wp_mono; [apply (fstat_path_spec _ st c); by rewrite Hv|]. intros r w2 [-> H2]. cbv beta iota. cbn [Z.ltb Z.compare].
      wp_step. apply ls_line_spec; [by rewrite H2|]. intros w3 H3. rewrite H2 in H3.
      eapply wp_mono; [apply (IH des' ts'); [by rewrite H3|rewrite H3; by apply out1_some|by rewrite H3, Hv|lia]|].
      intros ? w' Hw. rewrite Hw, H3.
      assert (∀ a b v, out1 a (drained fd path (out1 b v)) = out1 (b ++ a) (drained fd path v)) as -> by (intros; by rewrite <- out1_app).
      by rewrite Hdr.
Qed.

(** ls of a directory prints a line for every entry in use, in the order of
    the directory, with the metadata of the file the entry names; of a file it
    prints the one line. The directory is closed again. *)
Theorem ls_lists (Hfull : full_reads) (path : list Z) (st : stat) (c : list Z) (fuel : nat) (w : W) :
  v_fs (vw w) !! path = Some (st, c) → is_Some (v_out (vw w) !! 1) →
  (st_type st = T_FILE → wp (ls fuel path) w (λ _ w', vw w' = out1 (ls_text path st) (vw w))) ∧
  (∀ des ts, st_type st = T_DIR → c = concat des → Forall2 (entry_text (vw w) path) des ts → (length des < fuel)%nat →
     wp (ls fuel path) w (λ _ w', vw w' = out1 (concat ts) (vw w))).
Proof.
  intros Hp Ho. destruct (open_law path w st c Hp) as (fd & w1 & Eo & Hfd & Hnew & Hv).
  destruct (fstat_law fd w1 path c st c) as (w2 & Es & H2); [by rewrite Hv; cbn; rewrite lookup_insert_eq|by rewrite Hv|].
  assert (Hrun : ∀ (m : M W unit) txt, (if st_type st =? T_FILE then ls_line (fmtname path) st else if st_type st =? T_DIR then ls_entries fuel path fd else ret tt) = m →
    wp m w2 (λ _ w', ∃ c', vw w' = out1 txt (with_open (<[fd := c']> (v_open (vw w))) (vw w))) → wp (ls fuel path) w (λ _ w', vw w' = out1 txt (vw w))).
  { intros m txt Hm Hw. unfold ls. wp_step. eapply wp_eq; [unfold open, call; by rewrite Eo|]. cbv beta. rewrite (proj2 (Z.ltb_ge fd 0)) by lia.
    wp_step. eapply wp_eq; [unfold call; by rewrite Es|]. cbv beta iota. cbn [Z.ltb Z.compare]. rewrite Hm. wp_step. eapply wp_mono; [exact Hw|].
    intros _ w3 (c' & H3). wp_step. destruct (close_law fd w3) as (r & w4 & Ec & H4). eapply wp_eq; [unfold close, call; by rewrite Ec|]. wp_step.
    rewrite H4, H3. unfold out1, with_out, with_open. cbn. f_equal. by apply delete_insert_id. }
  split.
  - intros Ht. eapply Hrun; [rewrite Ht; reflexivity|]. cbn [Z.eqb T_FILE Pos.eqb]. apply ls_line_spec; [by rewrite H2, Hv|].
    intros w' Hw. exists (path, c). by rewrite Hw, H2, Hv.
  - intros des ts Ht -> Hd Hf. eapply Hrun; [rewrite Ht; reflexivity|]. change (T_DIR =? T_FILE) with false. change (T_DIR =? T_DIR) with true. cbv iota.
    eapply wp_mono; [apply (ls_entries_spec Hfull path fd fuel des ts); [by rewrite H2, Hv; cbn; rewrite lookup_insert_eq|by rewrite H2, Hv|by rewrite H2, Hv|done]|].
    intros ? w' Hw. exists (path, []). rewrite Hw, H2, Hv. f_equal. unfold drained, with_open. cbn. by rewrite insert_insert_eq.
Qed.

(** ** rm *)

Definition remove (args : list (list Z)) (v : view) : view := mkView (v_open v) (v_out v) (foldr delete (v_fs v) args).

Lemma each_unlink msg rest args (Q : flow → W → Prop) : ∀ w, NoDup args → Forall (λ p, is_Some (v_fs (vw w) !! p)) args →
  (∀ w', vw w' = remove args (vw w) → wp (each sys_unlink msg rest) w' Q) → wp (each sys_unlink msg (args ++ rest)) w Q.
Proof.
  induction args as [|p args IH]; intros w Hnd Hex HQ.
  - apply HQ. by destruct (vw w).
  - apply NoDup_cons in Hnd as [Hp Hnd]. apply Forall_cons in Hex as [Hpx Hex]. cbn [each app]. wp_step.
    destruct (unlink_law p w Hpx) as (w1 & E1 & H1). eapply wp_eq; [unfold call; by rewrite E1|]. cbv beta. change (0 <? 0) with false. cbv iota.
    apply IH; [done| |].
    + rewrite H1. cbn. apply Forall_forall. intros q Hq. rewrite Forall_forall in Hex. rewrite lookup_delete_ne; [by apply Hex|]. by intros ->.
    + intros w' Hw. apply HQ. rewrite Hw, H1. unfold remove. cbn. f_equal. clear. induction args as [|q args IHa]; [done|]. cbn.
      by rewrite IHa, delete_delete.
Qed.

(** rm removes the files it is given, and no other; at the first that does not
    exist it stops with a message, the files before it removed. *)
Theorem rm_removes (prog : list Z) (args : list (list Z)) (w : W) : NoDup args → Forall (λ p, is_Some (v_fs (vw w) !! p)) args →
  (args ≠ [] → wp (rm_main (prog :: args)) w (λ f w', f = Exited ∧ vw w' = remove args (vw w))) ∧
  (∀ x rest, v_fs (vw w) !! x = None → is_Some (v_out (vw w) !! 2) →
     wp (rm_main (prog :: args ++ x :: rest)) w (λ f w', f = Exited ∧ v_fs (vw w') = foldr delete (v_fs (vw w)) args)).
Proof.
  intros Hnd Hex. assert (Hmain : ∀ l, l ≠ [] → rm_main (prog :: l) = each sys_unlink (str "rm: failed to delete" ++ [10]) l) by (by intros []).
  split.
  - intros Hne. rewrite Hmain by done. rewrite <- (app_nil_r args). apply each_unlink; [done..|]. intros w' Hw. cbn [each]. wp_step. by rewrite app_nil_r.
  - intros x rest Hx Ho. rewrite Hmain by (by destruct args). apply each_unlink; [done..|]. intros w1 H1. cbn [each]. wp_step.
    assert (Hx1 : v_fs (vw w1) !! x = None).
    { rewrite H1. cbn. clear -Hx. induction args as [|q args IH]; [done|]. cbn. rewrite lookup_delete_None. auto. }
    destruct (unlink_missing x w1 Hx1) as (r & w2 & E2 & Hr & H2). eapply wp_eq; [unfold call; by rewrite E2|]. cbv beta.
    rewrite (proj2 (Z.ltb_lt r 0)) by lia. unfold printf. cbn [forM]. do 3 wp_step.
    assert (Ho2 : is_Some (v_out (vw w2) !! 2)) by (by rewrite H2, H1). destruct Ho2 as [o Ho2].
    destruct (write_law 2 (str "rm: failed to delete" ++ [10]) w2 o Ho2) as (w3 & E3 & H3). eapply wp_eq; [unfold write, call; by rewrite E3|].
    do 3 wp_step. split; [done|]. rewrite H3. cbn. by rewrite H2, H1.
Qed.

End correct.

(** ** Witnesses: a system of files that delivers at most five bytes per read *)

Definition new_fd (o : gmap Z (list Z * list Z)) : Z := 1 + foldr (λ x m, Z.max x.1 m) 0 (map_to_list o).
Lemma new_fd_fresh o : 0 ≤ new_fd o ∧ o !! new_fd o = None.
Proof.
  unfold new_fd. assert (∀ l : list (Z * (list Z * list Z)), 0 ≤ foldr (λ x m, Z.max x.1 m) 0 l ∧ ∀ x, x ∈ l → x.1 ≤ foldr (λ x m, Z.max x.1 m) 0 l) as Hl.
  { induction l as [|y l [IH1 IH2]]; cbn; [split; [done|by intros x ?%not_elem_of_nil]|]. split; [lia|].
    intros x [->|Hx%IH2]%elem_of_cons; lia. }
  destruct (Hl (map_to_list o)) as [H1 H2]. split; [lia|]. destruct (o !! _) as [x|] eqn:E; [|done].
  apply elem_of_map_to_list, H2 in E. cbn in E. lia.
Qed.

#[local] Instance view_sys : Sys view := {
  sys_read fd n v :=
    match v_open v !! fd with
    | Some (p, c) =>
        let k := Nat.min 5 (Z.to_nat n) in
        ((Z.of_nat (length (take k c)), take k c), with_open (<[fd := (p, drop k c)]> (v_open v)) v)
    | None => ((-1, []), v)
    end;
  sys_write fd bs v :=
    match v_out v !! fd with
    | Some o => (Z.of_nat (length bs), with_out (<[fd := o ++ bs]> (v_out v)) v)
    | None => (-1, v)
    end;
  sys_open p _ v :=
    match v_fs v !! p with
    | Some (_, c) => (new_fd (v_open v), with_open (<[new_fd (v_open v) := (p, c)]> (v_open v)) v)
    | None => (-1, v)
    end;
  sys_close fd v := (0, with_open (delete fd (v_open v)) v);
  sys_fstat fd v :=
    match v_open v !! fd with
    | Some (p, _) => match v_fs v !! p with Some (st, _) => ((0, st), v) | None => ((-1, mkStat 0 0 0 0 0), v) end
    | None => ((-1, mkStat 0 0 0 0 0), v)
    end;
  sys_unlink p v :=
    match v_fs v !! p with Some _ => (0, mkView (v_open v) (v_out v) (delete p (v_fs v))) | None => (-1, v) end;
  sys_mkdir _ v := (-1, v);
  sys_link _ _ v := (-1, v);
  sys_kill _ v := (-1, v);
  sys_mknod _ _ _ v := (-1, v);
  sys_dup _ v := (-1, v);
  sys_fork v := (-1, v);
  sys_wait v := (-1, v);
  sys_exec _ _ v := (-1, v);
}.
#[local, refine] Instance view_files : Files view := { vw := id }.
Proof.
  - intros fd n v p c Hn Hfd. cbn in *. rewrite Hfd. set (k := Nat.min 5 (Z.to_nat n)). exists (take k c), (drop k c), (with_open (<[fd := (p, drop k c)]> (v_open v)) v).
    split_and!; [done|by rewrite take_drop|rewrite length_take; lia| |done].
    intros Hk. destruct c as [|x c]; [done|]. destruct k eqn:Ek; [lia|done].
  - intros fd bs v o Ho. cbn in *. rewrite Ho. eauto.
  - intros p v st c Hp. cbn in *. rewrite Hp. destruct (new_fd_fresh (v_open v)). eauto 10.
  - intros p v Hp. cbn in *. rewrite Hp. exists (-1), v. done.
  - intros fd v. cbn. eauto.
  - intros fd v p c st c0 Hfd Hp. cbn in *. rewrite Hfd, Hp. eauto.
  - intros p v [x Hp]. cbn in *. rewrite Hp. eauto.
  - intros p v Hp. cbn in *. rewrite Hp. exists (-1), v. done.
Defined.

Definition view0 : view :=
  mkView ∅ {[1 := []; 2 := []]} {[str "a" := (mkStat 2 1 2 1 9, str "one two" ++ [10; 120]); str "b" := (mkStat 2 1 3 1 3, str "end")]}.

Lemma view0_files : files_are view0 [str "a"; str "b"] [str "one two" ++ [10; 120]; str "end"].
Proof. repeat constructor; eexists; vm_compute; reflexivity. Qed.

Lemma cat_copies_witness :
  wp (cat_main 100 [str "cat"; str "a"; str "b"]) view0 (λ _ v, v_out v !! 1 = Some (str "one two" ++ [10] ++ str "xend")).
Proof.
  eapply wp_mono; [apply (proj1 (cat_copies (str "cat") [str "a"; str "b"] [str "one two" ++ [10; 120]; str "end"] 100 view0 ltac:(by eexists) ltac:(repeat constructor; vm_compute; lia) view0_files)); done|].
  intros f v [_ Hv]. change (vw v) with v in Hv. rewrite Hv. vm_compute. reflexivity.
Defined.

Lemma wc_counts_witness :
  wp (wc_main 100 [str "wc"; str "a"; str "b"]) view0 (λ _ v, v_out v !! 1 = Some (str "1 3 9 a" ++ [10] ++ str "0 1 3 b" ++ [10])).
Proof.
  eapply wp_mono; [apply (proj1 (wc_counts (str "wc") [str "a"; str "b"] [str "one two" ++ [10; 120]; str "end"] 100 view0 ltac:(by eexists) ltac:(repeat constructor; vm_compute; lia) view0_files)); done|].
  intros f v [_ Hv]. change (vw v) with v in Hv. rewrite Hv. vm_compute. reflexivity.
Defined.

End Uprogs.
