(* ===== verification/Udemo.v ===== *)
(** * The demonstration programs

    user/src: forktest, zombie and stressfs, over the system calls of
    [Uprogs.Sys]. What forktest prints is proved for any system whose process
    table behaves as [Procs] says, with a table of any size. *)

From S2P Require Import Prelude Param Ulib Uprogs.

Module Udemo.
Import Uprogs.

Abbreviation N := 1000 (only parsing).

Section programs.
Context {W : Type} `{!Sys W}.
(** [sleep], which only zombie calls. *)
Variable sys_sleep : Z → W → Z * W.

(** ** forktest *)

(** The loop of forks, [left] before [N] is reached: the number of children, or
    the end of a child. *)
Fixpoint fork_loop (left : nat) (n : Z) : M W (option Z) :=
  match left with
  | O => ret (Some n)
  | S left' =>
      let* pid := call sys_fork in
      if pid <? 0 then ret (Some n)
      else if pid =? 0 then ret None
      else fork_loop left' (n + 1)
  end.
Fixpoint wait_loop (n : nat) : M W flow :=
  match n with
  | O => ret Returned
  | S n' =>
      let* pid := call sys_wait in
      if pid <? 0 then
        printf 1 [str "wait stopped early" ++ [10]] ;;;
        ret Exited
      else wait_loop n'
  end.
(** What follows the loop of forks. *)
Definition after_forks (n : Z) : M W flow :=
  if n =? N then
    printf 1 [str "fork claimed to work N times!" ++ [10]] ;;;
    ret Exited
  else
    let* f := wait_loop (Z.to_nat n) in
    match f with
    | Exited => ret Exited
    | Returned =>
        let* pid := call sys_wait in
        if negb (pid =? -1) then
          printf 1 [str "wait got too many" ++ [10]] ;;;
          ret Exited
        else
          printf 1 [str "fork test OK" ++ [10]] ;;;
          ret Returned
    end.
Definition forktest : M W flow :=
  printf 1 [str "fork test" ++ [10]] ;;;
  let* r := fork_loop (Z.to_nat N) 0 in
  match r with
  | None => ret Exited
  | Some n => after_forks n
  end.
(** [main] exits in either case. *)
Definition forktest_main : M W flow := forktest ;;; ret Exited.

(** ** zombie *)

Definition zombie_main : M W flow :=
  let* pid := call sys_fork in
  (if 0 <? pid then call (sys_sleep 5) ;;; ret tt else ret tt) ;;;
  ret Exited.

(** ** stressfs *)

(** The number of the process: how often it was the child. *)
Fixpoint stress_fork (left : nat) (i : Z) : M W Z :=
  match left with
  | O => ret i
  | S left' =>
      let* pid := call sys_fork in
      if 0 <? pid then ret i else stress_fork left' (i + 1)
  end.
Definition stressfs_main : M W flow :=
  printf 1 [str "stressfs starting" ++ [10]] ;;;
  let data := replicate 512 97 in
  let* i := stress_fork 4 0 in
  printf 1 [str "write "; decimal i; [10]] ;;;
  let path := str "stressfs" ++ [as_u8 (48 + i)] in
  let* fd := open path (Z.lor O_CREATE O_RDWR) in
  if fd <? 0 then
    printf 1 [str "stressfs: open failed" ++ [10]] ;;;
    ret Exited
  else
    forM (seqZ 0 20) (λ _, write fd data ;;; ret tt) ;;;
    close fd ;;;
    printf 1 [str "read" ++ [10]] ;;;
    let* fd := open path O_RDONLY in
    if fd <? 0 then
      printf 1 [str "stressfs: open failed" ++ [10]] ;;;
      ret Exited
    else
      forM (seqZ 0 20) (λ _, read fd 512 ;;; ret tt) ;;;
      close fd ;;;
      call sys_wait ;;;
      ret Exited.

End programs.

(** ** The process table of the calls

    The children of the caller, the processes that can still be made, and what
    it has printed. [fork] returns to the caller with the number of a child, or
    fails when there is no room; [wait] takes a child, and fails without one. *)
Class Procs (W : Type) `{!Sys W} := {
  kids : W → nat;
  room : W → nat;
  out : W → list Z;
  fork_law w k : room w = S k → ∃ pid w', sys_fork w = (pid, w') ∧ 0 < pid ∧ kids w' = S (kids w) ∧ room w' = k ∧ out w' = out w;
  fork_full w : room w = O → ∃ pid w', sys_fork w = (pid, w') ∧ pid < 0 ∧ kids w' = kids w ∧ room w' = O ∧ out w' = out w;
  wait_law w k : kids w = S k → ∃ pid w', sys_wait w = (pid, w') ∧ 0 < pid ∧ kids w' = k ∧ room w' = S (room w) ∧ out w' = out w;
  wait_none w : kids w = O → ∃ w', sys_wait w = (-1, w') ∧ kids w' = O ∧ room w' = room w ∧ out w' = out w;
  print_law bs w : ∃ r w', sys_write 1 bs w = (r, w') ∧ kids w' = kids w ∧ room w' = room w ∧ out w' = out w ++ bs;
}.

Section correct.
Context {W : Type} `{!Sys W} `{!Procs W}.

Definition state (w : W) (k r : nat) (o : list Z) : Prop := kids w = k ∧ room w = r ∧ out w = o.

Lemma wp_print bs w k r o (Q : unit → W → Prop) : state w k r o → (∀ w', state w' k r (o ++ bs) → Q tt w') → wp (printf 1 [bs]) w Q.
Proof.
  intros (<- & <- & <-) H. destruct (print_law bs w) as (x & w' & E & ?). unfold printf. cbn [forM]. do 2 wp_step.
  eapply wp_eq; [unfold write, call; by rewrite E|]. cbv beta. wp_step. wp_step. apply H. naive_solver.
Qed.

(** The loop of forks stops when there is no more room, or at its limit. *)
Lemma fork_loop_spec left : ∀ n w k r o, state w k r o →
  wp (fork_loop left n) w (λ x w', x = Some (n + Z.of_nat (Nat.min left r)) ∧ state w' (k + Nat.min left r) (r - left) o).
Proof.
  induction left as [|left IH]; intros n w k r o Hs; cbn [fork_loop].
  { wp_step. destruct r; rewrite ?Nat.add_0_r, ?Z.add_0_r; done. }
  destruct r as [|r]; wp_step; destruct Hs as (Hk & Hr & Ho).
  - destruct (fork_full w Hr) as (pid & w' & E & Hp & ?). eapply wp_eq; [unfold call; by rewrite E|]. cbv beta.
    rewrite (proj2 (Z.ltb_lt pid 0)) by done. wp_step. rewrite Nat.min_0_r, Nat.add_0_r, Z.add_0_r. split; [done|]. unfold state. naive_solver congruence.
  - destruct (fork_law w r Hr) as (pid & w' & E & Hp & Hk' & Hr' & Ho'). eapply wp_eq; [unfold call; by rewrite E|]. cbv beta.
    rewrite (proj2 (Z.ltb_ge pid 0)), (proj2 (Z.eqb_neq pid 0)) by lia.
    eapply wp_mono; [apply (IH (n + 1) w' (S k) r o); unfold state; split_and!; congruence|]. cbn beta.
    intros x w2 [-> Hs]. rewrite <- Nat.succ_min_distr. split; [f_equal; lia|].
    replace (k + S (Nat.min left r))%nat with (S k + Nat.min left r)%nat by lia. done.
Qed.

Lemma wait_loop_spec n : ∀ w k r o, state w (n + k) r o → wp (wait_loop n) w (λ f w', f = Returned ∧ state w' k (r + n) o).
Proof.
  induction n as [|n IH]; intros w k r o Hs; cbn [wait_loop]. { wp_step. by rewrite Nat.add_0_r. }
  destruct Hs as (Hk & Hr & Ho). wp_step. destruct (wait_law w (n + k) Hk) as (pid & w' & E & Hp & Hk' & Hr' & Ho').
  eapply wp_eq; [unfold call; by rewrite E|]. cbv beta. rewrite (proj2 (Z.ltb_ge pid 0)) by lia.
  eapply wp_mono; [apply (IH w' k (S r) o); split_and!; (done || congruence)|].
  intros f w2 [-> Hs]. split; [done|]. by rewrite <- Nat.add_succ_comm.
Qed.

(** forktest passes on every system with room for fewer than a thousand
    processes. It fills the table, waits for exactly the children it made, finds
    none left and says so, and the table has its room back; with room for a
    thousand or more it reports that fork never failed. *)
Theorem forktest_fills_table (w : W) (r : nat) (o : list Z) (Hs : state w 0 r o) :
  ((r < 1000)%nat → wp forktest_main w (λ _ w', state w' 0 r (o ++ str "fork test" ++ [10] ++ str "fork test OK" ++ [10]))) ∧
  ((1000 ≤ r)%nat → wp forktest_main w (λ _ w',
     state w' 1000 (r - 1000) (o ++ str "fork test" ++ [10] ++ str "fork claimed to work N times!" ++ [10]))).
Proof.
  assert (Hpre : ∀ (Q : flow → W → Prop), (∀ w', state w' (Nat.min 1000 r) (r - 1000) (o ++ str "fork test" ++ [10]) →
    wp (after_forks (0 + Z.of_nat (Nat.min 1000 r))) w' Q) → wp forktest w Q).
  { intros Q H. unfold forktest. wp_step. apply (wp_print _ w 0 r o); [done|]. intros w1 H1. wp_step.
    eapply wp_mono; [apply (fork_loop_spec (Z.to_nat N) 0 w1 0 r _ H1)|]. intros x w2 [-> H2]. by apply H. }
  split; intros Hr; unfold forktest_main; wp_step; apply Hpre; intros w1 H1; unfold after_forks.
  - rewrite Nat.min_r in * by lia. replace (r - 1000)%nat with O in H1 by lia. rewrite (proj2 (Z.eqb_neq _ _)) by lia. wp_step.
    replace (Z.to_nat (0 + Z.of_nat r)) with r by lia.
    eapply wp_mono; [apply (wait_loop_spec r w1 0 0); by rewrite Nat.add_0_r|]. intros f w2 [-> (Hk & Hr2 & Ho)]. wp_step.
    destruct (wait_none w2 Hk) as (w3 & E & Hk3 & Hr3 & Ho3). eapply wp_eq; [unfold call; by rewrite E|]. cbv beta. cbn [Z.eqb negb Pos.eqb].
    wp_step. apply (wp_print _ w3 0 r (o ++ str "fork test" ++ [10])); [unfold state; split_and!; (congruence || lia)|].
    intros w4 H4. do 2 wp_step. by rewrite <- !app_assoc in H4.
  - rewrite Nat.min_l in * by lia. change (0 + Z.of_nat 1000 =? N) with true. cbv iota. wp_step.
    apply (wp_print _ w1 _ _ _ _ H1). intros w2 H2. do 2 wp_step. by rewrite <- !app_assoc in H2.
Qed.

End correct.

(** ** Witness: the 64 slots of the kernel, of which three are taken *)

#[local] Instance table_sys : Sys (nat * nat * list Z) := {
  sys_read _ _ w := ((-1, []), w);
  sys_write _ bs w := (Z.of_nat (length bs), (w.1, w.2 ++ bs));
  sys_open _ _ w := (-1, w);
  sys_close _ w := (-1, w);
  sys_fstat _ w := ((-1, mkStat 0 0 0 0 0), w);
  sys_unlink _ w := (-1, w);
  sys_mkdir _ w := (-1, w);
  sys_link _ _ w := (-1, w);
  sys_kill _ w := (-1, w);
  sys_mknod _ _ _ w := (-1, w);
  sys_dup _ w := (-1, w);
  sys_fork w := match w.1.2 with O => (-1, w) | S r => (7, (S w.1.1, r, w.2)) end;
  sys_wait w := match w.1.1 with O => (-1, w) | S k => (7, (k, S w.1.2, w.2)) end;
  sys_exec _ _ w := (-1, w);
}.
#[local, refine] Instance table_procs : Procs (nat * nat * list Z) := { kids w := w.1.1; room w := w.1.2; out w := w.2 }.
Proof.
  - intros [[k0 r0] o] k E. cbn in *. subst r0. by exists 7, (S k0, k, o).
  - intros [[k0 r0] o] E. cbn in *. subst r0. by exists (-1), (k0, 0%nat, o).
  - intros [[k0 r0] o] k E. cbn in *. subst k0. by exists 7, (k, S r0, o).
  - intros [[k0 r0] o] E. cbn in *. subst k0. by exists (0%nat, r0, o).
  - intros bs [[k0 r0] o]. by exists (Z.of_nat (length bs)), (k0, r0, o ++ bs).
Defined.

Lemma forktest_fills_table_witness :
  wp forktest_main (0%nat, 61%nat, []) (λ _ w, w = (0%nat, 61%nat, str "fork test" ++ [10] ++ str "fork test OK" ++ [10])).
Proof.
  eapply wp_mono; [apply (proj1 (forktest_fills_table (0%nat, 61%nat, []) 61 [] ltac:(done))); lia|].
  intros f [[k r] o] (Hk & Hr & Ho). cbn in *. by subst.
Defined.

End Udemo.
